(** * Tactical decision core of the codinggame combat bot: model and verification

    Shallow embedding of the two C++ programs of the repository:

    - the primary engine ([GameMechanics], [SmartGameAI], its nested
      [SmitsimaxSearch], and the turn loop of its [main]);
    - the merged Smitsimax + tactical variant of
      [game/reference_integration.cpp] (module [Merged]).

    Conventions.
    - C++ [int] is modelled by [Z]; game quantities (coordinates, wetness,
      power, cooldowns) are far from the limits of a 32-bit integer.  Where
      the combat model adds two arbitrary ints ([calculate_kill_probability])
      the sum is written with its wrap-around ([int_add]); the conversion to
      [int] of a double beyond the range of [int] is not modelled.
    - C++ [double] is modelled by exact rationals [Q]; rounding in the last
      place is not modelled.  The doubles of the modelled code are integers
      or products of integers with 0.25, 0.01 and the like, compared with
      integer thresholds or with each other.  Where the source needs [sqrt]
      or [pow] the floating-point sub-term is taken as a function argument.
    - The tree statistics of [smitsimax_search] depend on the clock; the
      search is represented by its result for each way a run can end
      ([SearchOutcome]).
    - [(int) d] on a double is truncation toward zero ([double_to_int]).
    - [std::string] is [string]; [std::to_string] on an int is decimal printing.
    - [vector] is [list]; [unordered_map]/[map] keyed by int is [gmap Z];
      [set<pair<int,int>>] is [gset (Z * Z)].
    - A computation that may leave the defined behaviour of C++ (an
      out-of-range [operator[]]) or throw ([unordered_map::at]) returns
      [option]; each definition says what [None] stands for.
    - Diagnostic output on [cerr] and the [tactical_reasoning] text of a
      decision do not influence any decision and are left out. *)

From stdpp Require Import base option list sorting gmap strings.
From Stdlib Require Import ZArith QArith Qround Lia Lqa Ascii DecimalString.

Local Open Scope Z_scope.

(** ** Numeric helpers *)

Definition INT_MAX : Z := 2147483647.
Definition INT_MIN : Z := -2147483648.

(** An [int] holds the values from [INT_MIN] to [INT_MAX]. *)
Definition int_range (z : Z) : Prop := INT_MIN <= z <= INT_MAX.

(** [a + b] on ints.  A sum outside the range of [int] is undefined in C++;
    on the two's-complement targets the program is built for it wraps around,
    which is what is written here. *)
Definition int_wrap (z : Z) : Z := (z - INT_MIN) mod 4294967296 + INT_MIN.
Definition int_add (a b : Z) : Z := int_wrap (a + b).

(** [(int) d]: conversion of a double to int truncates toward zero. *)
Definition double_to_int (d : Q) : Z :=
  if Qle_bool 0 d then Qfloor d else Qceiling d.

(** [a / b] on ints truncates toward zero. *)
Definition int_div (a b : Z) : Z := Z.quot a b.

(** [a < b] and [a > b] on doubles. *)
Definition Qltb (a b : Q) : bool := negb (Qle_bool b a).
Definition Qgtb (a b : Q) : bool := Qltb b a.

(** A double division whose divisor is an int; [None] stands for a zero
    divisor. *)
Definition checked_div (a : Q) (b : Z) : option Q :=
  if b =? 0 then None else Some (a / inject_Z b)%Q.

(** [std::to_string(int)]. *)
Definition to_string (z : Z) : string := NilZero.string_of_int (Z.to_int z).

(** [v[i][j]] on a [vector<vector<int>>] indexed by ints; [None] stands for
    an access outside the vector (undefined behaviour). *)
Definition grid_at (tile_map : list (list Z)) (i j : Z) : option Z :=
  if (i <? 0) || (j <? 0) then None
  else row ← tile_map !! Z.to_nat i; row !! Z.to_nat j.

(** [tile_map[i].size()]; [None] when row [i] does not exist. *)
Definition row_size (tile_map : list (list Z)) (i : Z) : option Z :=
  if i <? 0 then None
  else row ← tile_map !! Z.to_nat i; Some (Z.of_nat (length row)).

(** ** Constants of the primary engine *)

Definition WETNESS_AFFECTS_DISTANCE : bool := true.
Definition COLLISIONS : bool := true.
Definition THROW_DAMAGE : Z := 30.
Definition THROW_DISTANCE_MAX : Z := 4.

Inductive GameAgentClass := GUNNER | SNIPER | BOMBER | ASSAULT | BERSERKER.

Definition GameAgentClass_eqb (a b : GameAgentClass) : bool :=
  match a, b with
  | GUNNER, GUNNER | SNIPER, SNIPER | BOMBER, BOMBER
  | ASSAULT, ASSAULT | BERSERKER, BERSERKER => true
  | _, _ => false
  end.

(** ** struct GameMechanics *)

Module GameMechanics.

Definition calculate_exact_shooting_damage
    (soaking_power optimal_range distance : Z) : Z :=
  if (distance >? optimal_range) || (distance =? 0) then 0
  else
    let base_damage := soaking_power in
    let base_damage :=
      if distance >? 1 then
        let penalty := ((1 # 4) * inject_Z (distance - 1))%Q in
        double_to_int (inject_Z base_damage * (1 - penalty))%Q
      else base_damage in
    Z.max 0 base_damage.

Definition calculate_exact_bomb_damage (splash_distance : Z) (is_hunkered : bool) : Z :=
  if splash_distance >? 1 then 0
  else
    let damage := THROW_DAMAGE in
    let damage := if is_hunkered then int_div damage 2 else damage in
    damage.

Definition calculate_movement_cost (wetness : Z) : Z :=
  if negb WETNESS_AFFECTS_DISTANCE then 1
  else
    let wetness_factor := (1 + inject_Z wetness * (1 # 100))%Q in
    Qceiling wetness_factor.

Definition is_valid_movement_position (x y board_width board_height : Z)
    (tile_map : list (list Z)) (occupied_positions : list (Z * Z)) : bool :=
  if (x <? 0) || (x >=? board_width) || (y <? 0) || (y >=? board_height) then false
  else
    negb (existsb (fun pos => (pos.1 =? x) && (pos.2 =? y)) occupied_positions).

(** The column guard reads the size of row 0, the access reads row [y]. *)
Definition provides_cover (x y board_width board_height : Z)
    (tile_map : list (list Z)) : option bool :=
  if (x <? 0) || (x >=? board_width) || (y <? 0) || (y >=? board_height) then Some false
  else if (y >=? 0) && (y <? Z.of_nat (length tile_map)) && (x >=? 0) then
    row0 ← row_size tile_map 0;
    if x <? row0 then
      cell ← grid_at tile_map y x; Some (cell =? 1)
    else Some false
  else Some false.

Definition calculate_kill_probability (current_wetness damage : Z) : Q :=
  if int_add current_wetness damage >=? 100 then 1%Q
  else (inject_Z (int_add current_wetness damage) / 100)%Q.

Definition calculate_tactical_advantage
    (my_agents_alive enemy_agents_alive my_total_health enemy_total_health : Z)
    : option Q :=
  agent_ratio ← checked_div (inject_Z my_agents_alive) (Z.max 1 enemy_agents_alive);
  health_ratio ← checked_div (inject_Z my_total_health) (Z.max 1 enemy_total_health);
  Some (agent_ratio * (6 # 10) + health_ratio * (4 # 10))%Q.

End GameMechanics.

(** ** Data model (the structs of both programs have the same fields) *)

Module AgentData.
Record t := mk {
  agent_id : Z;
  player : Z;
  shoot_cooldown : Z;
  optimal_range : Z;
  soaking_power : Z;
  splash_bombs : Z;
  agent_class : GameAgentClass
}.
End AgentData.

Module AgentState.
Record t := mk {
  agent_id : Z;
  x : Z;
  y : Z;
  cooldown : Z;
  splash_bombs : Z;
  wetness : Z
}.
Definition is_alive (a : t) : bool := wetness a <? 100.
Definition get_health (a : t) : Z := 100 - wetness a.
Definition set_pos (nx ny : Z) (a : t) : t :=
  mk (agent_id a) nx ny (cooldown a) (splash_bombs a) (wetness a).
Definition set_cooldown (c : Z) (a : t) : t :=
  mk (agent_id a) (x a) (y a) c (splash_bombs a) (wetness a).
Definition set_splash_bombs (b : Z) (a : t) : t :=
  mk (agent_id a) (x a) (y a) (cooldown a) b (wetness a).
Definition set_wetness (w : Z) (a : t) : t :=
  mk (agent_id a) (x a) (y a) (cooldown a) (splash_bombs a) w.
End AgentState.

Module TacticalDecision.
Record t := mk {
  action_type : string;
  target_x : Z;
  target_y : Z;
  target_agent_id : Z;
  bomb_x : Z;
  bomb_y : Z;
  expected_value : Q;
  kill_probability : Q;
  expected_damage : Z
}.
(** The default member initialisers of the struct. *)
Definition default : t := mk "" (-1) (-1) (-1) (-1) (-1) 0 0 0.
(** A decision that only sets [action_type] and [expected_value]. *)
Definition plain (type : string) (value : Q) : t :=
  mk type (-1) (-1) (-1) (-1) (-1) value 0 0.
Definition set_action_type (s : string) (d : t) : t :=
  mk s (target_x d) (target_y d) (target_agent_id d) (bomb_x d) (bomb_y d)
     (expected_value d) (kill_probability d) (expected_damage d).
Definition set_target (tx ty : Z) (d : t) : t :=
  mk (action_type d) tx ty (target_agent_id d) (bomb_x d) (bomb_y d)
     (expected_value d) (kill_probability d) (expected_damage d).
Definition set_expected_value (v : Q) (d : t) : t :=
  mk (action_type d) (target_x d) (target_y d) (target_agent_id d) (bomb_x d) (bomb_y d)
     v (kill_probability d) (expected_damage d).
End TacticalDecision.

(** Monadic left fold: a loop whose body may fail. *)
Fixpoint fold_leftM {A B : Type} (f : B -> A -> option B) (l : list A) (b : B)
    : option B :=
  match l with
  | [] => Some b
  | a :: l' => b' ← f b a; fold_leftM f l' b'
  end.

(** [abs(x1 - x2) + abs(y1 - y2)], written inline throughout the primary engine
    and as [manhattan_distance] in the merged variant. *)
Definition manhattan_distance (x1 y1 x2 y2 : Z) : Z :=
  Z.abs (x1 - x2) + Z.abs (y1 - y2).

(** ** struct SmartGameAI *)

Module SmartGameAI.

Record t := mk {
  all_agents_data : gmap Z AgentData.t;
  my_agent_ids : list Z;
  enemy_agent_ids : list Z;
  board_width : Z;
  board_height : Z;
  tile_map : list (list Z)
}.

Definition determine_agent_class (data : AgentData.t) : GameAgentClass :=
  if (AgentData.optimal_range data =? 6) && (AgentData.soaking_power data =? 24) then SNIPER
  else if (AgentData.optimal_range data =? 2) && (AgentData.splash_bombs data >=? 3) then BOMBER
  else if (AgentData.optimal_range data =? 2) && (AgentData.soaking_power data =? 32) then BERSERKER
  else if (AgentData.optimal_range data =? 4) && (AgentData.splash_bombs data >=? 2) then ASSAULT
  else GUNNER.

(** [all_agents_data.at(id)]; [None] stands for [std::out_of_range]. *)
Definition data_at (ai : t) (id : Z) : option AgentData.t :=
  all_agents_data ai !! id.

(** The positions that block a move: other living allies, living enemies. *)
Definition occupied_positions (agent : AgentState.t)
    (enemies allies : list AgentState.t) : list (Z * Z) :=
  map (fun a => (AgentState.x a, AgentState.y a))
      (filter (fun ally => negb (AgentState.agent_id ally =? AgentState.agent_id agent)
                           && AgentState.is_alive ally = true) allies)
  ++ map (fun a => (AgentState.x a, AgentState.y a))
         (filter (fun enemy => AgentState.is_alive enemy = true) enemies).

(** The nearest living enemy, first one on ties ([distance < min_distance]). *)
Definition closest_enemy (agent : AgentState.t) (enemies : list AgentState.t)
    : option AgentState.t * Z :=
  fold_left
    (fun (acc : option AgentState.t * Z) enemy =>
       if negb (AgentState.is_alive enemy) then acc
       else
         let distance := Z.abs (AgentState.x agent - AgentState.x enemy)
                         + Z.abs (AgentState.y agent - AgentState.y enemy) in
         if distance <? acc.2 then (Some enemy, distance) else acc)
    enemies (None, INT_MAX).

(** The cover cell types around the target, in the order of the two nested
    loops ([dx] outer, [dy] inner, the centre skipped). *)
Definition cover_offsets : list (Z * Z) :=
  [(-1, -1); (-1, 0); (-1, 1); (0, -1); (0, 1); (1, -1); (1, 0); (1, 1)].

Definition calculate_cover_protection (ai : t) (shooter target : AgentState.t) : Q :=
  let hit :=
    find
      (fun '(cover_x, cover_y, cover_type) =>
         ((cover_type =? 1) || (cover_type =? 2))
         && (((cover_x =? AgentState.x target + 1)
                && (AgentState.x shooter <? AgentState.x target))
             || ((cover_x =? AgentState.x target - 1)
                   && (AgentState.x shooter >? AgentState.x target))
             || ((cover_y =? AgentState.y target + 1)
                   && (AgentState.y shooter <? AgentState.y target))
             || ((cover_y =? AgentState.y target - 1)
                   && (AgentState.y shooter >? AgentState.y target))))
      (omap
         (fun '(dx, dy) =>
            let cover_x := AgentState.x target + dx in
            let cover_y := AgentState.y target + dy in
            if (cover_x >=? 0) && (cover_x <? board_width ai)
               && (cover_y >=? 0) && (cover_y <? board_height ai) then
              let cover_type :=
                if (cover_y <? Z.of_nat (length (tile_map ai)))
                   && (cover_x <? default 0 (row_size (tile_map ai) cover_y))
                then default 0 (grid_at (tile_map ai) cover_y cover_x)
                else 0 in
              Some (cover_x, cover_y, cover_type)
            else None)
         cover_offsets) in
  match hit with
  | Some (_, _, cover_type) => if cover_type =? 1 then (1 # 2)%Q else (1 # 4)%Q
  | None => 1%Q
  end.

Definition find_best_shooting_target (ai : t) (agent : AgentState.t)
    (enemies : list AgentState.t) : option TacticalDecision.t :=
  let best_shot := TacticalDecision.plain "HUNKER_DOWN" 0 in
  if (AgentState.cooldown agent >? 0) || (length enemies =? 0)%nat then Some best_shot
  else
    data ← data_at ai (AgentState.agent_id agent);
    Some (fold_left
      (fun best_shot enemy =>
         if negb (AgentState.is_alive enemy) then best_shot
         else
           let distance := Z.abs (AgentState.x agent - AgentState.x enemy)
                           + Z.abs (AgentState.y agent - AgentState.y enemy) in
           if distance >? AgentData.optimal_range data * 2 then best_shot
           else
             let base_damage := AgentData.soaking_power data in
             let base_damage :=
               if distance >? AgentData.optimal_range data
               then int_div base_damage 2 else base_damage in
             let cover_multiplier := calculate_cover_protection ai agent enemy in
             let final_damage := double_to_int (inject_Z base_damage * cover_multiplier)%Q in
             if final_damage >? 0 then
               let expected_value := (inject_Z final_damage * 150)%Q in
               let expected_value :=
                 if AgentState.wetness enemy + final_damage >=? 100
                 then (expected_value + 8000)%Q
                 else (expected_value
                       + inject_Z (AgentState.wetness enemy + final_damage) * 80)%Q in
               let expected_value :=
                 if AgentState.wetness enemy >? 50
                 then (expected_value * (3 # 2))%Q else expected_value in
               let expected_value :=
                 if AgentState.wetness enemy >? 80
                 then (expected_value * 2)%Q else expected_value in
               if Qgtb expected_value (TacticalDecision.expected_value best_shot) then
                 TacticalDecision.mk "SHOOT" (-1) (-1) (AgentState.agent_id enemy) (-1) (-1)
                   expected_value (TacticalDecision.kill_probability best_shot) final_damage
               else best_shot
             else best_shot)
      enemies best_shot).

Definition calculate_total_splash_damage_clean (enemies : list AgentState.t)
    (bomb_x bomb_y : Z) : Z :=
  let total_damage :=
    fold_left
      (fun total_damage enemy =>
         if negb (AgentState.is_alive enemy) then total_damage
         else if Z.abs (bomb_x - AgentState.x enemy)
                 + Z.abs (bomb_y - AgentState.y enemy) <=? 1
              then total_damage + 30 else total_damage)
      enemies 0 in
  Z.max 0 total_damage.

Definition count_enemies_in_splash_clean (enemies : list AgentState.t)
    (bomb_x bomb_y : Z) : Z :=
  fold_left
    (fun count enemy =>
       if negb (AgentState.is_alive enemy) then count
       else if Z.abs (bomb_x - AgentState.x enemy)
               + Z.abs (bomb_y - AgentState.y enemy) <=? 1
            then count + 1 else count)
    enemies 0.

(** The 3x3 footprint around a target, [dx] outer and [dy] inner. *)
Definition footprint : list (Z * Z) :=
  [(-1, -1); (-1, 0); (-1, 1); (0, -1); (0, 0); (0, 1); (1, -1); (1, 0); (1, 1)].

(** The friendly-fire test of the bombing generator. *)
Definition hits_friendly (agent : AgentState.t) (allies : list AgentState.t)
    (bomb_x bomb_y : Z) : bool :=
  existsb
    (fun ally =>
       negb (AgentState.agent_id ally =? AgentState.agent_id agent)
       && AgentState.is_alive ally
       && (Z.abs (bomb_x - AgentState.x ally)
           + Z.abs (bomb_y - AgentState.y ally) <=? 1))
    allies.

Definition find_best_bombing_target_with_allies (ai : t) (agent : AgentState.t)
    (enemies allies : list AgentState.t) : TacticalDecision.t :=
  let best_bomb := TacticalDecision.plain "HUNKER_DOWN" 0 in
  if (AgentState.cooldown agent >? 0) || (AgentState.splash_bombs agent <=? 0)
  then best_bomb
  else
    let '(best_x, best_y, best_damage) :=
      fold_left
        (fun (best : Z * Z * Z) enemy =>
           if negb (AgentState.is_alive enemy) then best
           else
             let distance_to_enemy :=
               Z.abs (AgentState.x agent - AgentState.x enemy)
               + Z.abs (AgentState.y agent - AgentState.y enemy) in
             if distance_to_enemy <=? THROW_DISTANCE_MAX then
               fold_left
                 (fun (best : Z * Z * Z) '(dx, dy) =>
                    let bomb_x := AgentState.x enemy + dx in
                    let bomb_y := AgentState.y enemy + dy in
                    if (bomb_x <? 0) || (bomb_x >=? board_width ai)
                       || (bomb_y <? 0) || (bomb_y >=? board_height ai) then best
                    else
                      let throw_distance :=
                        Z.abs (AgentState.x agent - bomb_x)
                        + Z.abs (AgentState.y agent - bomb_y) in
                      if throw_distance >? THROW_DISTANCE_MAX then best
                      else if hits_friendly agent allies bomb_x bomb_y then best
                      else
                        let total_damage :=
                          calculate_total_splash_damage_clean enemies bomb_x bomb_y in
                        if total_damage >? best.2 then (bomb_x, bomb_y, total_damage)
                        else best)
                 footprint best
             else best)
        enemies (-1, -1, 0) in
    if negb (best_x =? -1) && negb (best_y =? -1) && (best_damage >? 0) then
      let expected_value := (inject_Z best_damage * 20)%Q in
      let enemies_hit := count_enemies_in_splash_clean enemies best_x best_y in
      let expected_value :=
        if enemies_hit >? 1 then (expected_value + inject_Z enemies_hit * 500)%Q
        else expected_value in
      TacticalDecision.mk "THROW" best_x best_y (-1) (-1) (-1)
        expected_value 0 best_damage
    else best_bomb.

Definition find_best_bombing_target (ai : t) (agent : AgentState.t)
    (enemies : list AgentState.t) : TacticalDecision.t :=
  find_best_bombing_target_with_allies ai agent enemies [].

(** The read of [tile_map[ny][nx]] behind the guard
    [ny >= 0 && ny < tile_map.size() && nx >= 0 && nx < tile_map[0].size()];
    [Some None] when the guard fails, [None] when the guarded access leaves
    the vector. *)
Definition guarded_tile (ai : t) (nx ny : Z) : option (option Z) :=
  if (ny >=? 0) && (ny <? Z.of_nat (length (tile_map ai))) && (nx >=? 0) then
    row0 ← row_size (tile_map ai) 0;
    if nx <? row0 then tile_type ← grid_at (tile_map ai) ny nx; Some (Some tile_type)
    else Some None
  else Some None.

Definition range5 : list Z := [-2; -1; 0; 1; 2].
Definition range3 : list Z := [-1; 0; 1].

(** The eight directions of [find_best_compound_action] and
    [generate_random_moves]. *)
Definition ring_offsets : list (Z * Z) :=
  [(1, 0); (1, 1); (0, 1); (-1, 1); (-1, 0); (-1, -1); (0, -1); (1, -1)].

(** The eight directions of [evaluate_tactical_movement]. *)
Definition cross_offsets : list (Z * Z) :=
  [(-1, 0); (1, 0); (0, -1); (0, 1); (-1, -1); (-1, 1); (1, -1); (1, 1)].

(** First phase of [find_best_compound_action]: tiles within two steps that
    bring the agent closer to the nearest enemy, open tiles first. *)
Definition compound_priorities_near (ai : t) (agent : AgentState.t)
    (occupied : list (Z * Z)) (target_x target_y min_distance : Z)
    : option (list (Z * Z)) :=
  fold_leftM
    (fun (movement_priorities : list (Z * Z)) '(dx, dy) =>
       if (dx =? 0) && (dy =? 0) then Some movement_priorities
       else
         let nx := AgentState.x agent + dx in
         let ny := AgentState.y agent + dy in
         if (nx <? 0) || (nx >=? board_width ai) || (ny <? 0) || (ny >=? board_height ai)
         then Some movement_priorities
         else if negb (GameMechanics.is_valid_movement_position nx ny
                         (board_width ai) (board_height ai) (tile_map ai) occupied)
         then Some movement_priorities
         else
           let new_distance := Z.abs (nx - target_x) + Z.abs (ny - target_y) in
           if new_distance <? min_distance then
             tile ← guarded_tile ai nx ny;
             let prefer_this_tile :=
               match tile with Some tile_type => negb (tile_type =? 1) | None => true end in
             if prefer_this_tile then Some ((nx, ny) :: movement_priorities)
             else Some (movement_priorities ++ [(nx, ny)])
           else Some movement_priorities)
    (dx ← range5; dy ← range5; [(dx, dy)]) [].

(** Second phase, used when the first one found nothing: the adjacent tiles. *)
Definition compound_priorities_ring (ai : t) (agent : AgentState.t)
    (occupied : list (Z * Z)) : option (list (Z * Z)) :=
  fold_leftM
    (fun (movement_priorities : list (Z * Z)) '(dx, dy) =>
       let nx := AgentState.x agent + dx in
       let ny := AgentState.y agent + dy in
       if (nx >=? 0) && (nx <? board_width ai) && (ny >=? 0) && (ny <? board_height ai) then
         if GameMechanics.is_valid_movement_position nx ny
              (board_width ai) (board_height ai) (tile_map ai) occupied then
           tile ← guarded_tile ai nx ny;
           match tile with
           | Some tile_type =>
               if tile_type =? 0 then Some ((nx, ny) :: movement_priorities)
               else Some (movement_priorities ++ [(nx, ny)])
           | None => Some (movement_priorities ++ [(nx, ny)])
           end
         else Some movement_priorities
       else Some movement_priorities)
    ring_offsets [].

(** The move-then-shoot candidates of one destination. *)
Definition compound_shoot (agent : AgentState.t) (data : AgentData.t)
    (enemies : list AgentState.t) (nx ny : Z) (best_compound : TacticalDecision.t)
    : TacticalDecision.t :=
  fold_left
    (fun best_compound enemy =>
       if negb (AgentState.is_alive enemy) then best_compound
       else
         let distance := Z.abs (nx - AgentState.x enemy) + Z.abs (ny - AgentState.y enemy) in
         if distance <=? AgentData.optimal_range data then
           let base_damage := AgentData.soaking_power data in
           if base_damage >? 0 then
             let expected_value := (inject_Z base_damage * 250)%Q in
             let expected_value :=
               if AgentState.wetness enemy + base_damage >=? 100
               then (expected_value + 15000)%Q
               else (expected_value
                     + inject_Z (AgentState.wetness enemy + base_damage) * 150)%Q in
             let old_distance := Z.abs (AgentState.x agent - AgentState.x enemy)
                                 + Z.abs (AgentState.y agent - AgentState.y enemy) in
             let expected_value :=
               if distance <? old_distance then (expected_value + 2000)%Q
               else expected_value in
             if Qgtb expected_value (TacticalDecision.expected_value best_compound) then
               TacticalDecision.mk "MOVE_SHOOT" nx ny (AgentState.agent_id enemy)
                 (TacticalDecision.bomb_x best_compound)
                 (TacticalDecision.bomb_y best_compound)
                 expected_value
                 (TacticalDecision.kill_probability best_compound) base_damage
             else best_compound
           else best_compound
         else best_compound)
    enemies best_compound.

(** Damage and number of living enemies within splash distance of a tile. *)
Definition splash_on_enemies (enemies : list AgentState.t) (bomb_x bomb_y : Z) : Z * Z :=
  fold_left
    (fun '(total_damage, enemies_hit) enemy =>
       if negb (AgentState.is_alive enemy) then (total_damage, enemies_hit)
       else
         let splash_distance := Z.abs (bomb_x - AgentState.x enemy)
                                + Z.abs (bomb_y - AgentState.y enemy) in
         if splash_distance <=? 1 then (total_damage + 30, enemies_hit + 1)
         else (total_damage, enemies_hit))
    enemies (0, 0).

(** The move-then-throw candidates of one destination.  Only the thrower's
    own splash is looked at; allies are not. *)
Definition compound_throw (ai : t) (agent : AgentState.t)
    (enemies : list AgentState.t) (nx ny : Z) (best_compound : TacticalDecision.t)
    : TacticalDecision.t :=
  if (AgentState.splash_bombs agent >? 0) && (AgentState.wetness agent <? 80) then
    fold_left
      (fun best_compound target_enemy =>
         if negb (AgentState.is_alive target_enemy) then best_compound
         else
           fold_left
             (fun best_compound '(dx, dy) =>
                let bomb_x := AgentState.x target_enemy + dx in
                let bomb_y := AgentState.y target_enemy + dy in
                if (bomb_x <? 0) || (bomb_x >=? board_width ai)
                   || (bomb_y <? 0) || (bomb_y >=? board_height ai) then best_compound
                else
                  let throw_distance := Z.abs (nx - bomb_x) + Z.abs (ny - bomb_y) in
                  if throw_distance >? THROW_DISTANCE_MAX then best_compound
                  else
                    let '(total_damage, enemies_hit) :=
                      splash_on_enemies enemies bomb_x bomb_y in
                    if total_damage >? 0 then
                      let agent_splash_distance :=
                        Z.abs (bomb_x - nx) + Z.abs (bomb_y - ny) in
                      let self_damage :=
                        if agent_splash_distance <=? 1 then
                          (if AgentState.wetness agent >? 70 then 15 else 30)
                        else 0 in
                      if Qgtb (inject_Z total_damage) (inject_Z self_damage * (12 # 10))%Q then
                        let expected_value := (inject_Z total_damage * 200)%Q in
                        let expected_value :=
                          (expected_value - inject_Z self_damage * 100)%Q in
                        let expected_value :=
                          if enemies_hit >? 1
                          then (expected_value + inject_Z enemies_hit * 4000)%Q
                          else expected_value in
                        let old_distance :=
                          Z.abs (AgentState.x agent - AgentState.x target_enemy)
                          + Z.abs (AgentState.y agent - AgentState.y target_enemy) in
                        let new_distance :=
                          Z.abs (nx - AgentState.x target_enemy)
                          + Z.abs (ny - AgentState.y target_enemy) in
                        let expected_value :=
                          if new_distance <? old_distance then (expected_value + 1500)%Q
                          else expected_value in
                        let expected_value :=
                          if self_damage =? 0 then (expected_value + 800)%Q
                          else expected_value in
                        if Qgtb expected_value
                             (TacticalDecision.expected_value best_compound) then
                          TacticalDecision.mk "MOVE_THROW" nx ny
                            (TacticalDecision.target_agent_id best_compound)
                            bomb_x bomb_y expected_value
                            (TacticalDecision.kill_probability best_compound) total_damage
                        else best_compound
                      else best_compound
                    else best_compound)
             (dx ← range3; dy ← range3; [(dx, dy)]) best_compound)
      enemies best_compound
  else best_compound.

(** [None] stands for [std::out_of_range] from [all_agents_data.at] or for a
    tile read outside the map. *)
Definition find_best_compound_action (ai : t) (agent : AgentState.t)
    (enemies allies : list AgentState.t) : option TacticalDecision.t :=
  let best_compound := TacticalDecision.plain "HUNKER_DOWN" 0 in
  data ← data_at ai (AgentState.agent_id agent);
  let occupied := occupied_positions agent enemies allies in
  let '(closest, min_distance) := closest_enemy agent enemies in
  movement_priorities ←
    match closest with
    | Some closest_enemy =>
        compound_priorities_near ai agent occupied
          (AgentState.x closest_enemy) (AgentState.y closest_enemy) min_distance
    | None => Some []
    end;
  movement_priorities ←
    (if (length movement_priorities =? 0)%nat
     then compound_priorities_ring ai agent occupied
     else Some movement_priorities);
  Some (fold_left
    (fun best_compound '(nx, ny) =>
       let best_compound := compound_shoot agent data enemies nx ny best_compound in
       compound_throw ai agent enemies nx ny best_compound)
    movement_priorities best_compound).

Definition in_bounds (ai : t) (nx ny : Z) : bool :=
  (nx >=? 0) && (nx <? board_width ai) && (ny >=? 0) && (ny <? board_height ai).

(** The candidate tiles of [generate_random_moves]: the adjacent ring, then,
    when there is a priority target, the ring again at step 1 and at step 2. *)
Definition movement_candidates (ai : t) (agent : AgentState.t) (has_target : bool)
    : list (Z * Z) :=
  let ring (step : Z) :=
    omap (fun '(dx, dy) =>
            let nx := AgentState.x agent + dx * step in
            let ny := AgentState.y agent + dy * step in
            if in_bounds ai nx ny then Some (nx, ny) else None)
         ring_offsets in
  ring 1 ++ (if has_target then ring 1 ++ ring 2 else []).

(** [num_simulations] is not read by the function body. *)
Definition generate_random_moves (ai : t) (agent : AgentState.t)
    (enemies allies : list AgentState.t) (num_simulations : Z)
    : option (list TacticalDecision.t) :=
  let occupied := occupied_positions agent enemies allies in
  let priority_target := (closest_enemy agent enemies).1 in
  moves ←
    fold_leftM
      (fun (moves : list TacticalDecision.t) '(nx, ny) =>
         if existsb (fun pos => (pos.1 =? nx) && (pos.2 =? ny)) occupied then Some moves
         else
           expected_value ←
             match priority_target with
             | Some target =>
                 let expected_value := 300%Q in
                 let old_distance :=
                   Z.abs (AgentState.x agent - AgentState.x target)
                   + Z.abs (AgentState.y agent - AgentState.y target) in
                 let new_distance :=
                   Z.abs (nx - AgentState.x target) + Z.abs (ny - AgentState.y target) in
                 let expected_value :=
                   if new_distance <? old_distance then (expected_value + 2000)%Q
                   else expected_value in
                 let expected_value :=
                   if nx >? AgentState.x agent then (expected_value + 1500)%Q
                   else expected_value in
                 data ← data_at ai (AgentState.agent_id agent);
                 let expected_value :=
                   if new_distance <=? AgentData.optimal_range data
                   then (expected_value + 3000)%Q else expected_value in
                 let expected_value :=
                   if new_distance <=? AgentData.optimal_range data + 2
                   then (expected_value + 1000)%Q else expected_value in
                 let expected_value :=
                   if new_distance >? old_distance then (expected_value - 1000)%Q
                   else expected_value in
                 let expected_value :=
                   if nx <? AgentState.x agent then (expected_value - 700)%Q
                   else expected_value in
                 Some expected_value
             | None => Some 300%Q
             end;
           Some (moves ++ [TacticalDecision.mk "MOVE" nx ny (-1) (-1) (-1)
                             expected_value 0 0]))
      (movement_candidates ai agent (bool_decide (is_Some priority_target))) [];
  if (length moves =? 0)%nat then Some [TacticalDecision.plain "HUNKER_DOWN" 200]
  else Some moves.

(** The value of one destination in [evaluate_tactical_movement], before and
    after the cap. *)
Definition tactical_move_value_raw (agent : AgentState.t) (data : AgentData.t)
    (enemies : list AgentState.t) (nx ny : Z) : Q :=
  let expected_value := 150%Q in
  let movement_cost := GameMechanics.calculate_movement_cost (AgentState.wetness agent) in
  let expected_value :=
    if movement_cost >? 1 then (expected_value - inject_Z (movement_cost - 1) * 50)%Q
    else expected_value in
  fold_left
    (fun (expected_value : Q) enemy =>
       if negb (AgentState.is_alive enemy) then expected_value
       else
         let current_distance := Z.abs (AgentState.x agent - AgentState.x enemy)
                                 + Z.abs (AgentState.y agent - AgentState.y enemy) in
         let new_distance := Z.abs (nx - AgentState.x enemy)
                             + Z.abs (ny - AgentState.y enemy) in
         let expected_value :=
           if (new_distance <=? AgentData.optimal_range data)
              && (current_distance >? AgentData.optimal_range data)
           then (expected_value + 1000)%Q else expected_value in
         let expected_value :=
           if new_distance <=? AgentData.optimal_range data
           then (expected_value + 500)%Q else expected_value in
         let expected_value :=
           match AgentData.agent_class data with
           | SNIPER =>
               if (new_distance >=? 4) && (new_distance <=? 6)
               then (expected_value + 700)%Q else expected_value
           | BOMBER =>
               if new_distance <=? 4 then (expected_value + 600)%Q else expected_value
           | BERSERKER =>
               if new_distance <=? 2 then (expected_value + 800)%Q else expected_value
           | _ =>
               if new_distance <=? 4 then (expected_value + 400)%Q else expected_value
           end in
         if (AgentState.wetness enemy >? 50) && (new_distance <? current_distance)
         then (expected_value + 300)%Q else expected_value)
    enemies expected_value.

Definition tactical_move_value (agent : AgentState.t) (data : AgentData.t)
    (enemies : list AgentState.t) (nx ny : Z) : Q :=
  let expected_value := tactical_move_value_raw agent data enemies nx ny in
  if Qgtb expected_value 1500 then 1500%Q else expected_value.

Definition evaluate_tactical_movement (ai : t) (agent : AgentState.t)
    (enemies allies : list AgentState.t) : option TacticalDecision.t :=
  let best_move := TacticalDecision.plain "HUNKER_DOWN" 0 in
  data ← data_at ai (AgentState.agent_id agent);
  let occupied := occupied_positions agent enemies allies in
  Some (fold_left
    (fun best_move '(dx, dy) =>
       let nx := AgentState.x agent + dx in
       let ny := AgentState.y agent + dy in
       if (nx <? 0) || (nx >=? board_width ai) || (ny <? 0) || (ny >=? board_height ai)
       then best_move
       else if existsb (fun pos => (pos.1 =? nx) && (pos.2 =? ny)) occupied then best_move
       else
         let expected_value := tactical_move_value agent data enemies nx ny in
         if Qgtb expected_value (TacticalDecision.expected_value best_move) then
           TacticalDecision.mk "MOVE" nx ny (-1) (-1) (-1) expected_value 0 0
         else best_move)
    cross_offsets best_move).

Definition evaluate_cover_strategy (ai : t) (agent : AgentState.t)
    (enemies allies : list AgentState.t) : option TacticalDecision.t :=
  let cover_decision := TacticalDecision.plain "HUNKER_DOWN" 0 in
  let '(immediate_threats, total_enemy_damage_potential, under_heavy_fire) :=
    fold_left
      (fun '(immediate_threats, total_enemy_damage_potential, under_heavy_fire) enemy =>
         if negb (AgentState.is_alive enemy)
         then (immediate_threats, total_enemy_damage_potential, under_heavy_fire)
         else
           let distance := Z.abs (AgentState.x agent - AgentState.x enemy)
                           + Z.abs (AgentState.y agent - AgentState.y enemy) in
           let '(immediate_threats, total_enemy_damage_potential) :=
             if distance <=? 4
             then (immediate_threats + 1, total_enemy_damage_potential + 20)
             else (immediate_threats, total_enemy_damage_potential) in
           if (AgentState.splash_bombs enemy >? 0) && (distance <=? 4)
           then (immediate_threats, total_enemy_damage_potential + 30, true)
           else (immediate_threats, total_enemy_damage_potential, under_heavy_fire))
      enemies (0, 0, false) in
  let should_seek_cover :=
    ((AgentState.get_health agent <=? 50) && (immediate_threats >=? 2))
    || (total_enemy_damage_potential >=? 60)
    || (length allies + 1 <? length enemies)%nat
    || ((AgentState.get_health agent <=? 70) && under_heavy_fire) in
  if negb should_seek_cover then Some cover_decision
  else
    cover_positions ←
      fold_leftM
        (fun (cover_positions : list (Z * Z)) '(dx, dy) =>
           let cx := AgentState.x agent + dx in
           let cy := AgentState.y agent + dy in
           covered ← GameMechanics.provides_cover cx cy
                        (board_width ai) (board_height ai) (tile_map ai);
           if covered : bool then
             let occupied :=
               existsb (fun ally =>
                          negb (AgentState.agent_id ally =? AgentState.agent_id agent)
                          && (AgentState.x ally =? cx) && (AgentState.y ally =? cy)) allies
               || existsb (fun enemy =>
                             (AgentState.x enemy =? cx) && (AgentState.y enemy =? cy)) enemies in
             if negb occupied then Some (cover_positions ++ [(cx, cy)])
             else Some cover_positions
           else Some cover_positions)
        (dx ← range5; dy ← range5; [(dx, dy)]) [];
    if negb (length cover_positions =? 0)%nat then
      let '(best_distance, best_cover) :=
        fold_left
          (fun '(best_distance, best_cover) (pos : Z * Z) =>
             let distance := Z.abs (AgentState.x agent - pos.1)
                             + Z.abs (AgentState.y agent - pos.2) in
             if distance <? best_distance then (distance, pos)
             else (best_distance, best_cover))
          cover_positions (INT_MAX, (-1, -1)) in
      if negb (best_cover.1 =? -1) then
        Some (TacticalDecision.mk "MOVE" best_cover.1 best_cover.2 (-1) (-1) (-1) 3000 0 0)
      else Some cover_decision
    else Some cover_decision.

(** [scaled_direction dx dy] stands for the pair
    [((int)((dx / length) * 5), (int)((dy / length) * 5))] with
    [length = sqrt(dx*dx + dy*dy)], the one floating-point computation of the
    function; it is only read when [(dx, dy)] is not [(0, 0)]. *)
Definition evaluate_sniper_strategy (scaled_direction : Z -> Z -> Z * Z)
    (ai : t) (agent : AgentState.t) (enemies allies : list AgentState.t)
    : option TacticalDecision.t :=
  let sniper_decision := TacticalDecision.plain "HUNKER_DOWN" 0 in
  data ← data_at ai (AgentState.agent_id agent);
  if negb (GameAgentClass_eqb (AgentData.agent_class data) SNIPER) then Some sniper_decision
  else
    let my_team_health :=
      fold_left (fun h ally => h + AgentState.get_health ally) allies 0 in
    let '(enemy_team_health, bombers_nearby) :=
      fold_left
        (fun '(enemy_team_health, bombers_nearby) enemy =>
           let distance := Z.abs (AgentState.x agent - AgentState.x enemy)
                           + Z.abs (AgentState.y agent - AgentState.y enemy) in
           (enemy_team_health + AgentState.get_health enemy,
            if (AgentState.splash_bombs enemy >? 0) && (distance <=? 6)
            then bombers_nearby + 1 else bombers_nearby))
        enemies (0, 0) in
    let team_advantage :=
      (my_team_health >=? enemy_team_health) && (length enemies <=? length allies)%nat in
    let low_personal_health := AgentState.get_health agent <=? 60 in
    let bomber_threat := bombers_nearby >? 0 in
    let should_keep_distance :=
      if negb team_advantage && (low_personal_health || bomber_threat) then true
      else if bomber_threat && (AgentState.get_health agent <=? 80) then true
      else false in
    if should_keep_distance then
      let optimal_distance := 5 in
      match (closest_enemy agent enemies).1 with
      | Some closest_enemy =>
          let dx := AgentState.x agent - AgentState.x closest_enemy in
          let dy := AgentState.y agent - AgentState.y closest_enemy in
          if negb ((dx =? 0) && (dy =? 0)) then
            let target_x := AgentState.x closest_enemy + (scaled_direction dx dy).1 in
            let target_y := AgentState.y closest_enemy + (scaled_direction dx dy).2 in
            let target_x := Z.max 0 (Z.min (board_width ai - 1) target_x) in
            let target_y := Z.max 0 (Z.min (board_height ai - 1) target_y) in
            let occupied :=
              map (fun a => (AgentState.x a, AgentState.y a))
                  (filter (fun ally =>
                             negb (AgentState.agent_id ally =? AgentState.agent_id agent)
                             && AgentState.is_alive ally = true) allies) in
            if GameMechanics.is_valid_movement_position target_x target_y
                 (board_width ai) (board_height ai) (tile_map ai) occupied then
              Some (TacticalDecision.mk "MOVE" target_x target_y (-1) (-1) (-1) 2500 0 0)
            else Some sniper_decision
          else Some sniper_decision
      | None => Some sniper_decision
      end
    else Some sniper_decision.

(** The penalty one simulated enemy response puts on an option. *)
Definition enemy_response_penalty (agent : AgentState.t) (option : TacticalDecision.t)
    (enemies : list AgentState.t) : Q :=
  fold_left
    (fun (penalty : Q) enemy =>
       if negb (AgentState.is_alive enemy) then penalty
       else
         let is_move := String.eqb (TacticalDecision.action_type option) "MOVE" in
         let future_x := if is_move then TacticalDecision.target_x option
                         else AgentState.x agent in
         let future_y := if is_move then TacticalDecision.target_y option
                         else AgentState.y agent in
         let distance_to_me := Z.abs (future_x - AgentState.x enemy)
                               + Z.abs (future_y - AgentState.y enemy) in
         let penalty := if distance_to_me <=? 4 then (penalty + 100)%Q else penalty in
         if distance_to_me <=? 2 then (penalty + 200)%Q else penalty)
    enemies 0%Q.

Definition expectimax_evaluate (agent : AgentState.t) (options : list TacticalDecision.t)
    (enemies allies : list AgentState.t) : TacticalDecision.t :=
  let best_option :=
    fold_left
      (fun best_option option =>
         let total_value :=
           Nat.iter 10
             (fun total_value : Q =>
                (total_value - enemy_response_penalty agent option enemies * (3 # 10))%Q)
             (TacticalDecision.expected_value option) in
         if Qgtb total_value (TacticalDecision.expected_value best_option)
         then TacticalDecision.set_expected_value total_value option
         else best_option)
      options (TacticalDecision.set_expected_value (-1000) TacticalDecision.default) in
  if Qltb (TacticalDecision.expected_value best_option) 0 then
    TacticalDecision.set_expected_value 50
      (TacticalDecision.set_action_type "HUNKER_DOWN" best_option)
  else best_option.

Definition make_optimal_decision (scaled_direction : Z -> Z -> Z * Z)
    (ai : t) (agent : AgentState.t) (enemies allies : list AgentState.t)
    : option TacticalDecision.t :=
  _ ← data_at ai (AgentState.agent_id agent);
  let critical_urgency :=
    (AgentState.get_health agent <=? 40) && (AgentState.splash_bombs agent >? 0)
    && (AgentState.cooldown agent =? 0) in
  best_shoot ← find_best_shooting_target ai agent enemies;
  let best_bomb := find_best_bombing_target_with_allies ai agent enemies allies in
  let best_bomb :=
    if critical_urgency && String.eqb (TacticalDecision.action_type best_bomb) "THROW"
    then TacticalDecision.set_expected_value
           (TacticalDecision.expected_value best_bomb * 5)%Q best_bomb
    else best_bomb in
  best_compound ← find_best_compound_action ai agent enemies allies;
  cover_strategy ← evaluate_cover_strategy ai agent enemies allies;
  sniper_strategy ← evaluate_sniper_strategy scaled_direction ai agent enemies allies;
  movement_options ← generate_random_moves ai agent enemies allies 50;
  let all_options :=
    [best_shoot; best_bomb; best_compound; cover_strategy; sniper_strategy]
    ++ movement_options in
  let optimal := expectimax_evaluate agent all_options enemies allies in
  if (AgentState.splash_bombs agent >? 0) && (AgentState.get_health agent <=? 50)
     && String.eqb (TacticalDecision.action_type best_bomb) "THROW"
     && Qgtb (TacticalDecision.expected_value best_bomb)
             (TacticalDecision.expected_value optimal * (1 # 2))%Q
  then Some best_bomb
  else Some optimal.

(** The focus-fire candidate: a shot at the priority target, replaced by a
    throw onto the target's own tile when that scores higher.  The function
    receives neither the allies nor the board. *)
Definition evaluate_focus_fire (ai : t) (agent priority_target : AgentState.t)
    : option TacticalDecision.t :=
  let focus_decision := TacticalDecision.plain "HUNKER_DOWN" 0 in
  data ← data_at ai (AgentState.agent_id agent);
  let distance := Z.abs (AgentState.x agent - AgentState.x priority_target)
                  + Z.abs (AgentState.y agent - AgentState.y priority_target) in
  let focus_decision :=
    if (AgentState.cooldown agent =? 0) && (distance <=? AgentData.optimal_range data) then
      let base_damage := AgentData.soaking_power data in
      if base_damage >? 0 then
        let expected_value := (inject_Z base_damage * 200)%Q in
        let expected_value :=
          if AgentState.wetness priority_target + base_damage >=? 100
          then (expected_value + 10000)%Q
          else (expected_value
                + inject_Z (AgentState.wetness priority_target + base_damage) * 100)%Q in
        TacticalDecision.mk "SHOOT" (-1) (-1) (AgentState.agent_id priority_target)
          (-1) (-1) expected_value 0 base_damage
      else focus_decision
    else focus_decision in
  if (AgentState.splash_bombs agent >? 0) && (AgentState.wetness agent <? 80) then
    let bomb_throw_distance :=
      Z.abs (AgentState.x agent - AgentState.x priority_target)
      + Z.abs (AgentState.y agent - AgentState.y priority_target) in
    if bomb_throw_distance <=? THROW_DISTANCE_MAX then
      let bomb_damage := 30 in
      let expected_value := (inject_Z bomb_damage * 150)%Q in
      let expected_value :=
        if AgentState.wetness priority_target + bomb_damage >=? 100
        then (expected_value + 8000)%Q else expected_value in
      if Qgtb expected_value (TacticalDecision.expected_value focus_decision) then
        Some (TacticalDecision.mk "THROW"
                (AgentState.x priority_target) (AgentState.y priority_target)
                (TacticalDecision.target_agent_id focus_decision)
                (-1) (-1) expected_value 0 bomb_damage)
      else Some focus_decision
    else Some focus_decision
  else Some focus_decision.

Definition format_compound_action (agent_id : Z) (decision : TacticalDecision.t) : string :=
  let type := TacticalDecision.action_type decision in
  if String.eqb type "SHOOT" then
    to_string agent_id +:+ ";SHOOT "
      +:+ to_string (TacticalDecision.target_agent_id decision) +:+ "; HUNKER_DOWN"
  else if String.eqb type "MOVE" then
    to_string agent_id +:+ ";MOVE " +:+ to_string (TacticalDecision.target_x decision)
      +:+ " " +:+ to_string (TacticalDecision.target_y decision) +:+ "; HUNKER_DOWN"
  else if String.eqb type "THROW" then
    to_string agent_id +:+ ";THROW " +:+ to_string (TacticalDecision.target_x decision)
      +:+ " " +:+ to_string (TacticalDecision.target_y decision) +:+ "; HUNKER_DOWN"
  else if String.eqb type "MOVE_SHOOT" then
    to_string agent_id +:+ ";MOVE " +:+ to_string (TacticalDecision.target_x decision)
      +:+ " " +:+ to_string (TacticalDecision.target_y decision)
      +:+ "; SHOOT " +:+ to_string (TacticalDecision.target_agent_id decision)
  else if String.eqb type "MOVE_THROW" then
    to_string agent_id +:+ ";MOVE " +:+ to_string (TacticalDecision.target_x decision)
      +:+ " " +:+ to_string (TacticalDecision.target_y decision)
      +:+ "; THROW " +:+ to_string (TacticalDecision.bomb_x decision)
      +:+ " " +:+ to_string (TacticalDecision.bomb_y decision)
  else to_string agent_id +:+ ";HUNKER_DOWN".

(** The two splash helpers that [game/reference_integration.cpp] defines for
    [SmartGameAI]. *)
Definition calculate_total_splash_damage (enemies : list AgentState.t)
    (bomb_x bomb_y : Z) : Z :=
  fold_left
    (fun total_damage enemy =>
       if negb (AgentState.is_alive enemy) then total_damage
       else
         let splash_distance := Z.abs (bomb_x - AgentState.x enemy)
                                + Z.abs (bomb_y - AgentState.y enemy) in
         if splash_distance <=? 1 then total_damage + THROW_DAMAGE else total_damage)
    enemies 0.

Definition count_enemies_in_splash (enemies : list AgentState.t)
    (bomb_x bomb_y : Z) : Z :=
  fold_left
    (fun count enemy =>
       if negb (AgentState.is_alive enemy) then count
       else
         let splash_distance := Z.abs (bomb_x - AgentState.x enemy)
                                + Z.abs (bomb_y - AgentState.y enemy) in
         if splash_distance <=? 1 then count + 1 else count)
    enemies 0.

(** *** struct SmitsimaxNode: the state of a node of the search tree *)

Module SmitsimaxNode.

(** The fields the two functions below read and write. *)
Record t := mk {
  my_agents : list AgentState.t;
  enemy_agents : list AgentState.t;
  depth : Z;
  is_terminal : bool
}.

(** A node as its constructor leaves it. *)
Definition new (my_agents enemy_agents : list AgentState.t) (depth : Z) : t :=
  mk my_agents enemy_agents depth false.

(** [check_terminal] stores its result in [is_terminal] and returns it. *)
Definition check_terminal (node : t) : t * bool :=
  let my_agents_alive := existsb AgentState.is_alive (my_agents node) in
  let enemy_agents_alive := existsb AgentState.is_alive (enemy_agents node) in
  let terminal := negb my_agents_alive || negb enemy_agents_alive || (depth node >=? 2) in
  (mk (my_agents node) (enemy_agents node) (depth node) terminal, terminal).

(** The number, the health and the bombs of the living agents of a side. *)
Definition alive_count (agents : list AgentState.t) : Z :=
  fold_left (fun n agent => if AgentState.is_alive agent then n + 1 else n) agents 0.

Definition alive_health (agents : list AgentState.t) : Z :=
  fold_left (fun h agent => if AgentState.is_alive agent then h + AgentState.get_health agent
                            else h) agents 0.

Definition alive_bombs (agents : list AgentState.t) : Z :=
  fold_left (fun b agent => if AgentState.is_alive agent then b + AgentState.splash_bombs agent
                            else b) agents 0.

Definition positional_value (my_agents enemy_agents : list AgentState.t) : Q :=
  fold_left
    (fun (positional_value : Q) my_agent =>
       if negb (AgentState.is_alive my_agent) then positional_value
       else
         let min_distance :=
           fold_left
             (fun min_distance enemy =>
                if negb (AgentState.is_alive enemy) then min_distance
                else Z.min min_distance
                       (Z.abs (AgentState.x my_agent - AgentState.x enemy)
                        + Z.abs (AgentState.y my_agent - AgentState.y enemy)))
             enemy_agents INT_MAX in
         let positional_value :=
           if min_distance <=? 4 then (positional_value + 200)%Q else positional_value in
         if min_distance <=? 2 then (positional_value + 100)%Q else positional_value)
    my_agents 0%Q.

Definition evaluate_state (node : t) : Q :=
  let my_alive := alive_count (my_agents node) in
  let enemy_alive := alive_count (enemy_agents node) in
  let my_health := alive_health (my_agents node) in
  let enemy_health := alive_health (enemy_agents node) in
  if is_terminal node then
    if (my_alive >? 0) && (enemy_alive =? 0) then 10000%Q
    else if (my_alive =? 0) && (enemy_alive >? 0) then (-10000)%Q
    else
      let health_advantage := (inject_Z (my_health - enemy_health) * 10)%Q in
      let agent_advantage := (inject_Z (my_alive - enemy_alive) * 1000)%Q in
      (health_advantage + agent_advantage)%Q
  else
    let my_bombs := alive_bombs (my_agents node) in
    let enemy_bombs := alive_bombs (enemy_agents node) in
    let value := 0%Q in
    let value := (value + inject_Z (my_health - enemy_health) * 5)%Q in
    let value := (value + inject_Z (my_alive - enemy_alive) * 500)%Q in
    let value := (value + inject_Z (my_bombs - enemy_bombs) * 300)%Q in
    (value + positional_value (my_agents node) (enemy_agents node))%Q.

End SmitsimaxNode.

(** *** class SmitsimaxSearch: the simulation steps of the search *)

Module SmitsimaxSearch.

(** Each living enemy steps once toward the nearest living controlled agent. *)
Definition simulate_enemy_response_enhanced (enemies my_agents : list AgentState.t)
    (use_game_folder : bool) : list AgentState.t :=
  map
    (fun enemy =>
       if negb (AgentState.is_alive enemy) then enemy
       else
         match (closest_enemy enemy my_agents).1 with
         | Some closest_target =>
             if AgentState.x enemy <? AgentState.x closest_target
             then AgentState.set_pos (AgentState.x enemy + 1) (AgentState.y enemy) enemy
             else if AgentState.x enemy >? AgentState.x closest_target
             then AgentState.set_pos (AgentState.x enemy - 1) (AgentState.y enemy) enemy
             else if AgentState.y enemy <? AgentState.y closest_target
             then AgentState.set_pos (AgentState.x enemy) (AgentState.y enemy + 1) enemy
             else if AgentState.y enemy >? AgentState.y closest_target
             then AgentState.set_pos (AgentState.x enemy) (AgentState.y enemy - 1) enemy
             else enemy
         | None => enemy
         end)
    enemies.

(** The variant with the board limits: a step that would leave the board is
    not taken, and the next test of the chain is tried instead. *)
Definition simulate_enemy_response (ai : t) (enemies my_agents : list AgentState.t)
    : list AgentState.t :=
  map
    (fun enemy =>
       if negb (AgentState.is_alive enemy) then enemy
       else
         match (closest_enemy enemy my_agents).1 with
         | Some closest_target =>
             if (AgentState.x enemy <? AgentState.x closest_target)
                && (AgentState.x enemy <? board_width ai - 1)
             then AgentState.set_pos (AgentState.x enemy + 1) (AgentState.y enemy) enemy
             else if (AgentState.x enemy >? AgentState.x closest_target)
                     && (AgentState.x enemy >? 0)
             then AgentState.set_pos (AgentState.x enemy - 1) (AgentState.y enemy) enemy
             else if (AgentState.y enemy <? AgentState.y closest_target)
                     && (AgentState.y enemy <? board_height ai - 1)
             then AgentState.set_pos (AgentState.x enemy) (AgentState.y enemy + 1) enemy
             else if (AgentState.y enemy >? AgentState.y closest_target)
                     && (AgentState.y enemy >? 0)
             then AgentState.set_pos (AgentState.x enemy) (AgentState.y enemy - 1) enemy
             else enemy
         | None => enemy
         end)
    enemies.

(** The body of the loop of [apply_joint_action] for one agent. *)
Definition apply_one (agent : AgentState.t) (action : TacticalDecision.t) : AgentState.t :=
  if negb (AgentState.is_alive agent) then agent
  else
    let type := TacticalDecision.action_type action in
    let agent :=
      if String.eqb type "MOVE" then
        AgentState.set_pos (TacticalDecision.target_x action)
          (TacticalDecision.target_y action) agent
      else if String.eqb type "SHOOT" && (AgentState.cooldown agent =? 0) then
        AgentState.set_cooldown 1 agent
      else if String.eqb type "THROW" && (AgentState.splash_bombs agent >? 0) then
        AgentState.set_cooldown 2
          (AgentState.set_splash_bombs (AgentState.splash_bombs agent - 1) agent)
      else agent in
    if AgentState.cooldown agent >? 0
    then AgentState.set_cooldown (AgentState.cooldown agent - 1) agent
    else agent.

(** [enemies] is received and never read. *)
Fixpoint apply_joint_action (agents : list AgentState.t)
    (actions : list TacticalDecision.t) (enemies : list AgentState.t)
    : list AgentState.t :=
  match agents, actions with
  | agent :: agents', action :: actions' =>
      apply_one agent action :: apply_joint_action agents' actions' enemies
  | _, _ => agents
  end.

(** One expansion step of [smitsimax_search]: the controlled agents act, then
    the enemies respond; the pair is the state of the child node. *)
Definition joint_step (my_agents enemy_agents : list AgentState.t)
    (joint_action : list TacticalDecision.t) : list AgentState.t * list AgentState.t :=
  let new_my_agents := apply_joint_action my_agents joint_action enemy_agents in
  let new_enemies := simulate_enemy_response_enhanced enemy_agents new_my_agents false in
  (new_my_agents, new_enemies).

(** The actions [generate_joint_actions] collects for one agent: the best
    shot and the best throw when there is one, the first two moves of
    [generate_random_moves], and Hunker. *)
Definition agent_actions (ai : t) (enemies all_allies : list AgentState.t)
    (agent : AgentState.t) : option (list TacticalDecision.t) :=
  if negb (AgentState.is_alive agent) then Some [TacticalDecision.plain "HUNKER_DOWN" 0]
  else
    shoot ← find_best_shooting_target ai agent enemies;
    let actions :=
      if String.eqb (TacticalDecision.action_type shoot) "SHOOT" then [shoot] else [] in
    let bomb := find_best_bombing_target_with_allies ai agent enemies all_allies in
    let actions :=
      if String.eqb (TacticalDecision.action_type bomb) "THROW" then actions ++ [bomb]
      else actions in
    moves ← generate_random_moves ai agent enemies all_allies 2;
    let actions := actions ++ take 2 moves in
    Some (actions ++ [TacticalDecision.plain "HUNKER_DOWN" 50]).

(** The carry loop over [indices]: the last index advances first; an index
    that reaches the number of actions of its agent returns to 0 and carries.
    The boolean is the carry that is left. *)
Fixpoint advance (sizes indices : list nat) : list nat * bool :=
  match sizes, indices with
  | size :: sizes', idx :: indices' =>
      let '(rest, carry) := advance sizes' indices' in
      if carry then
        if (size <=? idx + 1)%nat then (0%nat :: rest, true)
        else ((idx + 1)%nat :: rest, false)
      else (idx :: rest, false)
  | _, _ => ([], true)
  end.

(** The do-while loop of [generate_joint_actions].  It leaves with sixteen
    joint actions at the latest, so sixteen rounds are enough; [None] stands
    for reading [indices[0]] or [agent_actions[0]] of an empty vector. *)
Fixpoint joint_actions_loop (rounds : nat) (actions : list (list TacticalDecision.t))
    (indices : list nat) (joint_actions : list (list TacticalDecision.t))
    : option (list (list TacticalDecision.t)) :=
  match rounds with
  | O => None
  | S rounds' =>
      joint_action ← mapM (fun '(agent_actions, idx) => agent_actions !! idx)
                          (zip actions indices);
      let joint_actions := joint_actions ++ [joint_action] in
      let indices := (advance (map length actions) indices).1 in
      if (16 <=? length joint_actions)%nat then Some joint_actions
      else
        first ← indices !! 0%nat;
        first_actions ← actions !! 0%nat;
        if (first <? length first_actions)%nat
           || existsb (fun idx => (0 <? idx)%nat) (tail indices)
        then joint_actions_loop rounds' actions indices joint_actions
        else Some joint_actions
  end.

Definition generate_joint_actions (ai : t) (my_agents enemies all_allies : list AgentState.t)
    : option (list (list TacticalDecision.t)) :=
  actions ← mapM (agent_actions ai enemies all_allies) my_agents;
  joint_actions_loop 16 actions (map (fun _ => 0%nat) my_agents) [].

(** How a run of [smitsimax_search] ended.  The visit counts and rewards of
    the tree depend on the clock, so the run is represented by its end: an
    exception left the search, the root was never expanded, or child [n] of the
    root has the most visits. *)
Inductive SearchOutcome : Type :=
  | Raised
  | NoChildren
  | MostVisited (n : nat).

(** The result of [smitsimax_search].  The root is expanded at most once, with
    the first eight joint actions of [generate_joint_actions] for the agents of
    the call; the result is the joint action of one of these children, or the
    all-Hunker fallback when there is no child. *)
Definition smitsimax_search (outcome : SearchOutcome) (ai : t)
    (my_agents enemies : list AgentState.t) : option (list TacticalDecision.t) :=
  match outcome with
  | Raised => None
  | NoChildren => Some (map (fun _ => TacticalDecision.plain "HUNKER_DOWN" 50) my_agents)
  | MostVisited n =>
      joint_actions ← generate_joint_actions ai my_agents enemies my_agents;
      take 8 joint_actions !! n
  end.

End SmitsimaxSearch.

End SmartGameAI.

(** ** The turn loop of [main] (primary engine) *)

Module Orchestrator.

Import SmartGameAI.

(** What one turn reads after the initialisation: the agents of the turn and
    the number of output lines the game expects. *)
Record TurnInput := mkTurnInput {
  agents : list AgentState.t;
  my_agent_count : Z
}.

Definition is_move_class (decision : TacticalDecision.t) : bool :=
  String.eqb (TacticalDecision.action_type decision) "MOVE"
  || String.eqb (TacticalDecision.action_type decision) "MOVE_SHOOT"
  || String.eqb (TacticalDecision.action_type decision) "MOVE_THROW".

(** The score of an enemy as shared priority target. *)
Definition target_score (current_my_agents : list AgentState.t) (enemy : AgentState.t) : Q :=
  let min_distance_to_enemy :=
    fold_left
      (fun m my_agent =>
         Z.min m (Z.abs (AgentState.x my_agent - AgentState.x enemy)
                  + Z.abs (AgentState.y my_agent - AgentState.y enemy)))
      current_my_agents INT_MAX in
  let target_score := 0%Q in
  let target_score :=
    if AgentState.splash_bombs enemy >? 0
    then (target_score + inject_Z (AgentState.splash_bombs enemy) * 3000)%Q
    else target_score in
  let target_score :=
    if AgentState.wetness enemy >? 50
    then (target_score + inject_Z (AgentState.wetness enemy - 50) * 60)%Q
    else target_score in
  let target_score := (target_score + inject_Z (10 - min_distance_to_enemy) * 100)%Q in
  if AgentState.cooldown enemy <=? 1 then (target_score + 1500)%Q else target_score.

Definition select_priority_target (current_my_agents current_enemy_agents : list AgentState.t)
    : option AgentState.t :=
  (fold_left
     (fun '(priority_target, best_target_score) enemy =>
        let score := target_score current_my_agents enemy in
        if Qgtb score best_target_score then (Some enemy, score)
        else (priority_target, best_target_score))
     current_enemy_agents (None, (-1000)%Q)).1.

Definition use_smitsimax (current_my_agents current_enemy_agents : list AgentState.t)
    (turn_number : Z) : bool :=
  (2 <=? length current_my_agents)%nat && (1 <=? length current_enemy_agents)%nat
  && (turn_number >=? 3).

(** The joint action of the search, stored per agent id. *)
Definition assign_joint_actions (current_my_agents : list AgentState.t)
    (joint_actions : list TacticalDecision.t) : gmap Z TacticalDecision.t :=
  fold_left
    (fun (agent_decisions : gmap Z TacticalDecision.t) '(agent, action) =>
       <[AgentState.agent_id agent := action]> agent_decisions)
    (zip current_my_agents joint_actions) ∅.

(** The alternatives around a contested tile, in the order they are tried. *)
Definition alternative_offsets : list (Z * Z) :=
  [(1, 0); (-1, 0); (0, 1); (0, -1); (1, 1); (-1, 1); (1, -1); (-1, -1)].

Definition alternatives (target_x target_y : Z) : list (Z * Z) :=
  map (fun '(dx, dy) => (target_x + dx, target_y + dy)) alternative_offsets.

(** A tile is occupied for [agent] when another controlled agent or any enemy
    of the turn stands on it. *)
Definition occupied_by_other (current_my_agents current_enemy_agents : list AgentState.t)
    (agent : AgentState.t) (alt : Z * Z) : bool :=
  existsb (fun other =>
             negb (AgentState.agent_id other =? AgentState.agent_id agent)
             && (AgentState.x other =? alt.1) && (AgentState.y other =? alt.2))
          current_my_agents
  || existsb (fun enemy => (AgentState.x enemy =? alt.1) && (AgentState.y enemy =? alt.2))
             current_enemy_agents.

Definition alternative_free (ai : SmartGameAI.t)
    (current_my_agents current_enemy_agents : list AgentState.t)
    (agent : AgentState.t) (movement_blacklist : gset (Z * Z)) (alt : Z * Z) : bool :=
  in_bounds ai alt.1 alt.2
  && negb (bool_decide (alt ∈ movement_blacklist))
  && negb (occupied_by_other current_my_agents current_enemy_agents agent alt).

(** The collision block of the loop over the controlled agents. *)
Definition resolve_collision (ai : SmartGameAI.t)
    (current_my_agents current_enemy_agents : list AgentState.t)
    (agent : AgentState.t) (decision : TacticalDecision.t)
    (movement_blacklist : gset (Z * Z)) : TacticalDecision.t * gset (Z * Z) :=
  if is_move_class decision then
    let target_pos := (TacticalDecision.target_x decision, TacticalDecision.target_y decision) in
    if bool_decide (target_pos ∈ movement_blacklist) then
      match find (alternative_free ai current_my_agents current_enemy_agents agent
                    movement_blacklist)
                 (alternatives target_pos.1 target_pos.2) with
      | Some alt_pos =>
          (TacticalDecision.set_target alt_pos.1 alt_pos.2 decision,
           {[alt_pos]} ∪ movement_blacklist)
      | None => (TacticalDecision.set_action_type "HUNKER_DOWN" decision, movement_blacklist)
      end
    else (decision, {[target_pos]} ∪ movement_blacklist)
  else (decision, movement_blacklist).

(** The focus-fire override applied after the collision block. *)
Definition focus_fire_override (ai : SmartGameAI.t) (priority_target : option AgentState.t)
    (agent : AgentState.t) (decision : TacticalDecision.t) : option TacticalDecision.t :=
  match priority_target with
  | Some target =>
      if AgentState.cooldown agent =? 0 then
        focus_fire ← evaluate_focus_fire ai agent target;
        if Qgtb (TacticalDecision.expected_value focus_fire)
                (TacticalDecision.expected_value decision * (8 # 10))%Q
        then Some focus_fire else Some decision
      else Some decision
  | None => Some decision
  end.

(** The body of the loop over [current_my_agents].  [heuristic] stands for
    [make_optimal_decision]; [None] stands for an exception that leaves the
    [try] block. *)
Definition decide_agent (heuristic : AgentState.t -> option TacticalDecision.t)
    (ai : SmartGameAI.t) (smitsimax : bool)
    (current_my_agents current_enemy_agents : list AgentState.t)
    (priority_target : option AgentState.t)
    (st : gmap Z TacticalDecision.t * gset (Z * Z)) (agent : AgentState.t)
    : option (gmap Z TacticalDecision.t * gset (Z * Z)) :=
  let '(agent_decisions, movement_blacklist) := st in
  if AgentState.is_alive agent then
    decision ←
      (if smitsimax then
         match agent_decisions !! AgentState.agent_id agent with
         | Some decision => Some decision
         | None => heuristic agent
         end
       else heuristic agent);
    let '(decision, movement_blacklist) :=
      resolve_collision ai current_my_agents current_enemy_agents agent decision
        movement_blacklist in
    decision ← focus_fire_override ai priority_target agent decision;
    Some (<[AgentState.agent_id agent := decision]> agent_decisions, movement_blacklist)
  else
    Some (<[AgentState.agent_id agent := TacticalDecision.plain "HUNKER_DOWN" 0]>
            agent_decisions, movement_blacklist).

(** Everything the [try] block computes before it prints.  [search] stands
    for [smitsimax_search], whose result depends on the clock and on the random
    device; [None] stands for an exception. *)
Definition compute_decisions
    (search : list AgentState.t -> list AgentState.t -> option (list TacticalDecision.t))
    (heuristic : list AgentState.t -> list AgentState.t -> AgentState.t
                 -> option TacticalDecision.t)
    (ai : SmartGameAI.t) (turn_number : Z)
    (current_my_agents current_enemy_agents : list AgentState.t)
    : option (gmap Z TacticalDecision.t * gset (Z * Z)) :=
  let priority_target := select_priority_target current_my_agents current_enemy_agents in
  let smitsimax := use_smitsimax current_my_agents current_enemy_agents turn_number in
  agent_decisions ←
    (if smitsimax then
       joint_actions ← search current_my_agents current_enemy_agents;
       Some (assign_joint_actions current_my_agents joint_actions)
     else Some ∅);
  fold_leftM
    (decide_agent (heuristic current_enemy_agents current_my_agents) ai smitsimax
       current_my_agents current_enemy_agents priority_target)
    current_my_agents (agent_decisions, ∅).

Definition alive_agents (current_my_agents : list AgentState.t) : list AgentState.t :=
  filter (fun agent => AgentState.is_alive agent = true) current_my_agents.

(** The decision printed for the agent of an output slot. *)
Definition slot_decision (agent_decisions : gmap Z TacticalDecision.t) (agent_id : Z)
    : TacticalDecision.t :=
  match agent_decisions !! agent_id with
  | Some decision => decision
  | None => TacticalDecision.plain "HUNKER_DOWN" 0
  end.

(** One output slot; [None] stands for reading [my_agent_ids[0]] of an empty
    vector. *)
Definition output_line (ai : SmartGameAI.t) (alive : list AgentState.t)
    (agent_decisions : gmap Z TacticalDecision.t) (line : nat) : option string :=
  match alive !! line with
  | Some agent =>
      let agent_id := AgentState.agent_id agent in
      Some (format_compound_action agent_id (slot_decision agent_decisions agent_id))
  | None =>
      fallback_agent_id ←
        match alive with
        | [] => head (my_agent_ids ai)
        | first :: _ => Some (AgentState.agent_id first)
        end;
      Some (to_string fallback_agent_id +:+ ";HUNKER_DOWN")
  end.

Definition output_lines (ai : SmartGameAI.t) (current_my_agents : list AgentState.t)
    (agent_decisions : gmap Z TacticalDecision.t) (my_agent_count : Z)
    : option (list string) :=
  mapM (output_line ai (alive_agents current_my_agents) agent_decisions)
       (seq 0 (Z.to_nat my_agent_count)).

(** The lines of the [catch] block. *)
Definition exception_lines (ai : SmartGameAI.t) : list string :=
  map (fun id => to_string id +:+ ";HUNKER_DOWN") (my_agent_ids ai).

Definition is_my_agent (ai : SmartGameAI.t) (agent : AgentState.t) : bool :=
  existsb (Z.eqb (AgentState.agent_id agent)) (my_agent_ids ai).

(** What [main] reads before the match loop: the id of the controlled side,
    the agent profiles, the board size, and the tile triples [(x, y, type)] in
    the order of the two reading loops. *)
Record ProfileLine := mkProfileLine {
  line_agent_id : Z;
  line_player : Z;
  line_shoot_cooldown : Z;
  line_optimal_range : Z;
  line_soaking_power : Z;
  line_splash_bombs : Z
}.

Record InitInput := mkInitInput {
  my_id : Z;
  profiles : list ProfileLine;
  width : Z;
  height : Z;
  tiles : list (Z * Z * Z)
}.

(** The profile of a line, with the class that [determine_agent_class] derives
    from its other fields. *)
Definition profile_of (line : ProfileLine) : AgentData.t :=
  let agent := AgentData.mk (line_agent_id line) (line_player line)
                 (line_shoot_cooldown line) (line_optimal_range line)
                 (line_soaking_power line) (line_splash_bombs line) GUNNER in
  AgentData.mk (AgentData.agent_id agent) (AgentData.player agent)
    (AgentData.shoot_cooldown agent) (AgentData.optimal_range agent)
    (AgentData.soaking_power agent) (AgentData.splash_bombs agent)
    (determine_agent_class agent).

(** The body of the loop over the profiles. *)
Definition register_profile (my_id : Z)
    (st : gmap Z AgentData.t * list Z * list Z) (line : ProfileLine)
    : gmap Z AgentData.t * list Z * list Z :=
  let '(all_agents_data, my_agent_ids, enemy_agent_ids) := st in
  let agent := profile_of line in
  let all_agents_data := <[AgentData.agent_id agent := agent]> all_agents_data in
  if AgentData.player agent =? my_id
  then (all_agents_data, my_agent_ids ++ [AgentData.agent_id agent], enemy_agent_ids)
  else (all_agents_data, my_agent_ids, enemy_agent_ids ++ [AgentData.agent_id agent]).

(** The body of the loop over the tiles: a triple outside the board is
    dropped. *)
Definition write_tile (board_width board_height : Z) (tile_map : list (list Z))
    (tile : Z * Z * Z) : list (list Z) :=
  let '(x, y, tile_type) := tile in
  if (x >=? 0) && (x <? board_width) && (y >=? 0) && (y <? board_height)
  then alter (fun row => <[Z.to_nat x := tile_type]> row) (Z.to_nat y) tile_map
  else tile_map.

(** The initialisation of [main]; [None] stands for the exception of the
    [vector] constructor on a negative size. *)
Definition initialise (input : InitInput) : option SmartGameAI.t :=
  let '(all_agents_data, my_agent_ids, enemy_agent_ids) :=
    fold_left (register_profile (my_id input)) (profiles input) (∅, [], []) in
  if (width input <? 0) || (height input <? 0) then None
  else
    let tile_map :=
      replicate (Z.to_nat (height input)) (replicate (Z.to_nat (width input)) 0) in
    let tile_map := fold_left (write_tile (width input) (height input)) (tiles input) tile_map in
    Some (SmartGameAI.mk all_agents_data my_agent_ids enemy_agent_ids
            (width input) (height input) tile_map).

(** One iteration of the match loop, from the parsed turn input to the lines
    written on [cout]. *)
Definition turn
    (search : list AgentState.t -> list AgentState.t -> option (list TacticalDecision.t))
    (heuristic : list AgentState.t -> list AgentState.t -> AgentState.t
                 -> option TacticalDecision.t)
    (ai : SmartGameAI.t) (turn_number : Z) (input : TurnInput) : option (list string) :=
  let current_my_agents := List.filter (is_my_agent ai) (agents input) in
  let current_enemy_agents :=
    List.filter (fun agent => negb (is_my_agent ai agent)) (agents input) in
  match compute_decisions search heuristic ai turn_number
          current_my_agents current_enemy_agents with
  | Some (agent_decisions, _) =>
      output_lines ai current_my_agents agent_decisions (my_agent_count input)
  | None => Some (exception_lines ai)
  end.

(** The match loop over the turns the feed still holds; [turn_number] is the
    counter before its increment at the top of the loop body. *)
Fixpoint match_loop
    (search : list AgentState.t -> list AgentState.t -> option (list TacticalDecision.t))
    (heuristic : list AgentState.t -> list AgentState.t -> AgentState.t
                 -> option TacticalDecision.t)
    (ai : SmartGameAI.t) (turn_number : Z) (feed : list TurnInput)
    : option (list (list string)) :=
  match feed with
  | [] => Some []
  | input :: feed' =>
      lines ← turn search heuristic ai (turn_number + 1) input;
      rest ← match_loop search heuristic ai (turn_number + 1) feed';
      Some (lines :: rest)
  end.

(** The turn of the program: the search is [smitsimax_search], the heuristic
    is [make_optimal_decision]. *)
Definition main_turn (scaled_direction : Z -> Z -> Z * Z)
    (outcome : SmitsimaxSearch.SearchOutcome)
    (ai : SmartGameAI.t) (turn_number : Z) (input : TurnInput) : option (list string) :=
  turn (SmitsimaxSearch.smitsimax_search outcome ai)
       (fun enemies allies agent =>
          make_optimal_decision scaled_direction ai agent enemies allies)
       ai turn_number input.

End Orchestrator.

(** ** The merged Smitsimax + tactical variant ([game/reference_integration.cpp]) *)

Module Merged.

Definition MAX_SEARCH_DEPTH : Z := 6.

Definition determine_agent_class (data : AgentData.t) : GameAgentClass :=
  if (AgentData.optimal_range data =? 6) && (AgentData.soaking_power data =? 24) then SNIPER
  else if (AgentData.optimal_range data =? 2) && (AgentData.splash_bombs data >=? 3) then BOMBER
  else if (AgentData.optimal_range data =? 2) && (AgentData.soaking_power data =? 32) then BERSERKER
  else if (AgentData.optimal_range data =? 4) && (AgentData.splash_bombs data >=? 2) then ASSAULT
  else GUNNER.

(** No guard on distance 0 here. *)
Definition calculate_shooting_damage (shooter : AgentData.t) (target : AgentState.t)
    (distance : Z) : Z :=
  if distance >? AgentData.optimal_range shooter then 0
  else
    let base_damage := AgentData.soaking_power shooter in
    let base_damage :=
      if distance >? 1 then
        let penalty := ((1 # 4) * inject_Z (distance - 1))%Q in
        double_to_int (inject_Z base_damage * (1 - penalty))%Q
      else base_damage in
    Z.max 0 base_damage.

(** The fields of a tree node that describe the move it stands for; the
    parent and child pointers are not read by the modelled functions. *)
Module SmitsimaxNode.
Record t := mk {
  action_type : string;
  target_x : Z;
  target_y : Z;
  target_agent_id : Z;
  tactical_priority : Q;
  visits : Z;
  total_score : Q
}.
Definition default : t := mk "HUNKER_DOWN" (-1) (-1) (-1) 0 0 0.
End SmitsimaxNode.

Module SimulationState.
Record t := mk {
  my_agents : list AgentState.t;
  enemy_agents : list AgentState.t;
  agent_data : gmap Z AgentData.t;
  width : Z;
  height : Z;
  current_nodes : list SmitsimaxNode.t
}.
End SimulationState.

(** [agent_data[id]] on the [unordered_map]: a missing key is inserted with a
    value-initialised record. *)
Definition AgentData_zero : AgentData.t := AgentData.mk 0 0 0 0 0 0 GUNNER.

Definition data_index (agent_data : gmap Z AgentData.t) (id : Z)
    : AgentData.t * gmap Z AgentData.t :=
  match agent_data !! id with
  | Some data => (data, agent_data)
  | None => (AgentData_zero, <[id := AgentData_zero]> agent_data)
  end.

Definition decrement_cooldown (agent : AgentState.t) : AgentState.t :=
  if AgentState.cooldown agent >? 0
  then AgentState.set_cooldown (AgentState.cooldown agent - 1) agent
  else agent.

Definition reset_to_base_state (sim : SimulationState.t)
    (base_my base_enemy : list AgentState.t) : SimulationState.t :=
  SimulationState.mk
    (map decrement_cooldown base_my) (map decrement_cooldown base_enemy)
    (SimulationState.agent_data sim) (SimulationState.width sim)
    (SimulationState.height sim) (SimulationState.current_nodes sim).

(** Writes the acting side and the opposing side back into the state. *)
Definition with_sides (sim : SimulationState.t) (is_my_agent : bool)
    (agents targets : list AgentState.t) (agent_data : gmap Z AgentData.t)
    : SimulationState.t :=
  SimulationState.mk
    (if is_my_agent then agents else targets)
    (if is_my_agent then targets else agents)
    agent_data (SimulationState.width sim) (SimulationState.height sim)
    (SimulationState.current_nodes sim).

(** [None] stands for an index outside [current_nodes]. *)
Definition apply_action (sim : SimulationState.t) (agent_index : Z) (is_my_agent : bool)
    : option SimulationState.t :=
  let agents := if is_my_agent then SimulationState.my_agents sim
                else SimulationState.enemy_agents sim in
  let targets := if is_my_agent then SimulationState.enemy_agents sim
                 else SimulationState.my_agents sim in
  if (agent_index <? 0) || (agent_index >=? Z.of_nat (length agents)) then Some sim
  else
    agent ← agents !! Z.to_nat agent_index;
    node ← SimulationState.current_nodes sim
           !! Z.to_nat (if is_my_agent then agent_index
                        else agent_index + Z.of_nat (length (SimulationState.my_agents sim)));
    let type := SmitsimaxNode.action_type node in
    if String.eqb type "SHOOT" && (AgentState.cooldown agent =? 0) then
      match list_find (fun target => AgentState.agent_id target
                                     = SmitsimaxNode.target_agent_id node) targets with
      | Some (j, target) =>
          let distance := manhattan_distance (AgentState.x agent) (AgentState.y agent)
                            (AgentState.x target) (AgentState.y target) in
          let '(data, agent_data) :=
            data_index (SimulationState.agent_data sim) (AgentState.agent_id agent) in
          let damage := calculate_shooting_damage data target distance in
          let target := AgentState.set_wetness (AgentState.wetness target + damage) target in
          let agent := AgentState.set_cooldown (AgentData.shoot_cooldown data) agent in
          Some (with_sides sim is_my_agent
                  (<[Z.to_nat agent_index := agent]> agents)
                  (<[j := target]> targets) agent_data)
      | None => Some sim
      end
    else if String.eqb type "MOVE" then
      if (SmitsimaxNode.target_x node >=? 0)
         && (SmitsimaxNode.target_x node <? SimulationState.width sim)
         && (SmitsimaxNode.target_y node >=? 0)
         && (SmitsimaxNode.target_y node <? SimulationState.height sim) then
        let agent := AgentState.set_pos (SmitsimaxNode.target_x node)
                       (SmitsimaxNode.target_y node) agent in
        Some (with_sides sim is_my_agent
                (<[Z.to_nat agent_index := agent]> agents) targets
                (SimulationState.agent_data sim))
      else Some sim
    else if String.eqb type "THROW" && (AgentState.cooldown agent =? 0)
            && (AgentState.splash_bombs agent >? 0) then
      let '(data, agent_data) :=
        data_index (SimulationState.agent_data sim) (AgentState.agent_id agent) in
      let targets :=
        map (fun target =>
               let dist_to_throw :=
                 manhattan_distance (AgentState.x target) (AgentState.y target)
                   (SmitsimaxNode.target_x node) (SmitsimaxNode.target_y node) in
               if dist_to_throw <=? 1 then
                 let damage := int_div (AgentData.soaking_power data) 2 in
                 AgentState.set_wetness (AgentState.wetness target + damage) target
               else target)
            targets in
      let agent :=
        AgentState.set_cooldown (AgentData.shoot_cooldown data)
          (AgentState.set_splash_bombs (AgentState.splash_bombs agent - 1) agent) in
      Some (with_sides sim is_my_agent
              (<[Z.to_nat agent_index := agent]> agents) targets agent_data)
    else Some sim.

Module PrecomputedMove.
Record t := mk {
  action_type : string;
  target_x : Z;
  target_y : Z;
  target_agent_id : Z;
  confidence_score : Q
}.
Definition default : t := mk "" (-1) (-1) (-1) 0.
End PrecomputedMove.

(** The value of a shot in priority 1 (sniper). *)
Definition sniper_shot_score (enemy : AgentState.t) (distance damage : Z) : Q :=
  let score := (2000 + inject_Z damage * 25)%Q in
  let score := if AgentState.wetness enemy + damage >=? 100 then (score + 3000)%Q else score in
  let score := if distance >=? 4 then (score + 1000)%Q else score in
  if distance =? 6 then (score + 500)%Q else score.

(** The value of a shot in priority 3 (gunner, assault, berserker). *)
Definition shot_score (agent_class : GameAgentClass) (enemy : AgentState.t)
    (distance damage : Z) : Q :=
  let score := (1500 + inject_Z damage * 20)%Q in
  let score := if AgentState.wetness enemy + damage >=? 100 then (score + 2500)%Q else score in
  let score :=
    if GameAgentClass_eqb agent_class GUNNER && (distance <=? 2)
    then (score + 500)%Q else score in
  let score :=
    if GameAgentClass_eqb agent_class ASSAULT && (distance <=? 3)
    then (score + 600)%Q else score in
  if GameAgentClass_eqb agent_class BERSERKER && (distance <=? 2)
  then (score + 800)%Q else score.

(** Living enemies within splash distance of a tile, and their summed damage. *)
Definition splash_count (data : AgentData.t) (enemies : list AgentState.t) (cx cy : Z)
    : Z * Z :=
  fold_left
    (fun '(splash_targets, total_splash_damage) splash_enemy =>
       if AgentState.wetness splash_enemy <? 100 then
         let splash_dist :=
           manhattan_distance cx cy (AgentState.x splash_enemy) (AgentState.y splash_enemy) in
         if splash_dist <=? 1
         then (splash_targets + 1,
               total_splash_damage + int_div (AgentData.soaking_power data) 2)
         else (splash_targets, total_splash_damage)
       else (splash_targets, total_splash_damage))
    enemies (0, 0).

Definition phase_sniper (agent : AgentState.t) (data : AgentData.t)
    (enemies : list AgentState.t) (st : Q * PrecomputedMove.t) : Q * PrecomputedMove.t :=
  fold_left
    (fun '(best_score, move) enemy =>
       if AgentState.wetness enemy <? 100 then
         let distance := manhattan_distance (AgentState.x agent) (AgentState.y agent)
                           (AgentState.x enemy) (AgentState.y enemy) in
         if distance <=? 6 then
           let damage := calculate_shooting_damage data enemy distance in
           if damage >? 0 then
             let score := sniper_shot_score enemy distance damage in
             if Qgtb score best_score then
               (score, PrecomputedMove.mk "SHOOT" (PrecomputedMove.target_x move)
                         (PrecomputedMove.target_y move) (AgentState.agent_id enemy) 1)
             else (best_score, move)
           else (best_score, move)
         else (best_score, move)
       else (best_score, move))
    enemies st.

Definition phase_bomber (agent : AgentState.t) (data : AgentData.t)
    (enemies : list AgentState.t) (st : Q * PrecomputedMove.t) : Q * PrecomputedMove.t :=
  let '(best_bomb_location, best_bomb_score) :=
    fold_left
      (fun '(best_bomb_location, best_bomb_score) primary_enemy =>
         if AgentState.wetness primary_enemy <? 100 then
           let distance := manhattan_distance (AgentState.x agent) (AgentState.y agent)
                             (AgentState.x primary_enemy) (AgentState.y primary_enemy) in
           if distance <=? 4 then
             let '(splash_targets, total_splash_damage) :=
               splash_count data enemies (AgentState.x primary_enemy)
                 (AgentState.y primary_enemy) in
             let bomb_score := (800 + inject_Z total_splash_damage * 15)%Q in
             let bomb_score :=
               if splash_targets >? 1 then (bomb_score + inject_Z splash_targets * 1000)%Q
               else bomb_score in
             if Qgtb bomb_score best_bomb_score
             then ((AgentState.x primary_enemy, AgentState.y primary_enemy), bomb_score)
             else (best_bomb_location, best_bomb_score)
           else (best_bomb_location, best_bomb_score)
         else (best_bomb_location, best_bomb_score))
      enemies ((-1, -1), 0%Q) in
  let '(best_score, move) := st in
  if Qgtb best_bomb_score best_score then
    (best_bomb_score,
     PrecomputedMove.mk "THROW" best_bomb_location.1 best_bomb_location.2
       (PrecomputedMove.target_agent_id move) 1)
  else (best_score, move).

Definition phase_shoot (agent : AgentState.t) (data : AgentData.t)
    (agent_class : GameAgentClass) (enemies : list AgentState.t)
    (st : Q * PrecomputedMove.t) : Q * PrecomputedMove.t :=
  fold_left
    (fun '(best_score, move) enemy =>
       if AgentState.wetness enemy <? 100 then
         let distance := manhattan_distance (AgentState.x agent) (AgentState.y agent)
                           (AgentState.x enemy) (AgentState.y enemy) in
         if distance <=? AgentData.optimal_range data then
           let damage := calculate_shooting_damage data enemy distance in
           if damage >? 0 then
             let score := shot_score agent_class enemy distance damage in
             if Qgtb score best_score then
               (score, PrecomputedMove.mk "SHOOT" (PrecomputedMove.target_x move)
                         (PrecomputedMove.target_y move) (AgentState.agent_id enemy) 1)
             else (best_score, move)
           else (best_score, move)
         else (best_score, move)
       else (best_score, move))
    enemies st.

Definition phase_throw (agent : AgentState.t) (data : AgentData.t)
    (enemies : list AgentState.t) (st : Q * PrecomputedMove.t) : Q * PrecomputedMove.t :=
  fold_left
    (fun '(best_score, move) enemy =>
       if AgentState.wetness enemy <? 100 then
         let distance := manhattan_distance (AgentState.x agent) (AgentState.y agent)
                           (AgentState.x enemy) (AgentState.y enemy) in
         if distance <=? AgentData.optimal_range data * 2 then
           let '(splash_count, total_damage) :=
             splash_count data enemies (AgentState.x enemy) (AgentState.y enemy) in
           let score := (600 + inject_Z total_damage * 12)%Q in
           let score :=
             if splash_count >? 1 then (score + inject_Z splash_count * 800)%Q else score in
           if Qgtb score best_score then
             (score, PrecomputedMove.mk "THROW" (AgentState.x enemy) (AgentState.y enemy)
                       (PrecomputedMove.target_agent_id move) (9 # 10))
           else (best_score, move)
         else (best_score, move)
       else (best_score, move))
    enemies st.

(** The nearest living enemy of priority 5, [(-1, -1)] when there is none. *)
Definition closest_enemy_pos (agent : AgentState.t) (enemies : list AgentState.t) : Z * Z :=
  (fold_left
     (fun '(closest_enemy_dist, closest_enemy_pos) enemy =>
        if AgentState.wetness enemy <? 100 then
          let dist := manhattan_distance (AgentState.x agent) (AgentState.y agent)
                        (AgentState.x enemy) (AgentState.y enemy) in
          if dist <? closest_enemy_dist then (dist, (AgentState.x enemy, AgentState.y enemy))
          else (closest_enemy_dist, closest_enemy_pos)
        else (closest_enemy_dist, closest_enemy_pos))
     enemies (999, (-1, -1))).2.

Definition combat_positioning_score (agent : AgentState.t) (data : AgentData.t)
    (agent_class : GameAgentClass) (enemies : list AgentState.t)
    (closest : Z * Z) (nx ny : Z) : Q :=
  fold_left
    (fun (score : Q) enemy =>
       if AgentState.wetness enemy <? 100 then
         let current_dist := manhattan_distance (AgentState.x agent) (AgentState.y agent)
                               (AgentState.x enemy) (AgentState.y enemy) in
         let new_dist := manhattan_distance nx ny (AgentState.x enemy) (AgentState.y enemy) in
         let score :=
           if (new_dist <=? AgentData.optimal_range data)
              && (current_dist >? AgentData.optimal_range data)
           then (score + 800)%Q else score in
         let score :=
           if new_dist <=? AgentData.optimal_range data then (score + 400)%Q else score in
         let score :=
           if GameAgentClass_eqb agent_class SNIPER then
             let score :=
               if (new_dist >=? 4) && (new_dist <=? 6) then (score + 600)%Q else score in
             if (new_dist >? current_dist) && (current_dist <? 4)
             then (score + 300)%Q else score
           else score in
         let score :=
           if GameAgentClass_eqb agent_class BOMBER && (new_dist <=? 4) then
             let score := (score + 500)%Q in
             if new_dist <=? 2 then (score + 300)%Q else score
           else score in
         let score :=
           if GameAgentClass_eqb agent_class BERSERKER && (new_dist <=? 2)
           then (score + 700)%Q else score in
         if negb (closest.1 =? -1) then
           let current_approach :=
             manhattan_distance (AgentState.x agent) (AgentState.y agent) closest.1 closest.2 in
           let new_approach := manhattan_distance nx ny closest.1 closest.2 in
           if new_approach <? current_approach then (score + 200)%Q else score
         else score
       else score)
    enemies 0%Q.

(** The movement score of one tile: the weighted sum, then the cap. *)
Definition capped_move_score (strategic_score combat_positioning_score : Q) : Q :=
  let combined_score := (strategic_score * 50 + combat_positioning_score)%Q in
  if Qgtb combined_score 1400 then 1400%Q else combined_score.

(** [strategic] stands for [evaluate_tile_strategic_value], which computes with
    [sqrt] and [pow]. *)
Definition phase_move
    (strategic : Z -> Z -> Z -> Z -> list AgentState.t -> list AgentState.t
                 -> GameAgentClass -> Q)
    (agent : AgentState.t) (data : AgentData.t) (agent_class : GameAgentClass)
    (temp_sim : SimulationState.t) (st : Q * PrecomputedMove.t) : Q * PrecomputedMove.t :=
  let enemies := SimulationState.enemy_agents temp_sim in
  let closest := closest_enemy_pos agent enemies in
  fold_left
    (fun '(best_score, move) '(dx, dy) =>
       let nx := AgentState.x agent + dx in
       let ny := AgentState.y agent + dy in
       if (nx >=? 0) && (nx <? SimulationState.width temp_sim)
          && (ny >=? 0) && (ny <? SimulationState.height temp_sim) then
         let blocked :=
           existsb (fun other =>
                      (AgentState.x other =? nx) && (AgentState.y other =? ny)
                      && negb (AgentState.agent_id other =? AgentState.agent_id agent))
                   (SimulationState.my_agents temp_sim)
           || existsb (fun other => (AgentState.x other =? nx) && (AgentState.y other =? ny))
                      enemies in
         if negb blocked then
           let strategic_score :=
             strategic nx ny (SimulationState.width temp_sim) (SimulationState.height temp_sim)
               (SimulationState.my_agents temp_sim) enemies agent_class in
           let combined_score :=
             capped_move_score strategic_score
               (combat_positioning_score agent data agent_class enemies closest nx ny) in
           if Qgtb combined_score best_score then
             (combined_score,
              PrecomputedMove.mk "MOVE" nx ny (PrecomputedMove.target_agent_id move)
                (if Qltb 1 (combined_score / 1400) then 1 else combined_score / 1400)%Q)
           else (best_score, move)
         else (best_score, move)
       else (best_score, move))
    SmartGameAI.cross_offsets st.

(** [None] stands for [std::out_of_range] from [agent_data.at]. *)
Definition compute_best_move_quick
    (strategic : Z -> Z -> Z -> Z -> list AgentState.t -> list AgentState.t
                 -> GameAgentClass -> Q)
    (agent : AgentState.t) (temp_sim : SimulationState.t) (agent_index : Z)
    : option PrecomputedMove.t :=
  data ← SimulationState.agent_data temp_sim !! AgentState.agent_id agent;
  let agent_class := determine_agent_class data in
  let enemies := SimulationState.enemy_agents temp_sim in
  let st := ((-1000)%Q, PrecomputedMove.default) in
  let st :=
    if GameAgentClass_eqb agent_class SNIPER && (AgentState.cooldown agent =? 0)
    then phase_sniper agent data enemies st else st in
  let st :=
    if GameAgentClass_eqb agent_class BOMBER && (AgentState.cooldown agent =? 0)
       && (AgentState.splash_bombs agent >? 0)
    then phase_bomber agent data enemies st else st in
  let st :=
    if (AgentState.cooldown agent =? 0) && negb (GameAgentClass_eqb agent_class SNIPER)
       && negb (GameAgentClass_eqb agent_class BOMBER)
    then phase_shoot agent data agent_class enemies st else st in
  let st :=
    if (AgentState.cooldown agent =? 0) && (AgentState.splash_bombs agent >? 0)
       && (GameAgentClass_eqb agent_class ASSAULT || GameAgentClass_eqb agent_class GUNNER)
    then phase_throw agent data enemies st else st in
  let '(_, move) := phase_move strategic agent data agent_class temp_sim st in
  if String.eqb (PrecomputedMove.action_type move) ""
  then Some (PrecomputedMove.mk "HUNKER_DOWN" (PrecomputedMove.target_x move)
               (PrecomputedMove.target_y move) (PrecomputedMove.target_agent_id move)
               (1 # 10))
  else Some move.

(** The output loop of the merged [main]; a null pointer in [best_moves] is
    [None].  The result is [None] when [my_agent_ids[0]] is read from an empty
    vector. *)
Definition final_action (my_agent_ids : list Z) (my_current_agents : list AgentState.t)
    (best_moves : list (option SmitsimaxNode.t)) (i : nat) : option string :=
  match my_current_agents !! i with
  | Some agent =>
      let agent_id := AgentState.agent_id agent in
      match best_moves !! i with
      | Some (Some move) =>
          let type := SmitsimaxNode.action_type move in
          if String.eqb type "SHOOT" then
            Some (to_string agent_id +:+ ";SHOOT "
                  +:+ to_string (SmitsimaxNode.target_agent_id move) +:+ "; HUNKER_DOWN")
          else if String.eqb type "MOVE" then
            Some (to_string agent_id +:+ ";MOVE " +:+ to_string (SmitsimaxNode.target_x move)
                  +:+ " " +:+ to_string (SmitsimaxNode.target_y move) +:+ "; HUNKER_DOWN")
          else if String.eqb type "THROW" then
            Some (to_string agent_id +:+ ";THROW " +:+ to_string (SmitsimaxNode.target_x move)
                  +:+ " " +:+ to_string (SmitsimaxNode.target_y move) +:+ "; HUNKER_DOWN")
          else Some (to_string agent_id +:+ ";HUNKER_DOWN; HUNKER_DOWN")
      | _ => Some (to_string agent_id +:+ ";HUNKER_DOWN; HUNKER_DOWN")
      end
  | None =>
      default_id ←
        match my_agent_ids !! i with
        | Some id => Some id
        | None => head my_agent_ids
        end;
      Some (to_string default_id +:+ ";HUNKER_DOWN; HUNKER_DOWN")
  end.

Definition output_lines (my_agent_ids : list Z) (my_current_agents : list AgentState.t)
    (best_moves : list (option SmitsimaxNode.t)) (my_agent_count : Z)
    : option (list string) :=
  mapM (final_action my_agent_ids my_current_agents best_moves)
       (seq 0 (Z.to_nat my_agent_count)).

(** The rows of [get_cached_moves]: a fresh move for every living agent, a
    default Hunker for a dead one.  [None] stands for the exception of
    [compute_best_move_quick]. *)
Definition get_cached_moves
    (strategic : Z -> Z -> Z -> Z -> list AgentState.t -> list AgentState.t
                 -> GameAgentClass -> Q)
    (sim : SimulationState.t) (my_agents enemy_agents : list AgentState.t)
    : option (list PrecomputedMove.t) :=
  mapM
    (fun '(i, agent) =>
       if AgentState.wetness agent <? 100 then
         let fresh_sim :=
           SimulationState.mk my_agents enemy_agents (SimulationState.agent_data sim)
             (SimulationState.width sim) (SimulationState.height sim)
             (SimulationState.current_nodes sim) in
         compute_best_move_quick strategic agent fresh_sim (Z.of_nat i)
       else
         Some (PrecomputedMove.mk "HUNKER_DOWN" (-1) (-1) (-1) 0))
    (imap (fun i agent => (i, agent)) my_agents).

(** [initialize]: the state of the search for the agents of a turn, every
    agent at the root of its tree. *)
Definition initialize (my_agents enemy_agents : list AgentState.t)
    (agent_data : gmap Z AgentData.t) (width height : Z) : SimulationState.t :=
  SimulationState.mk my_agents enemy_agents agent_data width height
    (replicate (length my_agents + length enemy_agents) SmitsimaxNode.default).

(** [search]: one node per controlled agent, filled from its computed move. *)
Definition search
    (strategic : Z -> Z -> Z -> Z -> list AgentState.t -> list AgentState.t
                 -> GameAgentClass -> Q)
    (sim : SimulationState.t) : option (list SmitsimaxNode.t) :=
  cached_moves ← get_cached_moves strategic sim (SimulationState.my_agents sim)
                    (SimulationState.enemy_agents sim);
  Some (imap
          (fun i (_ : AgentState.t) =>
             match cached_moves !! i with
             | Some cached =>
                 SmitsimaxNode.mk (PrecomputedMove.action_type cached)
                   (PrecomputedMove.target_x cached) (PrecomputedMove.target_y cached)
                   (PrecomputedMove.target_agent_id cached)
                   (PrecomputedMove.confidence_score cached) 100
                   (PrecomputedMove.confidence_score cached * 100)%Q
             | None => SmitsimaxNode.mk "HUNKER_DOWN" (-1) (-1) (-1) (1 # 10) 1 0
             end)
          (SimulationState.my_agents sim)).

(** The battlefield report of the merged [main] reads
    [all_agents_data[agent.agent_id]] for every controlled agent of the turn:
    a missing profile is inserted, value-initialised. *)
Definition report_profiles (all_agents_data : gmap Z AgentData.t)
    (my_current_agents : list AgentState.t) : gmap Z AgentData.t :=
  fold_left (fun data agent => (data_index data (AgentState.agent_id agent)).2)
            my_current_agents all_agents_data.

(** One iteration of the match loop of the merged [main], from the parsed turn
    input to the lines written on [cout]; an exception of [search] leaves a
    null pointer for every agent of the turn. *)
Definition turn
    (strategic : Z -> Z -> Z -> Z -> list AgentState.t -> list AgentState.t
                 -> GameAgentClass -> Q)
    (my_agent_ids : list Z) (all_agents_data : gmap Z AgentData.t) (width height : Z)
    (input : Orchestrator.TurnInput) : option (list string) :=
  let is_my_agent (agent : AgentState.t) :=
    existsb (Z.eqb (AgentState.agent_id agent)) my_agent_ids in
  let my_current_agents := List.filter is_my_agent (Orchestrator.agents input) in
  let enemy_current_agents :=
    List.filter (fun agent => negb (is_my_agent agent)) (Orchestrator.agents input) in
  let all_agents_data := report_profiles all_agents_data my_current_agents in
  let sim := initialize my_current_agents enemy_current_agents all_agents_data width height in
  let best_moves :=
    match search strategic sim with
    | Some best_moves => map Some best_moves
    | None => map (fun _ => None) my_current_agents
    end in
  output_lines my_agent_ids my_current_agents best_moves (Orchestrator.my_agent_count input).

(** [calculate_throw_damage]. *)
Definition calculate_throw_damage (thrower : AgentData.t) (distance : Z) (is_splash : bool)
    : Z :=
  if AgentData.splash_bombs thrower <=? 0 then 0
  else
    let base_damage := AgentData.soaking_power thrower in
    let base_damage := if is_splash then int_div base_damage 2 else base_damage in
    if distance >? AgentData.optimal_range thrower * 2 then 0
    else Z.max 0 base_damage.

(** The least effective distance from a tile to the living agents of a side;
    an agent at wetness 50 or more counts twice as far.  999 without a living
    agent. *)
Definition min_effective_distance (x y : Z) (agents : list AgentState.t) : Q :=
  fold_left
    (fun (min_dist : Q) agent =>
       if AgentState.wetness agent <? 100 then
         let base_dist :=
           inject_Z (manhattan_distance x y (AgentState.x agent) (AgentState.y agent)) in
         let penalty_multiplier := if AgentState.wetness agent >=? 50 then 2%Q else 1%Q in
         let effective_dist := (base_dist * penalty_multiplier)%Q in
         if Qltb effective_dist min_dist then effective_dist else min_dist
       else min_dist)
    agents 999%Q.

(** The tiles of the board, row by row. *)
Definition board_tiles (width height : Z) : list (Z * Z) :=
  y ← map Z.of_nat (seq 0 (Z.to_nat height));
  x ← map Z.of_nat (seq 0 (Z.to_nat width));
  [(x, y)].

Definition calculate_controlled_area (my_agents enemy_agents : list AgentState.t)
    (width height : Z) : Z * Z :=
  fold_left
    (fun '(my_tiles, enemy_tiles) '(x, y) =>
       let min_my_dist := min_effective_distance x y my_agents in
       let min_enemy_dist := min_effective_distance x y enemy_agents in
       if Qltb min_my_dist min_enemy_dist then (my_tiles + 1, enemy_tiles)
       else if Qltb min_enemy_dist min_my_dist then (my_tiles, enemy_tiles + 1)
       else (my_tiles, enemy_tiles))
    (board_tiles width height) (0, 0).

(** [create_tactical_moves]: Hunker, then the shots, the moves and the throws
    of an agent.  [priority] stands for [calculate_tactical_priority] on the
    action type, the target id and the target tile; its value for a move comes
    from [evaluate_tile_strategic_value].  [None] stands for
    [std::out_of_range] from [agent_data.at]. *)
Definition create_tactical_moves (priority : string -> Z -> Z -> Z -> Q)
    (agent : AgentState.t) (sim : SimulationState.t) (is_my_agent : bool)
    : option (list SmitsimaxNode.t) :=
  data ← SimulationState.agent_data sim !! AgentState.agent_id agent;
  let targets := if is_my_agent then SimulationState.enemy_agents sim
                 else SimulationState.my_agents sim in
  let hunker :=
    SmitsimaxNode.mk "HUNKER_DOWN" (-1) (-1) (-1) (priority "HUNKER_DOWN" (-1) (-1) (-1)) 0 0 in
  let shots :=
    if AgentState.cooldown agent =? 0 then
      omap (fun target =>
              if AgentState.wetness target <? 100 then
                let distance := manhattan_distance (AgentState.x agent) (AgentState.y agent)
                                  (AgentState.x target) (AgentState.y target) in
                if distance <=? AgentData.optimal_range data then
                  Some (SmitsimaxNode.mk "SHOOT" (-1) (-1) (AgentState.agent_id target)
                          (priority "SHOOT" (AgentState.agent_id target) (-1) (-1)) 0 0)
                else None
              else None)
           targets
    else [] in
  let moves :=
    omap (fun '(dx, dy) =>
            let nx := AgentState.x agent + dx in
            let ny := AgentState.y agent + dy in
            if (nx >=? 0) && (nx <? SimulationState.width sim)
               && (ny >=? 0) && (ny <? SimulationState.height sim) then
              let blocked :=
                existsb (fun other => (AgentState.x other =? nx) && (AgentState.y other =? ny))
                        (SimulationState.my_agents sim)
                || existsb (fun other => (AgentState.x other =? nx)
                                         && (AgentState.y other =? ny))
                           (SimulationState.enemy_agents sim) in
              if negb blocked then
                Some (SmitsimaxNode.mk "MOVE" nx ny (-1) (priority "MOVE" (-1) nx ny) 0 0)
              else None
            else None)
         SmartGameAI.cross_offsets in
  let throws :=
    if (AgentState.cooldown agent =? 0) && (AgentState.splash_bombs agent >? 0) then
      omap (fun target =>
              if AgentState.wetness target <? 100 then
                let distance := manhattan_distance (AgentState.x agent) (AgentState.y agent)
                                  (AgentState.x target) (AgentState.y target) in
                if distance <=? AgentData.optimal_range data * 2 then
                  Some (SmitsimaxNode.mk "THROW" (AgentState.x target) (AgentState.y target)
                          (-1)
                          (priority "THROW" (-1) (AgentState.x target) (AgentState.y target))
                          0 0)
                else None
              else None)
           targets
    else [] in
  Some (hunker :: shots ++ moves ++ throws).

(** [expand_node] for the agent with tree index [agent_index]: the children
    its node receives; a node that has children keeps them.  The index is
    compared with the unsigned sizes, so a negative one is never below them. *)
Definition expand_node (priority : string -> Z -> Z -> Z -> Q)
    (sim : SimulationState.t) (children : list SmitsimaxNode.t) (agent_index : Z)
    : option (list SmitsimaxNode.t) :=
  if negb (length children =? 0)%nat then Some children
  else
    let is_my_agent :=
      (agent_index >=? 0)
      && (agent_index <? Z.of_nat (length (SimulationState.my_agents sim))) in
    let agents := if is_my_agent then SimulationState.my_agents sim
                  else SimulationState.enemy_agents sim in
    let actual_index :=
      if is_my_agent then agent_index
      else agent_index - Z.of_nat (length (SimulationState.my_agents sim)) in
    if (actual_index >=? 0) && (actual_index <? Z.of_nat (length agents)) then
      agent ← agents !! Z.to_nat actual_index;
      moves ← create_tactical_moves priority agent sim is_my_agent;
      Some (children ++ moves)
    else Some children.

(** *** The cache key of a game state *)

Module GameStateKey.
Record t := mk {
  my_positions : list (Z * Z);
  enemy_positions : list (Z * Z)
}.
End GameStateKey.

(** [operator<] on [pair<int,int>], as [<=]. *)
Definition pair_le (p q : Z * Z) : Prop :=
  p.1 < q.1 \/ (p.1 = q.1 /\ p.2 <= q.2).

#[global] Instance pair_le_dec (p q : Z * Z) : Decision (pair_le p q).
Proof. unfold pair_le. apply _. Defined.

(** The entry of an agent: its id and a number made of position, wetness and
    cooldown. *)
Definition key_entry (agent : AgentState.t) : Z * Z :=
  (AgentState.agent_id agent,
   AgentState.x agent * 1000 + AgentState.y agent * 100
   + AgentState.wetness agent + AgentState.cooldown agent).

(** [create_state_key]; [std::sort] is any sort: the order on pairs is total,
    so the sorted vector is determined by its elements. *)
Definition create_state_key (my_agents enemy_agents : list AgentState.t) : GameStateKey.t :=
  GameStateKey.mk (merge_sort pair_le (map key_entry my_agents))
                  (merge_sort pair_le (map key_entry enemy_agents)).

(** [calculate_scenario_similarity]; [/] and [%] on ints truncate toward
    zero. *)
Definition calculate_scenario_similarity (key1 key2 : GameStateKey.t) : Q :=
  if negb (length (GameStateKey.my_positions key1)
           =? length (GameStateKey.my_positions key2))%nat
     || negb (length (GameStateKey.enemy_positions key1)
              =? length (GameStateKey.enemy_positions key2))%nat
  then 0%Q
  else
    let '(similarity, comparisons) :=
      fold_left
        (fun '(similarity, comparisons) '(entry1, entry2) =>
           let pos1 := entry1.2 in
           let pos2 := entry2.2 in
           let x1 := Z.quot pos1 1000 in
           let y1 := Z.quot (Z.rem pos1 1000) 100 in
           let h1 := Z.quot (Z.rem pos1 100) 10 in
           let x2 := Z.quot pos2 1000 in
           let y2 := Z.quot (Z.rem pos2 1000) 100 in
           let h2 := Z.quot (Z.rem pos2 100) 10 in
           let pos_sim := (1 - inject_Z (manhattan_distance x1 y1 x2 y2) / 20)%Q in
           let health_sim := (1 - inject_Z (Z.abs (h1 - h2)) / 10)%Q in
           let term := ((pos_sim + health_sim) / 2)%Q in
           ((similarity + (if Qltb 0 term then term else 0))%Q, comparisons + 1))
        (zip (GameStateKey.my_positions key1) (GameStateKey.my_positions key2))
        (0%Q, 0) in
    if comparisons >? 0 then (similarity / inject_Z comparisons)%Q else 0%Q.

End Merged.

(** * Vocabulary of the specification *)

Import SmartGameAI.

(** The formula of the specification: [floor (power * (1 - 0.25 * (d - 1)))]. *)
Definition attack_damage_formula (power d : Z) : Z :=
  Qfloor (inject_Z power * (1 - (1 # 4) * inject_Z (d - 1)))%Q.

(** A map is rectangular when every row is as long as row 0. *)
Definition rectangular (tile_map : list (list Z)) : Prop :=
  forall i row row0,
    tile_map !! i = Some row -> tile_map !! 0%nat = Some row0 -> length row = length row0.

(** Position by position, no wetness of [l'] is below the one of [l]. *)
Definition wetness_not_lowered (l l' : list AgentState.t) : Prop :=
  length l = length l' /\
  forall i a a', l !! i = Some a -> l' !! i = Some a' ->
                 AgentState.wetness a <= AgentState.wetness a'.

(** An action takes effect on the cooldown when it is a shot off cooldown or
    a throw with a bomb left. *)
Definition acts (agent : AgentState.t) (action : TacticalDecision.t) : Prop :=
  (TacticalDecision.action_type action = "SHOOT" /\ AgentState.cooldown agent = 0)
  \/ (TacticalDecision.action_type action = "THROW" /\ AgentState.splash_bombs agent > 0).

(** The agent with its cooldown lowered by one when it is positive. *)
Definition cooled (agent : AgentState.t) : AgentState.t :=
  AgentState.set_cooldown
    (if AgentState.cooldown agent >? 0 then AgentState.cooldown agent - 1
     else AgentState.cooldown agent) agent.

(** The side an action acts on, and the side it targets. *)
Definition acting_side (is_my_agent : bool) (sim : Merged.SimulationState.t)
    : list AgentState.t :=
  if is_my_agent then Merged.SimulationState.my_agents sim
  else Merged.SimulationState.enemy_agents sim.

Definition target_side (is_my_agent : bool) (sim : Merged.SimulationState.t)
    : list AgentState.t :=
  if is_my_agent then Merged.SimulationState.enemy_agents sim
  else Merged.SimulationState.my_agents sim.

(** The node an agent's action is read from. *)
Definition node_index (is_my_agent : bool) (sim : Merged.SimulationState.t)
    (agent_index : Z) : nat :=
  Z.to_nat (if is_my_agent then agent_index
            else agent_index + Z.of_nat (length (Merged.SimulationState.my_agents sim))).

(** What one action of the merged variant's simulation does to the state:
    [sim'] is the state after the action of [agent], read from [node]. *)
Definition merged_action_effects (is_my_agent : bool) (sim : Merged.SimulationState.t)
    (agent_index : Z) (agent : AgentState.t) (node : Merged.SmitsimaxNode.t)
    (sim' : Merged.SimulationState.t) : Prop :=
  let type := Merged.SmitsimaxNode.action_type node in
  let data := (Merged.data_index (Merged.SimulationState.agent_data sim)
                 (AgentState.agent_id agent)).1 in
  (type = "MOVE" ->
   0 <= Merged.SmitsimaxNode.target_x node < Merged.SimulationState.width sim ->
   0 <= Merged.SmitsimaxNode.target_y node < Merged.SimulationState.height sim ->
   acting_side is_my_agent sim'
   = <[Z.to_nat agent_index :=
         AgentState.set_pos (Merged.SmitsimaxNode.target_x node)
           (Merged.SmitsimaxNode.target_y node) agent]> (acting_side is_my_agent sim) /\
   target_side is_my_agent sim' = target_side is_my_agent sim) /\
  (type = "SHOOT" -> AgentState.cooldown agent = 0 ->
   forall j target,
     list_find (fun target => AgentState.agent_id target
                              = Merged.SmitsimaxNode.target_agent_id node)
               (target_side is_my_agent sim) = Some (j, target) ->
     let damage :=
       Merged.calculate_shooting_damage data target
         (manhattan_distance (AgentState.x agent) (AgentState.y agent)
            (AgentState.x target) (AgentState.y target)) in
     acting_side is_my_agent sim'
     = <[Z.to_nat agent_index :=
           AgentState.set_cooldown (AgentData.shoot_cooldown data) agent]>
         (acting_side is_my_agent sim) /\
     target_side is_my_agent sim'
     = <[j := AgentState.set_wetness (AgentState.wetness target + damage) target]>
         (target_side is_my_agent sim)) /\
  (type = "THROW" -> AgentState.cooldown agent = 0 -> AgentState.splash_bombs agent > 0 ->
   acting_side is_my_agent sim'
   = <[Z.to_nat agent_index :=
         AgentState.set_cooldown (AgentData.shoot_cooldown data)
           (AgentState.set_splash_bombs (AgentState.splash_bombs agent - 1) agent)]>
       (acting_side is_my_agent sim) /\
   target_side is_my_agent sim'
   = map (fun target =>
            if manhattan_distance (AgentState.x target) (AgentState.y target)
                 (Merged.SmitsimaxNode.target_x node) (Merged.SmitsimaxNode.target_y node)
               <=? 1
            then AgentState.set_wetness
                   (AgentState.wetness target + int_div (AgentData.soaking_power data) 2)
                   target
            else target)
         (target_side is_my_agent sim)) /\
  (type = "HUNKER_DOWN" -> sim' = sim) /\
  map AgentState.cooldown (target_side is_my_agent sim')
  = map AgentState.cooldown (target_side is_my_agent sim) /\
  (forall k other,
      k <> Z.to_nat agent_index ->
      acting_side is_my_agent sim !! k = Some other ->
      acting_side is_my_agent sim' !! k = Some other).

(** A shot or a throw of the merged variant that takes effect. *)
Definition takes_effect (is_my_agent : bool) (sim : Merged.SimulationState.t)
    (agent : AgentState.t) (node : Merged.SmitsimaxNode.t) : Prop :=
  AgentState.cooldown agent = 0 /\
  ((Merged.SmitsimaxNode.action_type node = "SHOOT" /\
    exists target, target ∈ target_side is_my_agent sim /\
                   AgentState.agent_id target = Merged.SmitsimaxNode.target_agent_id node)
   \/ (Merged.SmitsimaxNode.action_type node = "THROW" /\ AgentState.splash_bombs agent > 0)).

(** The running best of the evaluator holds a shot or a throw worth at least
    1520. *)
Definition shot_taken (st : Q * Merged.PrecomputedMove.t) : Prop :=
  (1520 <= st.1)%Q /\
  (Merged.PrecomputedMove.action_type st.2 = "SHOOT"
   \/ Merged.PrecomputedMove.action_type st.2 = "THROW").

(** A running best worth 1520 or more is not a movement. *)
Definition no_move_above (st : Q * Merged.PrecomputedMove.t) : Prop :=
  (1520 <= st.1)%Q ->
  Merged.PrecomputedMove.action_type st.2 = "SHOOT"
  \/ Merged.PrecomputedMove.action_type st.2 = "THROW".

(** A living enemy in range that the shot would damage. *)
Definition shot_available (agent : AgentState.t) (data : AgentData.t)
    (enemies : list AgentState.t) : Prop :=
  exists enemy,
    enemy ∈ enemies /\ AgentState.wetness enemy < 100 /\
    let distance := manhattan_distance (AgentState.x agent) (AgentState.y agent)
                      (AgentState.x enemy) (AgentState.y enemy) in
    distance <= AgentData.optimal_range data /\
    Merged.calculate_shooting_damage data enemy distance > 0.

(** The commands of an output line. *)
Inductive Command :=
| HUNKER_DOWN
| MOVE (x y : Z)
| SHOOT (target : Z)
| THROW (x y : Z).

(** The text of a command; [attack_word] is the keyword of the attack. *)
Definition render_command (attack_word : string) (c : Command) : string :=
  match c with
  | HUNKER_DOWN => "HUNKER_DOWN"
  | MOVE x y => "MOVE " +:+ to_string x +:+ " " +:+ to_string y
  | SHOOT target => attack_word +:+ " " +:+ to_string target
  | THROW x y => "THROW " +:+ to_string x +:+ " " +:+ to_string y
  end.

(** [<agentId>;<PRIMARY>[; <SECONDARY>]]. *)
Definition render_line (attack_word : string) (agent_id : Z)
    (primary : Command) (secondary : option Command) : string :=
  to_string agent_id +:+ ";" +:+ render_command attack_word primary
  +:+ match secondary with
      | Some c => "; " +:+ render_command attack_word c
      | None => ""
      end.

(** The commands a decision stands for: a plain move, shot or throw is
    followed by Hunker, a compound decision is a move followed by a shot or a
    throw, anything else is Hunker alone. *)
Definition decision_commands (decision : TacticalDecision.t) : Command * option Command :=
  let type := TacticalDecision.action_type decision in
  if String.eqb type "SHOOT" then
    (SHOOT (TacticalDecision.target_agent_id decision), Some HUNKER_DOWN)
  else if String.eqb type "MOVE" then
    (MOVE (TacticalDecision.target_x decision) (TacticalDecision.target_y decision),
     Some HUNKER_DOWN)
  else if String.eqb type "THROW" then
    (THROW (TacticalDecision.target_x decision) (TacticalDecision.target_y decision),
     Some HUNKER_DOWN)
  else if String.eqb type "MOVE_SHOOT" then
    (MOVE (TacticalDecision.target_x decision) (TacticalDecision.target_y decision),
     Some (SHOOT (TacticalDecision.target_agent_id decision)))
  else if String.eqb type "MOVE_THROW" then
    (MOVE (TacticalDecision.target_x decision) (TacticalDecision.target_y decision),
     Some (THROW (TacticalDecision.bomb_x decision) (TacticalDecision.bomb_y decision)))
  else (HUNKER_DOWN, None).

(** The shapes a line takes: Hunker alone, a primary followed by Hunker, or a
    move followed by a shot or a throw. *)
Definition well_shaped (line : Command * option Command) : Prop :=
  match line with
  | (HUNKER_DOWN, None) => True
  | (_, None) => False
  | (_, Some HUNKER_DOWN) => True
  | (MOVE _ _, Some (SHOOT _)) => True
  | (MOVE _ _, Some (THROW _ _)) => True
  | _ => False
  end.

(** The commands of a line of the merged variant: Hunker is printed twice. *)
Definition merged_commands (move : option Merged.SmitsimaxNode.t) : Command * option Command :=
  match move with
  | Some move =>
      let type := Merged.SmitsimaxNode.action_type move in
      if String.eqb type "SHOOT" then
        (SHOOT (Merged.SmitsimaxNode.target_agent_id move), Some HUNKER_DOWN)
      else if String.eqb type "MOVE" then
        (MOVE (Merged.SmitsimaxNode.target_x move) (Merged.SmitsimaxNode.target_y move),
         Some HUNKER_DOWN)
      else if String.eqb type "THROW" then
        (THROW (Merged.SmitsimaxNode.target_x move) (Merged.SmitsimaxNode.target_y move),
         Some HUNKER_DOWN)
      else (HUNKER_DOWN, Some HUNKER_DOWN)
  | None => (HUNKER_DOWN, Some HUNKER_DOWN)
  end.

(** Whether the character [c] occurs in [s]. *)
Fixpoint contains (c : Ascii.ascii) (s : string) : bool :=
  match s with
  | EmptyString => false
  | String c' s' => Ascii.eqb c c' || contains c s'
  end.

(** The destination tile of a decision of the Move class. *)
Definition move_dest (decision : TacticalDecision.t) : option (Z * Z) :=
  if Orchestrator.is_move_class decision
  then Some (TacticalDecision.target_x decision, TacticalDecision.target_y decision)
  else None.

(** A decision whose destination, if it has one, lies on the board. *)
Definition dest_in_bounds (ai : SmartGameAI.t) (decision : TacticalDecision.t) : Prop :=
  forall p, move_dest decision = Some p -> in_bounds ai p.1 p.2 = true.

(** A tile [q] that [agent] may adopt in place of the contested tile [p]: one
    of the eight neighbours of [p], on the board, not reserved, on which no
    other controlled agent and no enemy of the turn stands. *)
Definition free_alternative (ai : SmartGameAI.t)
    (current_my_agents current_enemy_agents : list AgentState.t)
    (agent : AgentState.t) (reserved : gset (Z * Z)) (p q : Z * Z) : Prop :=
  Z.max (Z.abs (q.1 - p.1)) (Z.abs (q.2 - p.2)) = 1 /\
  (0 <= q.1 < board_width ai /\ 0 <= q.2 < board_height ai) /\
  (q ∉ reserved) /\
  (forall other, other ∈ current_my_agents ->
                 AgentState.agent_id other <> AgentState.agent_id agent ->
                 (AgentState.x other, AgentState.y other) <> q) /\
  (forall enemy, enemy ∈ current_enemy_agents ->
                 (AgentState.x enemy, AgentState.y enemy) <> q).

(** One pass of the collision block for [agent], in the words of the
    specification: a decision that is no move passes; a move to a tile that is
    not reserved is kept and reserves the tile; a move to a reserved tile is
    redirected to a nearest free alternative, which is reserved; without a free
    alternative it becomes Hunker. *)
Inductive collision_step (ai : SmartGameAI.t)
    (current_my_agents current_enemy_agents : list AgentState.t)
    (agent : AgentState.t) (proposal : TacticalDecision.t) (reserved : gset (Z * Z))
    : TacticalDecision.t -> gset (Z * Z) -> Prop :=
| step_no_move :
    move_dest proposal = None ->
    collision_step ai current_my_agents current_enemy_agents agent proposal reserved
      proposal reserved
| step_claim (p : Z * Z) :
    move_dest proposal = Some p -> p ∉ reserved ->
    collision_step ai current_my_agents current_enemy_agents agent proposal reserved
      proposal ({[p]} ∪ reserved)
| step_adopt (p q : Z * Z) :
    move_dest proposal = Some p -> p ∈ reserved ->
    free_alternative ai current_my_agents current_enemy_agents agent reserved p q ->
    (forall q', free_alternative ai current_my_agents current_enemy_agents agent reserved p q' ->
                manhattan_distance p.1 p.2 q.1 q.2 <= manhattan_distance p.1 p.2 q'.1 q'.2) ->
    collision_step ai current_my_agents current_enemy_agents agent proposal reserved
      (TacticalDecision.set_target q.1 q.2 proposal) ({[q]} ∪ reserved)
| step_hunker (p : Z * Z) :
    move_dest proposal = Some p -> p ∈ reserved ->
    (forall q, ~ free_alternative ai current_my_agents current_enemy_agents agent reserved p q) ->
    collision_step ai current_my_agents current_enemy_agents agent proposal reserved
      (TacticalDecision.set_action_type "HUNKER_DOWN" proposal) reserved.

(** The left-to-right resolution of a list of agents with their proposals:
    each pass starts from the tiles the passes before it have reserved. *)
Inductive resolution (ai : SmartGameAI.t)
    (current_my_agents current_enemy_agents : list AgentState.t)
    : gset (Z * Z) -> list (AgentState.t * TacticalDecision.t * TacticalDecision.t)
      -> gset (Z * Z) -> Prop :=
| resolution_nil (reserved : gset (Z * Z)) :
    resolution ai current_my_agents current_enemy_agents reserved [] reserved
| resolution_cons (reserved reserved' reserved'' : gset (Z * Z)) (agent : AgentState.t)
    (proposal resolved : TacticalDecision.t)
    (rest : list (AgentState.t * TacticalDecision.t * TacticalDecision.t)) :
    collision_step ai current_my_agents current_enemy_agents agent proposal reserved
      resolved reserved' ->
    resolution ai current_my_agents current_enemy_agents reserved' rest reserved'' ->
    resolution ai current_my_agents current_enemy_agents reserved
      ((agent, proposal, resolved) :: rest) reserved''.

(** What the loop keeps of a pass: the proposal is the decision assigned by
    the search or the one of the heuristic, and the decision stored for the
    agent is the resolved one or a decision that is no move (the focus-fire
    override). *)
Definition step_recorded (heuristic : AgentState.t -> option TacticalDecision.t)
    (smitsimax : bool) (assigned agent_decisions : gmap Z TacticalDecision.t)
    (step : AgentState.t * TacticalDecision.t * TacticalDecision.t) : Prop :=
  let '(agent, proposal, resolved) := step in
  ((smitsimax = true /\ assigned !! AgentState.agent_id agent = Some proposal)
   \/ heuristic agent = Some proposal) /\
  exists final,
    agent_decisions !! AgentState.agent_id agent = Some final /\
    (final = resolved \/ move_dest final = None).

(** The invariant of the loop that ties it to the resolution: the living
    agents handled so far have been resolved from left to right, and the
    decisions assigned to the agents still to come are untouched. *)
Definition resolution_invariant (heuristic : AgentState.t -> option TacticalDecision.t)
    (ai : SmartGameAI.t) (smitsimax : bool)
    (current_my_agents current_enemy_agents : list AgentState.t)
    (assigned : gmap Z TacticalDecision.t) (done : list AgentState.t)
    (st : gmap Z TacticalDecision.t * gset (Z * Z)) : Prop :=
  (exists steps,
      map (fun step : AgentState.t * TacticalDecision.t * TacticalDecision.t => step.1.1) steps
      = Orchestrator.alive_agents done /\
      resolution ai current_my_agents current_enemy_agents ∅ steps st.2 /\
      Forall (step_recorded heuristic smitsimax assigned st.1) steps) /\
  (forall id, id ∉ map AgentState.agent_id done -> st.1 !! id = assigned !! id).

(** The decisions printed for the living agents, and their destinations. *)
Definition emitted_decisions (agent_decisions : gmap Z TacticalDecision.t)
    (current_my_agents : list AgentState.t) : list TacticalDecision.t :=
  map (fun agent => Orchestrator.slot_decision agent_decisions (AgentState.agent_id agent))
      (Orchestrator.alive_agents current_my_agents).

Definition finalized_destinations (agent_decisions : gmap Z TacticalDecision.t)
    (current_my_agents : list AgentState.t) : list (Z * Z) :=
  omap move_dest (emitted_decisions agent_decisions current_my_agents).

(** The invariant of the loop over the controlled agents, after the agents
    [done]: every stored decision has its destination on the board, the
    destinations kept for the living agents are pairwise distinct, and each of
    them is reserved in the blacklist. *)
Definition loop_invariant (ai : SmartGameAI.t) (done : list AgentState.t)
    (st : gmap Z TacticalDecision.t * gset (Z * Z)) : Prop :=
  (forall k decision, st.1 !! k = Some decision -> dest_in_bounds ai decision) /\
  NoDup (finalized_destinations st.1 done) /\
  (forall p, p ∈ finalized_destinations st.1 done -> p ∈ st.2).

(** ** Vocabulary of the further properties *)

(** The value [expectimax_evaluate] compares: the value of an option less
    ten times three tenths of its enemy-response penalty. *)
Definition adjusted_value (agent : AgentState.t) (enemies : list AgentState.t)
    (option : TacticalDecision.t) : Q :=
  (TacticalDecision.expected_value option
   - 3 * enemy_response_penalty agent option enemies)%Q.

(** The tile map has [board_height] rows of [board_width] cells. *)
Definition board_shape (ai : SmartGameAI.t) : Prop :=
  length (tile_map ai) = Z.to_nat (board_height ai) /\
  Forall (fun row => length row = Z.to_nat (board_width ai)) (tile_map ai).

(** The type the reading loop of [main] leaves on tile [(x, y)]: the one of the
    last triple that names the tile, 0 when there is none. *)
Definition last_tile (tiles : list (Z * Z * Z)) (x y : Z) : Z :=
  fold_left (fun tile_type '(tx, ty, t) => if (tx =? x) && (ty =? y) then t else tile_type)
            tiles 0.

(** A run of the search that returns: the root has no child, or the child
    with the most visits is one of the eight children of the root. *)
Definition search_returns (outcome : SmitsimaxSearch.SearchOutcome) : Prop :=
  match outcome with
  | SmitsimaxSearch.Raised => False
  | SmitsimaxSearch.NoChildren => True
  | SmitsimaxSearch.MostVisited n => (n < 8)%nat
  end.

(** What a compound decision of [find_best_compound_action] satisfies: the
    destination is a free tile of the board one or two steps away; a shot is
    aimed at a living enemy in range of the destination; a bomb lands on the
    board within throwing distance of the destination and hits a living enemy,
    and one that also hits an agent at wetness 70 or less hits two enemies. *)
Definition compound_sound (ai : SmartGameAI.t) (agent : AgentState.t) (data : AgentData.t)
    (enemies allies : list AgentState.t) (decision : TacticalDecision.t) : Prop :=
  let type := TacticalDecision.action_type decision in
  let nx := TacticalDecision.target_x decision in
  let ny := TacticalDecision.target_y decision in
  let bomb_x := TacticalDecision.bomb_x decision in
  let bomb_y := TacticalDecision.bomb_y decision in
  in_bounds ai nx ny = true /\
  ((nx, ny) ∉ occupied_positions agent enemies allies) /\
  1 <= Z.max (Z.abs (nx - AgentState.x agent)) (Z.abs (ny - AgentState.y agent)) <= 2 /\
  ((type = "MOVE_SHOOT" /\
    TacticalDecision.expected_damage decision = AgentData.soaking_power data /\
    0 < AgentData.soaking_power data /\
    exists enemy,
      enemy ∈ enemies /\ AgentState.is_alive enemy = true /\
      AgentState.agent_id enemy = TacticalDecision.target_agent_id decision /\
      manhattan_distance nx ny (AgentState.x enemy) (AgentState.y enemy)
      <= AgentData.optimal_range data)
   \/ (type = "MOVE_THROW" /\
       0 < AgentState.splash_bombs agent /\ AgentState.wetness agent < 80 /\
       in_bounds ai bomb_x bomb_y = true /\
       manhattan_distance nx ny bomb_x bomb_y <= THROW_DISTANCE_MAX /\
       TacticalDecision.expected_damage decision
       = (splash_on_enemies enemies bomb_x bomb_y).1 /\
       (manhattan_distance nx ny bomb_x bomb_y <= 1 -> AgentState.wetness agent <= 70 ->
        60 <= TacticalDecision.expected_damage decision) /\
       exists enemy,
         enemy ∈ enemies /\ AgentState.is_alive enemy = true /\
         manhattan_distance bomb_x bomb_y (AgentState.x enemy) (AgentState.y enemy) <= 1)).

(** A tile the cover strategy may move to: within two steps, of type 1 by
    [provides_cover], with no enemy and no other ally of the lists on it. *)
Definition cover_candidate (ai : SmartGameAI.t) (agent : AgentState.t)
    (enemies allies : list AgentState.t) (p : Z * Z) : Prop :=
  Z.max (Z.abs (p.1 - AgentState.x agent)) (Z.abs (p.2 - AgentState.y agent)) <= 2 /\
  GameMechanics.provides_cover p.1 p.2 (board_width ai) (board_height ai) (tile_map ai)
  = Some true /\
  (forall enemy, enemy ∈ enemies -> (AgentState.x enemy, AgentState.y enemy) <> p) /\
  (forall ally, ally ∈ allies -> AgentState.agent_id ally <> AgentState.agent_id agent ->
                (AgentState.x ally, AgentState.y ally) <> p).

(** What a move of [compute_best_move_quick] satisfies, by action type: a shot
    is aimed at a living enemy in range that it damages; a throw lands on the
    tile of a living enemy within twice the range, or, for a BOMBER, on
    [(-1, -1)]; a step goes to a free adjacent tile of the board. *)
Definition quick_move_valid (agent : AgentState.t) (data : AgentData.t)
    (temp_sim : Merged.SimulationState.t) (move : Merged.PrecomputedMove.t) : Prop :=
  let enemies := Merged.SimulationState.enemy_agents temp_sim in
  let type := Merged.PrecomputedMove.action_type move in
  let tx := Merged.PrecomputedMove.target_x move in
  let ty := Merged.PrecomputedMove.target_y move in
  (type = "SHOOT" /\ AgentState.cooldown agent = 0 /\
   exists enemy,
     enemy ∈ enemies /\ AgentState.wetness enemy < 100 /\
     AgentState.agent_id enemy = Merged.PrecomputedMove.target_agent_id move /\
     let distance := manhattan_distance (AgentState.x agent) (AgentState.y agent)
                       (AgentState.x enemy) (AgentState.y enemy) in
     distance <= AgentData.optimal_range data /\
     0 < Merged.calculate_shooting_damage data enemy distance)
  \/ (type = "THROW" /\ AgentState.cooldown agent = 0 /\ 0 < AgentState.splash_bombs agent /\
      ((Merged.determine_agent_class data = BOMBER /\ tx = -1 /\ ty = -1)
       \/ exists enemy,
            enemy ∈ enemies /\ AgentState.wetness enemy < 100 /\
            AgentState.x enemy = tx /\ AgentState.y enemy = ty /\
            manhattan_distance (AgentState.x agent) (AgentState.y agent) tx ty
            <= 2 * AgentData.optimal_range data))
  \/ (type = "MOVE" /\
      0 <= tx < Merged.SimulationState.width temp_sim /\
      0 <= ty < Merged.SimulationState.height temp_sim /\
      Z.max (Z.abs (tx - AgentState.x agent)) (Z.abs (ty - AgentState.y agent)) = 1 /\
      (forall enemy, enemy ∈ enemies ->
                     (AgentState.x enemy, AgentState.y enemy) <> (tx, ty)) /\
      (forall other, other ∈ Merged.SimulationState.my_agents temp_sim ->
                     AgentState.agent_id other <> AgentState.agent_id agent ->
                     (AgentState.x other, AgentState.y other) <> (tx, ty))).

(** The running best of [compute_best_move_quick] between two phases: no move
    yet, or a valid one. *)
Definition quick_state_valid (agent : AgentState.t) (data : AgentData.t)
    (temp_sim : Merged.SimulationState.t) (st : Q * Merged.PrecomputedMove.t) : Prop :=
  Merged.PrecomputedMove.action_type st.2 = ""
  \/ quick_move_valid agent data temp_sim st.2.

(** * Scenes *)

(** Agent profiles and an open board. *)
Definition sniper_data : AgentData.t := AgentData.mk 1 0 5 6 24 0 SNIPER.
Definition gunner_data (id player : Z) : AgentData.t := AgentData.mk id player 1 4 16 1 GUNNER.
Definition bomber_data (id player : Z) : AgentData.t := AgentData.mk id player 2 2 8 3 BOMBER.
Definition short_range_data (id player : Z) : AgentData.t := AgentData.mk id player 1 2 8 0 GUNNER.
Definition long_range_data (id player : Z) : AgentData.t := AgentData.mk id player 1 4 16 0 GUNNER.

Definition open_board (w h : nat) : list (list Z) := repeat (repeat 0 w) h.

(** The direction computation of the sniper strategy is not reached in the
    scenes of the primary engine below. *)
Definition no_direction (dx dy : Z) : Z * Z := (0, 0).

(** The evaluation of a position left out of the scene of the merged
    evaluator. *)
Definition flat_strategic (nx ny width height : Z) (my enemies : list AgentState.t)
    (agent_class : GameAgentClass) : Q := 0%Q.

(** Merged variant: a sniper (power 24) next to an enemy at wetness 90, about
    to shoot. *)
Definition sim_point_blank : Merged.SimulationState.t :=
  Merged.SimulationState.mk
    [AgentState.mk 1 0 0 0 0 0]
    [AgentState.mk 2 1 0 0 1 90]
    (<[1 := sniper_data]> (<[2 := gunner_data 2 1]> ∅))
    10 10
    [Merged.SmitsimaxNode.mk "SHOOT" (-1) (-1) 2 0 1 0; Merged.SmitsimaxNode.default].

(** A gunner at (0,0) shoots an enemy three tiles away. *)
Definition duel_my_agents : list AgentState.t := [AgentState.mk 1 0 0 0 0 0].
Definition duel_enemies : list AgentState.t := [AgentState.mk 2 3 0 3 0 10].
Definition duel_shot : TacticalDecision.t :=
  TacticalDecision.mk "SHOOT" (-1) (-1) 2 (-1) (-1) 3680 0 16.

(** Two controlled bombers (ids 1 and 2) and one enemy (id 3) on an open
    10 x 10 board. *)
Definition skirmish_ai : SmartGameAI.t :=
  SmartGameAI.mk
    (<[1 := bomber_data 1 0]> (<[2 := bomber_data 2 0]> (<[3 := bomber_data 3 1]> ∅)))
    [1; 2] [3] 10 10 (open_board 10 10).

Definition thrower : AgentState.t := AgentState.mk 1 0 0 0 3 0.

(** First scene: the ally stands at (3,1), below a wounded enemy at (3,0). *)
Definition ally_below : AgentState.t := AgentState.mk 2 3 1 0 3 0.
Definition wounded_enemy : AgentState.t := AgentState.mk 3 3 0 0 0 70.

(** Second scene: the ally stands at (2,1), the enemy at (3,0) is unhurt. *)
Definition ally_near : AgentState.t := AgentState.mk 2 2 1 0 3 0.
Definition fresh_enemy : AgentState.t := AgentState.mk 3 3 0 0 0 0.

(** One controlled agent at (0,0) and one enemy. *)
Definition short_range_ai : SmartGameAI.t :=
  SmartGameAI.mk (<[1 := short_range_data 1 0]> (<[3 := short_range_data 3 1]> ∅))
    [1] [3] 10 10 (open_board 10 10).

Definition lone_agent : AgentState.t := AgentState.mk 1 0 0 0 0 0.
Definition enemy_at_2 : AgentState.t := AgentState.mk 3 2 0 0 0 0.

(** Three controlled bombers (ids 1, 2 and 4) and one enemy are registered on
    an open 10 x 10 board; on turn 3 two of the three are left. *)
Definition trio_input : Orchestrator.InitInput :=
  Orchestrator.mkInitInput 0
    [Orchestrator.mkProfileLine 1 0 2 2 8 3; Orchestrator.mkProfileLine 2 0 2 2 8 3;
     Orchestrator.mkProfileLine 4 0 2 2 8 3; Orchestrator.mkProfileLine 3 1 2 2 8 3]
    10 10 [].

Definition trio_ai : SmartGameAI.t :=
  default (SmartGameAI.mk ∅ [] [] 0 0 []) (Orchestrator.initialise trio_input).

Definition turn_of_two : Orchestrator.TurnInput :=
  Orchestrator.mkTurnInput [thrower; ally_below; wounded_enemy] 2.

(** Two gunners at (0,0) and (0,1) and an enemy at (9,9). *)
Definition crossing_ai : SmartGameAI.t :=
  SmartGameAI.mk
    (<[1 := long_range_data 1 0]> (<[2 := long_range_data 2 0]>
       (<[3 := long_range_data 3 1]> ∅)))
    [1; 2] [3] 10 10 (open_board 10 10).

Definition crossing_agents : list AgentState.t :=
  [AgentState.mk 1 0 0 0 0 0; AgentState.mk 2 0 1 0 0 0].

Definition crossing_enemies : list AgentState.t := [AgentState.mk 3 9 9 0 0 0].

(** Two gunners at (2,2) and (1,2) and an enemy at (9,2), on turn 1: both
    propose the tile (3,2). *)
Definition colliding_agents : list AgentState.t :=
  [AgentState.mk 1 2 2 0 0 0; AgentState.mk 2 1 2 0 0 0].

Definition colliding_enemies : list AgentState.t := [AgentState.mk 3 9 2 0 0 0].

Definition colliding_proposals : list (option (Z * Z)) :=
  omap (fun agent =>
          move_dest <$> make_optimal_decision no_direction crossing_ai agent
                          colliding_enemies colliding_agents)
       colliding_agents.

Definition colliding_result : gmap Z TacticalDecision.t * gset (Z * Z) :=
  default (∅, ∅)
    (Orchestrator.compute_decisions
       (SmitsimaxSearch.smitsimax_search SmitsimaxSearch.NoChildren crossing_ai)
       (fun enemies allies agent =>
          make_optimal_decision no_direction crossing_ai agent enemies allies)
       crossing_ai 1 colliding_agents colliding_enemies).

(** The proposals of the lone agent of [short_range_ai] against an enemy two
    tiles away. *)
Definition lone_shot : TacticalDecision.t :=
  TacticalDecision.mk "SHOOT" (-1) (-1) 3 (-1) (-1) 1840 0 8.

Definition lone_moves : list TacticalDecision.t :=
  default [] (generate_random_moves short_range_ai lone_agent [enemy_at_2] [lone_agent] 50).

(** A 5 x 5 board with one cover tile at (1,0); the agent at (0,0) faces two
    enemies alone. *)
Definition cover_ai : SmartGameAI.t :=
  SmartGameAI.mk (<[1 := short_range_data 1 0]> ∅) [1] [3; 4] 5 5
    [[0; 1; 0; 0; 0]; [0; 0; 0; 0; 0]; [0; 0; 0; 0; 0]; [0; 0; 0; 0; 0]; [0; 0; 0; 0; 0]].

Definition two_enemies : list AgentState.t :=
  [AgentState.mk 3 4 4 0 0 0; AgentState.mk 4 4 3 0 0 0].

Definition cover_move : TacticalDecision.t :=
  TacticalDecision.mk "MOVE" 1 0 (-1) (-1) (-1) 3000 0 0.

(** What [main] reads before a match on a 3 x 2 board: two profiles, the six
    tiles of the board and a triple outside it. *)
Definition duel_input : Orchestrator.InitInput :=
  Orchestrator.mkInitInput 0
    [Orchestrator.mkProfileLine 1 0 1 4 16 1; Orchestrator.mkProfileLine 2 1 1 4 16 1] 3 2
    [(0, 0, 0); (1, 0, 1); (2, 0, 0); (0, 1, 0); (1, 1, 0); (2, 1, 0); (7, 7, 2)].

Definition duel_board_ai : SmartGameAI.t :=
  default (SmartGameAI.mk ∅ [] [] 0 0 []) (Orchestrator.initialise duel_input).

Definition duel_turn : Orchestrator.TurnInput :=
  Orchestrator.mkTurnInput [AgentState.mk 1 0 0 0 1 0; AgentState.mk 2 2 1 0 1 0] 1.

(** Merged variant: a bomber off cooldown with three bombs and no enemy. *)
Definition bomber_alone : Merged.SimulationState.t :=
  Merged.SimulationState.mk [thrower] [] (<[1 := bomber_data 1 0]> ∅) 10 10 [].

(** Merged variant: a move priority that is 0 everywhere, and a gunner two
    tiles from an enemy, with the shot at the enemy as its current node. *)
Definition flat_priority (type : string) (target_id x y : Z) : Q := 0%Q.

Definition shot_node : Merged.SmitsimaxNode.t :=
  Merged.SmitsimaxNode.mk "SHOOT" (-1) (-1) 2 0 0 0.

Definition sim_expanded : Merged.SimulationState.t :=
  Merged.SimulationState.mk
    [AgentState.mk 1 0 0 0 0 0] [AgentState.mk 2 2 0 0 0 0]
    (<[1 := gunner_data 1 0]> (<[2 := gunner_data 2 1]> ∅)) 10 10
    [shot_node; Merged.SmitsimaxNode.default].

Definition expanded_moves : list Merged.SmitsimaxNode.t :=
  default [] (Merged.create_tactical_moves flat_priority (AgentState.mk 1 0 0 0 0 0)
                sim_expanded true).

(** Two states of the merged cache with the same key: the agents are listed in
    another order, and agent 1 stands on another tile with other bombs. *)
Definition keyed_agents : list AgentState.t :=
  [AgentState.mk 1 1 0 0 0 0; AgentState.mk 2 5 5 0 0 0].

Definition keyed_agents' : list AgentState.t :=
  [AgentState.mk 2 5 5 0 0 0; AgentState.mk 1 0 10 0 3 0].

(** * Verification *)

(** ** Arithmetic of the double-to-int conversion *)

Lemma double_to_int_max0 (q : Q) :
  Z.max 0 (double_to_int q) = Z.max 0 (Qfloor q).
Proof.
  unfold double_to_int.
  destruct (Qle_bool 0 q) eqn:E; [reflexivity|].
  assert (Hneg : (q < 0)%Q).
  { apply Qnot_le_lt. intros H. apply Qle_bool_iff in H. congruence. }
  assert (Hc : Qceiling q <= 0).
  { change 0 with (- 0). unfold Qceiling.
    assert (0 <= Qfloor (- q)); [|lia].
    change 0 with (Qfloor 0). apply Qfloor_resp_le.
    apply Qlt_le_weak. rewrite <- (Qopp_involutive 0%Q) at 1.
    change (- - 0)%Q with 0%Q.
    apply (Qopp_lt_compat q 0) in Hneg. exact Hneg. }
  assert (Hf : Qfloor q <= 0).
  { change 0 with (Qfloor 0). apply Qfloor_resp_le. apply Qlt_le_weak, Hneg. }
  lia.
Qed.

(** ** C1: attack damage *)

Lemma attack_damage_formula_at_1 (power : Z) : attack_damage_formula power 1 = power.
Proof.
  unfold attack_damage_formula. cbn.
  rewrite Z.mul_1_r. apply Z.div_mul. discriminate.
Qed.

Lemma shooting_damage_in_range (power optimal_range d : Z) :
  1 <= d <= optimal_range ->
  GameMechanics.calculate_exact_shooting_damage power optimal_range d
  = Z.max 0 (attack_damage_formula power d).
Proof.
  intros [H1 H2]. unfold GameMechanics.calculate_exact_shooting_damage.
  replace (d >? optimal_range) with false by lia.
  replace (d =? 0) with false by lia. cbn [orb].
  destruct (d >? 1) eqn:E.
  - apply double_to_int_max0.
  - assert (d = 1) by lia. subst d. now rewrite attack_damage_formula_at_1.
Qed.

(** Away from distance 0 the merged variant computes the same damage; at
    distance 0 it has no guard and returns the full power. *)
Lemma merged_shooting_damage_agrees (shooter : AgentData.t) (target : AgentState.t)
    (d : Z) :
  d <> 0 ->
  Merged.calculate_shooting_damage shooter target d
  = GameMechanics.calculate_exact_shooting_damage
      (AgentData.soaking_power shooter) (AgentData.optimal_range shooter) d.
Proof.
  intros Hd. unfold Merged.calculate_shooting_damage,
    GameMechanics.calculate_exact_shooting_damage.
  replace (d =? 0) with false by lia. now rewrite orb_false_r.
Qed.

(** C1 (amended): in the primary engine the damage inside the range is the
    floored linear falloff, cut off below at 0; at distance 0 and beyond the
    range it is 0; it is never negative.  The merged variant returns the same
    inside and beyond the range and is never negative; its value at distance
    0, where it has no guard, is not stated. *)
Theorem attack_damage_spec (power optimal_range d : Z) :
  (1 <= d <= optimal_range ->
   GameMechanics.calculate_exact_shooting_damage power optimal_range d
   = Z.max 0 (attack_damage_formula power d)) /\
  (d = 0 \/ d > optimal_range ->
   GameMechanics.calculate_exact_shooting_damage power optimal_range d = 0) /\
  0 <= GameMechanics.calculate_exact_shooting_damage power optimal_range d /\
  (forall shooter target,
      AgentData.soaking_power shooter = power ->
      AgentData.optimal_range shooter = optimal_range ->
      (1 <= d <= optimal_range ->
       Merged.calculate_shooting_damage shooter target d
       = Z.max 0 (attack_damage_formula power d)) /\
      (d > optimal_range -> Merged.calculate_shooting_damage shooter target d = 0) /\
      0 <= Merged.calculate_shooting_damage shooter target d).
Proof.
  assert (Hout : d = 0 \/ d > optimal_range ->
                 GameMechanics.calculate_exact_shooting_damage power optimal_range d = 0).
  { intros H. unfold GameMechanics.calculate_exact_shooting_damage.
    destruct H as [-> | H]; [now rewrite orb_true_r|].
    now replace (d >? optimal_range) with true by lia. }
  split; [apply shooting_damage_in_range|]. split; [exact Hout|]. split.
  - unfold GameMechanics.calculate_exact_shooting_damage.
    destruct (_ || _); lia.
  - intros shooter target <- <-. split; [|split].
    + intros H. rewrite merged_shooting_damage_agrees by lia.
      now apply shooting_damage_in_range.
    + intros H. unfold Merged.calculate_shooting_damage.
      now replace (d >? AgentData.optimal_range shooter) with true by lia.
    + unfold Merged.calculate_shooting_damage.
      destruct (_ >? AgentData.optimal_range shooter); lia.
Qed.

Lemma attack_damage_spec_witness :
  GameMechanics.calculate_exact_shooting_damage 16 4 3 = 8 /\
  GameMechanics.calculate_exact_shooting_damage 16 4 0 = 0 /\
  Merged.calculate_shooting_damage (AgentData.mk 1 0 1 4 16 0 GUNNER)
    (AgentState.mk 2 3 0 0 0 0) 3 = 8.
Proof.
  destruct (attack_damage_spec 16 4 3) as (H1 & _ & _ & H3).
  destruct (attack_damage_spec 16 4 0) as (_ & H2 & _).
  split; [|split].
  - rewrite H1 by lia. reflexivity.
  - apply H2. left. reflexivity.
  - destruct (H3 (AgentData.mk 1 0 1 4 16 0 GUNNER) (AgentState.mk 2 3 0 0 0 0)
                eq_refl eq_refl) as (H4 & _).
    rewrite H4 by lia. reflexivity.
Defined.

(** C1 (as stated) fails for a sniper at its maximal range: the formula is
    negative, the code returns 0.  It also fails at distance 0 in the merged
    variant, which has no guard there and returns the full power. *)
Lemma attack_damage_formula_counterexample :
  1 <= 6 <= 6 /\
  GameMechanics.calculate_exact_shooting_damage 24 6 6 = 0 /\
  attack_damage_formula 24 6 = -6 /\
  GameMechanics.calculate_exact_shooting_damage 24 6 6 <> attack_damage_formula 24 6 /\
  Merged.calculate_shooting_damage (AgentData.mk 1 0 1 4 16 0 GUNNER)
    (AgentState.mk 2 0 0 0 0 0) 0 = 16.
Proof.
  split; [lia|]. split; [reflexivity|]. split; [reflexivity|].
  split; [vm_compute; discriminate|reflexivity].
Qed.

(** ** C10: totality of the combat model *)

Lemma checked_div_guarded (a : Q) (b : Z) : is_Some (checked_div a (Z.max 1 b)).
Proof.
  unfold checked_div. destruct (Z.max 1 b =? 0) eqn:E; [lia|eauto].
Qed.

(** Both divisions of the tactical advantage are guarded: the function returns
    a value for every input, zero alive enemies and zero total enemy health
    included. *)
Lemma calculate_tactical_advantage_total (my_alive enemy_alive my_health enemy_health : Z) :
  is_Some (GameMechanics.calculate_tactical_advantage
             my_alive enemy_alive my_health enemy_health).
Proof.
  unfold GameMechanics.calculate_tactical_advantage.
  destruct (checked_div_guarded (inject_Z my_alive) enemy_alive) as [q1 ->].
  destruct (checked_div_guarded (inject_Z my_health) enemy_health) as [q2 ->].
  cbn. eauto.
Qed.

Example tactical_advantage_no_enemy :
  GameMechanics.calculate_tactical_advantage 3 0 250 0 = Some (3 * (6 # 10) + 250 * (4 # 10))%Q.
Proof. vm_compute. reflexivity. Qed.

(** On a rectangular map the guard of [provides_cover] covers the access. *)
Lemma provides_cover_rectangular (x y board_width board_height : Z)
    (tile_map : list (list Z)) :
  rectangular tile_map ->
  is_Some (GameMechanics.provides_cover x y board_width board_height tile_map).
Proof.
  intros Hrect. unfold GameMechanics.provides_cover.
  destruct (_ || _ || _ || _); [eauto|].
  destruct ((y >=? 0) && (y <? Z.of_nat (length tile_map)) && (x >=? 0)) eqn:G; [|eauto].
  apply andb_prop in G as [G Gx]. apply andb_prop in G as [Gy1 Gy2].
  assert (Hy : (Z.to_nat y < length tile_map)%nat) by lia.
  destruct (lookup_lt_is_Some_2 tile_map (Z.to_nat y) Hy) as [row Hrow].
  assert (H0 : (0 < length tile_map)%nat) by lia.
  destruct (lookup_lt_is_Some_2 tile_map 0%nat H0) as [row0 Hrow0].
  unfold row_size. cbn. change (Z.to_nat 0) with 0%nat. rewrite Hrow0. cbn.
  destruct (x <? Z.of_nat (length row0)) eqn:Gx2; [|eauto].
  unfold grid_at. replace (y <? 0) with false by lia. replace (x <? 0) with false by lia.
  cbn. rewrite Hrow. cbn.
  assert (Hx : (Z.to_nat x < length row)%nat).
  { rewrite (Hrect _ _ _ Hrow Hrow0). lia. }
  destruct (lookup_lt_is_Some_2 row (Z.to_nat x) Hx) as [cell ->]. cbn. eauto.
Qed.

(** A guard that compares the column with the size of the row that is read,
    as [calculate_cover_protection] has it, covers the access on every map. *)
Lemma row_guard_covers_access (tile_map : list (list Z)) (x y : Z) :
  0 <= x -> 0 <= y ->
  (y <? Z.of_nat (length tile_map)) && (x <? default 0 (row_size tile_map y)) = true ->
  is_Some (grid_at tile_map y x).
Proof.
  intros Hx Hy G. apply andb_prop in G as [Gy Gx].
  unfold row_size in Gx. unfold grid_at.
  replace (y <? 0) with false in * by lia. replace (x <? 0) with false by lia.
  cbn [orb]. assert (Hlt : (Z.to_nat y < length tile_map)%nat) by lia.
  destruct (lookup_lt_is_Some_2 tile_map (Z.to_nat y) Hlt) as [row Hrow].
  rewrite Hrow in *. cbn in *. apply lookup_lt_is_Some_2. lia.
Qed.


(** ** C7: wetness under damage, kill probability *)

Lemma kill_probability_le_1 (current_wetness damage : Z) :
  (GameMechanics.calculate_kill_probability current_wetness damage <= 1)%Q.
Proof.
  unfold GameMechanics.calculate_kill_probability.
  set (total := int_add current_wetness damage).
  destruct (total >=? 100) eqn:E; [apply Qle_refl|].
  unfold Qle, Qdiv, Qmult, Qinv. cbn. lia.
Qed.

Lemma shooting_damage_nonneg (shooter : AgentData.t) (target : AgentState.t) (d : Z) :
  0 <= Merged.calculate_shooting_damage shooter target d.
Proof. unfold Merged.calculate_shooting_damage. destruct (d >? _); lia. Qed.

Lemma wetness_not_lowered_refl (l : list AgentState.t) : wetness_not_lowered l l.
Proof. split; [reflexivity|]. intros i a a' H1 H2. rewrite H1 in H2. injection H2 as ->. lia. Qed.

Lemma wetness_not_lowered_insert (l : list AgentState.t) (j : nat) (a b : AgentState.t) :
  l !! j = Some a -> AgentState.wetness a <= AgentState.wetness b ->
  wetness_not_lowered l (<[j := b]> l).
Proof.
  intros Hj Hw. split; [now rewrite length_insert|].
  intros i c c' H1 H2. destruct (decide (i = j)) as [->|Hne].
  - rewrite list_lookup_insert_eq in H2 by (eapply lookup_lt_Some; eauto).
    rewrite Hj in H1. injection H1 as ->. injection H2 as ->. exact Hw.
  - rewrite list_lookup_insert_ne in H2 by congruence.
    rewrite H1 in H2. injection H2 as ->. lia.
Qed.

Lemma wetness_not_lowered_map (f : AgentState.t -> AgentState.t) (l : list AgentState.t) :
  (forall a, AgentState.wetness a <= AgentState.wetness (f a)) ->
  wetness_not_lowered l (map f l).
Proof.
  intros Hf. split; [now rewrite length_map|].
  intros i a a' H1 H2. rewrite list_lookup_fmap, H1 in H2. injection H2 as <-. apply Hf.
Qed.

Lemma data_index_power_nonneg (agent_data : gmap Z AgentData.t) (id : Z) :
  (forall k data, agent_data !! k = Some data -> 0 <= AgentData.soaking_power data) ->
  0 <= AgentData.soaking_power (Merged.data_index agent_data id).1.
Proof.
  intros H. unfold Merged.data_index.
  destruct (agent_data !! id) eqn:E; cbn; [eauto|lia].
Qed.

Lemma apply_action_wetness (sim sim' : Merged.SimulationState.t)
    (agent_index : Z) (is_my_agent : bool) :
  (forall k data, Merged.SimulationState.agent_data sim !! k = Some data ->
                  0 <= AgentData.soaking_power data) ->
  Merged.apply_action sim agent_index is_my_agent = Some sim' ->
  wetness_not_lowered (Merged.SimulationState.my_agents sim)
                      (Merged.SimulationState.my_agents sim') /\
  wetness_not_lowered (Merged.SimulationState.enemy_agents sim)
                      (Merged.SimulationState.enemy_agents sim').
Proof.
  intros Hpow. unfold Merged.apply_action.
  set (agents := if is_my_agent then _ else _).
  set (targets := if is_my_agent then Merged.SimulationState.enemy_agents sim else _).
  assert (Hsides : forall agents' targets' agent_data,
             wetness_not_lowered agents agents' -> wetness_not_lowered targets targets' ->
             let s := Merged.with_sides sim is_my_agent agents' targets' agent_data in
             wetness_not_lowered (Merged.SimulationState.my_agents sim)
                                 (Merged.SimulationState.my_agents s) /\
             wetness_not_lowered (Merged.SimulationState.enemy_agents sim)
                                 (Merged.SimulationState.enemy_agents s)).
  { subst agents targets. destruct is_my_agent; cbn; tauto. }
  assert (Hrefl : wetness_not_lowered (Merged.SimulationState.my_agents sim)
                                      (Merged.SimulationState.my_agents sim) /\
                  wetness_not_lowered (Merged.SimulationState.enemy_agents sim)
                                      (Merged.SimulationState.enemy_agents sim)).
  { split; apply wetness_not_lowered_refl. }
  destruct (_ || _); [intros [= <-]; exact Hrefl|].
  destruct (agents !! Z.to_nat agent_index) as [agent|] eqn:Hagent; cbn; [|discriminate].
  destruct (Merged.SimulationState.current_nodes sim !! _) as [node|]; cbn; [|discriminate].
  destruct (String.eqb _ "SHOOT" && _).
  { destruct (list_find _ targets) as [[j target]|] eqn:Hfind;
      [|intros [= <-]; exact Hrefl].
    apply list_find_Some in Hfind as (Hj & _ & _).
    destruct (Merged.data_index _ _) as [data agent_data]. intros [= <-].
    apply Hsides.
    - eapply wetness_not_lowered_insert; [exact Hagent|]. cbn. lia.
    - eapply wetness_not_lowered_insert; [exact Hj|]. cbn.
      pose proof (shooting_damage_nonneg data target
        (manhattan_distance (AgentState.x agent) (AgentState.y agent)
           (AgentState.x target) (AgentState.y target))). lia. }
  destruct (String.eqb _ "MOVE").
  { destruct (_ && _ && _ && _); intros [= <-]; [|exact Hrefl].
    apply Hsides; [|apply wetness_not_lowered_refl].
    eapply wetness_not_lowered_insert; [exact Hagent|]. cbn. lia. }
  destruct (String.eqb _ "THROW" && _ && _); [|intros [= <-]; exact Hrefl].
  pose proof (data_index_power_nonneg _ (AgentState.agent_id agent) Hpow) as Hp.
  destruct (Merged.data_index _ _) as [data agent_data]. cbn in Hp. intros [= <-].
  apply Hsides.
  - eapply wetness_not_lowered_insert; [exact Hagent|]. cbn. lia.
  - apply wetness_not_lowered_map. intros a.
    destruct (_ <=? 1); cbn; [|lia].
    unfold int_div. pose proof (Z.quot_pos (AgentData.soaking_power data) 2 Hp). lia.
Qed.

Lemma wetness_not_lowered_nonneg (l l' : list AgentState.t) :
  wetness_not_lowered l l' ->
  Forall (fun a => 0 <= AgentState.wetness a) l ->
  Forall (fun a => 0 <= AgentState.wetness a) l'.
Proof.
  intros [Hlen H] Hl. apply Forall_lookup. intros i a' Ha'.
  assert (Hi : (i < length l)%nat) by (rewrite Hlen; eapply lookup_lt_Some; eauto).
  destruct (lookup_lt_is_Some_2 l i Hi) as [a Ha].
  pose proof (proj1 (Forall_lookup _ l) Hl i a Ha). cbn in *.
  specialize (H i a a' Ha Ha'). lia.
Qed.

(** C7 (amended): applying an action of the simulation never lowers a wetness,
    so wetness values that are non-negative stay non-negative; and the kill
    probability computed from any wetness and damage is at most 1.  (No upper
    clamp at 100 is applied to the wetness itself.) *)
Theorem wetness_damage_and_kill_probability
    (sim sim' : Merged.SimulationState.t) (agent_index : Z) (is_my_agent : bool)
    (current_wetness damage : Z) :
  (forall k data, Merged.SimulationState.agent_data sim !! k = Some data ->
                  0 <= AgentData.soaking_power data) ->
  Merged.apply_action sim agent_index is_my_agent = Some sim' ->
  (wetness_not_lowered (Merged.SimulationState.my_agents sim)
                       (Merged.SimulationState.my_agents sim') /\
   wetness_not_lowered (Merged.SimulationState.enemy_agents sim)
                       (Merged.SimulationState.enemy_agents sim')) /\
  (Forall (fun a => 0 <= AgentState.wetness a)
          (Merged.SimulationState.my_agents sim ++ Merged.SimulationState.enemy_agents sim) ->
   Forall (fun a => 0 <= AgentState.wetness a)
          (Merged.SimulationState.my_agents sim' ++ Merged.SimulationState.enemy_agents sim')) /\
  (GameMechanics.calculate_kill_probability current_wetness damage <= 1)%Q.
Proof.
  intros Hpow Happly.
  destruct (apply_action_wetness sim sim' agent_index is_my_agent Hpow Happly) as [Hmy Hen].
  split; [split; assumption|]. split; [|apply kill_probability_le_1].
  rewrite !Forall_app. intros [H1 H2]. split; eapply wetness_not_lowered_nonneg; eauto.
Qed.

Lemma wetness_damage_and_kill_probability_witness :
  wetness_not_lowered (Merged.SimulationState.enemy_agents sim_point_blank)
                      [AgentState.mk 2 1 0 0 1 114] /\
  (GameMechanics.calculate_kill_probability 90 24 <= 1)%Q.
Proof.
  assert (Hpow : forall k data,
             Merged.SimulationState.agent_data sim_point_blank !! k = Some data ->
             0 <= AgentData.soaking_power data).
  { intros k data. cbn. intros H.
    apply lookup_insert_Some in H as [[_ <-]|[_ H]]; [cbn; lia|].
    apply lookup_insert_Some in H as [[_ <-]|[_ H]]; [cbn; lia|].
    rewrite lookup_empty in H. discriminate. }
  pose proof (wetness_damage_and_kill_probability sim_point_blank
    (Merged.SimulationState.mk [AgentState.mk 1 0 0 5 0 0] [AgentState.mk 2 1 0 0 1 114]
       (<[1 := sniper_data]> (<[2 := gunner_data 2 1]> ∅)) 10 10
       [Merged.SmitsimaxNode.mk "SHOOT" (-1) (-1) 2 0 1 0; Merged.SmitsimaxNode.default])
    0 true 90 24 Hpow eq_refl) as [[_ H] [_ Hk]].
  split; [exact H|exact Hk].
Defined.

(** C7 (as stated) fails: the shot takes the target's wetness from 90 to 114,
    above 100, and nothing clamps it. *)
Lemma wetness_clamp_counterexample :
  (fun s => map AgentState.wetness (Merged.SimulationState.enemy_agents s))
    <$> Merged.apply_action sim_point_blank 0 true = Some [114] /\
  ~ (0 <= 114 <= 100).
Proof. split; [reflexivity|lia]. Qed.

(** ** C2 and C6: the simulation step of the search *)

Lemma apply_joint_action_length (agents : list AgentState.t)
    (actions : list TacticalDecision.t) (enemies : list AgentState.t) :
  length (SmitsimaxSearch.apply_joint_action agents actions enemies) = length agents.
Proof.
  revert actions. induction agents as [|a agents IH]; intros [|act actions]; cbn; auto.
Qed.

(** The loop touches position [i] exactly when both vectors have one. *)
Lemma apply_joint_action_lookup (agents : list AgentState.t)
    (actions : list TacticalDecision.t) (enemies : list AgentState.t) (i : nat) :
  SmitsimaxSearch.apply_joint_action agents actions enemies !! i =
  match agents !! i, actions !! i with
  | Some agent, Some action => Some (SmitsimaxSearch.apply_one agent action)
  | other, _ => other
  end.
Proof.
  revert actions i. induction agents as [|a agents IH]; intros [|act actions] [|i]; cbn; auto.
  destruct (agents !! i); reflexivity.
Qed.

Lemma apply_one_wetness (agent : AgentState.t) (action : TacticalDecision.t) :
  AgentState.wetness (SmitsimaxSearch.apply_one agent action) = AgentState.wetness agent.
Proof.
  unfold SmitsimaxSearch.apply_one.
  repeat match goal with |- context [if ?c then _ else _] => destruct c end; reflexivity.
Qed.

Lemma apply_joint_action_wetness (agents : list AgentState.t)
    (actions : list TacticalDecision.t) (enemies : list AgentState.t) :
  map AgentState.wetness (SmitsimaxSearch.apply_joint_action agents actions enemies)
  = map AgentState.wetness agents.
Proof.
  revert actions. induction agents as [|a agents IH]; intros [|act actions]; cbn; auto.
  now rewrite apply_one_wetness, IH.
Qed.

(** The enemy response only moves the enemies. *)
Lemma enemy_response_keeps_state (enemies my_agents : list AgentState.t) (b : bool) :
  map (fun e => (AgentState.wetness e, AgentState.cooldown e, AgentState.splash_bombs e))
      (SmitsimaxSearch.simulate_enemy_response_enhanced enemies my_agents b)
  = map (fun e => (AgentState.wetness e, AgentState.cooldown e, AgentState.splash_bombs e))
        enemies.
Proof.
  unfold SmitsimaxSearch.simulate_enemy_response_enhanced.
  rewrite map_map. apply map_ext. intros e.
  repeat match goal with
         | |- context [if ?c then _ else _] => destruct c
         | |- context [match ?c with Some _ => _ | None => _ end] => destruct c
         end; reflexivity.
Qed.

(** What one pass of the loop does to a living agent, by kind of action. *)
Lemma apply_one_move (agent : AgentState.t) (action : TacticalDecision.t) :
  AgentState.is_alive agent = true ->
  TacticalDecision.action_type action = "MOVE" ->
  SmitsimaxSearch.apply_one agent action
  = AgentState.mk (AgentState.agent_id agent)
      (TacticalDecision.target_x action) (TacticalDecision.target_y action)
      (if AgentState.cooldown agent >? 0 then AgentState.cooldown agent - 1
       else AgentState.cooldown agent)
      (AgentState.splash_bombs agent) (AgentState.wetness agent).
Proof.
  intros Halive Htype. unfold SmitsimaxSearch.apply_one. rewrite Halive, Htype. cbn.
  destruct (AgentState.cooldown agent >? 0); reflexivity.
Qed.

Lemma apply_one_shoot (agent : AgentState.t) (action : TacticalDecision.t) :
  AgentState.is_alive agent = true ->
  TacticalDecision.action_type action = "SHOOT" ->
  AgentState.cooldown agent = 0 ->
  SmitsimaxSearch.apply_one agent action = agent.
Proof.
  intros Halive Htype Hcd. unfold SmitsimaxSearch.apply_one. rewrite Halive, Htype, Hcd. cbn.
  destruct agent; cbn in *. now subst.
Qed.

Lemma apply_one_throw (agent : AgentState.t) (action : TacticalDecision.t) :
  AgentState.is_alive agent = true ->
  TacticalDecision.action_type action = "THROW" ->
  AgentState.splash_bombs agent > 0 ->
  SmitsimaxSearch.apply_one agent action
  = AgentState.mk (AgentState.agent_id agent) (AgentState.x agent) (AgentState.y agent)
      1 (AgentState.splash_bombs agent - 1) (AgentState.wetness agent).
Proof.
  intros Halive Htype Hb. unfold SmitsimaxSearch.apply_one. rewrite Halive, Htype. cbn.
  replace (AgentState.splash_bombs agent >? 0) with true by lia. reflexivity.
Qed.

Lemma apply_one_idle_cooldown (agent : AgentState.t) (action : TacticalDecision.t) :
  AgentState.is_alive agent = true ->
  ~ acts agent action ->
  AgentState.cooldown (SmitsimaxSearch.apply_one agent action)
  = (if AgentState.cooldown agent >? 0 then AgentState.cooldown agent - 1
     else AgentState.cooldown agent)
  /\ AgentState.splash_bombs (SmitsimaxSearch.apply_one agent action)
     = AgentState.splash_bombs agent.
Proof.
  intros Halive Hacts. unfold SmitsimaxSearch.apply_one. rewrite Halive. cbn.
  destruct (String.eqb _ "MOVE") eqn:Em.
  { cbn. destruct (AgentState.cooldown agent >? 0); auto. }
  destruct (String.eqb _ "SHOOT") eqn:Es.
  { apply String.eqb_eq in Es. cbn.
    destruct (AgentState.cooldown agent =? 0) eqn:Ec.
    - exfalso. apply Hacts. left. split; [assumption|lia].
    - destruct (String.eqb _ "THROW") eqn:Et; [apply String.eqb_eq in Et; congruence|].
      cbn. destruct (AgentState.cooldown agent >? 0); auto. }
  cbn. destruct (String.eqb _ "THROW") eqn:Et; cbn.
  - apply String.eqb_eq in Et.
    destruct (AgentState.splash_bombs agent >? 0) eqn:Eb.
    + exfalso. apply Hacts. right. split; [assumption|lia].
    + destruct (AgentState.cooldown agent >? 0); auto.
  - destruct (AgentState.cooldown agent >? 0); auto.
Qed.

Lemma apply_one_dead (agent : AgentState.t) (action : TacticalDecision.t) :
  AgentState.is_alive agent = false -> SmitsimaxSearch.apply_one agent action = agent.
Proof. intros H. unfold SmitsimaxSearch.apply_one. now rewrite H. Qed.

Lemma apply_one_hunker (agent : AgentState.t) (action : TacticalDecision.t) :
  AgentState.is_alive agent = true ->
  TacticalDecision.action_type action = "HUNKER_DOWN" ->
  SmitsimaxSearch.apply_one agent action = cooled agent.
Proof.
  intros Halive Htype. unfold SmitsimaxSearch.apply_one, cooled. rewrite Halive, Htype. cbn.
  destruct (AgentState.cooldown agent >? 0); [reflexivity|]. now destruct agent.
Qed.

Lemma with_sides_acting (sim : Merged.SimulationState.t) (is_my_agent : bool)
    (agents targets : list AgentState.t) (agent_data : gmap Z AgentData.t) :
  acting_side is_my_agent (Merged.with_sides sim is_my_agent agents targets agent_data)
  = agents /\
  target_side is_my_agent (Merged.with_sides sim is_my_agent agents targets agent_data)
  = targets.
Proof. destruct is_my_agent; split; reflexivity. Qed.

(** The effects of one action of the merged variant's simulation. *)
Lemma apply_action_effects (sim : Merged.SimulationState.t) (agent_index : Z)
    (is_my_agent : bool) (agent : AgentState.t) (node : Merged.SmitsimaxNode.t) :
  0 <= agent_index ->
  acting_side is_my_agent sim !! Z.to_nat agent_index = Some agent ->
  Merged.SimulationState.current_nodes sim !! node_index is_my_agent sim agent_index
  = Some node ->
  exists sim',
    Merged.apply_action sim agent_index is_my_agent = Some sim' /\
    merged_action_effects is_my_agent sim agent_index agent node sim'.
Proof.
  intros Hidx Hagent Hnode. unfold merged_action_effects.
  set (type := Merged.SmitsimaxNode.action_type node).
  set (data := (Merged.data_index (Merged.SimulationState.agent_data sim)
                  (AgentState.agent_id agent)).1).
  assert (Hlt : (Z.to_nat agent_index < length (acting_side is_my_agent sim))%nat)
    by (eapply lookup_lt_Some; eauto).
  unfold Merged.apply_action. fold (acting_side is_my_agent sim).
  fold (target_side is_my_agent sim). fold (node_index is_my_agent sim agent_index).
  replace ((agent_index <? 0)
           || (agent_index >=? Z.of_nat (length (acting_side is_my_agent sim))))
    with false by lia.
  rewrite Hagent. cbn [mbind option_bind]. rewrite Hnode. cbn [mbind option_bind].
  cbv zeta. fold type.
  destruct (Merged.data_index (Merged.SimulationState.agent_data sim)
              (AgentState.agent_id agent)) as [data0 agent_data] eqn:Hd.
  subst data. cbn [fst].
  assert (Hkeep : forall k other (a : AgentState.t),
             k <> Z.to_nat agent_index ->
             acting_side is_my_agent sim !! k = Some other ->
             <[Z.to_nat agent_index := a]> (acting_side is_my_agent sim) !! k = Some other).
  { intros k other a Hk Ho. rewrite list_lookup_insert_ne by congruence. exact Ho. }
  destruct (String.eqb type "SHOOT") eqn:Eshoot.
  - apply String.eqb_eq in Eshoot.
    destruct (AgentState.cooldown agent =? 0) eqn:Ecd; cbn [andb].
    + destruct (list_find _ (target_side is_my_agent sim)) as [[j target]|] eqn:Hfind.
      * eexists. split; [reflexivity|].
        destruct (with_sides_acting sim is_my_agent
                    (<[Z.to_nat agent_index :=
                         AgentState.set_cooldown (AgentData.shoot_cooldown data0) agent]>
                       (acting_side is_my_agent sim))
                    (<[j := AgentState.set_wetness
                              (AgentState.wetness target
                               + Merged.calculate_shooting_damage data0 target
                                   (manhattan_distance (AgentState.x agent)
                                      (AgentState.y agent) (AgentState.x target)
                                      (AgentState.y target))) target]>
                       (target_side is_my_agent sim)) agent_data) as [Ha Ht].
        rewrite Ha, Ht.
        split; [intros H; rewrite Eshoot in H; discriminate H|].
        split; [intros _ _ j' target' [= <- <-]; split; reflexivity|].
        split; [intros H; rewrite Eshoot in H; discriminate H|].
        split; [intros H; rewrite Eshoot in H; discriminate H|].
        split; [|intros k other Hk Ho; now apply Hkeep].
        apply list_find_Some in Hfind as (Hj & _ & _).
        apply list_eq. intros k. rewrite !list_lookup_fmap.
        destruct (decide (k = j)) as [->|Hne].
        -- rewrite list_lookup_insert_eq by (eapply lookup_lt_Some; eauto).
           rewrite Hj. destruct target; reflexivity.
        -- now rewrite list_lookup_insert_ne by congruence.
      * exists sim. split; [reflexivity|].
        split; [intros H; rewrite Eshoot in H; discriminate H|].
        split; [intros _ _ j target H; discriminate H|].
        split; [intros H; rewrite Eshoot in H; discriminate H|].
        split; [intros H; rewrite Eshoot in H; discriminate H|].
        split; [reflexivity|auto].
    + rewrite Eshoot. cbn [String.eqb Ascii.eqb Bool.eqb andb].
      exists sim. split; [reflexivity|].
      split; [intros H; discriminate H|].
      split; [intros _ H; lia|].
      split; [intros H; discriminate H|].
      split; [intros H; discriminate H|].
      split; [reflexivity|auto].
  - cbn [andb]. destruct (String.eqb type "MOVE") eqn:Emove.
    + apply String.eqb_eq in Emove.
      destruct (_ && _ && _ && _) eqn:Ein.
      * eexists. split; [reflexivity|].
        destruct (with_sides_acting sim is_my_agent
                    (<[Z.to_nat agent_index :=
                         AgentState.set_pos (Merged.SmitsimaxNode.target_x node)
                           (Merged.SmitsimaxNode.target_y node) agent]>
                       (acting_side is_my_agent sim))
                    (target_side is_my_agent sim)
                    (Merged.SimulationState.agent_data sim)) as [Ha Ht].
        rewrite Ha, Ht.
        split; [intros _ _ _; split; reflexivity|].
        split; [intros H; rewrite Emove in H; discriminate H|].
        split; [intros H; rewrite Emove in H; discriminate H|].
        split; [intros H; rewrite Emove in H; discriminate H|].
        split; [reflexivity|intros k other Hk Ho; now apply Hkeep].
      * exists sim. split; [reflexivity|].
        split; [intros _ Hx Hy; lia|].
        split; [intros H; rewrite Emove in H; discriminate H|].
        split; [intros H; rewrite Emove in H; discriminate H|].
        split; [intros H; rewrite Emove in H; discriminate H|].
        split; [reflexivity|auto].
    + destruct (String.eqb type "THROW") eqn:Ethrow.
      * apply String.eqb_eq in Ethrow.
        destruct ((AgentState.cooldown agent =? 0) && (AgentState.splash_bombs agent >? 0))
          eqn:Eok; cbn [andb]; rewrite Eok.
        -- eexists. split; [reflexivity|].
           match goal with |- context [Merged.with_sides sim is_my_agent ?a ?t ?d] =>
             destruct (with_sides_acting sim is_my_agent a t d) as [Ha Ht]
           end.
           rewrite Ha, Ht.
           split; [intros H; rewrite Ethrow in H; discriminate H|].
           split; [intros H; rewrite Ethrow in H; discriminate H|].
           split; [intros _ _ _; split; reflexivity|].
           split; [intros H; rewrite Ethrow in H; discriminate H|].
           split; [|intros k other Hk Ho; now apply Hkeep].
           rewrite map_map. apply map_ext. intros target.
           destruct (_ <=? 1); [|reflexivity]. now destruct target.
        -- exists sim. split; [reflexivity|].
           split; [intros H; rewrite Ethrow in H; discriminate H|].
           split; [intros H; rewrite Ethrow in H; discriminate H|].
           split; [intros _ Hc Hb; lia|].
           split; [intros H; rewrite Ethrow in H; discriminate H|].
           split; [reflexivity|auto].
      * exists sim. split; [reflexivity|].
        split; [intros H; rewrite H in Emove; discriminate Emove|].
        split; [intros H; rewrite H in Eshoot; discriminate Eshoot|].
        split; [intros H; rewrite H in Ethrow; discriminate Ethrow|].
        split; [reflexivity|]. split; [reflexivity|auto].
Qed.




(** ** C6: cooldowns in simulated rollouts *)

Lemma reset_cooldowns (sim : Merged.SimulationState.t) (base_my base_enemy : list AgentState.t) :
  Merged.SimulationState.my_agents (Merged.reset_to_base_state sim base_my base_enemy)
  = map cooled base_my /\
  Merged.SimulationState.enemy_agents (Merged.reset_to_base_state sim base_my base_enemy)
  = map cooled base_enemy.
Proof.
  assert (H : forall a, Merged.decrement_cooldown a = cooled a).
  { intros a. unfold Merged.decrement_cooldown, cooled.
    destruct (AgentState.cooldown a >? 0); [reflexivity|]. now destruct a. }
  split; cbn; apply map_ext; intros a; apply H.
Qed.

Lemma apply_action_resets_cooldown (sim : Merged.SimulationState.t)
    (agent_index : Z) (is_my_agent : bool)
    (agent : AgentState.t) (node : Merged.SmitsimaxNode.t) :
  0 <= agent_index ->
  acting_side is_my_agent sim !! Z.to_nat agent_index = Some agent ->
  Merged.SimulationState.current_nodes sim !! node_index is_my_agent sim agent_index
  = Some node ->
  takes_effect is_my_agent sim agent node ->
  exists sim' agent',
    Merged.apply_action sim agent_index is_my_agent = Some sim' /\
    acting_side is_my_agent sim' !! Z.to_nat agent_index = Some agent' /\
    AgentState.cooldown agent'
    = AgentData.shoot_cooldown
        (Merged.data_index (Merged.SimulationState.agent_data sim)
           (AgentState.agent_id agent)).1.
Proof.
  intros Hidx Hagent Hnode [Hcd Heff].
  assert (Hlt : (Z.to_nat agent_index < length (acting_side is_my_agent sim))%nat)
    by (eapply lookup_lt_Some; eauto).
  unfold Merged.apply_action. fold (acting_side is_my_agent sim).
  fold (target_side is_my_agent sim). fold (node_index is_my_agent sim agent_index).
  replace ((agent_index <? 0)
           || (agent_index >=? Z.of_nat (length (acting_side is_my_agent sim))))
    with false by lia.
  rewrite Hagent. cbn. rewrite Hnode. cbn. rewrite Hcd. cbn.
  assert (Hside : forall agents' targets' agent_data,
             acting_side is_my_agent
               (Merged.with_sides sim is_my_agent agents' targets' agent_data) = agents').
  { intros. unfold acting_side. destruct is_my_agent; reflexivity. }
  destruct Heff as [[Ht (target & Hin & Hid)] | [Ht Hb]].
  - rewrite Ht. cbn.
    destruct (list_find_elem_of
                (fun target => AgentState.agent_id target
                               = Merged.SmitsimaxNode.target_agent_id node)
                (target_side is_my_agent sim) target Hin Hid) as [[j t] Hfind].
    rewrite Hfind.
    destruct (Merged.data_index _ _) as [data agent_data] eqn:Hd. cbn.
    eexists _, _. split; [reflexivity|]. rewrite Hside.
    rewrite list_lookup_insert_eq by assumption. split; reflexivity.
  - rewrite Ht. cbn. replace (AgentState.splash_bombs agent >? 0) with true by lia.
    destruct (Merged.data_index _ _) as [data agent_data] eqn:Hd. cbn.
    eexists _, _. split; [reflexivity|]. rewrite Hside.
    rewrite list_lookup_insert_eq by assumption. split; reflexivity.
Qed.

(** C6 (amended): in the primary engine a living agent whose action does not
    take effect has its cooldown lowered by exactly one, not below 0; a shot
    that takes effect leaves it at 0 and a throw at 1 (the fixed values 1 and 2,
    lowered in the same pass), whatever the agent's profile says.  In the merged
    variant the reset at the start of a rollout lowers every positive cooldown
    by one, and a shot or throw that takes effect sets the acting agent's
    cooldown to the cooldown period of its profile. *)
Theorem cooldown_in_rollouts :
  (forall agent action,
      AgentState.is_alive agent = true ->
      (~ acts agent action ->
       AgentState.cooldown (SmitsimaxSearch.apply_one agent action)
       = (if AgentState.cooldown agent >? 0 then AgentState.cooldown agent - 1
          else AgentState.cooldown agent)) /\
      (TacticalDecision.action_type action = "SHOOT" -> AgentState.cooldown agent = 0 ->
       AgentState.cooldown (SmitsimaxSearch.apply_one agent action) = 1 - 1) /\
      (TacticalDecision.action_type action = "THROW" -> AgentState.splash_bombs agent > 0 ->
       AgentState.cooldown (SmitsimaxSearch.apply_one agent action) = 2 - 1)) /\
  (forall sim base_my base_enemy,
      Merged.SimulationState.my_agents (Merged.reset_to_base_state sim base_my base_enemy)
      = map cooled base_my /\
      Merged.SimulationState.enemy_agents (Merged.reset_to_base_state sim base_my base_enemy)
      = map cooled base_enemy) /\
  (forall sim agent_index is_my_agent agent node,
      0 <= agent_index ->
      acting_side is_my_agent sim !! Z.to_nat agent_index = Some agent ->
      Merged.SimulationState.current_nodes sim !! node_index is_my_agent sim agent_index
      = Some node ->
      takes_effect is_my_agent sim agent node ->
      exists sim' agent',
        Merged.apply_action sim agent_index is_my_agent = Some sim' /\
        acting_side is_my_agent sim' !! Z.to_nat agent_index = Some agent' /\
        AgentState.cooldown agent'
        = AgentData.shoot_cooldown
            (Merged.data_index (Merged.SimulationState.agent_data sim)
               (AgentState.agent_id agent)).1).
Proof.
  split; [|split].
  - intros agent action Halive. split; [|split].
    + intros H. now apply apply_one_idle_cooldown.
    + intros Ht Hc. rewrite apply_one_shoot by assumption. rewrite Hc. reflexivity.
    + intros Ht Hb. rewrite apply_one_throw by assumption. reflexivity.
  - apply reset_cooldowns.
  - apply apply_action_resets_cooldown.
Qed.

Lemma cooldown_in_rollouts_witness :
  AgentState.cooldown
    (SmitsimaxSearch.apply_one (AgentState.mk 1 0 0 3 0 0)
       (TacticalDecision.plain "HUNKER_DOWN" 50)) = 2 /\
  AgentState.cooldown (SmitsimaxSearch.apply_one (AgentState.mk 1 0 0 0 0 0) duel_shot) = 0 /\
  exists sim' agent',
    Merged.apply_action sim_point_blank 0 true = Some sim' /\
    acting_side true sim' !! 0%nat = Some agent' /\
    AgentState.cooldown agent' = 5.
Proof.
  destruct cooldown_in_rollouts as (H1 & _ & H3).
  split; [|split].
  - destruct (H1 (AgentState.mk 1 0 0 3 0 0) (TacticalDecision.plain "HUNKER_DOWN" 50) eq_refl)
      as [H _].
    rewrite H; [reflexivity|]. intros [[Ht _]|[Ht _]]; discriminate Ht.
  - destruct (H1 (AgentState.mk 1 0 0 0 0 0) duel_shot eq_refl) as (_ & H & _).
    rewrite H; reflexivity.
  - apply (H3 sim_point_blank 0 true (AgentState.mk 1 0 0 0 0 0)
             (Merged.SmitsimaxNode.mk "SHOOT" (-1) (-1) 2 0 1 0)).
    + lia.
    + reflexivity.
    + reflexivity.
    + split; [reflexivity|]. left. split; [reflexivity|].
      exists (AgentState.mk 2 1 0 0 1 90). split; [|reflexivity].
      apply list_elem_of_here.
Defined.

(** C6 (as stated) fails in the primary engine: a sniper, whose profile has a
    cooldown period of 5, ends the turn of its shot with cooldown 0. *)
Lemma cooldown_reset_counterexample :
  AgentData.shoot_cooldown sniper_data = 5 /\
  AgentState.agent_id (AgentState.mk 1 0 0 0 0 0) = AgentData.agent_id sniper_data /\
  AgentState.cooldown (SmitsimaxSearch.apply_one (AgentState.mk 1 0 0 0 0 0) duel_shot) = 0 /\
  0 <> 5.
Proof. repeat split; lia. Qed.

(** ** C4: friendly fire of proposed throws *)

Lemma fold_left_invariant {A B : Type} (P : B -> Prop) (f : B -> A -> B) (l : list A) (b : B) :
  P b -> (forall b a, P b -> P (f b a)) -> P (fold_left f l b).
Proof.
  intros Hb Hstep. revert b Hb. induction l as [|a l IH]; intros b Hb; cbn; auto.
Qed.

(** The bombing generator, which receives the allies, never proposes a landing
    tile whose splash holds a living ally other than the thrower. *)
Lemma bombing_target_spares_allies (ai : SmartGameAI.t) (agent : AgentState.t)
    (enemies allies : list AgentState.t) :
  let decision := find_best_bombing_target_with_allies ai agent enemies allies in
  TacticalDecision.action_type decision = "THROW" ->
  hits_friendly agent allies
    (TacticalDecision.target_x decision) (TacticalDecision.target_y decision) = false.
Proof.
  cbn. unfold find_best_bombing_target_with_allies.
  destruct (_ || _); [discriminate|].
  set (best := fold_left _ enemies (-1, -1, 0)).
  assert (Hinv : best.2 > 0 -> hits_friendly agent allies best.1.1 best.1.2 = false).
  { subst best. apply fold_left_invariant; [cbn; lia|].
    intros b enemy Hb. destruct (negb _); [exact Hb|].
    destruct (_ <=? THROW_DISTANCE_MAX); [|exact Hb].
    apply fold_left_invariant; [exact Hb|].
    intros b' [dx dy] Hb'. destruct (_ || _ || _ || _); [exact Hb'|].
    destruct (_ >? THROW_DISTANCE_MAX); [exact Hb'|].
    destruct (hits_friendly agent allies (AgentState.x enemy + dx)
                (AgentState.y enemy + dy)) eqn:Hf; [exact Hb'|].
    destruct (_ >? b'.2); [|exact Hb']. intros _. exact Hf. }
  destruct best as [[best_x best_y] best_damage]. cbn in Hinv.
  destruct (negb (best_x =? -1) && negb (best_y =? -1) && (best_damage >? 0)) eqn:E;
    [|discriminate].
  intros _. cbn. apply Hinv. lia.
Qed.

(** C4: the focus-fire candidate and the compound generator propose throws
    whose splash holds a living ally other than the thrower, and the turn prints
    them, whatever the direction computation and the search would give.  In the
    first scene agent 1 throws onto (3,0) with agent 2 on (3,1); in the second
    it moves and throws onto (3,1) with agent 2 on (2,1). *)
Theorem throws_hit_allies (scaled_direction : Z -> Z -> Z * Z)
    (outcome : SmitsimaxSearch.SearchOutcome) :
  (exists decision,
      evaluate_focus_fire skirmish_ai thrower wounded_enemy = Some decision /\
      TacticalDecision.action_type decision = "THROW" /\
      (TacticalDecision.target_x decision, TacticalDecision.target_y decision) = (3, 0) /\
      hits_friendly thrower [thrower; ally_below] 3 0 = true) /\
  Orchestrator.main_turn scaled_direction outcome skirmish_ai 1
    (Orchestrator.mkTurnInput [thrower; ally_below; wounded_enemy] 2)
  = Some ["1;THROW 3 0; HUNKER_DOWN"; "2;THROW 3 0; HUNKER_DOWN"] /\
  (exists decision,
      find_best_compound_action skirmish_ai thrower [fresh_enemy] [thrower; ally_near]
      = Some decision /\
      TacticalDecision.action_type decision = "MOVE_THROW" /\
      (TacticalDecision.bomb_x decision, TacticalDecision.bomb_y decision) = (3, 1) /\
      hits_friendly thrower [thrower; ally_near] 3 1 = true) /\
  Orchestrator.main_turn scaled_direction outcome skirmish_ai 1
    (Orchestrator.mkTurnInput [thrower; ally_near; fresh_enemy] 2)
  = Some ["1;MOVE 2 0; THROW 3 1"; "2;MOVE 4 0; THROW 2 0"].
Proof.
  split; [|split; [|split]].
  - eexists. split; [vm_compute; reflexivity|]. repeat split.
  - vm_compute. reflexivity.
  - eexists. split; [vm_compute; reflexivity|]. repeat split.
  - vm_compute. reflexivity.
Qed.

(** ** C8: movement against an available attack *)

Lemma Qgtb_true (a b : Q) : Qgtb a b = true <-> (b < a)%Q.
Proof.
  unfold Qgtb, Qltb. rewrite negb_true_iff. split.
  - intros H. apply Qnot_le_lt. intros Hle. apply Qle_bool_iff in Hle. congruence.
  - intros H. destruct (Qle_bool a b) eqn:E; [|reflexivity].
    apply Qle_bool_iff in E. lra.
Qed.

Lemma Qgtb_false (a b : Q) : Qgtb a b = false <-> (a <= b)%Q.
Proof. unfold Qgtb, Qltb. rewrite negb_false_iff. apply Qle_bool_iff. Qed.

Lemma bonus_le (b : bool) (v k : Q) : (0 <= k)%Q -> (v <= if b then v + k else v)%Q.
Proof. intros H. destruct b; lra. Qed.

Lemma inject_Z_pos (d : Z) : d > 0 -> (1 <= inject_Z d)%Q.
Proof. intros H. change 1%Q with (inject_Z 1). rewrite <- Zle_Qle. lia. Qed.

(** Every movement score of the merged evaluator is at most 1400. *)
Lemma capped_move_score_le (strategic_score combat : Q) :
  (Merged.capped_move_score strategic_score combat <= 1400)%Q.
Proof.
  unfold Merged.capped_move_score.
  destruct (Qgtb _ 1400) eqn:E; [lra|]. now apply Qgtb_false in E.
Qed.

(** Every shot with positive damage scores at least 1520. *)
Lemma shot_score_ge (agent_class : GameAgentClass) (enemy : AgentState.t)
    (distance damage : Z) :
  damage > 0 -> (1520 <= Merged.shot_score agent_class enemy distance damage)%Q.
Proof.
  intros Hd. pose proof (inject_Z_pos damage Hd) as H1. unfold Merged.shot_score.
  eapply Qle_trans; [|apply bonus_le; lra].
  eapply Qle_trans; [|apply bonus_le; lra].
  eapply Qle_trans; [|apply bonus_le; lra].
  eapply Qle_trans; [|apply bonus_le; lra]. lra.
Qed.

Lemma sniper_shot_score_ge (enemy : AgentState.t) (distance damage : Z) :
  damage > 0 -> (1520 <= Merged.sniper_shot_score enemy distance damage)%Q.
Proof.
  intros Hd. pose proof (inject_Z_pos damage Hd) as H1. unfold Merged.sniper_shot_score.
  eapply Qle_trans; [|apply bonus_le; lra].
  eapply Qle_trans; [|apply bonus_le; lra].
  eapply Qle_trans; [|apply bonus_le; lra]. lra.
Qed.

(** The movement value of [evaluate_tactical_movement] is at most 1500. *)
Lemma tactical_move_value_le (agent : AgentState.t) (data : AgentData.t)
    (enemies : list AgentState.t) (nx ny : Z) :
  (tactical_move_value agent data enemies nx ny <= 1500)%Q.
Proof.
  unfold tactical_move_value.
  destruct (Qgtb _ 1500) eqn:E; [lra|]. now apply Qgtb_false in E.
Qed.

Lemma fold_left_reaches {A B : Type} (P : B -> Prop) (E : A -> Prop)
    (f : B -> A -> B) (l : list A) (b : B) :
  (forall b a, P b -> P (f b a)) ->
  (forall b a, E a -> P (f b a)) ->
  P b \/ (exists a, a ∈ l /\ E a) ->
  P (fold_left f l b).
Proof.
  intros Hkeep Hmake. revert b. induction l as [|a l IH]; intros b [Hb|(e & Hin & He)]; cbn.
  - exact Hb.
  - apply elem_of_nil in Hin. contradiction.
  - apply IH. left. now apply Hkeep.
  - apply elem_of_cons in Hin as [->|Hin].
    + apply IH. left. now apply Hmake.
    + apply IH. right. eauto.
Qed.

Lemma phase_shoot_reaches (agent : AgentState.t) (data : AgentData.t)
    (agent_class : GameAgentClass) (enemies : list AgentState.t)
    (st : Q * Merged.PrecomputedMove.t) :
  shot_available agent data enemies -> no_move_above st ->
  shot_taken (Merged.phase_shoot agent data agent_class enemies st).
Proof.
  intros Havail Hst. unfold Merged.phase_shoot.
  assert (Hno : no_move_above (fold_left
    (fun '(best_score, move) enemy =>
       if AgentState.wetness enemy <? 100 then
         let distance := manhattan_distance (AgentState.x agent) (AgentState.y agent)
                           (AgentState.x enemy) (AgentState.y enemy) in
         if distance <=? AgentData.optimal_range data then
           let damage := Merged.calculate_shooting_damage data enemy distance in
           if damage >? 0 then
             let score := Merged.shot_score agent_class enemy distance damage in
             if Qgtb score best_score then
               (score, Merged.PrecomputedMove.mk "SHOOT" (Merged.PrecomputedMove.target_x move)
                         (Merged.PrecomputedMove.target_y move) (AgentState.agent_id enemy) 1)
             else (best_score, move)
           else (best_score, move)
         else (best_score, move)
       else (best_score, move)) enemies st)).
  { apply fold_left_invariant; [exact Hst|].
    intros [best move] enemy Hb. cbn.
    repeat match goal with |- context [if ?c then _ else _] => destruct c end;
      try exact Hb. intros _. left. reflexivity. }
  split; [|apply Hno].
  all: apply (fold_left_reaches (fun st => (1520 <= st.1)%Q)
           (fun enemy => AgentState.wetness enemy < 100 /\
              let distance := manhattan_distance (AgentState.x agent) (AgentState.y agent)
                                (AgentState.x enemy) (AgentState.y enemy) in
              distance <= AgentData.optimal_range data /\
              Merged.calculate_shooting_damage data enemy distance > 0)).
  1,4: intros [best move] enemy Hb; cbn in *;
       repeat match goal with |- context [if ?c then _ else _] => destruct c eqn:?
              end; cbn; try exact Hb;
       match goal with H : Qgtb _ _ = true |- _ => apply Qgtb_true in H; lra end.
  1,3: intros [best move] enemy (Hw & Hd & Hdmg); cbn in *;
       replace (AgentState.wetness enemy <? 100) with true by lia;
       match goal with |- context [?a <=? ?b] => replace (a <=? b) with true by lia end;
       match goal with |- context [?a >? 0] => replace (a >? 0) with true by lia end;
       pose proof (shot_score_ge agent_class enemy
         (manhattan_distance (AgentState.x agent) (AgentState.y agent)
            (AgentState.x enemy) (AgentState.y enemy))
         _ Hdmg) as Hs;
       match goal with |- context [Qgtb ?s ?b] => destruct (Qgtb s b) eqn:E end; cbn;
       [exact Hs|apply Qgtb_false in E; lra].
  all: right; destruct Havail as (enemy & Hin & H); exists enemy; split; assumption.
Qed.

Lemma phase_sniper_reaches (agent : AgentState.t) (data : AgentData.t)
    (enemies : list AgentState.t) (st : Q * Merged.PrecomputedMove.t) :
  AgentData.optimal_range data = 6 ->
  shot_available agent data enemies -> no_move_above st ->
  shot_taken (Merged.phase_sniper agent data enemies st).
Proof.
  intros Hrange Havail Hst. unfold Merged.phase_sniper.
  assert (Hno : no_move_above (fold_left
    (fun '(best_score, move) enemy =>
       if AgentState.wetness enemy <? 100 then
         let distance := manhattan_distance (AgentState.x agent) (AgentState.y agent)
                           (AgentState.x enemy) (AgentState.y enemy) in
         if distance <=? 6 then
           let damage := Merged.calculate_shooting_damage data enemy distance in
           if damage >? 0 then
             let score := Merged.sniper_shot_score enemy distance damage in
             if Qgtb score best_score then
               (score, Merged.PrecomputedMove.mk "SHOOT" (Merged.PrecomputedMove.target_x move)
                         (Merged.PrecomputedMove.target_y move) (AgentState.agent_id enemy) 1)
             else (best_score, move)
           else (best_score, move)
         else (best_score, move)
       else (best_score, move)) enemies st)).
  { apply fold_left_invariant; [exact Hst|].
    intros [best move] enemy Hb. cbn.
    repeat match goal with |- context [if ?c then _ else _] => destruct c end;
      try exact Hb. intros _. left. reflexivity. }
  split; [|apply Hno].
  all: apply (fold_left_reaches (fun st => (1520 <= st.1)%Q)
           (fun enemy => AgentState.wetness enemy < 100 /\
              let distance := manhattan_distance (AgentState.x agent) (AgentState.y agent)
                                (AgentState.x enemy) (AgentState.y enemy) in
              distance <= AgentData.optimal_range data /\
              Merged.calculate_shooting_damage data enemy distance > 0)).
  1,4: intros [best move] enemy Hb; cbn in *;
       repeat match goal with |- context [if ?c then _ else _] => destruct c eqn:?
              end; cbn; try exact Hb;
       match goal with H : Qgtb _ _ = true |- _ => apply Qgtb_true in H; lra end.
  1,3: intros [best move] enemy (Hw & Hd & Hdmg); cbn in *; rewrite Hrange in Hd;
       replace (AgentState.wetness enemy <? 100) with true by lia;
       match goal with |- context [?a <=? 6] => replace (a <=? 6) with true by lia end;
       match goal with |- context [?a >? 0] => replace (a >? 0) with true by lia end;
       pose proof (sniper_shot_score_ge enemy
         (manhattan_distance (AgentState.x agent) (AgentState.y agent)
            (AgentState.x enemy) (AgentState.y enemy))
         _ Hdmg) as Hs;
       match goal with |- context [Qgtb ?s ?b] => destruct (Qgtb s b) eqn:E end; cbn;
       [exact Hs|apply Qgtb_false in E; lra].
  all: right; destruct Havail as (enemy & Hin & H); exists enemy; split; assumption.
Qed.

Lemma phase_throw_keeps (agent : AgentState.t) (data : AgentData.t)
    (enemies : list AgentState.t) (st : Q * Merged.PrecomputedMove.t) :
  shot_taken st -> shot_taken (Merged.phase_throw agent data enemies st).
Proof.
  intros Hst. unfold Merged.phase_throw. apply fold_left_invariant; [exact Hst|].
  intros [best move] enemy [Hb Ht]. cbn in *.
  destruct (AgentState.wetness enemy <? 100); [|split; assumption].
  destruct (_ <=? _); [|split; assumption].
  destruct (Merged.splash_count _ _ _ _) as [n total].
  match goal with |- context [Qgtb ?s ?b] => destruct (Qgtb s b) eqn:E end;
    [|split; assumption].
  apply Qgtb_true in E. split; cbn; [lra|right; reflexivity].
Qed.

(** Once a shot is held, no movement candidate replaces it. *)
Lemma phase_move_keeps
    (strategic : Z -> Z -> Z -> Z -> list AgentState.t -> list AgentState.t
                 -> GameAgentClass -> Q)
    (agent : AgentState.t) (data : AgentData.t) (agent_class : GameAgentClass)
    (temp_sim : Merged.SimulationState.t) (st : Q * Merged.PrecomputedMove.t) :
  shot_taken st -> shot_taken (Merged.phase_move strategic agent data agent_class temp_sim st).
Proof.
  intros Hst. unfold Merged.phase_move. apply fold_left_invariant; [exact Hst|].
  intros [best move] [dx dy] [Hb Ht]. cbn in *.
  destruct (_ && _ && _ && _); [|split; assumption].
  destruct (negb _); [|split; assumption].
  match goal with |- context [Qgtb ?s ?b] => destruct (Qgtb s b) eqn:E end;
    [|split; assumption].
  apply Qgtb_true in E.
  match type of E with (_ < Merged.capped_move_score ?s ?c)%Q =>
    pose proof (capped_move_score_le s c) end. lra.
Qed.

Lemma determine_sniper_range (data : AgentData.t) :
  Merged.determine_agent_class data = SNIPER -> AgentData.optimal_range data = 6.
Proof.
  unfold Merged.determine_agent_class.
  destruct (AgentData.optimal_range data =? 6) eqn:E; [lia|]. cbn.
  repeat match goal with |- context [if ?c then _ else _] => destruct c end; discriminate.
Qed.

(** In the merged evaluator every movement score is capped at 1400 and every
    shot with positive damage scores at least 1520; hence, for an agent off
    cooldown whose class is not BOMBER and that has a living enemy in range of
    a damaging shot, the chosen action is a shot or a throw, never a
    movement. *)
Lemma merged_shot_beats_movement
    (strategic : Z -> Z -> Z -> Z -> list AgentState.t -> list AgentState.t
                 -> GameAgentClass -> Q)
    (agent : AgentState.t) (temp_sim : Merged.SimulationState.t) (agent_index : Z)
    (data : AgentData.t) :
  Merged.SimulationState.agent_data temp_sim !! AgentState.agent_id agent = Some data ->
  AgentState.cooldown agent = 0 ->
  Merged.determine_agent_class data <> BOMBER ->
  shot_available agent data (Merged.SimulationState.enemy_agents temp_sim) ->
  exists move,
    Merged.compute_best_move_quick strategic agent temp_sim agent_index = Some move /\
    (Merged.PrecomputedMove.action_type move = "SHOOT"
     \/ Merged.PrecomputedMove.action_type move = "THROW").
Proof.
  intros Hdata Hcd Hclass Havail.
  unfold Merged.compute_best_move_quick. rewrite Hdata. cbn. rewrite Hcd. cbn.
  assert (Hinit : no_move_above ((-1000)%Q, Merged.PrecomputedMove.default)).
  { intros H. cbn in H. lra. }
  assert (Hfinal : forall st, shot_taken st ->
            exists move,
              (let '(_, move) := st in
               if String.eqb (Merged.PrecomputedMove.action_type move) ""
               then Some (Merged.PrecomputedMove.mk "HUNKER_DOWN"
                            (Merged.PrecomputedMove.target_x move)
                            (Merged.PrecomputedMove.target_y move)
                            (Merged.PrecomputedMove.target_agent_id move) (1 # 10))
               else Some move) = Some move /\
              (Merged.PrecomputedMove.action_type move = "SHOOT"
               \/ Merged.PrecomputedMove.action_type move = "THROW")).
  { intros [best move] [_ Ht]. cbn in Ht. exists move.
    destruct Ht as [Ht|Ht]; rewrite Ht; cbn; auto. }
  destruct (Merged.determine_agent_class data) eqn:Ec; cbn; try congruence.
  - (* GUNNER *)
    apply Hfinal, phase_move_keeps.
    destruct (AgentState.splash_bombs agent >? 0); cbn;
      [apply phase_throw_keeps|]; now apply phase_shoot_reaches.
  - (* SNIPER *)
    rewrite andb_false_r. cbn.
    apply Hfinal, phase_move_keeps.
    apply phase_sniper_reaches; [now apply determine_sniper_range|assumption..].
  - (* ASSAULT *)
    apply Hfinal, phase_move_keeps.
    destruct (AgentState.splash_bombs agent >? 0); cbn;
      [apply phase_throw_keeps|]; now apply phase_shoot_reaches.
  - (* BERSERKER *)
    rewrite andb_false_r. cbn.
    apply Hfinal, phase_move_keeps. now apply phase_shoot_reaches.
Qed.

(** C8: the primary engine lets a movement win over an available attack.  On
    an open board the agent at (0,0), off cooldown, has the living enemy at
    (2,0) within its range 2: [find_best_shooting_target] proposes the shot,
    with damage 8 and value 1840.  A movement candidate of
    [generate_random_moves], which has no cap, is worth 7800;
    [make_optimal_decision] returns a movement and the turn prints it.  The
    other evaluators hold movement below: the merged evaluator caps every
    movement score at 1400, below the 1520 that every damaging shot scores at
    least, so that its agents other than the BOMBER never move when a shot is
    available; [evaluate_tactical_movement] caps its values at 1500. *)
Theorem movement_beats_available_shot :
  (AgentState.cooldown lone_agent = 0 /\ AgentState.is_alive enemy_at_2 = true /\
   manhattan_distance (AgentState.x lone_agent) (AgentState.y lone_agent)
     (AgentState.x enemy_at_2) (AgentState.y enemy_at_2)
   <= AgentData.optimal_range (short_range_data 1 0) /\
   find_best_shooting_target short_range_ai lone_agent [enemy_at_2] = Some lone_shot /\
   TacticalDecision.action_type lone_shot = "SHOOT" /\
   0 < TacticalDecision.expected_damage lone_shot /\
   (TacticalDecision.expected_value lone_shot == 1840)%Q) /\
  (exists move,
      move ∈ lone_moves /\ TacticalDecision.action_type move = "MOVE" /\
      (TacticalDecision.expected_value move == 7800)%Q) /\
  (exists decision,
      make_optimal_decision no_direction short_range_ai lone_agent [enemy_at_2]
        [lone_agent] = Some decision /\
      TacticalDecision.action_type decision = "MOVE") /\
  Orchestrator.main_turn no_direction SmitsimaxSearch.NoChildren short_range_ai 1
    (Orchestrator.mkTurnInput [lone_agent; enemy_at_2] 1)
  = Some ["1;MOVE 1 0; HUNKER_DOWN"] /\
  (forall strategic_score combat,
      (Merged.capped_move_score strategic_score combat <= 1400)%Q) /\
  (forall agent_class enemy distance damage, damage > 0 ->
      (1520 <= Merged.shot_score agent_class enemy distance damage)%Q /\
      (1520 <= Merged.sniper_shot_score enemy distance damage)%Q) /\
  (forall strategic agent temp_sim agent_index data,
      Merged.SimulationState.agent_data temp_sim !! AgentState.agent_id agent = Some data ->
      AgentState.cooldown agent = 0 ->
      Merged.determine_agent_class data <> BOMBER ->
      shot_available agent data (Merged.SimulationState.enemy_agents temp_sim) ->
      exists move,
        Merged.compute_best_move_quick strategic agent temp_sim agent_index = Some move /\
        (Merged.PrecomputedMove.action_type move = "SHOOT"
         \/ Merged.PrecomputedMove.action_type move = "THROW")) /\
  (forall mover mover_data enemies nx ny,
      (tactical_move_value mover mover_data enemies nx ny <= 1500)%Q).
Proof.
  split.
  { split; [reflexivity|]. split; [reflexivity|]. split; [vm_compute; discriminate|].
    split; [vm_compute; reflexivity|]. split; [reflexivity|].
    split; [reflexivity|reflexivity]. }
  split.
  { assert (Hmoves : exists move, head lone_moves = Some move /\
                                  TacticalDecision.action_type move = "MOVE" /\
                                  (TacticalDecision.expected_value move == 7800)%Q).
    { vm_compute. eexists. split; [reflexivity|]. split; reflexivity. }
    destruct Hmoves as (move & Hhead & Htype & Hvalue). exists move.
    split; [|split; assumption]. apply head_Some_elem_of, Hhead. }
  split.
  { vm_compute. eexists. split; reflexivity. }
  split; [vm_compute; reflexivity|].
  split; [apply capped_move_score_le|].
  split; [intros; split; [now apply shot_score_ge|now apply sniper_shot_score_ge]|].
  split; [apply merged_shot_beats_movement|apply tactical_move_value_le].
Qed.

(** ** C9: the format of the output lines *)

Lemma string_app_assoc (a b c : string) : (a +:+ b) +:+ c = a +:+ (b +:+ c).
Proof.
  induction a as [|ch a IH]; [reflexivity|].
  change ((String ch a +:+ b) +:+ c) with (String ch ((a +:+ b) +:+ c)).
  change (String ch a +:+ (b +:+ c)) with (String ch (a +:+ (b +:+ c))).
  now rewrite IH.
Qed.

Lemma string_app_empty (a : string) : a +:+ "" = a.
Proof.
  induction a as [|ch a IH]; [reflexivity|].
  change (String ch a +:+ "") with (String ch (a +:+ "")). now rewrite IH.
Qed.

(** The line printed for a decision is the rendering of its commands. *)
Lemma format_compound_action_renders (agent_id : Z) (decision : TacticalDecision.t) :
  format_compound_action agent_id decision
  = render_line "SHOOT" agent_id (decision_commands decision).1 (decision_commands decision).2
  /\ well_shaped (decision_commands decision).
Proof.
  unfold format_compound_action, decision_commands, render_line.
  repeat match goal with |- context [if ?c then _ else _] => destruct c end;
    cbn [fst snd render_command well_shaped]; (split; [|exact I]);
    rewrite ?string_app_assoc, ?string_app_empty; reflexivity.
Qed.

Lemma output_lines_lookup (ai : SmartGameAI.t) (current_my_agents : list AgentState.t)
    (agent_decisions : gmap Z TacticalDecision.t) (my_agent_count : Z)
    (lines : list string) :
  Orchestrator.output_lines ai current_my_agents agent_decisions my_agent_count = Some lines ->
  length lines = Z.to_nat my_agent_count /\
  forall i line, lines !! i = Some line ->
    Orchestrator.output_line ai (Orchestrator.alive_agents current_my_agents)
      agent_decisions i = Some line.
Proof.
  unfold Orchestrator.output_lines. intros H. apply mapM_Some in H.
  split.
  - rewrite <- (Forall2_length _ _ _ H). apply length_seq.
  - intros i line Hl.
    destruct (Forall2_lookup_r _ _ _ _ _ H Hl) as (j & Hj & Hf).
    apply lookup_seq in Hj as [-> _]. exact Hf.
Qed.

Lemma merged_final_action_renders (my_agent_ids : list Z)
    (my_current_agents : list AgentState.t)
    (best_moves : list (option Merged.SmitsimaxNode.t)) (i : nat) (line : string) :
  Merged.final_action my_agent_ids my_current_agents best_moves i = Some line ->
  exists agent_id cmds,
    line = render_line "SHOOT" agent_id cmds.1 cmds.2 /\ well_shaped cmds /\
    match my_current_agents !! i with
    | Some agent =>
        agent_id = AgentState.agent_id agent
        /\ cmds = merged_commands (mjoin (best_moves !! i))
    | None =>
        cmds = (HUNKER_DOWN, Some HUNKER_DOWN)
        /\ (my_agent_ids !! i = Some agent_id
            \/ (my_agent_ids !! i = None /\ head my_agent_ids = Some agent_id))
    end.
Proof.
  unfold Merged.final_action.
  destruct (my_current_agents !! i) as [agent|].
  - intros H. exists (AgentState.agent_id agent), (merged_commands (mjoin (best_moves !! i))).
    unfold merged_commands, render_line. split; [|split; [|split; reflexivity]].
    + destruct (best_moves !! i) as [[move|]|]; cbn [mjoin option_join] in *.
      * repeat match type of H with context [if ?c then _ else _] => destruct c end;
          injection H as <-; cbn [fst snd render_command];
          rewrite ?string_app_assoc; reflexivity.
      * injection H as <-. reflexivity.
      * injection H as <-. reflexivity.
    + destruct (best_moves !! i) as [[move|]|]; cbn; try exact I.
      repeat match goal with |- context [if ?c then _ else _] => destruct c end; exact I.
  - destruct (my_agent_ids !! i) as [id|] eqn:Eid; cbn.
    + intros [= <-]. exists id, (HUNKER_DOWN, Some HUNKER_DOWN).
      split; [reflexivity|]. split; [exact I|]. split; [reflexivity|]. now left.
    + destruct (head my_agent_ids) as [id|] eqn:Eh; cbn; [|discriminate].
      intros [= <-]. exists id, (HUNKER_DOWN, Some HUNKER_DOWN).
      split; [reflexivity|]. split; [exact I|]. split; [reflexivity|]. right. now split.
Qed.

(** C9 (amended): every printed line has the form
    [<agentId>;<PRIMARY>[; <SECONDARY>]] with commands drawn from
    [HUNKER_DOWN], [MOVE x y], [SHOOT id], [THROW x y]; the slot of a living
    agent carries the commands of its decision (a plain move, shot or throw
    followed by Hunker, a move followed by a shot or a throw for a compound
    decision, Hunker alone otherwise); the slots beyond the living agents carry
    a default agent id with Hunker; one line is printed per expected slot.  The
    lines of the exception handler are Hunker lines of the same form.  In the
    merged variant the slot of a controlled agent of the turn carries the
    commands of its move, a move, shot or throw followed by Hunker and
    [HUNKER_DOWN; HUNKER_DOWN] for a Hunker or a missing move; the slots beyond
    these agents carry [HUNKER_DOWN; HUNKER_DOWN] with the registered id of the
    slot, or the first registered id when there is none. *)
Theorem output_line_format :
  (forall ai current_my_agents agent_decisions my_agent_count lines,
      Orchestrator.output_lines ai current_my_agents agent_decisions my_agent_count
      = Some lines ->
      length lines = Z.to_nat my_agent_count /\
      forall i line, lines !! i = Some line ->
        match Orchestrator.alive_agents current_my_agents !! i with
        | Some agent =>
            let cmds :=
              decision_commands
                (Orchestrator.slot_decision agent_decisions (AgentState.agent_id agent)) in
            line = render_line "SHOOT" (AgentState.agent_id agent) cmds.1 cmds.2
            /\ well_shaped cmds
        | None =>
            exists fallback_agent_id,
              line = render_line "SHOOT" fallback_agent_id HUNKER_DOWN None /\
              match Orchestrator.alive_agents current_my_agents with
              | [] => head (my_agent_ids ai) = Some fallback_agent_id
              | first :: _ => fallback_agent_id = AgentState.agent_id first
              end
        end) /\
  (forall ai,
      Orchestrator.exception_lines ai
      = map (fun id => render_line "SHOOT" id HUNKER_DOWN None) (my_agent_ids ai)) /\
  (forall my_agent_ids my_current_agents best_moves my_agent_count lines,
      Merged.output_lines my_agent_ids my_current_agents best_moves my_agent_count
      = Some lines ->
      length lines = Z.to_nat my_agent_count /\
      forall i line, lines !! i = Some line ->
        match my_current_agents !! i with
        | Some agent =>
            let cmds := merged_commands (mjoin (best_moves !! i)) in
            line = render_line "SHOOT" (AgentState.agent_id agent) cmds.1 cmds.2
            /\ well_shaped cmds /\ cmds.2 = Some HUNKER_DOWN
        | None =>
            exists default_id,
              line = render_line "SHOOT" default_id HUNKER_DOWN (Some HUNKER_DOWN) /\
              (my_agent_ids !! i = Some default_id
               \/ (my_agent_ids !! i = None /\ head my_agent_ids = Some default_id))
        end).
Proof.
  split; [|split].
  - intros ai my decisions count lines H.
    destruct (output_lines_lookup _ _ _ _ _ H) as [Hlen Hline].
    split; [exact Hlen|]. intros i line Hl. specialize (Hline i line Hl).
    unfold Orchestrator.output_line in Hline.
    destruct (Orchestrator.alive_agents my !! i) as [agent|].
    + injection Hline as <-. apply format_compound_action_renders.
    + destruct (Orchestrator.alive_agents my) as [|first rest]; cbn in Hline.
      * destruct (head (my_agent_ids ai)) as [id|]; cbn in Hline; [|discriminate].
        injection Hline as <-. exists id. split; [|reflexivity].
        unfold render_line. cbn. now rewrite string_app_empty.
      * injection Hline as <-. exists (AgentState.agent_id first). split; [|reflexivity].
        unfold render_line. cbn. now rewrite string_app_empty.
  - intros ai. unfold Orchestrator.exception_lines. apply map_ext. intros id.
    unfold render_line. cbn. now rewrite string_app_empty.
  - intros ids my best_moves count lines H.
    unfold Merged.output_lines in H. apply mapM_Some in H. split.
    + rewrite <- (Forall2_length _ _ _ H). apply length_seq.
    + intros i line Hl.
      destruct (Forall2_lookup_r _ _ _ _ _ H Hl) as (j & Hj & Hf).
      apply lookup_seq in Hj as [-> _].
      destruct (merged_final_action_renders _ _ _ _ _ Hf) as (id & cmds & H1 & H2 & H3).
      change (0 + i)%nat with i in H3.
      destruct (my !! i) as [agent|].
      * destruct H3 as [Hid Hcmds]. subst id cmds. cbv zeta.
        split; [exact H1|]. split; [exact H2|].
        unfold merged_commands. destruct (mjoin (best_moves !! i)) as [move|];
          [|reflexivity].
        repeat match goal with |- context [if ?c then _ else _] => destruct c end;
          reflexivity.
      * destruct H3 as [Hcmds H3]. subst cmds. exists id. split; [exact H1|exact H3].
Qed.

Lemma output_line_format_witness :
  length ["1;SHOOT 2; HUNKER_DOWN"; "1;HUNKER_DOWN"] = Z.to_nat 2 /\
  "1;SHOOT 2; HUNKER_DOWN" = render_line "SHOOT" 1 (SHOOT 2) (Some HUNKER_DOWN).
Proof.
  destruct output_line_format as [H _].
  assert (Hrun : Orchestrator.output_lines skirmish_ai [thrower] (<[1 := duel_shot]> ∅) 2
                 = Some ["1;SHOOT 2; HUNKER_DOWN"; "1;HUNKER_DOWN"])
    by (vm_compute; reflexivity).
  destruct (H skirmish_ai [thrower] (<[1 := duel_shot]> ∅) 2
              ["1;SHOOT 2; HUNKER_DOWN"; "1;HUNKER_DOWN"] Hrun) as [Hlen Hline].
  split; [exact Hlen|].
  exact (proj1 (Hline 0%nat "1;SHOOT 2; HUNKER_DOWN" eq_refl)).
Defined.

Lemma uint_no_semicolon (d : Decimal.uint) :
  contains ";"%char (NilEmpty.string_of_uint d) = false.
Proof. induction d; cbn; auto. Qed.

Lemma to_string_no_semicolon (z : Z) : contains ";"%char (to_string z) = false.
Proof.
  unfold to_string, NilZero.string_of_int, NilZero.string_of_uint.
  destruct (Z.to_int z) as [d|d]; destruct d eqn:E; try reflexivity;
    rewrite <- E; cbn [contains Ascii.eqb]; try apply uint_no_semicolon;
    rewrite uint_no_semicolon; reflexivity.
Qed.

(** Two texts cut at their first semicolon agree part by part. *)
Lemma semicolon_split (a c b d : string) :
  contains ";"%char a = false -> contains ";"%char c = false ->
  a +:+ String ";" b = c +:+ String ";" d -> a = c /\ b = d.
Proof.
  revert c. induction a as [|x a IH]; intros [|y c] Ha Hc H.
  - injection H as ->. auto.
  - change (String y c +:+ String ";" d) with (String y (c +:+ String ";" d)) in H.
    change ("" +:+ String ";" b) with (String ";" b) in H.
    injection H as <- _. cbn in Hc. discriminate.
  - change (String x a +:+ String ";" b) with (String x (a +:+ String ";" b)) in H.
    change ("" +:+ String ";" d) with (String ";" d) in H.
    injection H as -> _. cbn in Ha. discriminate.
  - change (String x a +:+ String ";" b) with (String x (a +:+ String ";" b)) in H.
    change (String y c +:+ String ";" d) with (String y (c +:+ String ";" d)) in H.
    injection H as -> H. cbn in Ha, Hc.
    apply orb_false_elim in Ha as [_ Ha]. apply orb_false_elim in Hc as [_ Hc].
    destruct (IH c Ha Hc H) as [-> ->]. auto.
Qed.

(** C9 (as stated) fails: the line printed for an attack uses the keyword
    SHOOT and is no line of the format whose attack keyword is ATTACK; and a
    Hunker decision is printed without a trailing Hunker. *)
Lemma attack_keyword_counterexample :
  format_compound_action 1 duel_shot = "1;SHOOT 2; HUNKER_DOWN" /\
  (forall agent_id primary secondary,
      render_line "ATTACK" agent_id primary secondary <> "1;SHOOT 2; HUNKER_DOWN") /\
  format_compound_action 1 (TacticalDecision.plain "HUNKER_DOWN" 0) = "1;HUNKER_DOWN" /\
  "1;HUNKER_DOWN" <> render_line "SHOOT" 1 HUNKER_DOWN (Some HUNKER_DOWN).
Proof.
  split; [reflexivity|]. split; [|split; [reflexivity|discriminate]].
  intros agent_id primary secondary H. unfold render_line in H.
  change "1;SHOOT 2; HUNKER_DOWN" with ("1" +:+ String ";" "SHOOT 2; HUNKER_DOWN") in H.
  change (to_string agent_id +:+ ";" +:+ ?r) with (to_string agent_id +:+ String ";" r) in H.
  apply semicolon_split in H as [_ H];
    [|apply to_string_no_semicolon|reflexivity].
  destruct primary; cbn [render_command] in H; discriminate H.
Qed.

(** ** C5: exceptions and the number of printed lines *)

Lemma output_line_defined (ai : SmartGameAI.t) (alive : list AgentState.t)
    (agent_decisions : gmap Z TacticalDecision.t) (line : nat) :
  my_agent_ids ai <> [] ->
  is_Some (Orchestrator.output_line ai alive agent_decisions line).
Proof.
  intros Hids. unfold Orchestrator.output_line.
  destruct (alive !! line); [eauto|].
  destruct alive; cbn; [|eauto].
  destruct (my_agent_ids ai); [congruence|]. cbn. eauto.
Qed.

Lemma output_lines_defined (ai : SmartGameAI.t) (current_my_agents : list AgentState.t)
    (agent_decisions : gmap Z TacticalDecision.t) (my_agent_count : Z) :
  my_agent_ids ai <> [] ->
  exists lines,
    Orchestrator.output_lines ai current_my_agents agent_decisions my_agent_count
    = Some lines
    /\ length lines = Z.to_nat my_agent_count.
Proof.
  intros Hids.
  assert (H : is_Some (Orchestrator.output_lines ai current_my_agents agent_decisions
                         my_agent_count)).
  { unfold Orchestrator.output_lines. apply mapM_is_Some, Forall_forall.
    intros line _. now apply output_line_defined. }
  destruct H as [lines H]. exists lines. split; [exact H|].
  now apply output_lines_lookup in H as [H _].
Qed.

Lemma turn_defined
    (search : list AgentState.t -> list AgentState.t -> option (list TacticalDecision.t))
    (heuristic : list AgentState.t -> list AgentState.t -> AgentState.t
                 -> option TacticalDecision.t)
    (ai : SmartGameAI.t) (turn_number : Z) (input : Orchestrator.TurnInput) :
  my_agent_ids ai <> [] ->
  is_Some (Orchestrator.turn search heuristic ai turn_number input).
Proof.
  intros Hids. unfold Orchestrator.turn.
  destruct (Orchestrator.compute_decisions _ _ _ _ _ _) as [[decisions bl]|]; [|eauto].
  destruct (output_lines_defined ai
              (List.filter (Orchestrator.is_my_agent ai) (Orchestrator.agents input))
              decisions (Orchestrator.my_agent_count input) Hids) as (lines & -> & _).
  eauto.
Qed.

(** The match loop prints for every turn of the feed what the turn prints on
    its own: nothing is carried from one turn to the next but the counter. *)
Lemma match_loop_lookup
    (search : list AgentState.t -> list AgentState.t -> option (list TacticalDecision.t))
    (heuristic : list AgentState.t -> list AgentState.t -> AgentState.t
                 -> option TacticalDecision.t)
    (ai : SmartGameAI.t) (turn_number : Z) (feed : list Orchestrator.TurnInput) :
  my_agent_ids ai <> [] ->
  exists outputs,
    Orchestrator.match_loop search heuristic ai turn_number feed = Some outputs /\
    length outputs = length feed /\
    forall i input, feed !! i = Some input ->
      outputs !! i
      = Orchestrator.turn search heuristic ai (turn_number + 1 + Z.of_nat i) input.
Proof.
  intros Hids. revert turn_number.
  induction feed as [|input feed IH]; intros turn_number; cbn.
  - exists []. split; [reflexivity|]. split; [reflexivity|]. intros i x H. discriminate H.
  - destruct (turn_defined search heuristic ai (turn_number + 1) input Hids) as [lines Hl].
    rewrite Hl. destruct (IH (turn_number + 1)) as (outputs & -> & Hlen & Hrest). cbn.
    exists (lines :: outputs). split; [reflexivity|]. split; [cbn; lia|].
    intros [|i] x Hx.
    + injection Hx as <-. rewrite Z.add_0_r, Hl. reflexivity.
    + change ((lines :: outputs) !! S i) with (outputs !! i).
      change ((input :: feed) !! S i) with (feed !! i) in Hx.
      rewrite (Hrest i x Hx). f_equal. lia.
Qed.

(** ** C3: resolution of movement collisions *)

Lemma existsb_false_elem {A : Type} (f : A -> bool) (l : list A) (a : A) :
  existsb f l = false -> a ∈ l -> f a = false.
Proof.
  intros H Hin. destruct (f a) eqn:E; [|reflexivity].
  assert (existsb f l = true); [|congruence].
  apply existsb_exists. exists a. split; [now apply list_elem_of_In|exact E].
Qed.

Lemma focus_fire_not_move (ai : SmartGameAI.t) (agent target : AgentState.t)
    (decision : TacticalDecision.t) :
  evaluate_focus_fire ai agent target = Some decision -> move_dest decision = None.
Proof.
  unfold evaluate_focus_fire.
  destruct (data_at ai _) as [data|]; cbn; [|discriminate].
  repeat match goal with |- context [if ?c then _ else _] => destruct c end;
    intros [= <-]; reflexivity.
Qed.

Lemma focus_fire_override_dest (ai : SmartGameAI.t) (priority_target : option AgentState.t)
    (agent : AgentState.t) (decision decision' : TacticalDecision.t) :
  Orchestrator.focus_fire_override ai priority_target agent decision = Some decision' ->
  decision' = decision \/ move_dest decision' = None.
Proof.
  unfold Orchestrator.focus_fire_override.
  destruct priority_target as [target|]; [|intros [= <-]; now left].
  destruct (AgentState.cooldown agent =? 0); [|intros [= <-]; now left].
  destruct (evaluate_focus_fire ai agent target) as [ff|] eqn:E; cbn; [|discriminate].
  destruct (Qgtb _ _); intros [= <-]; [right|now left].
  eapply focus_fire_not_move; eauto.
Qed.

Lemma find_first {A : Type} (P : A -> bool) (l : list A) (a : A) :
  find P l = Some a ->
  exists l1 l2, l = l1 ++ a :: l2 /\ P a = true /\ forall b, b ∈ l1 -> P b = false.
Proof.
  induction l as [|h l IH]; cbn; [discriminate|].
  destruct (P h) eqn:E.
  - intros [= <-]. exists [], l. split; [reflexivity|]. split; [exact E|].
    intros b Hb. apply elem_of_nil in Hb. contradiction.
  - intros H. destruct (IH H) as (l1 & l2 & -> & Ha & Hl1).
    exists (h :: l1), l2. split; [reflexivity|]. split; [exact Ha|].
    intros b Hb. apply elem_of_cons in Hb as [->|Hb]; auto.
Qed.

Lemma find_none {A : Type} (P : A -> bool) (l : list A) :
  find P l = None -> forall b, b ∈ l -> P b = false.
Proof.
  induction l as [|h l IH]; cbn; intros H b Hb.
  - apply elem_of_nil in Hb. contradiction.
  - destruct (P h) eqn:E; [discriminate|].
    apply elem_of_cons in Hb as [->|Hb]; auto.
Qed.

(** The alternatives are tried nearest first: the four tiles at distance 1,
    then the four at distance 2. *)
Lemma alternatives_nearest_first (tx ty : Z) (l1 l2 : list (Z * Z)) (alt alt' : Z * Z) :
  Orchestrator.alternatives tx ty = l1 ++ alt :: l2 ->
  alt' ∈ alt :: l2 ->
  manhattan_distance tx ty alt.1 alt.2 <= manhattan_distance tx ty alt'.1 alt'.2.
Proof.
  unfold Orchestrator.alternatives, Orchestrator.alternative_offsets. cbn [map].
  intros Hsplit Hin.
  repeat (destruct l1 as [|? l1];
          [cbn in Hsplit; injection Hsplit as <- <-;
           repeat (apply elem_of_cons in Hin as [->|Hin]; [unfold manhattan_distance; cbn; lia|]);
           apply elem_of_nil in Hin; contradiction
          |cbn in Hsplit; injection Hsplit as <- Hsplit]).
  destruct l1; discriminate Hsplit.
Qed.

(** The alternatives are the eight neighbours of the contested tile. *)
Lemma alternatives_neighbours (p q : Z * Z) :
  q ∈ Orchestrator.alternatives p.1 p.2
  <-> Z.max (Z.abs (q.1 - p.1)) (Z.abs (q.2 - p.2)) = 1.
Proof.
  destruct p as [px py], q as [qx qy]. cbn [fst snd].
  unfold Orchestrator.alternatives, Orchestrator.alternative_offsets. cbn [map].
  rewrite !elem_of_cons, elem_of_nil. split.
  - intros H. repeat (destruct H as [H|H]; [injection H as -> ->; lia|]). contradiction.
  - intros H.
    assert (Hx : qx = px - 1 \/ qx = px \/ qx = px + 1) by lia.
    assert (Hy : qy = py - 1 \/ qy = py \/ qy = py + 1) by lia.
    destruct Hx as [->|[->| ->]], Hy as [->|[->| ->]];
      try (exfalso; lia);
      repeat (first [left; f_equal; lia | right]).
Qed.

(** The test of the collision block accepts exactly the free alternatives. *)
Lemma alternative_free_spec (ai : SmartGameAI.t)
    (current_my_agents current_enemy_agents : list AgentState.t)
    (agent : AgentState.t) (reserved : gset (Z * Z)) (p q : Z * Z) :
  q ∈ Orchestrator.alternatives p.1 p.2 /\
  Orchestrator.alternative_free ai current_my_agents current_enemy_agents agent reserved q
  = true
  <-> free_alternative ai current_my_agents current_enemy_agents agent reserved p q.
Proof.
  unfold free_alternative. rewrite alternatives_neighbours.
  unfold Orchestrator.alternative_free, Orchestrator.occupied_by_other, in_bounds.
  split.
  - intros [Hn H]. split; [exact Hn|].
    apply andb_prop in H as [H Hocc]. apply andb_prop in H as [Hb Hres].
    apply negb_true_iff in Hres, Hocc. apply bool_decide_eq_false in Hres.
    apply orb_false_elim in Hocc as [Hmy Hen].
    split; [lia|]. split; [exact Hres|]. split.
    + intros other Hin Hid Hpos.
      pose proof (existsb_false_elem _ _ other Hmy Hin) as H. cbn beta in H.
      destruct q as [qx qy]. injection Hpos as Hx Hy. cbn [fst snd] in H.
      rewrite Hx, Hy, !Z.eqb_refl, !andb_true_r in H.
      apply negb_false_iff, Z.eqb_eq in H. contradiction.
    + intros enemy Hin Hpos.
      pose proof (existsb_false_elem _ _ enemy Hen Hin) as H. cbn beta in H.
      destruct q as [qx qy]. injection Hpos as Hx Hy. cbn [fst snd] in H.
      rewrite Hx, Hy, !Z.eqb_refl in H. discriminate H.
  - intros (Hn & Hb & Hres & Hmy & Hen). split; [exact Hn|].
    apply andb_true_intro. split; [apply andb_true_intro; split|].
    + lia.
    + apply negb_true_iff, bool_decide_eq_false. exact Hres.
    + apply negb_true_iff, orb_false_intro.
      * apply not_true_is_false. intros H. apply existsb_exists in H as (other & Hin & H).
        apply andb_prop in H as [H Hy]. apply andb_prop in H as [Hid Hx].
        apply negb_true_iff, Z.eqb_neq in Hid. apply Z.eqb_eq in Hx, Hy.
        apply (Hmy other); [now apply list_elem_of_In|exact Hid|].
        destruct q; cbn in *; congruence.
      * apply not_true_is_false. intros H. apply existsb_exists in H as (enemy & Hin & H).
        apply andb_prop in H as [Hx Hy]. apply Z.eqb_eq in Hx, Hy.
        apply (Hen enemy); [now apply list_elem_of_In|].
        destruct q; cbn in *; congruence.
Qed.

(** What the collision block does with a decision. *)
Lemma resolve_collision_spec (ai : SmartGameAI.t)
    (current_my_agents current_enemy_agents : list AgentState.t)
    (agent : AgentState.t) (decision : TacticalDecision.t)
    (reserved : gset (Z * Z)) :
  let p := (TacticalDecision.target_x decision, TacticalDecision.target_y decision) in
  let free := free_alternative ai current_my_agents current_enemy_agents agent reserved p in
  let result :=
    Orchestrator.resolve_collision ai current_my_agents current_enemy_agents agent
      decision reserved in
  (Orchestrator.is_move_class decision = false -> result = (decision, reserved)) /\
  (Orchestrator.is_move_class decision = true ->
   (p ∉ reserved -> result = (decision, {[p]} ∪ reserved)) /\
   (p ∈ reserved ->
    (exists q,
        result = (TacticalDecision.set_target q.1 q.2 decision, {[q]} ∪ reserved) /\
        free q /\
        forall q', free q' ->
                   manhattan_distance p.1 p.2 q.1 q.2
                   <= manhattan_distance p.1 p.2 q'.1 q'.2)
    \/ (result = (TacticalDecision.set_action_type "HUNKER_DOWN" decision, reserved) /\
        forall q, ~ free q))).
Proof.
  intros p free result. subst result free.
  unfold Orchestrator.resolve_collision. split; [intros ->; reflexivity|].
  intros ->. cbv zeta. fold p. split.
  - intros Hnot. rewrite bool_decide_eq_false_2 by exact Hnot. reflexivity.
  - intros Hin. rewrite bool_decide_eq_true_2 by exact Hin.
    destruct (find _ _) as [alt|] eqn:Hfind.
    + left. exists alt. split; [reflexivity|].
      destruct (find_first _ _ _ Hfind) as (l1 & l2 & Hsplit & Hfree & Hbefore).
      split.
      * apply alternative_free_spec. split; [|exact Hfree].
        rewrite Hsplit. apply elem_of_app. right. apply list_elem_of_here.
      * intros alt' Hfree'. apply alternative_free_spec in Hfree' as [Hin' Hfree'].
        rewrite Hsplit in Hin'. apply elem_of_app in Hin' as [Hin'|Hin'].
        -- rewrite (Hbefore _ Hin') in Hfree'. discriminate.
        -- eapply alternatives_nearest_first; eauto.
    + right. split; [reflexivity|]. intros q Hfree.
      apply alternative_free_spec in Hfree as [Hq Hfree].
      rewrite (find_none _ _ Hfind q Hq) in Hfree. discriminate.
Qed.

Lemma resolve_collision_facts (ai : SmartGameAI.t)
    (current_my_agents current_enemy_agents : list AgentState.t)
    (agent : AgentState.t) (decision decision' : TacticalDecision.t)
    (movement_blacklist movement_blacklist' : gset (Z * Z)) :
  Orchestrator.resolve_collision ai current_my_agents current_enemy_agents agent
    decision movement_blacklist = (decision', movement_blacklist') ->
  dest_in_bounds ai decision ->
  movement_blacklist ⊆ movement_blacklist' /\
  dest_in_bounds ai decision' /\
  forall p, move_dest decision' = Some p ->
            p ∈ movement_blacklist' /\ p ∉ movement_blacklist.
Proof.
  unfold Orchestrator.resolve_collision, dest_in_bounds, move_dest.
  destruct (Orchestrator.is_move_class decision) eqn:Hmove.
  - cbv zeta. destruct (bool_decide _) eqn:Hbl.
    + apply bool_decide_eq_true in Hbl.
      destruct (find _ _) as [alt|] eqn:Hfind.
      * intros [= <- <-] Hb.
        destruct (find_first _ _ _ Hfind) as (_ & _ & _ & Hfree & _).
        unfold Orchestrator.alternative_free in Hfree.
        apply andb_prop in Hfree as [Hfree _]. apply andb_prop in Hfree as [Hb1 Hb2].
        apply negb_true_iff, bool_decide_eq_false in Hb2.
        assert (Hm : Orchestrator.is_move_class
                       (TacticalDecision.set_target alt.1 alt.2 decision) = true)
          by exact Hmove.
        rewrite Hm. cbn. split; [set_solver|]. split.
        -- intros p [= <-]. exact Hb1.
        -- intros p [= <-]. destruct alt. cbn in *. split; [set_solver|exact Hb2].
      * intros [= <- <-] Hb. cbn. split; [set_solver|]. split; intros p; discriminate.
    + apply bool_decide_eq_false in Hbl. intros [= <- <-] Hb. rewrite Hmove.
      split; [set_solver|]. split; [exact Hb|].
      intros p [= <-]. split; [set_solver|exact Hbl].
  - intros [= <- <-] Hb. rewrite Hmove. split; [set_solver|].
    split; intros p; discriminate.
Qed.

Lemma finalized_destinations_snoc (agent_decisions : gmap Z TacticalDecision.t)
    (done : list AgentState.t) (agent : AgentState.t) :
  finalized_destinations agent_decisions (done ++ [agent])
  = finalized_destinations agent_decisions done
    ++ (if AgentState.is_alive agent
        then option_list (move_dest (Orchestrator.slot_decision agent_decisions
                                       (AgentState.agent_id agent)))
        else []).
Proof.
  unfold finalized_destinations, emitted_decisions, Orchestrator.alive_agents.
  rewrite filter_app, map_app, omap_app. f_equal.
  destruct (AgentState.is_alive agent) eqn:E.
  - rewrite filter_cons_True by exact E. cbn.
    destruct (move_dest _); reflexivity.
  - rewrite filter_cons_False by (rewrite E; discriminate). reflexivity.
Qed.

Lemma finalized_destinations_insert (agent_decisions : gmap Z TacticalDecision.t)
    (done : list AgentState.t) (id : Z) (decision : TacticalDecision.t) :
  id ∉ map AgentState.agent_id done ->
  finalized_destinations (<[id := decision]> agent_decisions) done
  = finalized_destinations agent_decisions done.
Proof.
  intros Hid. unfold finalized_destinations, emitted_decisions, Orchestrator.alive_agents.
  f_equal. induction done as [|a done IH]; [reflexivity|].
  assert (Ha : AgentState.agent_id a <> id).
  { intros <-. apply Hid. cbn. apply list_elem_of_here. }
  assert (Hrest : id ∉ map AgentState.agent_id done).
  { intros H. apply Hid. cbn. now apply list_elem_of_further. }
  destruct (decide (AgentState.is_alive a = true)) as [E|E].
  - rewrite filter_cons_True by exact E. cbn. rewrite IH by exact Hrest. f_equal.
    unfold Orchestrator.slot_decision. now rewrite lookup_insert_ne by congruence.
  - rewrite filter_cons_False by exact E. now apply IH.
Qed.

Lemma slot_decision_insert (agent_decisions : gmap Z TacticalDecision.t) (id : Z)
    (decision : TacticalDecision.t) :
  Orchestrator.slot_decision (<[id := decision]> agent_decisions) id = decision.
Proof. unfold Orchestrator.slot_decision. now rewrite lookup_insert_eq. Qed.

Section Collision_loop.

Variable heuristic : AgentState.t -> option TacticalDecision.t.
Variable ai : SmartGameAI.t.
Variable smitsimax : bool.
Variables current_my_agents current_enemy_agents : list AgentState.t.
Variable priority_target : option AgentState.t.

Hypothesis heuristic_in_bounds :
  forall agent decision, heuristic agent = Some decision -> dest_in_bounds ai decision.

Lemma decide_agent_invariant (done : list AgentState.t) (agent : AgentState.t)
    (st st' : gmap Z TacticalDecision.t * gset (Z * Z)) :
  AgentState.agent_id agent ∉ map AgentState.agent_id done ->
  loop_invariant ai done st ->
  Orchestrator.decide_agent heuristic ai smitsimax current_my_agents current_enemy_agents
    priority_target st agent = Some st' ->
  loop_invariant ai (done ++ [agent]) st'.
Proof.
  intros Hfresh (Hb & Hnd & Hres). destruct st as [decisions bl]. cbn in *.
  unfold Orchestrator.decide_agent.
  destruct (AgentState.is_alive agent) eqn:Halive.
  - destruct (if smitsimax then _ else _) as [d0|] eqn:Hprop; cbn; [|discriminate].
    assert (Hd0 : dest_in_bounds ai d0).
    { destruct smitsimax; [|eauto].
      destruct (decisions !! AgentState.agent_id agent) as [d|] eqn:El; [|eauto].
      injection Hprop as <-. eauto. }
    destruct (Orchestrator.resolve_collision _ _ _ _ _ _) as [d1 bl1] eqn:Hres1.
    destruct (resolve_collision_facts _ _ _ _ _ _ _ _ Hres1 Hd0) as (Hsub & Hd1 & Hnew).
    destruct (Orchestrator.focus_fire_override _ _ _ _) as [d2|] eqn:Hff; cbn; [|discriminate].
    intros [= <-]. unfold loop_invariant. cbn [fst snd].
    assert (Hd2 : forall p, move_dest d2 = Some p ->
                            in_bounds ai p.1 p.2 = true /\ p ∈ bl1 /\ p ∉ bl).
    { intros p Hp. destruct (focus_fire_override_dest _ _ _ _ _ Hff) as [->|Hnone];
        [|congruence]. destruct (Hnew p Hp). auto. }
    split; [|split].
    + intros k d Hk. apply lookup_insert_Some in Hk as [[_ <-]|[_ Hk]]; [|eauto].
      intros p Hp. now apply Hd2.
    + rewrite finalized_destinations_snoc, Halive, slot_decision_insert.
      rewrite finalized_destinations_insert by exact Hfresh.
      apply NoDup_app. split; [exact Hnd|]. split.
      * intros p Hp Hp'. destruct (move_dest d2) as [q|] eqn:Hq; cbn in Hp'.
        -- apply list_elem_of_singleton in Hp' as ->.
           destruct (Hd2 q eq_refl) as (_ & _ & Hnot). apply Hnot. now apply Hres.
        -- apply elem_of_nil in Hp'. contradiction.
      * destruct (move_dest d2); cbn; [apply NoDup_singleton|apply NoDup_nil_2].
    + intros p. rewrite finalized_destinations_snoc, Halive, slot_decision_insert.
      rewrite finalized_destinations_insert by exact Hfresh.
      intros Hp. apply elem_of_app in Hp as [Hp|Hp].
      * apply Hsub. now apply Hres.
      * destruct (move_dest d2) as [q|] eqn:Hq; cbn in Hp.
        -- apply list_elem_of_singleton in Hp as ->. now destruct (Hd2 q eq_refl) as (_ & ? & _).
        -- apply elem_of_nil in Hp. contradiction.
  - intros [= <-]. unfold loop_invariant. cbn [fst snd]. split; [|split].
    + intros k d Hk. apply lookup_insert_Some in Hk as [[_ <-]|[_ Hk]]; [|eauto].
      intros p Hp. discriminate.
    + rewrite finalized_destinations_snoc, Halive, app_nil_r.
      now rewrite finalized_destinations_insert by exact Hfresh.
    + intros p. rewrite finalized_destinations_snoc, Halive, app_nil_r.
      rewrite finalized_destinations_insert by exact Hfresh. apply Hres.
Qed.

Lemma decide_loop_invariant (todo done : list AgentState.t)
    (st st' : gmap Z TacticalDecision.t * gset (Z * Z)) :
  NoDup (map AgentState.agent_id (done ++ todo)) ->
  loop_invariant ai done st ->
  fold_leftM (Orchestrator.decide_agent heuristic ai smitsimax current_my_agents
                current_enemy_agents priority_target) todo st = Some st' ->
  loop_invariant ai (done ++ todo) st'.
Proof.
  revert done st. induction todo as [|agent todo IH]; intros done st Hnd Hinv; cbn.
  - intros [= <-]. now rewrite app_nil_r.
  - destruct (Orchestrator.decide_agent _ _ _ _ _ _ st agent) as [st1|] eqn:Hstep; cbn;
      [|discriminate].
    intros Hrest. replace (done ++ agent :: todo) with ((done ++ [agent]) ++ todo)
      by (now rewrite <- app_assoc).
    apply (IH (done ++ [agent]) st1).
    + now rewrite <- app_assoc.
    + eapply decide_agent_invariant; eauto.
      rewrite map_app in Hnd. cbn in Hnd. apply NoDup_app in Hnd as (_ & Hdis & _).
      intros Hin. apply (Hdis _ Hin). apply list_elem_of_here.
    + exact Hrest.
Qed.

End Collision_loop.

Lemma assign_joint_actions_values (current_my_agents : list AgentState.t)
    (joint_actions : list TacticalDecision.t) (k : Z) (decision : TacticalDecision.t) :
  Orchestrator.assign_joint_actions current_my_agents joint_actions !! k = Some decision ->
  decision ∈ joint_actions.
Proof.
  unfold Orchestrator.assign_joint_actions.
  assert (H : forall (l : list (AgentState.t * TacticalDecision.t))
                     (m : gmap Z TacticalDecision.t),
             (forall p, p ∈ l -> p.2 ∈ joint_actions) ->
             (forall k d, m !! k = Some d -> d ∈ joint_actions) ->
             forall k d,
               fold_left (fun (agent_decisions : gmap Z TacticalDecision.t) '(agent, action) =>
                            <[AgentState.agent_id agent := action]> agent_decisions) l m !! k
               = Some d -> d ∈ joint_actions).
  { induction l as [|[a act] l IH]; intros m Hl Hm k' d; cbn; [apply Hm|].
    apply IH.
    - intros p Hp. apply Hl. now apply list_elem_of_further.
    - intros k'' d' Hk. apply lookup_insert_Some in Hk as [[_ <-]|[_ Hk]]; [|eauto].
      apply (Hl (a, act)). apply list_elem_of_here. }
  apply H.
  - intros [a act] Hp. cbn. eapply elem_of_zip_r; eauto.
  - intros k' d Hk. rewrite lookup_empty in Hk. discriminate.
Qed.

(** *** The decisions of [make_optimal_decision] keep their destinations on the board *)

Lemma fold_leftM_invariant {A B : Type} (P : B -> Prop) (f : B -> A -> option B)
    (l : list A) (b b' : B) :
  P b ->
  (forall b a b', a ∈ l -> P b -> f b a = Some b' -> P b') ->
  fold_leftM f l b = Some b' -> P b'.
Proof.
  revert b. induction l as [|a l IH]; intros b Hb Hstep; cbn.
  - intros [= <-]. exact Hb.
  - destruct (f b a) as [b1|] eqn:E; cbn; [|discriminate].
    apply IH.
    + eapply Hstep; eauto. apply list_elem_of_here.
    + intros b2 a2 b3 Hin. apply Hstep. now apply list_elem_of_further.
Qed.

Lemma fold_left_invariant_elem {A B : Type} (P : B -> Prop) (f : B -> A -> B)
    (l : list A) (b : B) :
  P b -> (forall b a, a ∈ l -> P b -> P (f b a)) -> P (fold_left f l b).
Proof.
  revert b. induction l as [|a l IH]; intros b Hb Hstep; cbn; [exact Hb|].
  apply IH.
  - apply Hstep; [apply list_elem_of_here|exact Hb].
  - intros b1 a1 Hin. apply Hstep. now apply list_elem_of_further.
Qed.

Lemma out_of_bounds_test (ai : SmartGameAI.t) (nx ny : Z) :
  (nx <? 0) || (nx >=? board_width ai) || (ny <? 0) || (ny >=? board_height ai)
  = negb (in_bounds ai nx ny).
Proof.
  unfold in_bounds.
  destruct (nx <? 0) eqn:E1, (nx >=? board_width ai) eqn:E2, (ny <? 0) eqn:E3,
    (ny >=? board_height ai) eqn:E4, (nx >=? 0) eqn:E5, (nx <? board_width ai) eqn:E6,
    (ny >=? 0) eqn:E7, (ny <? board_height ai) eqn:E8; cbn; try reflexivity; lia.
Qed.

Lemma shooting_target_no_dest (ai : SmartGameAI.t) (agent : AgentState.t)
    (enemies : list AgentState.t) (decision : TacticalDecision.t) :
  find_best_shooting_target ai agent enemies = Some decision -> move_dest decision = None.
Proof.
  unfold find_best_shooting_target.
  destruct (_ || _); [intros [= <-]; reflexivity|].
  destruct (data_at ai _) as [data|]; cbn; [|discriminate].
  intros [= <-]. apply fold_left_invariant; [reflexivity|].
  intros best enemy Hbest.
  repeat match goal with |- context [if ?c then _ else _] => destruct c end;
    try exact Hbest; reflexivity.
Qed.

Lemma bombing_target_no_dest (ai : SmartGameAI.t) (agent : AgentState.t)
    (enemies allies : list AgentState.t) :
  move_dest (find_best_bombing_target_with_allies ai agent enemies allies) = None.
Proof.
  unfold find_best_bombing_target_with_allies.
  destruct (_ || _); [reflexivity|].
  destruct (fold_left _ enemies _) as [[best_x best_y] best_damage].
  destruct (_ && _ && _); reflexivity.
Qed.

Lemma compound_shoot_in_bounds (ai : SmartGameAI.t) (agent : AgentState.t)
    (data : AgentData.t) (enemies : list AgentState.t) (nx ny : Z)
    (best : TacticalDecision.t) :
  in_bounds ai nx ny = true -> dest_in_bounds ai best ->
  dest_in_bounds ai (compound_shoot agent data enemies nx ny best).
Proof.
  intros Hin Hbest. unfold compound_shoot. apply fold_left_invariant; [exact Hbest|].
  intros b enemy Hb.
  repeat match goal with |- context [if ?c then _ else _] => destruct c end;
    try exact Hb; intros p [= <-]; exact Hin.
Qed.

Lemma compound_throw_in_bounds (ai : SmartGameAI.t) (agent : AgentState.t)
    (enemies : list AgentState.t) (nx ny : Z) (best : TacticalDecision.t) :
  in_bounds ai nx ny = true -> dest_in_bounds ai best ->
  dest_in_bounds ai (compound_throw ai agent enemies nx ny best).
Proof.
  intros Hin Hbest. unfold compound_throw.
  destruct (_ && _); [|exact Hbest].
  apply fold_left_invariant; [exact Hbest|].
  intros b target_enemy Hb. destruct (negb _); [exact Hb|].
  apply fold_left_invariant; [exact Hb|].
  intros b' [dx dy] Hb'.
  destruct (_ || _ || _ || _); [exact Hb'|].
  destruct (_ >? THROW_DISTANCE_MAX); [exact Hb'|].
  destruct (splash_on_enemies _ _ _) as [total_damage enemies_hit].
  repeat match goal with |- context [if ?c then _ else _] => destruct c end;
    try exact Hb'; intros p [= <-]; exact Hin.
Qed.

Lemma compound_priorities_in_bounds (ai : SmartGameAI.t) (agent : AgentState.t)
    (occupied : list (Z * Z)) (target_x target_y min_distance : Z) (l : list (Z * Z)) :
  (compound_priorities_near ai agent occupied target_x target_y min_distance = Some l
   \/ compound_priorities_ring ai agent occupied = Some l) ->
  Forall (fun p => in_bounds ai p.1 p.2 = true) l.
Proof.
  intros [H|H].
  - revert H. unfold compound_priorities_near.
    apply fold_leftM_invariant; [constructor|].
    intros b [dx dy] b' _ Hb. destruct (_ && _); [intros [= <-]; exact Hb|].
    rewrite out_of_bounds_test.
    destruct (in_bounds ai _ _) eqn:Hin; cbn; [|intros [= <-]; exact Hb].
    destruct (negb _); [intros [= <-]; exact Hb|].
    destruct (_ <? min_distance); [|intros [= <-]; exact Hb].
    destruct (guarded_tile ai _ _) as [tile|]; cbn; [|discriminate].
    destruct (match tile with Some _ => _ | None => _ end); intros [= <-].
    + constructor; assumption.
    + apply Forall_app. split; [exact Hb|]. constructor; [exact Hin|constructor].
  - revert H. unfold compound_priorities_ring.
    apply fold_leftM_invariant; [constructor|].
    intros b [dx dy] b' _ Hb. fold (in_bounds ai (AgentState.x agent + dx)
                                      (AgentState.y agent + dy)).
    destruct (in_bounds ai _ _) eqn:Hin; [|intros [= <-]; exact Hb].
    destruct (GameMechanics.is_valid_movement_position _ _ _ _ _ _);
      [|intros [= <-]; exact Hb].
    destruct (guarded_tile ai _ _) as [[tile|]|]; cbn; [| |discriminate].
    + destruct (tile =? 0); intros [= <-].
      * constructor; assumption.
      * apply Forall_app. split; [exact Hb|]. constructor; [exact Hin|constructor].
    + intros [= <-]. apply Forall_app. split; [exact Hb|].
      constructor; [exact Hin|constructor].
Qed.

Lemma compound_action_in_bounds (ai : SmartGameAI.t) (agent : AgentState.t)
    (enemies allies : list AgentState.t) (decision : TacticalDecision.t) :
  find_best_compound_action ai agent enemies allies = Some decision ->
  dest_in_bounds ai decision.
Proof.
  unfold find_best_compound_action.
  destruct (data_at ai _) as [data|]; cbn [mbind option_bind]; [|discriminate].
  destruct (closest_enemy agent enemies) as [closest min_distance].
  destruct (match closest with Some _ => _ | None => _ end) as [l1|] eqn:H1;
    cbn [mbind option_bind]; [|discriminate].
  destruct (if (length l1 =? 0)%nat then _ else _) as [l2|] eqn:H2;
    cbn [mbind option_bind]; [|discriminate].
  intros [= <-].
  assert (Hl1 : Forall (fun p => in_bounds ai p.1 p.2 = true) l1).
  { destruct closest as [e|].
    - eapply compound_priorities_in_bounds. left. exact H1.
    - injection H1 as <-. constructor. }
  assert (Hl2 : Forall (fun p => in_bounds ai p.1 p.2 = true) l2).
  { destruct (length l1 =? 0)%nat.
    - eapply (compound_priorities_in_bounds ai agent _ 0 0 0). right. exact H2.
    - now injection H2 as <-. }
  clear H1 H2 Hl1.
  assert (Hgen : forall best, dest_in_bounds ai best ->
            dest_in_bounds ai
              (fold_left (fun best_compound '(nx, ny) =>
                            let best_compound :=
                              compound_shoot agent data enemies nx ny best_compound in
                            compound_throw ai agent enemies nx ny best_compound) l2 best)).
  { induction Hl2 as [|[nx ny] l Hp Hl IH]; intros best Hbest; cbn; [exact Hbest|].
    apply IH. apply compound_throw_in_bounds; [exact Hp|].
    apply compound_shoot_in_bounds; [exact Hp|exact Hbest]. }
  apply Hgen. intros p Hp. discriminate.
Qed.

Lemma provides_cover_in_bounds (ai : SmartGameAI.t) (cx cy : Z) :
  GameMechanics.provides_cover cx cy (board_width ai) (board_height ai) (tile_map ai)
  = Some true ->
  in_bounds ai cx cy = true.
Proof.
  unfold GameMechanics.provides_cover. rewrite out_of_bounds_test.
  destruct (in_bounds ai cx cy); [reflexivity|]. cbn. discriminate.
Qed.

Lemma valid_position_in_bounds (ai : SmartGameAI.t) (x y : Z) (occupied : list (Z * Z)) :
  GameMechanics.is_valid_movement_position x y (board_width ai) (board_height ai)
    (tile_map ai) occupied = true ->
  in_bounds ai x y = true.
Proof.
  unfold GameMechanics.is_valid_movement_position. rewrite out_of_bounds_test.
  destruct (in_bounds ai x y); [reflexivity|]. cbn. discriminate.
Qed.

Lemma move_in_bounds (ai : SmartGameAI.t) (x y a b c : Z) (ev kp : Q) (dmg : Z) :
  in_bounds ai x y = true ->
  dest_in_bounds ai (TacticalDecision.mk "MOVE" x y a b c ev kp dmg).
Proof. intros Hin p [= <-]. exact Hin. Qed.

Lemma resolve_collision_step (ai : SmartGameAI.t)
    (current_my_agents current_enemy_agents : list AgentState.t)
    (agent : AgentState.t) (decision : TacticalDecision.t) (reserved : gset (Z * Z)) :
  collision_step ai current_my_agents current_enemy_agents agent decision reserved
    (Orchestrator.resolve_collision ai current_my_agents current_enemy_agents agent
       decision reserved).1
    (Orchestrator.resolve_collision ai current_my_agents current_enemy_agents agent
       decision reserved).2.
Proof.
  pose proof (resolve_collision_spec ai current_my_agents current_enemy_agents agent
                decision reserved) as H.
  cbv zeta in H. destruct H as [Hother Hmove].
  destruct (Orchestrator.is_move_class decision) eqn:E.
  - destruct (Hmove eq_refl) as [Hfree Htaken].
    assert (Hdest : move_dest decision
                    = Some (TacticalDecision.target_x decision,
                            TacticalDecision.target_y decision))
      by (unfold move_dest; now rewrite E).
    destruct (decide ((TacticalDecision.target_x decision, TacticalDecision.target_y decision)
                      ∈ reserved)) as [Hin|Hnot].
    + destruct (Htaken Hin) as [(q & -> & Hq & Hnear)|[-> Hnone]]; cbn [fst snd].
      * eapply step_adopt; eauto.
      * eapply step_hunker; eauto.
    + rewrite (Hfree Hnot). cbn [fst snd]. now apply step_claim.
  - rewrite (Hother eq_refl). cbn [fst snd]. apply step_no_move.
    unfold move_dest. now rewrite E.
Qed.

Lemma resolution_snoc (ai : SmartGameAI.t)
    (current_my_agents current_enemy_agents : list AgentState.t)
    (reserved reserved' reserved'' : gset (Z * Z))
    (steps : list (AgentState.t * TacticalDecision.t * TacticalDecision.t))
    (agent : AgentState.t) (proposal resolved : TacticalDecision.t) :
  resolution ai current_my_agents current_enemy_agents reserved steps reserved' ->
  collision_step ai current_my_agents current_enemy_agents agent proposal reserved'
    resolved reserved'' ->
  resolution ai current_my_agents current_enemy_agents reserved
    (steps ++ [(agent, proposal, resolved)]) reserved''.
Proof.
  intros Hres Hstep. induction Hres as [r|r r' r'' a p d rest Hfirst Hrest IH]; cbn.
  - eapply resolution_cons; [exact Hstep|apply resolution_nil].
  - eapply resolution_cons; [exact Hfirst|]. now apply IH.
Qed.

Section Resolution_loop.

Variable heuristic : AgentState.t -> option TacticalDecision.t.
Variable ai : SmartGameAI.t.
Variable smitsimax : bool.
Variables current_my_agents current_enemy_agents : list AgentState.t.
Variable priority_target : option AgentState.t.
Variable assigned : gmap Z TacticalDecision.t.

Lemma alive_agents_snoc (done : list AgentState.t) (agent : AgentState.t) :
  Orchestrator.alive_agents (done ++ [agent])
  = Orchestrator.alive_agents done ++ (if AgentState.is_alive agent then [agent] else []).
Proof.
  unfold Orchestrator.alive_agents. rewrite filter_app. f_equal.
  destruct (AgentState.is_alive agent) eqn:E.
  - now rewrite filter_cons_True by exact E.
  - rewrite filter_cons_False by (rewrite E; discriminate). reflexivity.
Qed.

Lemma step_recorded_insert (agent_decisions : gmap Z TacticalDecision.t) (id : Z)
    (decision : TacticalDecision.t)
    (steps : list (AgentState.t * TacticalDecision.t * TacticalDecision.t)) :
  id ∉ map (fun step : AgentState.t * TacticalDecision.t * TacticalDecision.t =>
              AgentState.agent_id step.1.1) steps ->
  Forall (step_recorded heuristic smitsimax assigned agent_decisions) steps ->
  Forall (step_recorded heuristic smitsimax assigned (<[id := decision]> agent_decisions)) steps.
Proof.
  intros Hid Hall. induction Hall as [|[[a p] r] steps Hstep Hall IH]; [constructor|].
  constructor.
  - destruct Hstep as [Hprop (final & Hfinal & Hf)]. split; [exact Hprop|].
    exists final. split; [|exact Hf]. rewrite lookup_insert_ne; [exact Hfinal|].
    intros ->. apply Hid. cbn. apply list_elem_of_here.
  - apply IH. intros Hin. apply Hid. cbn. now apply list_elem_of_further.
Qed.

Lemma decide_agent_resolution (done : list AgentState.t) (agent : AgentState.t)
    (st st' : gmap Z TacticalDecision.t * gset (Z * Z)) :
  AgentState.agent_id agent ∉ map AgentState.agent_id done ->
  resolution_invariant heuristic ai smitsimax current_my_agents current_enemy_agents
    assigned done st ->
  Orchestrator.decide_agent heuristic ai smitsimax current_my_agents current_enemy_agents
    priority_target st agent = Some st' ->
  resolution_invariant heuristic ai smitsimax current_my_agents current_enemy_agents
    assigned (done ++ [agent]) st'.
Proof.
  intros Hfresh [(steps & Hagents & Hres & Hrec) Hrest]. destruct st as [decisions bl].
  cbn [fst snd] in *.
  assert (Hids : AgentState.agent_id agent
                 ∉ map (fun step : AgentState.t * TacticalDecision.t * TacticalDecision.t =>
                          AgentState.agent_id step.1.1) steps).
  { intros Hin. apply Hfresh.
    replace (map (fun step : AgentState.t * TacticalDecision.t * TacticalDecision.t =>
                    AgentState.agent_id step.1.1) steps)
      with (map AgentState.agent_id (Orchestrator.alive_agents done)) in Hin
      by (rewrite <- Hagents, map_map; reflexivity).
    apply list_elem_of_fmap in Hin as (a & -> & Ha).
    apply list_elem_of_fmap. exists a. split; [reflexivity|].
    unfold Orchestrator.alive_agents in Ha. now apply list_elem_of_filter in Ha as [_ Ha]. }
  assert (Hlater : forall d id,
             id ∉ map AgentState.agent_id (done ++ [agent]) ->
             <[AgentState.agent_id agent := d]> decisions !! id = assigned !! id).
  { intros d id Hid. rewrite lookup_insert_ne.
    - apply Hrest. intros Hin. apply Hid. rewrite map_app. apply elem_of_app. now left.
    - intros <-. apply Hid. rewrite map_app. apply elem_of_app. right. cbn.
      apply list_elem_of_here. }
  unfold Orchestrator.decide_agent.
  destruct (AgentState.is_alive agent) eqn:Halive.
  - destruct (if smitsimax then _ else _) as [proposal|] eqn:Hprop; cbn [mbind option_bind];
      [|discriminate].
    pose proof (resolve_collision_step ai current_my_agents current_enemy_agents agent
                  proposal bl) as Hstep.
    destruct (Orchestrator.resolve_collision _ _ _ _ _ _) as [resolved bl'].
    cbn [fst snd] in Hstep.
    destruct (Orchestrator.focus_fire_override _ _ _ _) as [final|] eqn:Hff;
      cbn [mbind option_bind]; [|discriminate].
    intros [= <-]. split; [|apply Hlater].
    exists (steps ++ [(agent, proposal, resolved)]). cbn [fst snd].
    split; [|split].
    + rewrite map_app, alive_agents_snoc, Halive, Hagents. reflexivity.
    + eapply resolution_snoc; eauto.
    + apply Forall_app. split; [now apply step_recorded_insert|].
      constructor; [|constructor]. split.
      * destruct smitsimax; [|now right].
        destruct (decisions !! AgentState.agent_id agent) as [d|] eqn:El; [|now right].
        injection Hprop as <-. left. split; [reflexivity|].
        rewrite <- (Hrest _ Hfresh). exact El.
      * exists final. split; [apply lookup_insert_eq|].
        destruct (focus_fire_override_dest _ _ _ _ _ Hff) as [->|Hnone]; auto.
  - intros [= <-]. split; [|apply Hlater].
    exists steps. cbn [fst snd]. split; [|split].
    + rewrite alive_agents_snoc, Halive, app_nil_r. exact Hagents.
    + exact Hres.
    + now apply step_recorded_insert.
Qed.

Lemma decide_loop_resolution (todo done : list AgentState.t)
    (st st' : gmap Z TacticalDecision.t * gset (Z * Z)) :
  NoDup (map AgentState.agent_id (done ++ todo)) ->
  resolution_invariant heuristic ai smitsimax current_my_agents current_enemy_agents
    assigned done st ->
  fold_leftM (Orchestrator.decide_agent heuristic ai smitsimax current_my_agents
                current_enemy_agents priority_target) todo st = Some st' ->
  resolution_invariant heuristic ai smitsimax current_my_agents current_enemy_agents
    assigned (done ++ todo) st'.
Proof.
  revert done st. induction todo as [|agent todo IH]; intros done st Hnd Hinv; cbn.
  - intros [= <-]. now rewrite app_nil_r.
  - destruct (Orchestrator.decide_agent _ _ _ _ _ _ st agent) as [st1|] eqn:Hstep; cbn;
      [|discriminate].
    intros Hrest. replace (done ++ agent :: todo) with ((done ++ [agent]) ++ todo)
      by (now rewrite <- app_assoc).
    apply (IH (done ++ [agent]) st1).
    + now rewrite <- app_assoc.
    + eapply decide_agent_resolution; eauto.
      rewrite map_app in Hnd. cbn in Hnd. apply NoDup_app in Hnd as (_ & Hdis & _).
      intros Hin. apply (Hdis _ Hin). apply list_elem_of_here.
    + exact Hrest.
Qed.

End Resolution_loop.

Lemma hunker_in_bounds (ai : SmartGameAI.t) (ev : Q) :
  dest_in_bounds ai (TacticalDecision.plain "HUNKER_DOWN" ev).
Proof. intros p Hp. discriminate Hp. Qed.

Lemma cover_strategy_in_bounds (ai : SmartGameAI.t) (agent : AgentState.t)
    (enemies allies : list AgentState.t) (decision : TacticalDecision.t) :
  evaluate_cover_strategy ai agent enemies allies = Some decision ->
  dest_in_bounds ai decision.
Proof.
  unfold evaluate_cover_strategy.
  destruct (fold_left _ enemies (0, 0, false)) as [[immediate_threats potential] heavy].
  destruct (negb _); [intros [= <-]; apply hunker_in_bounds|].
  destruct (fold_leftM _ _ []) as [cover_positions|] eqn:Hcover;
    cbn [mbind option_bind]; [|discriminate].
  assert (Hall : Forall (fun p => in_bounds ai p.1 p.2 = true) cover_positions).
  { revert Hcover. apply fold_leftM_invariant; [constructor|].
    intros b [dx dy] b' _ Hb.
    destruct (GameMechanics.provides_cover _ _ _ _ _) as [[|]|] eqn:Hc;
      cbn [mbind option_bind]; [| |discriminate].
    - destruct (negb _); intros [= <-]; [|exact Hb].
      apply Forall_app. split; [exact Hb|].
      constructor; [|constructor]. now apply provides_cover_in_bounds.
    - intros [= <-]. exact Hb. }
  destruct (negb (length cover_positions =? 0)%nat); [|intros [= <-]; apply hunker_in_bounds].
  assert (Hbest : (fun st : Z * (Z * Z) =>
                     st.2.1 = -1 \/ in_bounds ai st.2.1 st.2.2 = true)
            (fold_left
               (fun '(best_distance, best_cover) (pos : Z * Z) =>
                  let distance := Z.abs (AgentState.x agent - pos.1)
                                  + Z.abs (AgentState.y agent - pos.2) in
                  if distance <? best_distance then (distance, pos)
                  else (best_distance, best_cover))
               cover_positions (INT_MAX, (-1, -1)))).
  { apply fold_left_invariant_elem; [left; reflexivity|].
    intros [best_distance best_cover] pos Hpos Hst. cbv zeta.
    destruct (_ <? best_distance); [|exact Hst].
    right. rewrite Forall_forall in Hall. apply Hall, Hpos. }
  cbv beta in Hbest.
  destruct (fold_left _ cover_positions _) as [best_distance best_cover].
  destruct (best_cover.1 =? -1) eqn:E; cbn [negb]; intros [= <-];
    [apply hunker_in_bounds|].
  apply move_in_bounds. destruct Hbest as [Hb|Hb]; [cbn in Hb; lia|exact Hb].
Qed.

Lemma sniper_strategy_in_bounds (scaled_direction : Z -> Z -> Z * Z) (ai : SmartGameAI.t)
    (agent : AgentState.t) (enemies allies : list AgentState.t)
    (decision : TacticalDecision.t) :
  evaluate_sniper_strategy scaled_direction ai agent enemies allies = Some decision ->
  dest_in_bounds ai decision.
Proof.
  unfold evaluate_sniper_strategy.
  destruct (data_at ai _) as [data|]; cbn [mbind option_bind]; [|discriminate].
  destruct (negb _); [intros [= <-]; apply hunker_in_bounds|].
  destruct (fold_left _ enemies (0, 0)) as [enemy_team_health bombers_nearby].
  cbv zeta.
  destruct (if negb _ && _ then true else _); [|intros [= <-]; apply hunker_in_bounds].
  destruct (closest_enemy agent enemies).1 as [closest|];
    [|intros [= <-]; apply hunker_in_bounds].
  destruct (negb _); [|intros [= <-]; apply hunker_in_bounds].
  destruct (GameMechanics.is_valid_movement_position _ _ _ _ _ _) eqn:Hvalid;
    intros [= <-]; [|apply hunker_in_bounds].
  apply move_in_bounds. eapply valid_position_in_bounds. exact Hvalid.
Qed.

Lemma movement_candidates_in_bounds (ai : SmartGameAI.t) (agent : AgentState.t)
    (has_target : bool) (p : Z * Z) :
  p ∈ movement_candidates ai agent has_target -> in_bounds ai p.1 p.2 = true.
Proof.
  assert (Hring : forall step,
            p ∈ omap (fun '(dx, dy) =>
                        let nx := AgentState.x agent + dx * step in
                        let ny := AgentState.y agent + dy * step in
                        if in_bounds ai nx ny then Some (nx, ny) else None) ring_offsets ->
            in_bounds ai p.1 p.2 = true).
  { intros step Hin. apply list_elem_of_omap in Hin as [[dx dy] [_ Hp]].
    cbv zeta in Hp. destruct (in_bounds ai _ _) eqn:E; [|discriminate].
    injection Hp as <-. exact E. }
  unfold movement_candidates. cbv zeta. rewrite elem_of_app. intros [H|H].
  - eapply Hring, H.
  - destruct has_target; [|inversion H].
    apply elem_of_app in H as [H|H]; eapply Hring, H.
Qed.

Lemma random_moves_in_bounds (ai : SmartGameAI.t) (agent : AgentState.t)
    (enemies allies : list AgentState.t) (num_simulations : Z)
    (moves : list TacticalDecision.t) :
  generate_random_moves ai agent enemies allies num_simulations = Some moves ->
  Forall (dest_in_bounds ai) moves.
Proof.
  unfold generate_random_moves. cbv zeta.
  destruct (fold_leftM _ _ []) as [l|] eqn:Hl; cbn [mbind option_bind]; [|discriminate].
  assert (Hall : Forall (dest_in_bounds ai) l).
  { revert Hl. apply fold_leftM_invariant; [constructor|].
    intros b [nx ny] b' Hin Hb.
    apply movement_candidates_in_bounds in Hin.
    destruct (existsb _ _); [intros [= <-]; exact Hb|].
    destruct (match (closest_enemy agent enemies).1 with Some _ => _ | None => _ end)
      as [expected_value|]; cbn [mbind option_bind]; [|discriminate].
    intros [= <-]. apply Forall_app. split; [exact Hb|].
    constructor; [|constructor]. apply move_in_bounds. exact Hin. }
  destruct (length l =? 0)%nat; intros [= <-]; [|exact Hall].
  constructor; [apply hunker_in_bounds|constructor].
Qed.

Lemma set_expected_value_in_bounds (ai : SmartGameAI.t) (v : Q)
    (decision : TacticalDecision.t) :
  dest_in_bounds ai decision ->
  dest_in_bounds ai (TacticalDecision.set_expected_value v decision).
Proof. intros H. destruct decision. exact H. Qed.

Lemma expectimax_in_bounds (ai : SmartGameAI.t) (agent : AgentState.t)
    (options : list TacticalDecision.t) (enemies allies : list AgentState.t) :
  Forall (dest_in_bounds ai) options ->
  dest_in_bounds ai (expectimax_evaluate agent options enemies allies).
Proof.
  intros Hall. unfold expectimax_evaluate.
  match goal with |- context [fold_left ?f options ?init] =>
    set (best_option := fold_left f options init);
    assert (Hbest : dest_in_bounds ai best_option)
  end.
  - apply fold_left_invariant_elem; [intros p Hp; discriminate Hp|].
    intros best option Hin Hb. rewrite Forall_forall in Hall.
    destruct (Qgtb _ _); [|exact Hb].
    apply set_expected_value_in_bounds, Hall, Hin.
  - cbv zeta. destruct (Qltb _ 0); [|exact Hbest].
    intros p Hp. destruct best_option. discriminate Hp.
Qed.

Lemma make_optimal_decision_in_bounds (scaled_direction : Z -> Z -> Z * Z)
    (ai : SmartGameAI.t) (agent : AgentState.t) (enemies allies : list AgentState.t)
    (decision : TacticalDecision.t) :
  make_optimal_decision scaled_direction ai agent enemies allies = Some decision ->
  dest_in_bounds ai decision.
Proof.
  unfold make_optimal_decision.
  destruct (data_at ai _) as [data|]; cbn [mbind option_bind]; [|discriminate].
  destruct (find_best_shooting_target ai agent enemies) as [best_shoot|] eqn:Hshoot;
    cbn [mbind option_bind]; [|discriminate].
  destruct (find_best_compound_action ai agent enemies allies) as [best_compound|]
    eqn:Hcompound; cbn [mbind option_bind]; [|discriminate].
  destruct (evaluate_cover_strategy ai agent enemies allies) as [cover_strategy|]
    eqn:Hcover; cbn [mbind option_bind]; [|discriminate].
  destruct (evaluate_sniper_strategy scaled_direction ai agent enemies allies)
    as [sniper_strategy|] eqn:Hsniper; cbn [mbind option_bind]; [|discriminate].
  destruct (generate_random_moves ai agent enemies allies 50) as [movement_options|]
    eqn:Hmoves; cbn [mbind option_bind]; [|discriminate].
  cbv zeta.
  pose proof (bombing_target_no_dest ai agent enemies allies) as Hbomb.
  set (bomb := find_best_bombing_target_with_allies ai agent enemies allies) in *.
  assert (Hbomb' : dest_in_bounds ai
            (if ((AgentState.get_health agent <=? 40) && (AgentState.splash_bombs agent >? 0)
                 && (AgentState.cooldown agent =? 0))
                && String.eqb (TacticalDecision.action_type bomb) "THROW"
             then TacticalDecision.set_expected_value
                    (TacticalDecision.expected_value bomb * 5)%Q bomb
             else bomb)).
  { assert (H : dest_in_bounds ai bomb) by (intros p Hp; congruence).
    destruct (_ && _); [now apply set_expected_value_in_bounds|exact H]. }
  match goal with |- (if ?c then _ else _) = _ -> _ => destruct c end;
    intros [= <-]; [exact Hbomb'|].
  apply expectimax_in_bounds.
  repeat apply Forall_cons_2.
  - intros p Hp. apply shooting_target_no_dest in Hshoot. congruence.
  - exact Hbomb'.
  - eapply compound_action_in_bounds, Hcompound.
  - eapply cover_strategy_in_bounds, Hcover.
  - eapply sniper_strategy_in_bounds, Hsniper.
  - eapply random_moves_in_bounds, Hmoves.
Qed.

(** *** The joint actions of the search keep their destinations on the board *)

Lemma agent_actions_in_bounds (ai : SmartGameAI.t) (enemies all_allies : list AgentState.t)
    (agent : AgentState.t) (actions : list TacticalDecision.t) :
  SmitsimaxSearch.agent_actions ai enemies all_allies agent = Some actions ->
  Forall (dest_in_bounds ai) actions.
Proof.
  unfold SmitsimaxSearch.agent_actions.
  destruct (negb _).
  { intros [= <-]. constructor; [apply hunker_in_bounds|constructor]. }
  destruct (find_best_shooting_target ai agent enemies) as [shoot|] eqn:Hshoot;
    cbn [mbind option_bind]; [|discriminate].
  destruct (generate_random_moves ai agent enemies all_allies 2) as [moves|] eqn:Hmoves;
    cbn [mbind option_bind]; [|discriminate].
  intros [= <-].
  assert (Hs : dest_in_bounds ai shoot).
  { intros p Hp. apply shooting_target_no_dest in Hshoot. congruence. }
  assert (Hb : dest_in_bounds ai
                 (find_best_bombing_target_with_allies ai agent enemies all_allies)).
  { intros p Hp. rewrite bombing_target_no_dest in Hp. discriminate Hp. }
  apply random_moves_in_bounds in Hmoves.
  repeat apply Forall_app_2.
  - destruct (String.eqb _ "SHOOT"), (String.eqb _ "THROW");
      repeat first [apply Forall_app_2 | apply Forall_cons_2 | apply Forall_nil_2];
      assumption.
  - now apply Forall_take.
  - constructor; [apply hunker_in_bounds|constructor].
Qed.

Lemma joint_actions_loop_in_bounds (ai : SmartGameAI.t) (rounds : nat)
    (actions : list (list TacticalDecision.t)) (indices : list nat)
    (joint_actions result : list (list TacticalDecision.t)) :
  Forall (Forall (dest_in_bounds ai)) actions ->
  Forall (Forall (dest_in_bounds ai)) joint_actions ->
  SmitsimaxSearch.joint_actions_loop rounds actions indices joint_actions = Some result ->
  Forall (Forall (dest_in_bounds ai)) result.
Proof.
  intros Hactions. revert indices joint_actions.
  induction rounds as [|rounds IH]; intros indices joint_actions Hjoint;
    cbn [SmitsimaxSearch.joint_actions_loop]; [discriminate|].
  destruct (mapM _ (zip actions indices)) as [joint_action|] eqn:Hm;
    cbn [mbind option_bind]; [|discriminate].
  assert (Hnew : Forall (Forall (dest_in_bounds ai)) (joint_actions ++ [joint_action])).
  { apply Forall_app_2; [exact Hjoint|]. constructor; [|constructor].
    apply mapM_Some in Hm. apply Forall_forall. intros decision Hin.
    apply list_elem_of_lookup in Hin as [i Hi].
    destruct (Forall2_lookup_r _ _ _ _ _ Hm Hi) as ([agent_actions idx] & Hz & Hl).
    apply list_elem_of_lookup_2 in Hz. apply elem_of_zip_l in Hz.
    rewrite Forall_forall in Hactions. specialize (Hactions _ Hz).
    rewrite Forall_forall in Hactions. apply Hactions.
    eapply list_elem_of_lookup_2, Hl. }
  cbv zeta. destruct (16 <=? _)%nat; [intros [= <-]; exact Hnew|].
  destruct ((SmitsimaxSearch.advance _ _).1 !! 0%nat) as [first|];
    cbn [mbind option_bind]; [|discriminate].
  destruct (actions !! 0%nat) as [first_actions|]; cbn [mbind option_bind]; [|discriminate].
  destruct (_ || _); [|intros [= <-]; exact Hnew].
  apply IH. exact Hnew.
Qed.

Lemma smitsimax_search_in_bounds (outcome : SmitsimaxSearch.SearchOutcome)
    (ai : SmartGameAI.t) (my_agents enemies : list AgentState.t)
    (joint_action : list TacticalDecision.t) (decision : TacticalDecision.t) :
  SmitsimaxSearch.smitsimax_search outcome ai my_agents enemies = Some joint_action ->
  decision ∈ joint_action -> dest_in_bounds ai decision.
Proof.
  destruct outcome as [| |n]; cbn [SmitsimaxSearch.smitsimax_search].
  - discriminate.
  - intros [= <-] Hin. apply list_elem_of_fmap in Hin as (a & -> & _).
    apply hunker_in_bounds.
  - unfold SmitsimaxSearch.generate_joint_actions.
    destruct (mapM _ my_agents) as [actions|] eqn:Hm; cbn [mbind option_bind];
      [|discriminate].
    destruct (SmitsimaxSearch.joint_actions_loop _ _ _ _) as [joint_actions|] eqn:Hloop;
      cbn [mbind option_bind]; [|discriminate].
    intros Hn Hin.
    assert (Hall : Forall (Forall (dest_in_bounds ai)) joint_actions).
    { eapply joint_actions_loop_in_bounds; [|constructor|exact Hloop].
      apply mapM_Some in Hm. apply Forall_forall. intros l Hl.
      apply list_elem_of_lookup in Hl as [i Hi].
      destruct (Forall2_lookup_r _ _ _ _ _ Hm Hi) as (agent & _ & Ha).
      eapply agent_actions_in_bounds, Ha. }
    apply list_elem_of_lookup_2 in Hn.
    rewrite Forall_forall in Hall.
    assert (Hj : joint_action ∈ joint_actions) by (eapply subseteq_take, Hn).
    specialize (Hall _ Hj). rewrite Forall_forall in Hall. apply Hall, Hin.
Qed.

(** For any search and heuristic whose Move proposals lie on the board, and
    for agents with distinct ids, the destinations kept after the loop are
    pairwise distinct and lie on the board, and the collision block is a
    function of the agent, its decision and the tiles reserved so far. *)
Lemma collision_loop_resolution
    (search : list AgentState.t -> list AgentState.t -> option (list TacticalDecision.t))
    (heuristic : list AgentState.t -> list AgentState.t -> AgentState.t
                 -> option TacticalDecision.t)
    (ai : SmartGameAI.t) (turn_number : Z)
    (current_my_agents current_enemy_agents : list AgentState.t)
    (agent_decisions : gmap Z TacticalDecision.t) (movement_blacklist : gset (Z * Z)) :
  NoDup (map AgentState.agent_id current_my_agents) ->
  (forall agent decision,
      heuristic current_enemy_agents current_my_agents agent = Some decision ->
      dest_in_bounds ai decision) ->
  (forall joint_actions decision,
      search current_my_agents current_enemy_agents = Some joint_actions ->
      decision ∈ joint_actions -> dest_in_bounds ai decision) ->
  Orchestrator.compute_decisions search heuristic ai turn_number
    current_my_agents current_enemy_agents = Some (agent_decisions, movement_blacklist) ->
  NoDup (finalized_destinations agent_decisions current_my_agents) /\
  Forall (fun p => in_bounds ai p.1 p.2 = true)
         (finalized_destinations agent_decisions current_my_agents) /\
  (forall agent decision reserved,
      let p := (TacticalDecision.target_x decision, TacticalDecision.target_y decision) in
      let free :=
        free_alternative ai current_my_agents current_enemy_agents agent reserved p in
      let result :=
        Orchestrator.resolve_collision ai current_my_agents current_enemy_agents agent
          decision reserved in
      (Orchestrator.is_move_class decision = false -> result = (decision, reserved)) /\
      (Orchestrator.is_move_class decision = true ->
       (p ∉ reserved -> result = (decision, {[p]} ∪ reserved)) /\
       (p ∈ reserved ->
        (exists q,
            result = (TacticalDecision.set_target q.1 q.2 decision, {[q]} ∪ reserved) /\
            free q /\
            forall q', free q' ->
                       manhattan_distance p.1 p.2 q.1 q.2
                       <= manhattan_distance p.1 p.2 q'.1 q'.2)
        \/ (result = (TacticalDecision.set_action_type "HUNKER_DOWN" decision, reserved) /\
            forall q, ~ free q)))) /\
  (exists steps,
      map (fun step : AgentState.t * TacticalDecision.t * TacticalDecision.t => step.1.1) steps
      = Orchestrator.alive_agents current_my_agents /\
      resolution ai current_my_agents current_enemy_agents ∅ steps movement_blacklist /\
      Forall (fun '(agent, proposal, resolved) =>
                ((exists joint_action,
                     search current_my_agents current_enemy_agents = Some joint_action /\
                     proposal ∈ joint_action)
                 \/ heuristic current_enemy_agents current_my_agents agent = Some proposal) /\
                exists final,
                  agent_decisions !! AgentState.agent_id agent = Some final /\
                  (final = resolved \/ move_dest final = None))
             steps).
Proof.
  intros Hids Hheur Hsearch Hrun.
  assert (Hinv : loop_invariant ai current_my_agents (agent_decisions, movement_blacklist)).
  { unfold Orchestrator.compute_decisions in Hrun.
    destruct (if Orchestrator.use_smitsimax _ _ _ then _ else _) as [decisions0|] eqn:Hinit;
      cbn in Hrun; [|discriminate].
    eapply (decide_loop_invariant _ ai _ _ _ _ Hheur current_my_agents []
              (decisions0, ∅)); [exact Hids| |exact Hrun].
    split; [|split].
    - cbn. intros k d Hk.
      destruct (Orchestrator.use_smitsimax _ _ _).
      + destruct (search current_my_agents current_enemy_agents) as [joint|] eqn:Hs;
          cbn in Hinit; [|discriminate].
        injection Hinit as <-. eapply Hsearch; [reflexivity|].
        eapply assign_joint_actions_values; eauto.
      + injection Hinit as <-. rewrite lookup_empty in Hk. discriminate.
    - apply NoDup_nil_2.
    - intros p Hp. apply elem_of_nil in Hp. contradiction. }
  destruct Hinv as (Hb & Hnd & _). cbn in Hb, Hnd.
  split; [exact Hnd|]. split; [|split].
  - apply Forall_forall. intros p Hp.
    unfold finalized_destinations, emitted_decisions in Hp.
    apply list_elem_of_omap in Hp as (d & Hd & Hp).
    apply list_elem_of_fmap in Hd as (a & -> & _).
    unfold Orchestrator.slot_decision in Hp.
    destruct (agent_decisions !! AgentState.agent_id a) as [d|] eqn:El.
    + exact (Hb _ _ El p Hp).
    + discriminate.
  - intros agent decision reserved. apply resolve_collision_spec.
  - unfold Orchestrator.compute_decisions in Hrun.
    set (smitsimax := Orchestrator.use_smitsimax _ _ _) in *.
    destruct (if smitsimax then _ else _) as [assigned|] eqn:Hinit;
      cbn [mbind option_bind] in Hrun; [|discriminate].
    destruct (decide_loop_resolution
                (heuristic current_enemy_agents current_my_agents) ai smitsimax
                current_my_agents current_enemy_agents
                (Orchestrator.select_priority_target current_my_agents current_enemy_agents)
                assigned current_my_agents [] (assigned, ∅)
                (agent_decisions, movement_blacklist) Hids)
      as [(steps & Hagents & Hres & Hrec) _].
    { split; [|reflexivity]. exists []. split; [reflexivity|].
      split; [apply resolution_nil|constructor]. }
    { exact Hrun. }
    exists steps. split; [exact Hagents|]. split; [exact Hres|].
    eapply Forall_impl; [exact Hrec|].
    intros [[agent proposal] resolved] [Hprop Hfinal]. split; [|exact Hfinal].
    destruct Hprop as [[Hs Hassigned]|Hheuristic]; [left|now right].
    rewrite Hs in Hinit.
    destruct (search current_my_agents current_enemy_agents) as [joint_action|];
      cbn [mbind option_bind] in Hinit; [|discriminate].
    injection Hinit as <-. exists joint_action. split; [reflexivity|].
    eapply assign_joint_actions_values, Hassigned.
Qed.



(** * Further properties of the code *)

Import Orchestrator.

(** ** Loops and lists *)

Lemma fold_left_prefix_invariant {A B : Type} (P : list A -> B -> Prop) (f : B -> A -> B)
    (l : list A) (b : B) :
  P [] b ->
  (forall seen a b, P seen b -> P (seen ++ [a]) (f b a)) ->
  P l (fold_left f l b).
Proof.
  intros Hb Hstep. induction l as [|a l IH] using rev_ind; [exact Hb|].
  rewrite fold_left_app. cbn. now apply Hstep.
Qed.

Lemma fold_leftM_prefix_invariant {A B : Type} (P : list A -> B -> Prop)
    (f : B -> A -> option B) (l : list A) (b r : B) :
  P [] b ->
  (forall seen a b b', P seen b -> f b a = Some b' -> P (seen ++ [a]) b') ->
  fold_leftM f l b = Some r -> P l r.
Proof.
  intros Hb Hstep.
  assert (H : forall seen rest b, P seen b -> fold_leftM f rest b = Some r ->
                                  P (seen ++ rest) r).
  { intros seen rest. revert seen. induction rest as [|a rest IH]; intros seen b0 Hp; cbn.
    - intros [= <-]. now rewrite app_nil_r.
    - destruct (f b0 a) as [b'|] eqn:E; cbn; [|discriminate]. intros Hr.
      replace (seen ++ a :: rest) with ((seen ++ [a]) ++ rest) by now rewrite <- app_assoc.
      eapply IH; [|exact Hr]. eapply Hstep; eassumption. }
  apply (H [] l b Hb).
Qed.

Lemma fold_leftM_is_Some_elem {A B : Type} (f : B -> A -> option B) (l : list A) (b : B) :
  (forall b a, a ∈ l -> is_Some (f b a)) -> is_Some (fold_leftM f l b).
Proof.
  revert b. induction l as [|a l IH]; intros b Hf; cbn; [eauto|].
  destruct (Hf b a) as [b' ->]; [apply list_elem_of_here|]. cbn. apply IH.
  intros b0 a0 Hin. apply Hf. now apply list_elem_of_further.
Qed.

Lemma fold_leftM_is_Some {A B : Type} (f : B -> A -> option B) (l : list A) (b : B) :
  (forall b a, is_Some (f b a)) -> is_Some (fold_leftM f l b).
Proof. intros Hf. apply fold_leftM_is_Some_elem. intros b0 a _. apply Hf. Qed.

Lemma class_eqb_eq (a b : GameAgentClass) : GameAgentClass_eqb a b = true <-> a = b.
Proof. destruct a, b; cbn; split; congruence. Qed.

Lemma range5_offsets (dx dy : Z) :
  (dx, dy) ∈ (dx ← range5; dy ← range5; [(dx, dy)]) <-> Z.max (Z.abs dx) (Z.abs dy) <= 2.
Proof.
  split.
  - intros Hoff. apply list_elem_of_bind in Hoff as (x & Hy & Hx).
    apply list_elem_of_bind in Hy as (y & Hp & Hy).
    apply list_elem_of_singleton in Hp. injection Hp as -> ->.
    unfold range5 in Hx, Hy.
    repeat (apply elem_of_cons in Hx as [->|Hx]);
      repeat (apply elem_of_cons in Hy as [->|Hy]);
      try (inversion Hx); try (inversion Hy); lia.
  - intros H. apply list_elem_of_bind. exists dx. split.
    + apply list_elem_of_bind. exists dy. split; [apply list_elem_of_singleton; reflexivity|].
      unfold range5. rewrite !elem_of_cons, elem_of_nil. lia.
    + unfold range5. rewrite !elem_of_cons, elem_of_nil. lia.
Qed.

(** The nearest living enemy of [closest_enemy]: a living member of the list
    at the least distance, which is below [INT_MAX]; none when no living member
    is nearer than [INT_MAX]. *)
Lemma closest_enemy_spec (agent : AgentState.t) (enemies : list AgentState.t) :
  let distance_to (enemy : AgentState.t) :=
    manhattan_distance (AgentState.x agent) (AgentState.y agent)
      (AgentState.x enemy) (AgentState.y enemy) in
  match closest_enemy agent enemies with
  | (Some target, min_distance) =>
      target ∈ enemies /\ AgentState.is_alive target = true /\
      min_distance = distance_to target /\ min_distance < INT_MAX /\
      forall enemy, enemy ∈ enemies -> AgentState.is_alive enemy = true ->
                    min_distance <= distance_to enemy
  | (None, min_distance) =>
      min_distance = INT_MAX /\
      forall enemy, enemy ∈ enemies -> AgentState.is_alive enemy = true ->
                    INT_MAX <= distance_to enemy
  end.
Proof.
  cbv zeta. unfold closest_enemy.
  apply (fold_left_prefix_invariant
           (fun seen (acc : option AgentState.t * Z) =>
              match acc with
              | (Some target, min_distance) =>
                  target ∈ seen /\ AgentState.is_alive target = true /\
                  min_distance
                  = manhattan_distance (AgentState.x agent) (AgentState.y agent)
                      (AgentState.x target) (AgentState.y target) /\
                  min_distance < INT_MAX /\
                  forall enemy, enemy ∈ seen -> AgentState.is_alive enemy = true ->
                    min_distance
                    <= manhattan_distance (AgentState.x agent) (AgentState.y agent)
                         (AgentState.x enemy) (AgentState.y enemy)
              | (None, min_distance) =>
                  min_distance = INT_MAX /\
                  forall enemy, enemy ∈ seen -> AgentState.is_alive enemy = true ->
                    INT_MAX
                    <= manhattan_distance (AgentState.x agent) (AgentState.y agent)
                         (AgentState.x enemy) (AgentState.y enemy)
              end)).
  - split; [reflexivity|]. intros e He. inversion He.
  - intros seen enemy [closest min_distance] H.
    destruct (negb (AgentState.is_alive enemy)) eqn:Ealive.
    + apply negb_true_iff in Ealive. destruct closest as [target|].
      * destruct H as (Hin & Ha & Hd & Hlt & Hmin). split; [apply elem_of_app; now left|].
        split; [exact Ha|]. split; [exact Hd|]. split; [exact Hlt|].
        intros e He Hae. apply elem_of_app in He as [He|He]; [now apply Hmin|].
        apply list_elem_of_singleton in He as ->. congruence.
      * destruct H as (Hd & Hmin). split; [exact Hd|].
        intros e He Hae. apply elem_of_app in He as [He|He]; [now apply Hmin|].
        apply list_elem_of_singleton in He as ->. congruence.
    + apply negb_false_iff in Ealive. cbv zeta. cbn [snd].
      fold (manhattan_distance (AgentState.x agent) (AgentState.y agent)
              (AgentState.x enemy) (AgentState.y enemy)).
      destruct (_ <? min_distance) eqn:Elt.
      * split; [apply elem_of_app; right; now apply list_elem_of_singleton|].
        split; [exact Ealive|]. split; [reflexivity|].
        destruct closest as [target|].
        -- destruct H as (Hin & Ha & Hd & Hlt & Hmin). split; [lia|].
           intros e He Hae. apply elem_of_app in He as [He|He].
           ++ specialize (Hmin _ He Hae). lia.
           ++ apply list_elem_of_singleton in He as ->. lia.
        -- destruct H as (Hd & Hmin). split; [lia|].
           intros e He Hae. apply elem_of_app in He as [He|He].
           ++ specialize (Hmin _ He Hae). lia.
           ++ apply list_elem_of_singleton in He as ->. lia.
      * destruct closest as [target|].
        -- destruct H as (Hin & Ha & Hd & Hlt & Hmin). split; [apply elem_of_app; now left|].
           split; [exact Ha|]. split; [exact Hd|]. split; [exact Hlt|].
           intros e He Hae. apply elem_of_app in He as [He|He]; [now apply Hmin|].
           apply list_elem_of_singleton in He as ->. lia.
        -- destruct H as (Hd & Hmin). split; [exact Hd|].
           intros e He Hae. apply elem_of_app in He as [He|He]; [now apply Hmin|].
           apply list_elem_of_singleton in He as ->. lia.
Qed.

(** ** The combat model *)

Lemma valid_position_free (x y board_width board_height : Z) (tile_map : list (list Z))
    (occupied : list (Z * Z)) :
  GameMechanics.is_valid_movement_position x y board_width board_height tile_map occupied
  = true ->
  (x, y) ∉ occupied.
Proof.
  unfold GameMechanics.is_valid_movement_position.
  destruct (_ || _ || _ || _); [discriminate|]. rewrite negb_true_iff.
  intros Hex Hin.
  assert (existsb (fun pos : Z * Z => (pos.1 =? x) && (pos.2 =? y)) occupied = true);
    [|congruence].
  apply existsb_exists. exists (x, y). split; [now apply list_elem_of_In|].
  cbn. now rewrite !Z.eqb_refl.
Qed.

(** X1: a position is valid for a move exactly when it lies on the board and
    is not in the list of occupied positions; the tile map is received and not
    read, so a cover tile is as valid as an open one. *)
Theorem valid_movement_position_iff (x y board_width board_height : Z)
    (tile_map tile_map' : list (list Z)) (occupied : list (Z * Z)) :
  (GameMechanics.is_valid_movement_position x y board_width board_height tile_map occupied
   = true
   <-> (0 <= x < board_width /\ 0 <= y < board_height) /\ (x, y) ∉ occupied) /\
  GameMechanics.is_valid_movement_position x y board_width board_height tile_map' occupied
  = GameMechanics.is_valid_movement_position x y board_width board_height tile_map occupied.
Proof.
  split; [|reflexivity].
  unfold GameMechanics.is_valid_movement_position.
  destruct ((x <? 0) || (x >=? board_width) || (y <? 0) || (y >=? board_height)) eqn:E.
  - split; [discriminate|]. intros [H _]. exfalso.
    repeat (apply orb_prop in E as [E|E]); lia.
  - repeat (apply orb_false_elim in E as [E ?]).
    rewrite negb_true_iff. split.
    + intros Hex. split; [lia|]. intros Hin.
      assert (existsb (fun pos : Z * Z => (pos.1 =? x) && (pos.2 =? y)) occupied = true);
        [|congruence].
      apply existsb_exists. exists (x, y). split; [now apply list_elem_of_In|].
      cbn. now rewrite !Z.eqb_refl.
    + intros [_ Hnot]. apply not_true_is_false. intros Hex.
      apply existsb_exists in Hex as ([px py] & Hin & Heq). cbn in Heq.
      apply andb_prop in Heq as [Hx Hy]. apply Z.eqb_eq in Hx, Hy. subst.
      apply Hnot. now apply list_elem_of_In.
Qed.

Lemma int_wrap_in_range (z : Z) : int_range z -> int_wrap z = z.
Proof.
  unfold int_range, int_wrap, INT_MIN, INT_MAX. intros H.
  rewrite Z.mod_small; lia.
Qed.

(** X2: for a wetness and a damage whose sum is in the range of [int], the
    kill probability is 1 exactly when wetness plus damage reaches 100, is not
    negative when wetness plus damage is not, and grows with wetness plus
    damage.  Beyond the range the sum wraps around: for [INT_MAX] and 1 the
    result is -21474836.48. *)
Theorem kill_probability_shape (wetness damage wetness' damage' : Z) :
  int_range (wetness + damage) -> int_range (wetness' + damage') ->
  (0 <= wetness + damage ->
   (0 <= GameMechanics.calculate_kill_probability wetness damage)%Q) /\
  ((GameMechanics.calculate_kill_probability wetness damage == 1)%Q
   <-> 100 <= wetness + damage) /\
  (wetness + damage <= wetness' + damage' ->
   (GameMechanics.calculate_kill_probability wetness damage
    <= GameMechanics.calculate_kill_probability wetness' damage')%Q) /\
  (GameMechanics.calculate_kill_probability INT_MAX 1 == - (2147483648 # 100))%Q.
Proof.
  intros Hr Hr'. unfold GameMechanics.calculate_kill_probability, int_add.
  rewrite !int_wrap_in_range by assumption.
  split; [|split; [|split]].
  - intros H. destruct (_ >=? 100); [discriminate|].
    unfold Qle, Qdiv, Qmult, Qinv. cbn. lia.
  - destruct (wetness + damage >=? 100) eqn:E.
    + split; [lia|reflexivity].
    + split; [|lia]. unfold Qeq, Qdiv, Qmult, Qinv. cbn. lia.
  - intros H. destruct (wetness + damage >=? 100) eqn:E,
      (wetness' + damage' >=? 100) eqn:E'; try lia.
    + apply Qle_refl.
    + unfold Qle, Qdiv, Qmult, Qinv. cbn. lia.
    + unfold Qle, Qdiv, Qmult, Qinv. cbn. lia.
  - vm_compute. reflexivity.
Qed.

Lemma kill_probability_shape_witness :
  (GameMechanics.calculate_kill_probability 90 24 == 1)%Q /\
  (GameMechanics.calculate_kill_probability 40 24
   <= GameMechanics.calculate_kill_probability 90 24)%Q.
Proof.
  assert (H1 : int_range (40 + 24)) by (unfold int_range, INT_MIN, INT_MAX; lia).
  assert (H2 : int_range (90 + 24)) by (unfold int_range, INT_MIN, INT_MAX; lia).
  destruct (kill_probability_shape 40 24 90 24 H1 H2) as (_ & _ & Hmono & _).
  destruct (kill_probability_shape 90 24 90 24 H2 H2) as (_ & Hone & _).
  split; [apply Hone; lia|apply Hmono; lia].
Defined.

Lemma movement_cost_formula (wetness : Z) :
  GameMechanics.calculate_movement_cost wetness = 1 - ((- wetness) / 100).
Proof.
  unfold GameMechanics.calculate_movement_cost. cbn [WETNESS_AFFECTS_DISTANCE negb].
  unfold Qceiling, Qfloor. cbn.
  change (Z.pos (1 * 100)) with 100. change (Z.pos (1 * (1 * 100))) with 100.
  replace (- (1 * 100 + wetness * 1 * 1)) with (- wetness + (-1) * 100) by lia.
  rewrite Z.div_add by discriminate. lia.
Qed.

(** X3: the movement cost is 1 for a dry agent and one more for every started
    hundred of wetness: 2 from wetness 1 to 100; it never decreases when the
    wetness grows. *)
Theorem movement_cost_steps (wetness wetness' : Z) :
  (0 <= wetness ->
   GameMechanics.calculate_movement_cost wetness = 1 + (wetness + 99) / 100) /\
  (wetness <= wetness' ->
   GameMechanics.calculate_movement_cost wetness
   <= GameMechanics.calculate_movement_cost wetness') /\
  (1 <= wetness <= 100 -> GameMechanics.calculate_movement_cost wetness = 2) /\
  GameMechanics.calculate_movement_cost 0 = 1.
Proof.
  rewrite !movement_cost_formula. split; [|split; [|split]].
  - intros H.
    assert (H1 : - wetness = 100 * ((- wetness) / 100) + (- wetness) mod 100)
      by (apply Z.div_mod; discriminate).
    assert (H2 : 0 <= (- wetness) mod 100 < 100) by (apply Z.mod_pos_bound; lia).
    assert (H3 : wetness + 99 = 100 * ((wetness + 99) / 100) + (wetness + 99) mod 100)
      by (apply Z.div_mod; discriminate).
    assert (H4 : 0 <= (wetness + 99) mod 100 < 100) by (apply Z.mod_pos_bound; lia).
    lia.
  - intros H. assert ((- wetness') / 100 <= (- wetness) / 100); [|lia].
    apply Z.div_le_mono; lia.
  - intros H.
    assert (H1 : - wetness = 100 * ((- wetness) / 100) + (- wetness) mod 100)
      by (apply Z.div_mod; discriminate).
    assert (H2 : 0 <= (- wetness) mod 100 < 100) by (apply Z.mod_pos_bound; lia).
    lia.
  - reflexivity.
Qed.

(** X4: two sides with the same number of living agents and the same total
    health, both at least 1, have the tactical advantage 1. *)
Theorem tactical_advantage_balanced (alive health : Z) :
  1 <= alive -> 1 <= health ->
  exists advantage,
    GameMechanics.calculate_tactical_advantage alive alive health health = Some advantage /\
    (advantage == 1)%Q.
Proof.
  intros Ha Hh. unfold GameMechanics.calculate_tactical_advantage, checked_div.
  rewrite !Z.max_r by lia.
  replace (alive =? 0) with false by lia. replace (health =? 0) with false by lia.
  cbn. eexists. split; [reflexivity|].
  assert (Hq : forall z, 1 <= z -> (inject_Z z / inject_Z z == 1)%Q).
  { intros z Hz. apply Qmult_inv_r. unfold Qeq. cbn. lia. }
  rewrite !Hq by assumption. reflexivity.
Qed.

Lemma tactical_advantage_balanced_witness :
  exists advantage,
    GameMechanics.calculate_tactical_advantage 3 3 250 250 = Some advantage /\
    (advantage == 1)%Q.
Proof. apply tactical_advantage_balanced; lia. Defined.

(** ** The proposal generators of the primary engine *)

Lemma splash_fold_acc (f : AgentState.t -> bool) (step : Z) (l : list AgentState.t) (a : Z) :
  fold_left (fun total enemy => if negb (AgentState.is_alive enemy) then total
                                else if f enemy then total + step else total) l a
  = a + fold_left (fun total enemy => if negb (AgentState.is_alive enemy) then total
                                      else if f enemy then total + step else total) l 0.
Proof.
  revert a. induction l as [|e l IH]; intros a; cbn; [lia|].
  rewrite IH. rewrite (IH (if negb _ then 0 else _)).
  destruct (negb _); [lia|]. destruct (f e); lia.
Qed.

Lemma splash_fold_shift (f : AgentState.t -> bool) (step : Z) (l : list AgentState.t) :
  fold_left (fun total enemy => if negb (AgentState.is_alive enemy) then total
                                else if f enemy then total + step else total) l 0
  = step * fold_left (fun count enemy => if negb (AgentState.is_alive enemy) then count
                                         else if f enemy then count + 1 else count) l 0.
Proof.
  induction l as [|e l IH]; cbn; [lia|].
  rewrite splash_fold_acc, (splash_fold_acc f 1), IH.
  destruct (negb _); [lia|]. destruct (f e); lia.
Qed.

Lemma splash_count_bounds (f : AgentState.t -> bool) (l : list AgentState.t) :
  0 <= fold_left (fun count enemy => if negb (AgentState.is_alive enemy) then count
                                     else if f enemy then count + 1 else count) l 0
  <= Z.of_nat (length l).
Proof.
  assert (H : forall a, a <= fold_left (fun count enemy =>
                               if negb (AgentState.is_alive enemy) then count
                               else if f enemy then count + 1 else count) l a
                        <= a + Z.of_nat (length l)).
  { induction l as [|e l IH]; intros a; cbn [fold_left length]; [lia|].
    specialize (IH (if negb (AgentState.is_alive e) then a
                    else if f e then a + 1 else a)).
    destruct (negb _); [lia|]. destruct (f e); lia. }
  specialize (H 0). lia.
Qed.

(** X5: the total splash damage of a bomb is [THROW_DAMAGE] for every living
    enemy within distance 1 of the landing tile: it is 30 times the number that
    [count_enemies_in_splash_clean] returns, which lies between 0 and the number
    of enemies; the helpers of the reference file compute the same numbers. *)
Theorem splash_damage_counts (enemies : list AgentState.t) (bomb_x bomb_y : Z) :
  calculate_total_splash_damage_clean enemies bomb_x bomb_y
  = THROW_DAMAGE * count_enemies_in_splash_clean enemies bomb_x bomb_y /\
  0 <= count_enemies_in_splash_clean enemies bomb_x bomb_y <= Z.of_nat (length enemies) /\
  calculate_total_splash_damage enemies bomb_x bomb_y
  = calculate_total_splash_damage_clean enemies bomb_x bomb_y /\
  count_enemies_in_splash enemies bomb_x bomb_y
  = count_enemies_in_splash_clean enemies bomb_x bomb_y.
Proof.
  pose (f := fun enemy : AgentState.t =>
               Z.abs (bomb_x - AgentState.x enemy) + Z.abs (bomb_y - AgentState.y enemy) <=? 1).
  pose proof (splash_count_bounds f enemies) as Hb.
  pose proof (splash_fold_shift f THROW_DAMAGE enemies) as Hs.
  unfold calculate_total_splash_damage_clean, count_enemies_in_splash_clean,
    calculate_total_splash_damage, count_enemies_in_splash.
  cbv zeta. unfold f in Hs, Hb. cbv beta in Hs, Hb. unfold THROW_DAMAGE in *.
  rewrite Hs. repeat split; lia.
Qed.

Lemma splash_hits_someone (enemies : list AgentState.t) (bomb_x bomb_y : Z) :
  0 < calculate_total_splash_damage_clean enemies bomb_x bomb_y ->
  exists enemy,
    enemy ∈ enemies /\ AgentState.is_alive enemy = true /\
    manhattan_distance bomb_x bomb_y (AgentState.x enemy) (AgentState.y enemy) <= 1.
Proof.
  unfold calculate_total_splash_damage_clean. cbv zeta.
  pose (f := fun enemy : AgentState.t =>
               Z.abs (bomb_x - AgentState.x enemy) + Z.abs (bomb_y - AgentState.y enemy) <=? 1).
  pose proof (splash_fold_shift f 30 enemies) as Hs.
  unfold f in Hs. cbv beta in Hs. rewrite Hs. clear Hs. intros H.
  assert (Hc : 0 < fold_left (fun count enemy =>
                     if negb (AgentState.is_alive enemy) then count
                     else if Z.abs (bomb_x - AgentState.x enemy)
                             + Z.abs (bomb_y - AgentState.y enemy) <=? 1
                          then count + 1 else count) enemies 0) by lia.
  clear H. induction enemies as [|e l IH]; cbn in Hc; [lia|].
  destruct (negb (AgentState.is_alive e)) eqn:Ea.
  - destruct (IH Hc) as (enemy & Hin & H). exists enemy. split; [|exact H].
    now apply list_elem_of_further.
  - apply negb_false_iff in Ea.
    destruct (Z.abs (bomb_x - AgentState.x e) + Z.abs (bomb_y - AgentState.y e) <=? 1) eqn:Ed.
    + exists e. split; [apply list_elem_of_here|]. split; [exact Ea|].
      unfold manhattan_distance. lia.
    + destruct (IH Hc) as (enemy & Hin & H). exists enemy. split; [|exact H].
      now apply list_elem_of_further.
Qed.

Lemma cover_protection_values (ai : SmartGameAI.t) (shooter target : AgentState.t) :
  calculate_cover_protection ai shooter target = 1%Q
  \/ calculate_cover_protection ai shooter target = (1 # 2)%Q
  \/ calculate_cover_protection ai shooter target = (1 # 4)%Q.
Proof.
  unfold calculate_cover_protection.
  destruct (find _ _) as [[[cx cy] ct]|]; [|now left].
  destruct (ct =? 1); auto.
Qed.

Lemma truncated_quotient_le (base n : Z) :
  1 <= n ->
  0 < (if 0 <=? base then base / n else - (- base / n)) ->
  0 < base /\ (if 0 <=? base then base / n else - (- base / n)) <= base.
Proof.
  intros Hn H. destruct (0 <=? base) eqn:E.
  - assert (base / n <= base) by (apply Z.div_le_upper_bound; nia).
    destruct (Z.eq_dec base 0) as [->|]; [rewrite Z.div_0_l in H; lia|lia].
  - exfalso. assert (0 <= (- base) / n) by (apply Z.div_pos; lia). lia.
Qed.

Lemma covered_damage_le (base : Z) (q : Q) :
  q = 1%Q \/ q = (1 # 2)%Q \/ q = (1 # 4)%Q ->
  0 < double_to_int (inject_Z base * q)%Q ->
  0 < base /\ double_to_int (inject_Z base * q)%Q <= base.
Proof.
  intros Hq. unfold double_to_int.
  destruct Hq as [->|[->| ->]]; unfold Qle_bool, Qfloor, Qceiling; cbn;
    rewrite ?Z.mul_1_r.
  - change (Z.pos (1 * 1)) with 1. apply truncated_quotient_le. lia.
  - change (Z.pos (1 * 2)) with 2. apply truncated_quotient_le. lia.
  - change (Z.pos (1 * 4)) with 4. apply truncated_quotient_le. lia.
Qed.

(** X6: a shot proposed by [find_best_shooting_target] is aimed at a living
    enemy of the list, by an agent that is off cooldown and has a profile, at a
    distance of at most twice the optimal range; its expected damage is positive
    and at most the soaking power, and its value is positive.  Anything else is
    the plain Hunker of value 0. *)
Theorem shooting_target_sound (ai : SmartGameAI.t) (agent : AgentState.t)
    (enemies : list AgentState.t) (decision : TacticalDecision.t) :
  find_best_shooting_target ai agent enemies = Some decision ->
  decision = TacticalDecision.plain "HUNKER_DOWN" 0
  \/ (TacticalDecision.action_type decision = "SHOOT" /\
      AgentState.cooldown agent <= 0 /\
      exists enemy data,
        enemy ∈ enemies /\ AgentState.is_alive enemy = true /\
        TacticalDecision.target_agent_id decision = AgentState.agent_id enemy /\
        data_at ai (AgentState.agent_id agent) = Some data /\
        manhattan_distance (AgentState.x agent) (AgentState.y agent)
          (AgentState.x enemy) (AgentState.y enemy) <= 2 * AgentData.optimal_range data /\
        0 < TacticalDecision.expected_damage decision <= AgentData.soaking_power data /\
        (0 < TacticalDecision.expected_value decision)%Q).
Proof.
  unfold find_best_shooting_target.
  destruct ((AgentState.cooldown agent >? 0) || (length enemies =? 0)%nat) eqn:Eg;
    [intros [= <-]; now left|].
  apply orb_false_elim in Eg as [Ecd _].
  destruct (data_at ai (AgentState.agent_id agent)) as [data|] eqn:Hdata;
    cbn [mbind option_bind]; [|discriminate].
  intros [= <-].
  apply (fold_left_invariant_elem
           (fun best =>
              best = TacticalDecision.plain "HUNKER_DOWN" 0
              \/ (TacticalDecision.action_type best = "SHOOT" /\
                  AgentState.cooldown agent <= 0 /\
                  exists enemy data0,
                    enemy ∈ enemies /\ AgentState.is_alive enemy = true /\
                    TacticalDecision.target_agent_id best = AgentState.agent_id enemy /\
                    Some data = Some data0 /\
                    manhattan_distance (AgentState.x agent) (AgentState.y agent)
                      (AgentState.x enemy) (AgentState.y enemy)
                    <= 2 * AgentData.optimal_range data0 /\
                    0 < TacticalDecision.expected_damage best
                    <= AgentData.soaking_power data0 /\
                    (0 < TacticalDecision.expected_value best)%Q))); [now left|].
  intros best enemy Hin Hbest. cbv zeta.
  destruct (negb (AgentState.is_alive enemy)) eqn:Ealive; [exact Hbest|].
  apply negb_false_iff in Ealive.
  destruct (_ >? AgentData.optimal_range data * 2) eqn:Efar; [exact Hbest|].
  match goal with |- context [double_to_int ?q] => set (final_damage := double_to_int q) end.
  destruct (final_damage >? 0) eqn:Edmg; [|exact Hbest].
  match goal with |- context [Qgtb ?v _] => set (expected_value := v) end.
  destruct (Qgtb expected_value (TacticalDecision.expected_value best)) eqn:Egt;
    [|exact Hbest].
  right. split; [reflexivity|]. split; [lia|].
  exists enemy, data. split; [exact Hin|]. split; [exact Ealive|].
  split; [reflexivity|]. split; [reflexivity|].
  split; [unfold manhattan_distance; lia|]. cbn.
  assert (Hval : (0 <= TacticalDecision.expected_value best)%Q).
  { destruct Hbest as [->|(_ & _ & e & d & _ & _ & _ & _ & _ & _ & H)]; [cbn; lra|lra]. }
  split.
  - subst final_damage.
    match type of Edmg with
    | (double_to_int (inject_Z ?b * ?q) >? 0) = true =>
        destruct (covered_damage_le b q (cover_protection_values ai agent enemy))
          as [Hbase Hle]; [lia|]
    end.
    split; [lia|].
    destruct (_ >? AgentData.optimal_range data); [|lia].
    unfold int_div in *.
    assert (AgentData.soaking_power data ÷ 2 <= AgentData.soaking_power data); [|lia].
    assert (0 < AgentData.soaking_power data).
    { destruct (Z_lt_le_dec 0 (AgentData.soaking_power data)); [assumption|].
      assert (AgentData.soaking_power data ÷ 2 <= 0); [|lia].
      apply Z.quot_le_upper_bound; lia. }
    apply Z.quot_le_upper_bound; lia.
  - apply Qgtb_true in Egt. lra.
Qed.

Lemma shooting_target_sound_witness :
  find_best_shooting_target short_range_ai lone_agent [enemy_at_2] = Some lone_shot /\
  0 < TacticalDecision.expected_damage lone_shot /\
  (0 < TacticalDecision.expected_value lone_shot)%Q.
Proof.
  assert (H : find_best_shooting_target short_range_ai lone_agent [enemy_at_2]
              = Some lone_shot) by (vm_compute; reflexivity).
  split; [exact H|].
  destruct (shooting_target_sound short_range_ai lone_agent [enemy_at_2] lone_shot H)
    as [Hd|(_ & _ & enemy & data & _ & _ & _ & _ & _ & Hdamage & Hvalue)];
    [discriminate Hd|].
  split; [apply Hdamage|exact Hvalue].
Defined.

(** X7: a throw proposed by [find_best_bombing_target_with_allies] comes from
    an agent off cooldown with a bomb left; its landing tile is on the board,
    within [THROW_DISTANCE_MAX] of the thrower, has no living ally other than
    the thrower within distance 1 and at least one living enemy within
    distance 1; its expected damage is the splash damage on that tile.
    Anything else is the plain Hunker of value 0. *)
Theorem bombing_target_sound (ai : SmartGameAI.t) (agent : AgentState.t)
    (enemies allies : list AgentState.t) :
  let decision := find_best_bombing_target_with_allies ai agent enemies allies in
  let bomb_x := TacticalDecision.target_x decision in
  let bomb_y := TacticalDecision.target_y decision in
  decision = TacticalDecision.plain "HUNKER_DOWN" 0
  \/ (TacticalDecision.action_type decision = "THROW" /\
      AgentState.cooldown agent <= 0 /\ 0 < AgentState.splash_bombs agent /\
      in_bounds ai bomb_x bomb_y = true /\
      manhattan_distance (AgentState.x agent) (AgentState.y agent) bomb_x bomb_y
      <= THROW_DISTANCE_MAX /\
      hits_friendly agent allies bomb_x bomb_y = false /\
      TacticalDecision.expected_damage decision
      = calculate_total_splash_damage_clean enemies bomb_x bomb_y /\
      exists enemy,
        enemy ∈ enemies /\ AgentState.is_alive enemy = true /\
        manhattan_distance bomb_x bomb_y (AgentState.x enemy) (AgentState.y enemy) <= 1).
Proof.
  cbv zeta. unfold find_best_bombing_target_with_allies.
  destruct ((AgentState.cooldown agent >? 0) || (AgentState.splash_bombs agent <=? 0)) eqn:Eg;
    [now left|].
  apply orb_false_elim in Eg as [Ecd Ebombs].
  pose (Inv := fun best : Z * Z * Z =>
          best = (-1, -1, 0)
          \/ (in_bounds ai best.1.1 best.1.2 = true /\
              manhattan_distance (AgentState.x agent) (AgentState.y agent) best.1.1 best.1.2
              <= THROW_DISTANCE_MAX /\
              hits_friendly agent allies best.1.1 best.1.2 = false /\
              best.2 = calculate_total_splash_damage_clean enemies best.1.1 best.1.2 /\
              0 < best.2)).
  assert (Hinv : Inv (fold_left
            (fun (best : Z * Z * Z) enemy =>
               if negb (AgentState.is_alive enemy) then best
               else
                 let distance_to_enemy :=
                   Z.abs (AgentState.x agent - AgentState.x enemy)
                   + Z.abs (AgentState.y agent - AgentState.y enemy) in
                 if distance_to_enemy <=? THROW_DISTANCE_MAX then
                   fold_left
                     (fun (best : Z * Z * Z) '(dx, dy) =>
                        let bomb_x := AgentState.x enemy + dx in
                        let bomb_y := AgentState.y enemy + dy in
                        if (bomb_x <? 0) || (bomb_x >=? board_width ai)
                           || (bomb_y <? 0) || (bomb_y >=? board_height ai) then best
                        else
                          let throw_distance :=
                            Z.abs (AgentState.x agent - bomb_x)
                            + Z.abs (AgentState.y agent - bomb_y) in
                          if throw_distance >? THROW_DISTANCE_MAX then best
                          else if hits_friendly agent allies bomb_x bomb_y then best
                          else
                            let total_damage :=
                              calculate_total_splash_damage_clean enemies bomb_x bomb_y in
                            if total_damage >? best.2 then (bomb_x, bomb_y, total_damage)
                            else best)
                     footprint best
                 else best)
            enemies (-1, -1, 0))).
  { apply fold_left_invariant; [now left|].
    intros best enemy Hbest. destruct (negb _); [exact Hbest|]. cbv zeta.
    destruct (_ <=? THROW_DISTANCE_MAX); [|exact Hbest].
    apply fold_left_invariant; [exact Hbest|].
    intros b [dx dy] Hb. cbv zeta. rewrite out_of_bounds_test.
    destruct (in_bounds ai _ _) eqn:Hin; cbn [negb]; [|exact Hb].
    destruct (_ >? THROW_DISTANCE_MAX) eqn:Efar; [exact Hb|].
    destruct (hits_friendly agent allies _ _) eqn:Hff; [exact Hb|].
    destruct (_ >? b.2) eqn:Egt; [|exact Hb].
    right. cbn [fst snd]. split; [exact Hin|]. split; [unfold manhattan_distance; lia|].
    split; [exact Hff|]. split; [reflexivity|].
    destruct Hb as [->|(_ & _ & _ & _ & Hpos)]; cbn in *; lia. }
  destruct (fold_left _ enemies (-1, -1, 0)) as [[best_x best_y] best_damage].
  destruct Hinv as [[= -> -> ->]|(Hin & Hdist & Hff & Hdmg & Hpos)]; [now left|].
  cbn [fst snd] in *.
  assert (Hx : 0 <= best_x /\ 0 <= best_y).
  { unfold in_bounds in Hin. lia. }
  replace (best_x =? -1) with false by lia. replace (best_y =? -1) with false by lia.
  replace (best_damage >? 0) with true by lia. cbn [negb andb].
  right. cbn. split; [reflexivity|]. split; [lia|]. split; [lia|].
  split; [exact Hin|]. split; [exact Hdist|]. split; [exact Hff|]. split; [exact Hdmg|].
  apply splash_hits_someone. lia.
Qed.

Lemma movement_candidates_near (ai : SmartGameAI.t) (agent : AgentState.t)
    (has_target : bool) (p : Z * Z) :
  p ∈ movement_candidates ai agent has_target ->
  Z.max (Z.abs (p.1 - AgentState.x agent)) (Z.abs (p.2 - AgentState.y agent)) <= 2 /\
  p <> (AgentState.x agent, AgentState.y agent).
Proof.
  assert (Hring : forall step, 1 <= step <= 2 ->
            p ∈ omap (fun '(dx, dy) =>
                        let nx := AgentState.x agent + dx * step in
                        let ny := AgentState.y agent + dy * step in
                        if in_bounds ai nx ny then Some (nx, ny) else None) ring_offsets ->
            Z.max (Z.abs (p.1 - AgentState.x agent)) (Z.abs (p.2 - AgentState.y agent)) <= 2 /\
            p <> (AgentState.x agent, AgentState.y agent)).
  { intros step Hstep Hin. apply list_elem_of_omap in Hin as [[dx dy] [Hoff Hp]].
    cbv zeta in Hp. destruct (in_bounds ai _ _); [|discriminate].
    injection Hp as <-. cbn [fst snd].
    unfold ring_offsets in Hoff.
    repeat (apply elem_of_cons in Hoff as [[= -> ->]|Hoff];
            [split; [lia|intros [= H1 H2]; lia]|]).
    apply elem_of_nil in Hoff. contradiction. }
  unfold movement_candidates. cbv zeta. rewrite elem_of_app. intros [H|H].
  - apply (Hring 1); [lia|exact H].
  - destruct has_target; [|inversion H].
    apply elem_of_app in H as [H|H]; [apply (Hring 1)|apply (Hring 2)]; (lia || exact H).
Qed.

(** X8: [generate_random_moves] never returns an empty list: it is the single
    Hunker of value 200, or a list of moves.  Every move goes to a tile of the
    board within two steps of the agent, different from the agent's tile and
    not occupied by another living agent, and its value lies between -1400 and
    7800.  [num_simulations] does not change the result. *)
Theorem random_moves_sound (ai : SmartGameAI.t) (agent : AgentState.t)
    (enemies allies : list AgentState.t) (num_simulations num_simulations' : Z)
    (moves : list TacticalDecision.t) :
  generate_random_moves ai agent enemies allies num_simulations = Some moves ->
  moves <> [] /\
  (moves = [TacticalDecision.plain "HUNKER_DOWN" 200]
   \/ Forall
        (fun move =>
           let target := (TacticalDecision.target_x move, TacticalDecision.target_y move) in
           TacticalDecision.action_type move = "MOVE" /\
           in_bounds ai target.1 target.2 = true /\
           (target ∉ occupied_positions agent enemies allies) /\
           Z.max (Z.abs (target.1 - AgentState.x agent))
                 (Z.abs (target.2 - AgentState.y agent)) <= 2 /\
           target <> (AgentState.x agent, AgentState.y agent) /\
           (-1400 <= TacticalDecision.expected_value move)%Q /\
           (TacticalDecision.expected_value move <= 7800)%Q)
        moves) /\
  generate_random_moves ai agent enemies allies num_simulations' = Some moves.
Proof.
  intros Hrun. split; [|split; [|exact Hrun]]; revert Hrun;
    unfold generate_random_moves; cbv zeta;
    destruct (fold_leftM _ _ []) as [l|] eqn:Hl; cbn [mbind option_bind]; try discriminate.
  - destruct (length l =? 0)%nat eqn:E; intros [= <-]; [discriminate|].
    intros ->. discriminate E.
  - destruct (length l =? 0)%nat eqn:E; intros [= <-]; [now left|]. right.
    revert Hl. apply fold_leftM_invariant; [constructor|].
    intros b [nx ny] b' Hin Hb.
    pose proof (movement_candidates_in_bounds _ _ _ _ Hin) as Hbounds.
    pose proof (movement_candidates_near _ _ _ _ Hin) as [Hnear Hself].
    destruct (existsb _ _) eqn:Eocc; [intros [= <-]; exact Hb|].
    destruct (match (closest_enemy agent enemies).1 with Some _ => _ | None => _ end)
      as [expected_value|] eqn:Ev; cbn [mbind option_bind]; [|discriminate].
    intros [= <-]. apply Forall_app. split; [exact Hb|].
    constructor; [|constructor]. cbv zeta. cbn [TacticalDecision.action_type
      TacticalDecision.target_x TacticalDecision.target_y TacticalDecision.expected_value
      fst snd]. cbn [fst snd] in *.
    split; [reflexivity|]. split; [exact Hbounds|]. split.
    { intros Hocc. assert (existsb (fun pos : Z * Z => (pos.1 =? nx) && (pos.2 =? ny))
                             (occupied_positions agent enemies allies) = true);
        [|congruence].
      apply existsb_exists. exists (nx, ny). split; [now apply list_elem_of_In|].
      cbn. now rewrite !Z.eqb_refl. }
    split; [exact Hnear|]. split; [exact Hself|].
    destruct (closest_enemy agent enemies).1 as [target|].
    + destruct (data_at ai (AgentState.agent_id agent)) as [data|];
        cbn [mbind option_bind] in Ev; [|discriminate].
      injection Ev as <-.
      repeat match goal with |- context [if ?c then _ else _] => destruct c end;
        split; lra.
    + injection Ev as <-. split; lra.
Qed.

Lemma random_moves_sound_witness :
  generate_random_moves short_range_ai lone_agent [enemy_at_2] [lone_agent] 50
  = Some lone_moves /\
  lone_moves <> [] /\
  generate_random_moves short_range_ai lone_agent [enemy_at_2] [lone_agent] 2
  = Some lone_moves.
Proof.
  assert (H : generate_random_moves short_range_ai lone_agent [enemy_at_2] [lone_agent] 50
              = Some lone_moves) by (vm_compute; reflexivity).
  split; [exact H|].
  destruct (random_moves_sound short_range_ai lone_agent [enemy_at_2] [lone_agent] 50 2
              lone_moves H) as (Hne & _ & Hsame).
  split; [exact Hne|exact Hsame].
Defined.

Lemma splash_on_enemies_spec (enemies : list AgentState.t) (bomb_x bomb_y : Z) :
  (exists n, 0 <= n /\ (splash_on_enemies enemies bomb_x bomb_y).1 = 30 * n) /\
  (0 < (splash_on_enemies enemies bomb_x bomb_y).1 ->
   exists enemy,
     enemy ∈ enemies /\ AgentState.is_alive enemy = true /\
     manhattan_distance bomb_x bomb_y (AgentState.x enemy) (AgentState.y enemy) <= 1).
Proof.
  unfold splash_on_enemies.
  apply (fold_left_invariant_elem
           (fun acc : Z * Z =>
              (exists n, 0 <= n /\ acc.1 = 30 * n) /\
              (0 < acc.1 ->
               exists enemy,
                 enemy ∈ enemies /\ AgentState.is_alive enemy = true /\
                 manhattan_distance bomb_x bomb_y (AgentState.x enemy) (AgentState.y enemy)
                 <= 1))).
  - split; [exists 0; cbn; lia|cbn; lia].
  - intros [total hit] enemy Hin [(n & Hn & Htot) Hex]. cbn [fst] in *.
    destruct (negb (AgentState.is_alive enemy)) eqn:Ea; [split; [eauto|exact Hex]|].
    apply negb_false_iff in Ea. cbv zeta.
    destruct (_ <=? 1) eqn:Ed; cbn [fst]; [|split; [eauto|exact Hex]].
    split; [exists (n + 1); lia|]. intros _. exists enemy.
    split; [exact Hin|]. split; [exact Ea|]. unfold manhattan_distance. lia.
Qed.

Section Compound.

Variables (ai : SmartGameAI.t) (agent : AgentState.t) (data : AgentData.t).
Variables (enemies allies : list AgentState.t).

Lemma compound_shoot_sound (nx ny : Z) (best : TacticalDecision.t) :
  in_bounds ai nx ny = true ->
  (nx, ny) ∉ occupied_positions agent enemies allies ->
  1 <= Z.max (Z.abs (nx - AgentState.x agent)) (Z.abs (ny - AgentState.y agent)) <= 2 ->
  best = TacticalDecision.plain "HUNKER_DOWN" 0
  \/ compound_sound ai agent data enemies allies best ->
  compound_shoot agent data enemies nx ny best = TacticalDecision.plain "HUNKER_DOWN" 0
  \/ compound_sound ai agent data enemies allies (compound_shoot agent data enemies nx ny best).
Proof.
  intros Hin Hfree Hnear Hbest. unfold compound_shoot.
  apply fold_left_invariant_elem; [exact Hbest|].
  intros b enemy He Hb.
  destruct (negb (AgentState.is_alive enemy)) eqn:Ea; [exact Hb|].
  apply negb_false_iff in Ea. cbv zeta.
  destruct (_ <=? AgentData.optimal_range data) eqn:Ed; [|exact Hb].
  destruct (AgentData.soaking_power data >? 0) eqn:Ep; [|exact Hb].
  destruct (Qgtb _ (TacticalDecision.expected_value b)); [|exact Hb].
  right. unfold compound_sound. cbn. split; [exact Hin|]. split; [exact Hfree|].
  split; [exact Hnear|]. left. split; [reflexivity|]. split; [reflexivity|]. split; [lia|].
  exists enemy. split; [exact He|]. split; [exact Ea|]. split; [reflexivity|].
  unfold manhattan_distance. lia.
Qed.

Lemma compound_throw_sound (nx ny : Z) (best : TacticalDecision.t) :
  in_bounds ai nx ny = true ->
  (nx, ny) ∉ occupied_positions agent enemies allies ->
  1 <= Z.max (Z.abs (nx - AgentState.x agent)) (Z.abs (ny - AgentState.y agent)) <= 2 ->
  best = TacticalDecision.plain "HUNKER_DOWN" 0
  \/ compound_sound ai agent data enemies allies best ->
  compound_throw ai agent enemies nx ny best = TacticalDecision.plain "HUNKER_DOWN" 0
  \/ compound_sound ai agent data enemies allies (compound_throw ai agent enemies nx ny best).
Proof.
  intros Hin Hfree Hnear Hbest. unfold compound_throw.
  destruct ((AgentState.splash_bombs agent >? 0) && (AgentState.wetness agent <? 80)) eqn:Eb;
    [|exact Hbest].
  apply andb_prop in Eb as [Eb1 Eb2].
  apply fold_left_invariant; [exact Hbest|].
  intros b target_enemy Hb. destruct (negb _); [exact Hb|].
  apply fold_left_invariant; [exact Hb|].
  intros b' [dx dy] Hb'. cbv zeta. rewrite out_of_bounds_test.
  destruct (in_bounds ai (AgentState.x target_enemy + dx) (AgentState.y target_enemy + dy))
    eqn:Hbomb; cbn [negb]; [|exact Hb'].
  destruct (_ >? THROW_DISTANCE_MAX) eqn:Efar; [exact Hb'|].
  pose proof (splash_on_enemies_spec enemies (AgentState.x target_enemy + dx)
                (AgentState.y target_enemy + dy)) as [(n & Hn & Htot) Hhit].
  destruct (splash_on_enemies _ _ _) as [total_damage enemies_hit] eqn:Esplash.
  cbn [fst] in Htot, Hhit.
  destruct (total_damage >? 0) eqn:Epos; [|exact Hb'].
  match goal with |- context [Qgtb (inject_Z total_damage) ?q] =>
    destruct (Qgtb (inject_Z total_damage) q) eqn:Eself; [|exact Hb'] end.
  destruct (Qgtb _ (TacticalDecision.expected_value b')); [|exact Hb'].
  right. unfold compound_sound. cbn. split; [exact Hin|]. split; [exact Hfree|].
  split; [exact Hnear|]. right. split; [reflexivity|]. split; [lia|]. split; [lia|].
  split; [exact Hbomb|]. split; [unfold manhattan_distance; lia|].
  split; [now rewrite Esplash|]. split; [|apply Hhit; lia].
  intros Hclose Hwet. apply Qgtb_true in Eself.
  replace (Z.abs (AgentState.x target_enemy + dx - nx)
           + Z.abs (AgentState.y target_enemy + dy - ny) <=? 1) with true in Eself
    by (unfold manhattan_distance in Hclose; lia).
  replace (AgentState.wetness agent >? 70) with false in Eself by lia.
  assert (Hlt : (36 < inject_Z total_damage)%Q).
  { eapply Qle_lt_trans; [|exact Eself]. unfold Qle. cbn. lia. }
  unfold Qlt in Hlt. cbn in Hlt. lia.
Qed.

End Compound.

Lemma compound_priorities_sound (ai : SmartGameAI.t) (agent : AgentState.t)
    (occupied : list (Z * Z)) (target_x target_y min_distance : Z) (l : list (Z * Z)) :
  (compound_priorities_near ai agent occupied target_x target_y min_distance = Some l
   \/ compound_priorities_ring ai agent occupied = Some l) ->
  Forall (fun p => in_bounds ai p.1 p.2 = true /\ (p ∉ occupied) /\
                   1 <= Z.max (Z.abs (p.1 - AgentState.x agent))
                              (Z.abs (p.2 - AgentState.y agent)) <= 2) l.
Proof.
  intros [H|H].
  - revert H. unfold compound_priorities_near.
    apply fold_leftM_invariant; [constructor|].
    intros b [dx dy] b' Hoff Hb.
    destruct ((dx =? 0) && (dy =? 0)) eqn:Ezero; [intros [= <-]; exact Hb|].
    cbv zeta. rewrite out_of_bounds_test.
    destruct (in_bounds ai _ _) eqn:Hin; cbn [negb]; [|intros [= <-]; exact Hb].
    destruct (GameMechanics.is_valid_movement_position _ _ _ _ _ _) eqn:Hvalid;
      cbn [negb]; [|intros [= <-]; exact Hb].
    destruct (_ <? min_distance); [|intros [= <-]; exact Hb].
    assert (Hp : in_bounds ai (AgentState.x agent + dx, AgentState.y agent + dy).1
                   (AgentState.x agent + dx, AgentState.y agent + dy).2 = true /\
                 ((AgentState.x agent + dx, AgentState.y agent + dy) ∉ occupied) /\
                 1 <= Z.max (Z.abs ((AgentState.x agent + dx, AgentState.y agent + dy).1
                                    - AgentState.x agent))
                            (Z.abs ((AgentState.x agent + dx, AgentState.y agent + dy).2
                                    - AgentState.y agent)) <= 2).
    { split; [exact Hin|]. split; [eapply valid_position_free, Hvalid|]. cbn [fst snd].
      assert (Hdx : dx ∈ range5 /\ dy ∈ range5).
      { apply list_elem_of_bind in Hoff as (x & Hy & Hx).
        apply list_elem_of_bind in Hy as (y & Hp & Hy).
        apply list_elem_of_singleton in Hp. injection Hp as -> ->. auto. }
      destruct Hdx as [Hdx Hdy]. unfold range5 in Hdx, Hdy.
      repeat (apply elem_of_cons in Hdx as [->|Hdx]);
        repeat (apply elem_of_cons in Hdy as [->|Hdy]);
        try (inversion Hdx); try (inversion Hdy); cbn in Ezero; try discriminate; lia. }
    destruct (guarded_tile ai _ _) as [tile|]; cbn [mbind option_bind]; [|discriminate].
    destruct (match tile with Some _ => _ | None => _ end); intros [= <-].
    + constructor; assumption.
    + apply Forall_app. split; [exact Hb|]. constructor; [exact Hp|constructor].
  - revert H. unfold compound_priorities_ring.
    apply fold_leftM_invariant; [constructor|].
    intros b [dx dy] b' Hoff Hb. cbv zeta.
    fold (in_bounds ai (AgentState.x agent + dx) (AgentState.y agent + dy)).
    destruct (in_bounds ai _ _) eqn:Hin; [|intros [= <-]; exact Hb].
    destruct (GameMechanics.is_valid_movement_position _ _ _ _ _ _) eqn:Hvalid;
      [|intros [= <-]; exact Hb].
    assert (Hp : in_bounds ai (AgentState.x agent + dx, AgentState.y agent + dy).1
                   (AgentState.x agent + dx, AgentState.y agent + dy).2 = true /\
                 ((AgentState.x agent + dx, AgentState.y agent + dy) ∉ occupied) /\
                 1 <= Z.max (Z.abs ((AgentState.x agent + dx, AgentState.y agent + dy).1
                                    - AgentState.x agent))
                            (Z.abs ((AgentState.x agent + dx, AgentState.y agent + dy).2
                                    - AgentState.y agent)) <= 2).
    { split; [exact Hin|]. split; [eapply valid_position_free, Hvalid|]. cbn [fst snd].
      unfold ring_offsets in Hoff.
      repeat (apply elem_of_cons in Hoff as [[= -> ->]|Hoff]; [lia|]).
      inversion Hoff. }
    destruct (guarded_tile ai _ _) as [[tile|]|]; cbn [mbind option_bind]; [| |discriminate].
    + destruct (tile =? 0); intros [= <-].
      * constructor; assumption.
      * apply Forall_app. split; [exact Hb|]. constructor; [exact Hp|constructor].
    + intros [= <-]. apply Forall_app. split; [exact Hb|].
      constructor; [exact Hp|constructor].
Qed.

(** X9: a compound decision of [find_best_compound_action] is the plain Hunker
    of value 0, or a move to a free tile of the board one or two steps away
    followed by a shot at a living enemy within the optimal range of that tile,
    for the full soaking power, or by a throw onto a tile of the board within
    [THROW_DISTANCE_MAX] of that tile that hits a living enemy; a bomb that
    also hits the thrower while its wetness is 70 or less hits two enemies.
    The cooldown of the agent is not read: the same decision is proposed
    whatever the cooldown. *)
Theorem compound_action_sound (ai : SmartGameAI.t) (agent : AgentState.t)
    (enemies allies : list AgentState.t) :
  (forall decision data,
     data_at ai (AgentState.agent_id agent) = Some data ->
     find_best_compound_action ai agent enemies allies = Some decision ->
     decision = TacticalDecision.plain "HUNKER_DOWN" 0
     \/ compound_sound ai agent data enemies allies decision) /\
  (forall cooldown,
     find_best_compound_action ai (AgentState.set_cooldown cooldown agent) enemies allies
     = find_best_compound_action ai agent enemies allies).
Proof.
  split; [|intros cooldown; reflexivity].
  intros decision data Hdata. unfold find_best_compound_action. rewrite Hdata.
  cbn [mbind option_bind]. cbv zeta.
  destruct (closest_enemy agent enemies) as [closest min_distance].
  destruct (match closest with Some _ => _ | None => _ end) as [l1|] eqn:H1;
    cbn [mbind option_bind]; [|discriminate].
  destruct (if (length l1 =? 0)%nat then _ else _) as [l2|] eqn:H2;
    cbn [mbind option_bind]; [|discriminate].
  intros [= <-].
  assert (Hl1 : Forall (fun p => in_bounds ai p.1 p.2 = true /\
                                 (p ∉ occupied_positions agent enemies allies) /\
                                 1 <= Z.max (Z.abs (p.1 - AgentState.x agent))
                                            (Z.abs (p.2 - AgentState.y agent)) <= 2) l1).
  { destruct closest as [e|].
    - eapply compound_priorities_sound. left. exact H1.
    - injection H1 as <-. constructor. }
  assert (Hl2 : Forall (fun p => in_bounds ai p.1 p.2 = true /\
                                 (p ∉ occupied_positions agent enemies allies) /\
                                 1 <= Z.max (Z.abs (p.1 - AgentState.x agent))
                                            (Z.abs (p.2 - AgentState.y agent)) <= 2) l2).
  { destruct (length l1 =? 0)%nat.
    - eapply (compound_priorities_sound ai agent _ 0 0 0). right. exact H2.
    - now injection H2 as <-. }
  clear H1 H2 Hl1.
  assert (Hgen : forall best,
            best = TacticalDecision.plain "HUNKER_DOWN" 0
            \/ compound_sound ai agent data enemies allies best ->
            (fun d => d = TacticalDecision.plain "HUNKER_DOWN" 0
                      \/ compound_sound ai agent data enemies allies d)
              (fold_left (fun best_compound '(nx, ny) =>
                            let best_compound :=
                              compound_shoot agent data enemies nx ny best_compound in
                            compound_throw ai agent enemies nx ny best_compound) l2 best)).
  { induction Hl2 as [|[nx ny] l (Hp1 & Hp2 & Hp3) Hl IH]; intros best Hbest; cbn -[Z.max];
      [exact Hbest|].
    apply IH. cbn [fst snd] in *.
    apply compound_throw_sound; [exact Hp1|exact Hp2|exact Hp3|].
    apply compound_shoot_sound; [exact Hp1|exact Hp2|exact Hp3|exact Hbest]. }
  apply Hgen. now left.
Qed.

(** X10: [evaluate_cover_strategy] returns the plain Hunker of value 0, or a
    move of value 3000 onto a tile within two steps for which [provides_cover]
    holds (a tile of type 1), on which no enemy and no other ally of the lists
    stands; among these tiles the chosen one is nearest to the agent. *)
Theorem cover_strategy_sound (ai : SmartGameAI.t) (agent : AgentState.t)
    (enemies allies : list AgentState.t) (decision : TacticalDecision.t) :
  evaluate_cover_strategy ai agent enemies allies = Some decision ->
  decision = TacticalDecision.plain "HUNKER_DOWN" 0
  \/ (let target := (TacticalDecision.target_x decision, TacticalDecision.target_y decision) in
      decision = TacticalDecision.mk "MOVE" target.1 target.2 (-1) (-1) (-1) 3000 0 0 /\
      cover_candidate ai agent enemies allies target /\
      forall p, cover_candidate ai agent enemies allies p ->
                manhattan_distance (AgentState.x agent) (AgentState.y agent) target.1 target.2
                <= manhattan_distance (AgentState.x agent) (AgentState.y agent) p.1 p.2).
Proof.
  unfold evaluate_cover_strategy.
  destruct (fold_left _ enemies (0, 0, false)) as [[immediate_threats potential] heavy].
  destruct (negb _); [intros [= <-]; now left|].
  destruct (fold_leftM _ _ []) as [cover_positions|] eqn:Hcover;
    cbn [mbind option_bind]; [|discriminate].
  assert (Hall : forall p, p ∈ cover_positions <->
                           (exists off, off ∈ (dx ← range5; dy ← range5; [(dx, dy)]) /\
                                        p = (AgentState.x agent + off.1,
                                             AgentState.y agent + off.2)) /\
                           GameMechanics.provides_cover p.1 p.2 (board_width ai)
                             (board_height ai) (tile_map ai) = Some true /\
                           (forall enemy, enemy ∈ enemies ->
                              (AgentState.x enemy, AgentState.y enemy) <> p) /\
                           (forall ally, ally ∈ allies ->
                              AgentState.agent_id ally <> AgentState.agent_id agent ->
                              (AgentState.x ally, AgentState.y ally) <> p)).
  { revert Hcover.
    apply (fold_leftM_prefix_invariant
             (fun seen (positions : list (Z * Z)) =>
                forall p, p ∈ positions <->
                  (exists off, off ∈ seen /\
                               p = (AgentState.x agent + off.1, AgentState.y agent + off.2)) /\
                  GameMechanics.provides_cover p.1 p.2 (board_width ai)
                    (board_height ai) (tile_map ai) = Some true /\
                  (forall enemy, enemy ∈ enemies ->
                     (AgentState.x enemy, AgentState.y enemy) <> p) /\
                  (forall ally, ally ∈ allies ->
                     AgentState.agent_id ally <> AgentState.agent_id agent ->
                     (AgentState.x ally, AgentState.y ally) <> p))).
    - intros p. split; [intros H; inversion H|]. intros [(off & H & _) _]. inversion H.
    - intros seen [dx dy] b b' Hb. cbv zeta.
      set (cx := AgentState.x agent + dx). set (cy := AgentState.y agent + dy).
      assert (Hnew : forall p,
                (exists off, off ∈ seen ++ [(dx, dy)] /\
                             p = (AgentState.x agent + off.1, AgentState.y agent + off.2))
                <-> (exists off, off ∈ seen /\
                                 p = (AgentState.x agent + off.1, AgentState.y agent + off.2))
                    \/ p = (cx, cy)).
      { intros p. split.
        - intros (off & Hin & Hp). apply elem_of_app in Hin as [Hin|Hin]; [left; eauto|].
          apply list_elem_of_singleton in Hin as ->. now right.
        - intros [(off & Hin & Hp)| ->].
          + exists off. split; [apply elem_of_app; now left|exact Hp].
          + exists (dx, dy). split; [|reflexivity]. apply elem_of_app. right.
            now apply list_elem_of_singleton. }
      destruct (GameMechanics.provides_cover cx cy _ _ _) as [[|]|] eqn:Hc;
        cbn [mbind option_bind]; [| |discriminate].
      + match goal with |- context [negb (?a || ?b)] =>
          destruct a eqn:Eally; [|destruct b eqn:Eenemy] end; cbn [orb negb];
          intros [= <-]; intros p; rewrite ?elem_of_app, ?list_elem_of_singleton, Hnew, Hb.
        * split; [intros H; tauto|]. intros [[H| ->] (Hcov & Hen & Hal)]; [tauto|].
          exfalso. apply existsb_exists in Eally as (ally & Hin & Hcond).
          apply list_elem_of_In in Hin.
          apply (Hal ally Hin); [lia|f_equal; lia].
        * split; [intros H; tauto|]. intros [[H| ->] (Hcov & Hen & Hal)]; [tauto|].
          exfalso. apply existsb_exists in Eenemy as (enemy & Hin & Hcond).
          apply list_elem_of_In in Hin. apply (Hen enemy Hin). f_equal; lia.
        * split; [intros [H| ->]; [tauto|]|intros [[H| ->] H']; tauto].
          split; [now right|]. split; [exact Hc|]. split.
          -- intros enemy Hin [= Hx Hy].
             pose proof (existsb_false_elem _ _ enemy Eenemy Hin) as H. cbn in H. lia.
          -- intros ally Hin Hid [= Hx Hy].
             pose proof (existsb_false_elem _ _ ally Eally Hin) as H. cbn in H. lia.
      + intros [= <-]. intros p. rewrite Hnew, Hb.
        split; [tauto|]. intros [[H| ->] (Hcov & H')]; [tauto|].
        cbn [fst snd] in Hcov. congruence. }
  assert (Hcand : forall p, p ∈ cover_positions <-> cover_candidate ai agent enemies allies p).
  { intros p. rewrite Hall. unfold cover_candidate. split.
    - intros [(off & Hoff & ->) H]. split; [|exact H]. destruct off as [dx dy].
      apply range5_offsets in Hoff. cbn [fst snd]. lia.
    - intros [Hnear H]. split; [|exact H].
      exists (p.1 - AgentState.x agent, p.2 - AgentState.y agent). split.
      + apply range5_offsets. lia.
      + destruct p. cbn. f_equal; lia. }
  clear Hall Hcover.
  destruct (negb (length cover_positions =? 0)%nat); [|intros [= <-]; now left].
  assert (Hbest :
    (fun seen (st : Z * (Z * Z)) =>
       (st = (INT_MAX, (-1, -1)) \/
        (st.2 ∈ seen /\
         st.1 = manhattan_distance (AgentState.x agent) (AgentState.y agent) st.2.1 st.2.2)) /\
       forall p, p ∈ seen ->
                 st.1 <= manhattan_distance (AgentState.x agent) (AgentState.y agent) p.1 p.2)
      cover_positions
      (fold_left
         (fun '(best_distance, best_cover) (pos : Z * Z) =>
            let distance := Z.abs (AgentState.x agent - pos.1)
                            + Z.abs (AgentState.y agent - pos.2) in
            if distance <? best_distance then (distance, pos)
            else (best_distance, best_cover))
         cover_positions (INT_MAX, (-1, -1)))).
  { apply fold_left_prefix_invariant.
    - split; [now left|]. intros p Hp. inversion Hp.
    - intros seen pos [best_distance best_cover] [Hst Hmin]. cbv zeta.
      fold (manhattan_distance (AgentState.x agent) (AgentState.y agent) pos.1 pos.2).
      cbn [fst snd] in *.
      destruct (_ <? best_distance) eqn:E; cbn [fst snd].
      + split.
        * right. split; [|reflexivity]. apply elem_of_app. right.
          now apply list_elem_of_singleton.
        * intros p Hp. apply elem_of_app in Hp as [Hp|Hp].
          -- specialize (Hmin _ Hp). lia.
          -- apply list_elem_of_singleton in Hp as ->. lia.
      + split.
        * destruct Hst as [Hst|[Hin Hd]]; [now left|]. right.
          split; [apply elem_of_app; now left|exact Hd].
        * intros p Hp. apply elem_of_app in Hp as [Hp|Hp]; [now apply Hmin|].
          apply list_elem_of_singleton in Hp as ->. lia. }
  cbv beta in Hbest.
  destruct (fold_left _ cover_positions _) as [best_distance best_cover].
  cbn [fst snd] in Hbest. destruct Hbest as [Hst Hmin].
  destruct (best_cover.1 =? -1) eqn:E; cbn [negb]; intros [= <-]; [now left|].
  right. cbv zeta. cbn [TacticalDecision.target_x TacticalDecision.target_y fst snd].
  destruct Hst as [[= -> ->]|[Hin Hd]]; [cbn in E; lia|].
  split; [reflexivity|]. destruct best_cover as [bx by_]. cbn [fst snd] in *.
  split; [now apply Hcand|].
  intros p Hp. apply Hcand in Hp. specialize (Hmin _ Hp). lia.
Qed.

Lemma cover_strategy_sound_witness :
  evaluate_cover_strategy cover_ai lone_agent two_enemies [] = Some cover_move /\
  cover_candidate cover_ai lone_agent two_enemies [] (1, 0).
Proof.
  assert (H : evaluate_cover_strategy cover_ai lone_agent two_enemies [] = Some cover_move)
    by (vm_compute; reflexivity).
  split; [exact H|].
  destruct (cover_strategy_sound cover_ai lone_agent two_enemies [] cover_move H)
    as [Hd|(_ & Hc & _)]; [discriminate Hd|exact Hc].
Defined.

Lemma expectimax_total_value (v p : Q) :
  (Nat.iter 10 (fun total_value : Q => (total_value - p * (3 # 10))%Q) v == v - 3 * p)%Q.
Proof. cbn. ring. Qed.

(** X11: [expectimax_evaluate] compares the options by their value less three
    times their enemy-response penalty.  When one of these adjusted values is
    not negative, the result is the first option with the greatest adjusted
    value (every option before it has a smaller adjusted value, no option
    after it a greater one), carrying that value; when all are negative (or
    there is no option), the result is a Hunker of value 50.  The value of the
    result is never negative. *)
Theorem expectimax_selects_best (agent : AgentState.t) (options : list TacticalDecision.t)
    (enemies allies : list AgentState.t) :
  let result := expectimax_evaluate agent options enemies allies in
  (0 <= TacticalDecision.expected_value result)%Q /\
  ((forall option, option ∈ options -> (adjusted_value agent enemies option < 0)%Q) ->
   TacticalDecision.action_type result = "HUNKER_DOWN" /\
   TacticalDecision.expected_value result = 50%Q) /\
  ((exists option, option ∈ options /\ (0 <= adjusted_value agent enemies option)%Q) ->
   exists before option after value,
     options = before ++ option :: after /\
     (value == adjusted_value agent enemies option)%Q /\
     result = TacticalDecision.set_expected_value value option /\
     (forall other, other ∈ before -> (adjusted_value agent enemies other < value)%Q) /\
     (forall other, other ∈ after -> (adjusted_value agent enemies other <= value)%Q)).
Proof.
  cbv zeta. unfold expectimax_evaluate.
  set (start := TacticalDecision.set_expected_value (-1000) TacticalDecision.default).
  set (step := fun best_option option => _).
  assert (Hinv :
    (fun seen best =>
       (forall other, other ∈ seen ->
                      (adjusted_value agent enemies other
                       <= TacticalDecision.expected_value best)%Q) /\
       (best = start
        \/ exists before option after value,
             seen = before ++ option :: after /\
             (value == adjusted_value agent enemies option)%Q /\
             best = TacticalDecision.set_expected_value value option /\
             (forall other, other ∈ before ->
                            (adjusted_value agent enemies other < value)%Q)))
      options (fold_left step options start)).
  { apply fold_left_prefix_invariant.
    - split; [intros other Hin; inversion Hin|now left].
    - intros seen option best [Hmax Hbest]. unfold step. cbv zeta.
      pose proof (expectimax_total_value (TacticalDecision.expected_value option)
                    (enemy_response_penalty agent option enemies)) as Hv.
      fold (adjusted_value agent enemies option) in Hv.
      set (total_value := Nat.iter 10 _ _) in *.
      destruct (Qgtb _ (TacticalDecision.expected_value best)) eqn:Egt.
      + apply Qgtb_true in Egt. split.
        * intros other Hin. cbn [TacticalDecision.set_expected_value
            TacticalDecision.expected_value]. apply elem_of_app in Hin as [Hin|Hin].
          -- specialize (Hmax _ Hin). lra.
          -- apply list_elem_of_singleton in Hin as ->. lra.
        * right. exists seen, option, [], total_value.
          split; [reflexivity|]. split; [exact Hv|]. split; [reflexivity|].
          intros other Hin. specialize (Hmax _ Hin). lra.
      + apply Qgtb_false in Egt. split.
        * intros other Hin. apply elem_of_app in Hin as [Hin|Hin].
          -- now apply Hmax.
          -- apply list_elem_of_singleton in Hin as ->. lra.
        * destruct Hbest as [->|(before & o & after & v & -> & Hv' & -> & Hbefore)];
            [now left|].
          right. exists before, o, (after ++ [option]), v.
          split; [now rewrite <- app_assoc|]. split; [exact Hv'|].
          split; [reflexivity|exact Hbefore]. }
  cbv beta in Hinv. destruct Hinv as [Hmax Hbest].
  set (best := fold_left step options start) in *.
  destruct (Qltb (TacticalDecision.expected_value best) 0) eqn:Elt.
  - assert (Hneg : (TacticalDecision.expected_value best < 0)%Q)
      by (now apply (Qgtb_true 0 (TacticalDecision.expected_value best))).
    split; [cbn; lra|]. split; [intros _; split; reflexivity|].
    intros (o & Hin & Hpos). specialize (Hmax _ Hin). lra.
  - assert (Hpos : (0 <= TacticalDecision.expected_value best)%Q)
      by (now apply (Qgtb_false 0 (TacticalDecision.expected_value best))).
    split; [exact Hpos|]. split.
    + intros Hall. exfalso.
      destruct Hbest as [Hb|(before & o & after & v & Hsplit & Hv & Hb & _)];
        rewrite Hb in Hpos; cbn in Hpos.
      * lra.
      * assert (Hin : o ∈ options).
        { rewrite Hsplit. apply elem_of_app. right. apply list_elem_of_here. }
        specialize (Hall _ Hin). lra.
    + intros _. destruct Hbest as [Hb|(before & o & after & v & Hsplit & Hv & Hb & Hbefore)].
      * rewrite Hb in Hpos. cbn in Hpos. lra.
      * exists before, o, after, v. split; [exact Hsplit|]. split; [exact Hv|].
        split; [exact Hb|]. split; [exact Hbefore|].
        intros other Hother.
        assert (Hin : other ∈ options).
        { rewrite Hsplit. apply elem_of_app. right. now apply list_elem_of_further. }
        specialize (Hmax _ Hin). rewrite Hb in Hmax. exact Hmax.
Qed.

Lemma guarded_tile_rectangular (ai : SmartGameAI.t) (nx ny : Z) :
  rectangular (tile_map ai) -> is_Some (guarded_tile ai nx ny).
Proof.
  intros Hrect. unfold guarded_tile.
  destruct ((ny >=? 0) && (ny <? Z.of_nat (length (tile_map ai))) && (nx >=? 0)) eqn:G;
    [|eauto].
  apply andb_prop in G as [G Gx]. apply andb_prop in G as [Gy1 Gy2].
  assert (Hy : (Z.to_nat ny < length (tile_map ai))%nat) by lia.
  destruct (lookup_lt_is_Some_2 (tile_map ai) (Z.to_nat ny) Hy) as [row Hrow].
  assert (H0 : (0 < length (tile_map ai))%nat) by lia.
  destruct (lookup_lt_is_Some_2 (tile_map ai) 0%nat H0) as [row0 Hrow0].
  unfold row_size. cbn. change (Z.to_nat 0) with 0%nat. rewrite Hrow0. cbn.
  destruct (nx <? Z.of_nat (length row0)) eqn:Gx2; [|eauto].
  unfold grid_at. replace (ny <? 0) with false by lia. replace (nx <? 0) with false by lia.
  cbn. rewrite Hrow. cbn.
  assert (Hx : (Z.to_nat nx < length row)%nat).
  { rewrite (Hrect _ _ _ Hrow Hrow0). lia. }
  destruct (lookup_lt_is_Some_2 row (Z.to_nat nx) Hx) as [cell ->]. cbn. eauto.
Qed.

Lemma shooting_target_defined (ai : SmartGameAI.t) (agent : AgentState.t)
    (enemies : list AgentState.t) (data : AgentData.t) :
  data_at ai (AgentState.agent_id agent) = Some data ->
  is_Some (find_best_shooting_target ai agent enemies).
Proof.
  intros Hdata. unfold find_best_shooting_target. rewrite Hdata.
  destruct (_ || _); cbn [mbind option_bind]; eauto.
Qed.

Lemma compound_action_defined (ai : SmartGameAI.t) (agent : AgentState.t)
    (enemies allies : list AgentState.t) (data : AgentData.t) :
  rectangular (tile_map ai) ->
  data_at ai (AgentState.agent_id agent) = Some data ->
  is_Some (find_best_compound_action ai agent enemies allies).
Proof.
  intros Hrect Hdata. unfold find_best_compound_action. rewrite Hdata.
  cbn [mbind option_bind]. cbv zeta.
  destruct (closest_enemy agent enemies) as [closest min_distance].
  assert (Hnear : forall tx ty,
            is_Some (compound_priorities_near ai agent
                       (occupied_positions agent enemies allies) tx ty min_distance)).
  { intros tx ty. apply fold_leftM_is_Some. intros b [dx dy].
    destruct ((dx =? 0) && (dy =? 0)); [eauto|]. cbv zeta.
    destruct (_ || _ || _ || _); [eauto|].
    destruct (negb _); [eauto|].
    destruct (_ <? min_distance); [|eauto].
    destruct (guarded_tile_rectangular ai (AgentState.x agent + dx)
                (AgentState.y agent + dy) Hrect) as [tile ->].
    cbn [mbind option_bind]. destruct (match tile with Some _ => _ | None => _ end); eauto. }
  assert (Hring : is_Some (compound_priorities_ring ai agent
                             (occupied_positions agent enemies allies))).
  { apply fold_leftM_is_Some. intros b [dx dy]. cbv zeta.
    destruct (_ && _ && _ && _); [|eauto].
    destruct (GameMechanics.is_valid_movement_position _ _ _ _ _ _); [|eauto].
    destruct (guarded_tile_rectangular ai (AgentState.x agent + dx)
                (AgentState.y agent + dy) Hrect) as [tile ->].
    cbn [mbind option_bind]. destruct tile as [tile_type|]; [|eauto].
    destruct (tile_type =? 0); eauto. }
  set (first := match closest with Some _ => _ | None => _ end).
  assert (H1 : is_Some first).
  { subst first. destruct closest; [apply Hnear|eauto]. }
  destruct H1 as [priorities ->]. cbn [mbind option_bind].
  destruct (length priorities =? 0)%nat.
  - destruct Hring as [ring ->]. cbn [mbind option_bind]. eauto.
  - cbn [mbind option_bind]. eauto.
Qed.

Lemma cover_strategy_defined (ai : SmartGameAI.t) (agent : AgentState.t)
    (enemies allies : list AgentState.t) :
  rectangular (tile_map ai) ->
  is_Some (evaluate_cover_strategy ai agent enemies allies).
Proof.
  intros Hrect. unfold evaluate_cover_strategy.
  destruct (fold_left _ enemies (0, 0, false)) as [[threats potential] heavy].
  cbv zeta. destruct (negb _); [eauto|].
  match goal with
  | |- is_Some (mbind _ (fold_leftM ?f ?l ?b)) =>
      assert (H : is_Some (fold_leftM f l b))
  end.
  { apply fold_leftM_is_Some. intros b [dx dy]. cbv zeta.
    destruct (provides_cover_rectangular (AgentState.x agent + dx) (AgentState.y agent + dy)
                (board_width ai) (board_height ai) (tile_map ai) Hrect) as [covered ->].
    cbn [mbind option_bind]. destruct covered; [|eauto]. destruct (negb _); eauto. }
  destruct H as [positions ->]. cbn [mbind option_bind].
  destruct (negb (length positions =? 0)%nat); [|eauto].
  destruct (fold_left _ positions _) as [best_distance best_cover].
  destruct (negb _); eauto.
Qed.

Lemma sniper_strategy_defined (scaled_direction : Z -> Z -> Z * Z) (ai : SmartGameAI.t)
    (agent : AgentState.t) (enemies allies : list AgentState.t) (data : AgentData.t) :
  data_at ai (AgentState.agent_id agent) = Some data ->
  is_Some (evaluate_sniper_strategy scaled_direction ai agent enemies allies).
Proof.
  intros Hdata. unfold evaluate_sniper_strategy. rewrite Hdata. cbn [mbind option_bind].
  destruct (negb _); [eauto|]. cbv zeta.
  destruct (fold_left _ enemies (0, 0)) as [health bombers].
  repeat match goal with
         | |- is_Some (if ?c then _ else _) => destruct c
         | |- is_Some (match ?c with Some _ => _ | None => _ end) => destruct c
         end; eauto.
Qed.

Lemma random_moves_defined (ai : SmartGameAI.t) (agent : AgentState.t)
    (enemies allies : list AgentState.t) (num_simulations : Z) (data : AgentData.t) :
  data_at ai (AgentState.agent_id agent) = Some data ->
  is_Some (generate_random_moves ai agent enemies allies num_simulations).
Proof.
  intros Hdata. unfold generate_random_moves. cbv zeta.
  match goal with
  | |- is_Some (mbind _ (fold_leftM ?f ?l ?b)) =>
      assert (H : is_Some (fold_leftM f l b))
  end.
  { apply fold_leftM_is_Some. intros b [nx ny].
    destruct (existsb _ _); [eauto|]. rewrite Hdata.
    destruct (closest_enemy agent enemies).1; cbn [mbind option_bind]; eauto. }
  destruct H as [moves ->]. cbn [mbind option_bind].
  destruct (length moves =? 0)%nat; eauto.
Qed.

Lemma make_optimal_decision_defined (scaled_direction : Z -> Z -> Z * Z)
    (ai : SmartGameAI.t) (agent : AgentState.t) (enemies allies : list AgentState.t)
    (data : AgentData.t) :
  rectangular (tile_map ai) ->
  data_at ai (AgentState.agent_id agent) = Some data ->
  is_Some (make_optimal_decision scaled_direction ai agent enemies allies).
Proof.
  intros Hrect Hdata. unfold make_optimal_decision.
  destruct (shooting_target_defined ai agent enemies data Hdata) as [shoot Hshoot].
  destruct (compound_action_defined ai agent enemies allies data Hrect Hdata)
    as [compound Hcompound].
  destruct (cover_strategy_defined ai agent enemies allies Hrect) as [cover Hcover].
  destruct (sniper_strategy_defined scaled_direction ai agent enemies allies data Hdata)
    as [sniper Hsniper].
  destruct (random_moves_defined ai agent enemies allies 50 data Hdata) as [moves Hmoves].
  rewrite Hdata, Hshoot, Hcompound, Hcover, Hsniper, Hmoves. cbn [mbind option_bind].
  cbv zeta. destruct (_ && _ && _ && _); eauto.
Qed.

Lemma open_board_rectangular (w h : nat) : rectangular (open_board w h).
Proof.
  assert (H : forall i row, open_board w h !! i = Some row -> row = repeat 0 w).
  { unfold open_board. induction h as [|h IH]; intros i row; [discriminate|].
    destruct i as [|i]; cbn; [now intros [= <-]|apply IH]. }
  intros i row row0 Hrow Hrow0. now rewrite (H _ _ Hrow), (H _ _ Hrow0).
Qed.

(** X12: on a rectangular tile map [make_optimal_decision] raises exactly
    when the agent has no profile in [all_agents_data]: with a profile every
    generator returns, and no tile is read outside the map. *)
Theorem optimal_decision_defined (scaled_direction : Z -> Z -> Z * Z)
    (ai : SmartGameAI.t) (agent : AgentState.t) (enemies allies : list AgentState.t) :
  rectangular (tile_map ai) ->
  (is_Some (make_optimal_decision scaled_direction ai agent enemies allies)
   <-> is_Some (data_at ai (AgentState.agent_id agent))).
Proof.
  intros Hrect. split.
  - unfold make_optimal_decision.
    destruct (data_at ai (AgentState.agent_id agent)); [eauto|].
    cbn [mbind option_bind]. intros [? H]. discriminate H.
  - intros [data Hdata]. eapply make_optimal_decision_defined; eassumption.
Qed.

Lemma optimal_decision_defined_witness :
  is_Some (make_optimal_decision no_direction short_range_ai lone_agent [enemy_at_2]
             [lone_agent]).
Proof.
  apply (optimal_decision_defined no_direction short_range_ai lone_agent [enemy_at_2]
           [lone_agent] (open_board_rectangular 10 10)).
  vm_compute. eauto.
Defined.

Lemma focus_fire_defined (ai : SmartGameAI.t) (agent priority_target : AgentState.t)
    (data : AgentData.t) :
  data_at ai (AgentState.agent_id agent) = Some data ->
  is_Some (evaluate_focus_fire ai agent priority_target).
Proof.
  intros Hdata. unfold evaluate_focus_fire. rewrite Hdata. cbn [mbind option_bind].
  cbv zeta.
  repeat match goal with |- context [if ?c then _ else _] => destruct c end; eauto.
Qed.

(** X13: [evaluate_focus_fire] raises exactly when the agent has no profile.
    Its decision is the plain Hunker of value 0, a shot at the priority target
    (the agent is off cooldown, the target within the optimal range, the damage
    is the positive soaking power), or a throw of damage 30 onto the tile of
    the priority target (the agent has a bomb and wetness below 80, the target
    is within [THROW_DISTANCE_MAX]) worth 4500, or 12500 when the target has
    wetness 70 or more. *)
Theorem focus_fire_sound (ai : SmartGameAI.t) (agent priority_target : AgentState.t) :
  (is_Some (evaluate_focus_fire ai agent priority_target)
   <-> is_Some (data_at ai (AgentState.agent_id agent))) /\
  forall decision,
    evaluate_focus_fire ai agent priority_target = Some decision ->
    let distance :=
      manhattan_distance (AgentState.x agent) (AgentState.y agent)
        (AgentState.x priority_target) (AgentState.y priority_target) in
    decision = TacticalDecision.plain "HUNKER_DOWN" 0
    \/ (TacticalDecision.action_type decision = "SHOOT" /\
        TacticalDecision.target_agent_id decision = AgentState.agent_id priority_target /\
        AgentState.cooldown agent = 0 /\
        exists data,
          data_at ai (AgentState.agent_id agent) = Some data /\
          distance <= AgentData.optimal_range data /\
          TacticalDecision.expected_damage decision = AgentData.soaking_power data /\
          0 < AgentData.soaking_power data)
    \/ (TacticalDecision.action_type decision = "THROW" /\
        TacticalDecision.target_x decision = AgentState.x priority_target /\
        TacticalDecision.target_y decision = AgentState.y priority_target /\
        0 < AgentState.splash_bombs agent /\ AgentState.wetness agent < 80 /\
        distance <= THROW_DISTANCE_MAX /\
        TacticalDecision.expected_damage decision = 30 /\
        (TacticalDecision.expected_value decision
         == if AgentState.wetness priority_target >=? 70 then 12500 else 4500)%Q).
Proof.
  unfold evaluate_focus_fire.
  destruct (data_at ai (AgentState.agent_id agent)) as [data|] eqn:Hdata;
    cbn [mbind option_bind].
  2:{ split; [split; intros [? H]; discriminate H|]. intros decision H. discriminate H. }
  cbv zeta. split.
  { split; [eauto|]. intros _.
    repeat match goal with |- context [if ?c then _ else _] => destruct c end; eauto. }
  intros decision. unfold manhattan_distance.
  set (distance := Z.abs (AgentState.x agent - AgentState.x priority_target)
                   + Z.abs (AgentState.y agent - AgentState.y priority_target)).
  set (focus := if (AgentState.cooldown agent =? 0) && _ then _ else _).
  assert (Hfocus :
    focus = TacticalDecision.plain "HUNKER_DOWN" 0
    \/ (TacticalDecision.action_type focus = "SHOOT" /\
        TacticalDecision.target_agent_id focus = AgentState.agent_id priority_target /\
        AgentState.cooldown agent = 0 /\
        exists data0,
          Some data = Some data0 /\
          distance <= AgentData.optimal_range data0 /\
          TacticalDecision.expected_damage focus = AgentData.soaking_power data0 /\
          0 < AgentData.soaking_power data0)).
  { subst focus.
    destruct ((AgentState.cooldown agent =? 0) && (distance <=? AgentData.optimal_range data))
      eqn:E; [|now left].
    apply andb_prop in E as [E1 E2].
    destruct (AgentData.soaking_power data >? 0) eqn:E3; [|now left].
    right. cbn. split; [reflexivity|]. split; [reflexivity|]. split; [lia|].
    exists data. split; [reflexivity|]. split; [lia|]. split; [reflexivity|]. lia. }
  clearbody focus.
  destruct ((AgentState.splash_bombs agent >? 0) && (AgentState.wetness agent <? 80)) eqn:Eb.
  2:{ intros [= <-]. destruct Hfocus as [H|H]; [now left|right; now left]. }
  apply andb_prop in Eb as [Eb1 Eb2].
  destruct (distance <=? THROW_DISTANCE_MAX) eqn:Ed.
  2:{ intros [= <-]. destruct Hfocus as [H|H]; [now left|right; now left]. }
  destruct (Qgtb _ (TacticalDecision.expected_value focus)) eqn:Egt.
  2:{ intros [= <-]. destruct Hfocus as [H|H]; [now left|right; now left]. }
  intros [= <-]. right. right. cbn.
  split; [reflexivity|]. split; [reflexivity|]. split; [reflexivity|].
  split; [lia|]. split; [lia|]. split; [lia|]. split; [reflexivity|].
  destruct (AgentState.wetness priority_target + 30 >=? 100) eqn:E1,
    (AgentState.wetness priority_target >=? 70) eqn:E2; try lia; reflexivity.
Qed.

(** ** The search of the primary engine *)

Lemma agent_actions_shape (ai : SmartGameAI.t) (enemies all_allies : list AgentState.t)
    (agent : AgentState.t) (data : AgentData.t) :
  data_at ai (AgentState.agent_id agent) = Some data ->
  exists actions,
    SmitsimaxSearch.agent_actions ai enemies all_allies agent = Some actions /\
    (1 <= length actions <= 5)%nat.
Proof.
  intros Hdata. unfold SmitsimaxSearch.agent_actions.
  destruct (negb _); [eexists; split; [reflexivity|cbn; lia]|].
  destruct (shooting_target_defined ai agent enemies data Hdata) as [shoot ->].
  destruct (random_moves_defined ai agent enemies all_allies 2 data Hdata) as [moves ->].
  cbn [mbind option_bind]. eexists. split; [reflexivity|].
  pose proof (length_take_le moves 2) as Htake.
  assert (length (take 2 moves) <= 2)%nat by (rewrite length_take; lia).
  destruct (String.eqb _ "SHOOT"), (String.eqb _ "THROW");
    rewrite !length_app; cbn [length]; lia.
Qed.

Lemma advance_valid (sizes indices : list nat) :
  Forall2 (fun size idx => (idx < size)%nat) sizes indices ->
  Forall2 (fun size idx => (idx < size)%nat) sizes (SmitsimaxSearch.advance sizes indices).1.
Proof.
  induction 1 as [|size idx sizes indices Hlt _ IH]; cbn; [constructor|].
  destruct (SmitsimaxSearch.advance sizes indices) as [rest carry]. cbn [fst] in IH.
  destruct carry.
  - destruct (size <=? idx + 1)%nat eqn:E; cbn [fst]; constructor; try assumption;
      [lia|apply Nat.leb_gt in E; lia].
  - cbn [fst]. constructor; assumption.
Qed.

Lemma joint_action_defined (actions : list (list TacticalDecision.t)) (indices : list nat) :
  Forall2 (fun agent_actions idx => (idx < length agent_actions)%nat) actions indices ->
  exists joint_action,
    mapM (fun '(agent_actions, idx) => agent_actions !! idx) (zip actions indices)
    = Some joint_action /\
    Forall2 (fun agent_actions action => action ∈ agent_actions) actions joint_action.
Proof.
  induction 1 as [|acts idx actions indices Hlt _ (joint & IH & Hin)]; cbn.
  - exists []. split; [reflexivity|constructor].
  - destruct (lookup_lt_is_Some_2 acts idx Hlt) as [action Ha]. rewrite Ha. cbn.
    rewrite IH. cbn. exists (action :: joint). split; [reflexivity|].
    constructor; [|exact Hin]. eapply list_elem_of_lookup_2, Ha.
Qed.

Lemma joint_actions_loop_sixteen (rounds : nat) (actions : list (list TacticalDecision.t))
    (indices : list nat) (joint_actions : list (list TacticalDecision.t)) :
  actions <> [] ->
  Forall2 (fun agent_actions idx => (idx < length agent_actions)%nat) actions indices ->
  (length joint_actions < 16)%nat -> (16 <= length joint_actions + rounds)%nat ->
  Forall (fun joint_action =>
            Forall2 (fun agent_actions action => action ∈ agent_actions) actions joint_action)
         joint_actions ->
  exists result,
    SmitsimaxSearch.joint_actions_loop rounds actions indices joint_actions = Some result /\
    length result = 16%nat /\
    Forall (fun joint_action =>
              Forall2 (fun agent_actions action => action ∈ agent_actions) actions joint_action)
           result.
Proof.
  intros Hne. revert indices joint_actions.
  induction rounds as [|rounds IH]; intros indices joint_actions Hvalid Hlen Hrounds Hall;
    [lia|].
  cbn [SmitsimaxSearch.joint_actions_loop].
  destruct (joint_action_defined actions indices Hvalid) as (joint_action & -> & Hin).
  cbn [mbind option_bind]. cbv zeta.
  assert (Hall' : Forall (fun joint_action =>
                    Forall2 (fun agent_actions action => action ∈ agent_actions)
                            actions joint_action) (joint_actions ++ [joint_action])).
  { apply Forall_app_2; [exact Hall|]. constructor; [exact Hin|constructor]. }
  assert (Hlen' : length (joint_actions ++ [joint_action]) = S (length joint_actions)).
  { rewrite length_app. cbn. lia. }
  destruct (16 <=? length (joint_actions ++ [joint_action]))%nat eqn:E.
  - apply Nat.leb_le in E. eexists. split; [reflexivity|]. split; [lia|exact Hall'].
  - apply Nat.leb_gt in E.
    assert (Hvalid' :
      Forall2 (fun agent_actions idx => (idx < length agent_actions)%nat) actions
              (SmitsimaxSearch.advance (map length actions) indices).1).
    { assert (H : Forall2 (fun size idx => (idx < size)%nat) (map length actions) indices).
      { apply Forall2_fmap_l. exact Hvalid. }
      apply advance_valid in H. apply Forall2_fmap_l in H. exact H. }
    set (indices' := (SmitsimaxSearch.advance (map length actions) indices).1) in *.
    clearbody indices'.
    destruct Hvalid' as [|first_actions first rest_actions rest Hfirst Hrest];
      [congruence|].
    cbn [lookup list_lookup mbind option_bind].
    replace (first <? length first_actions)%nat with true
      by (symmetry; apply Nat.ltb_lt; exact Hfirst).
    cbn [orb]. apply IH; [constructor; assumption|lia|lia|exact Hall'].
Qed.

Lemma generate_joint_actions_sixteen (ai : SmartGameAI.t)
    (my_agents enemies all_allies : list AgentState.t) :
  my_agents <> [] ->
  Forall (fun agent => is_Some (data_at ai (AgentState.agent_id agent))) my_agents ->
  exists joint_actions,
    SmitsimaxSearch.generate_joint_actions ai my_agents enemies all_allies
    = Some joint_actions /\
    length joint_actions = 16%nat /\
    Forall (fun joint_action =>
              Forall2 (fun agent action =>
                         exists actions,
                           SmitsimaxSearch.agent_actions ai enemies all_allies agent
                           = Some actions /\ action ∈ actions)
                      my_agents joint_action)
           joint_actions.
Proof.
  intros Hne Hdata. unfold SmitsimaxSearch.generate_joint_actions.
  assert (Hm : exists actions,
            mapM (SmitsimaxSearch.agent_actions ai enemies all_allies) my_agents
            = Some actions /\
            Forall2 (fun agent agent_actions =>
                       SmitsimaxSearch.agent_actions ai enemies all_allies agent
                       = Some agent_actions /\ (1 <= length agent_actions)%nat)
                    my_agents actions).
  { clear Hne. induction Hdata as [|agent my_agents [data Hd] _ (actions & IH & Hall)]; cbn.
    - exists []. split; [reflexivity|constructor].
    - destruct (agent_actions_shape ai enemies all_allies agent data Hd)
        as (acts & Ha & Hlen).
      rewrite Ha. cbn. rewrite IH. cbn. exists (acts :: actions).
      split; [reflexivity|]. constructor; [split; [exact Ha|lia]|exact Hall]. }
  destruct Hm as (actions & -> & Hactions). cbn [mbind option_bind].
  destruct (joint_actions_loop_sixteen 16 actions (map (fun _ => 0%nat) my_agents) [])
    as (result & Hres & Hlen & Hall).
  - intros ->. inversion Hactions. congruence.
  - apply Forall2_fmap_r. apply Forall2_flip.
    eapply Forall2_impl; [exact Hactions|]. cbn. intros agent acts [_ H]. lia.
  - cbn. lia.
  - cbn. lia.
  - constructor.
  - exists result. split; [exact Hres|]. split; [exact Hlen|].
    eapply Forall_impl; [exact Hall|]. cbn. intros joint_action Hj.
    clear -Hactions Hj. revert joint_action Hj.
    induction Hactions as [|agent acts my_agents actions [Ha _] _ IH];
      intros joint_action Hj; inversion Hj; subst; constructor; eauto.
Qed.

(** X14: for a non-empty list of agents that all have a profile,
    [generate_joint_actions] returns exactly sixteen joint actions, however few
    combinations the action lists of the agents allow: its loop is only left at
    sixteen.  Every joint action holds one action per agent, taken from the
    list of that agent.  For an empty list of agents the loop condition reads
    [indices[0]] of an empty vector. *)
Theorem joint_actions_sixteen (ai : SmartGameAI.t)
    (my_agents enemies all_allies : list AgentState.t) :
  my_agents <> [] ->
  Forall (fun agent => is_Some (data_at ai (AgentState.agent_id agent))) my_agents ->
  (exists joint_actions,
     SmitsimaxSearch.generate_joint_actions ai my_agents enemies all_allies
     = Some joint_actions /\
     length joint_actions = 16%nat /\
     Forall (fun joint_action =>
               Forall2 (fun agent action =>
                          exists actions,
                            SmitsimaxSearch.agent_actions ai enemies all_allies agent
                            = Some actions /\ action ∈ actions)
                       my_agents joint_action)
            joint_actions) /\
  SmitsimaxSearch.generate_joint_actions ai [] enemies all_allies = None.
Proof.
  intros Hne Hdata. split; [|reflexivity].
  now apply generate_joint_actions_sixteen.
Qed.

Lemma joint_actions_sixteen_witness :
  exists joint_actions,
    SmitsimaxSearch.generate_joint_actions crossing_ai crossing_agents crossing_enemies
      crossing_agents = Some joint_actions /\
    length joint_actions = 16%nat.
Proof.
  destruct (joint_actions_sixteen crossing_ai crossing_agents crossing_enemies
              crossing_agents) as [(joint_actions & H & Hlen & _) _].
  - discriminate.
  - apply Forall_cons. split; [vm_compute; eauto|].
    apply Forall_cons. split; [vm_compute; eauto|]. apply Forall_nil_2.
  - exists joint_actions. split; [exact H|exact Hlen].
Defined.

(** X15: the simulated response of the enemies changes positions only.  A
    dead enemy stays, and every enemy stays when no controlled agent is alive.
    A living enemy takes one step toward the nearest living controlled agent
    (the first one at the least distance): its distance to that agent drops by
    one, or stays 0; the step is along x as long as the x coordinates
    differ. *)
Theorem enemy_response_steps (enemies my_agents : list AgentState.t)
    (use_game_folder : bool) (i : nat) (enemy : AgentState.t) :
  enemies !! i = Some enemy ->
  exists moved,
    SmitsimaxSearch.simulate_enemy_response_enhanced enemies my_agents use_game_folder !! i
    = Some moved /\
    moved = AgentState.set_pos (AgentState.x moved) (AgentState.y moved) enemy /\
    (AgentState.is_alive enemy = false -> moved = enemy) /\
    ((forall agent, agent ∈ my_agents -> AgentState.is_alive agent = false) ->
     moved = enemy) /\
    (AgentState.is_alive enemy = true ->
     (exists agent, agent ∈ my_agents /\ AgentState.is_alive agent = true /\
                    manhattan_distance (AgentState.x enemy) (AgentState.y enemy)
                      (AgentState.x agent) (AgentState.y agent) < INT_MAX) ->
     exists target,
       target ∈ my_agents /\ AgentState.is_alive target = true /\
       (forall agent, agent ∈ my_agents -> AgentState.is_alive agent = true ->
          manhattan_distance (AgentState.x enemy) (AgentState.y enemy)
            (AgentState.x target) (AgentState.y target)
          <= manhattan_distance (AgentState.x enemy) (AgentState.y enemy)
               (AgentState.x agent) (AgentState.y agent)) /\
       manhattan_distance (AgentState.x moved) (AgentState.y moved)
         (AgentState.x target) (AgentState.y target)
       = Z.max 0 (manhattan_distance (AgentState.x enemy) (AgentState.y enemy)
                    (AgentState.x target) (AgentState.y target) - 1) /\
       (AgentState.x enemy <> AgentState.x target -> AgentState.y moved = AgentState.y enemy)).
Proof.
  intros Hi. unfold SmitsimaxSearch.simulate_enemy_response_enhanced.
  rewrite list_lookup_fmap, Hi. cbn [fmap option_fmap option_map].
  eexists. split; [reflexivity|].
  pose proof (closest_enemy_spec enemy my_agents) as Hc. cbv zeta in Hc.
  destruct (closest_enemy enemy my_agents) as [closest min_distance]. cbn [fst].
  destruct (AgentState.is_alive enemy) eqn:Ealive; cbn [negb].
  2:{ destruct enemy. repeat split; try reflexivity; discriminate. }
  destruct closest as [target|].
  - destruct Hc as (Hin & Ha & Hd & Hlt & Hmin).
    split.
    { destruct enemy; repeat match goal with |- context [if ?c then _ else _] => destruct c end;
        reflexivity. }
    split; [discriminate|]. split.
    { intros Hdead. specialize (Hdead _ Hin). congruence. }
    intros _ _. exists target. split; [exact Hin|]. split; [exact Ha|].
    split; [intros agent Hag Hal; specialize (Hmin _ Hag Hal); lia|].
    unfold manhattan_distance.
    destruct (AgentState.x enemy <? AgentState.x target) eqn:E1; [cbn; split; lia|].
    destruct (AgentState.x enemy >? AgentState.x target) eqn:E2; [cbn; split; lia|].
    destruct (AgentState.y enemy <? AgentState.y target) eqn:E3; [cbn; split; lia|].
    destruct (AgentState.y enemy >? AgentState.y target) eqn:E4; [cbn; split; lia|].
    split; lia.
  - destruct Hc as (Hd & Hmin). split; [destruct enemy; reflexivity|].
    split; [reflexivity|]. split; [reflexivity|].
    intros _ (agent & Hag & Hal & Hlt). specialize (Hmin _ Hag Hal). lia.
Qed.

Lemma enemy_response_steps_witness :
  exists moved,
    SmitsimaxSearch.simulate_enemy_response_enhanced duel_enemies duel_my_agents false
    !! 0%nat = Some moved /\
    moved = AgentState.set_pos (AgentState.x moved) (AgentState.y moved)
              (AgentState.mk 2 3 0 3 0 10).
Proof.
  destruct (enemy_response_steps duel_enemies duel_my_agents false 0
              (AgentState.mk 2 3 0 3 0 10) eq_refl) as (moved & Hm & Hpos & _).
  exists moved. split; [exact Hm|exact Hpos].
Defined.

(** X16: [simulate_enemy_response], the variant with the board limits, keeps
    enemies that stand on the board on the board; when the controlled agents
    stand on the board too, it moves the enemies exactly as
    [simulate_enemy_response_enhanced] does. *)
Theorem enemy_response_on_board (ai : SmartGameAI.t) (enemies my_agents : list AgentState.t) :
  Forall (fun enemy => in_bounds ai (AgentState.x enemy) (AgentState.y enemy) = true) enemies ->
  Forall (fun enemy => in_bounds ai (AgentState.x enemy) (AgentState.y enemy) = true)
         (SmitsimaxSearch.simulate_enemy_response ai enemies my_agents) /\
  (Forall (fun agent => in_bounds ai (AgentState.x agent) (AgentState.y agent) = true)
          my_agents ->
   SmitsimaxSearch.simulate_enemy_response ai enemies my_agents
   = SmitsimaxSearch.simulate_enemy_response_enhanced enemies my_agents false).
Proof.
  intros Hboard. unfold SmitsimaxSearch.simulate_enemy_response,
    SmitsimaxSearch.simulate_enemy_response_enhanced. split.
  - apply Forall_fmap. eapply Forall_impl; [exact Hboard|]. cbn. intros enemy Hin.
    unfold in_bounds in *.
    destruct (negb _); [exact Hin|].
    destruct (closest_enemy enemy my_agents).1 as [target|]; [|exact Hin].
    destruct ((AgentState.x enemy <? AgentState.x target)
              && (AgentState.x enemy <? board_width ai - 1)) eqn:E1;
      [cbn [AgentState.set_pos AgentState.x AgentState.y]; lia|].
    destruct ((AgentState.x enemy >? AgentState.x target) && (AgentState.x enemy >? 0)) eqn:E2;
      [cbn [AgentState.set_pos AgentState.x AgentState.y]; lia|].
    destruct ((AgentState.y enemy <? AgentState.y target)
              && (AgentState.y enemy <? board_height ai - 1)) eqn:E3;
      [cbn [AgentState.set_pos AgentState.x AgentState.y]; lia|].
    destruct ((AgentState.y enemy >? AgentState.y target) && (AgentState.y enemy >? 0)) eqn:E4;
      [cbn [AgentState.set_pos AgentState.x AgentState.y]; lia|].
    exact Hin.
  - intros Hmine. apply Forall_fmap_ext_1.
    eapply Forall_impl; [exact Hboard|]. cbn. intros enemy Hin.
    destruct (negb _); [reflexivity|].
    pose proof (closest_enemy_spec enemy my_agents) as Hc. cbv zeta in Hc.
    destruct (closest_enemy enemy my_agents) as [[target|] min_distance]; cbn [fst];
      [|reflexivity].
    destruct Hc as (Ht & _). rewrite Forall_forall in Hmine. specialize (Hmine _ Ht).
    unfold in_bounds in *.
    destruct (AgentState.x enemy <? AgentState.x target) eqn:E1.
    { replace (AgentState.x enemy <? board_width ai - 1) with true by lia. reflexivity. }
    cbn [andb].
    destruct (AgentState.x enemy >? AgentState.x target) eqn:E2.
    { replace (AgentState.x enemy >? 0) with true by lia. reflexivity. }
    cbn [andb].
    destruct (AgentState.y enemy <? AgentState.y target) eqn:E3.
    { replace (AgentState.y enemy <? board_height ai - 1) with true by lia. reflexivity. }
    cbn [andb].
    destruct (AgentState.y enemy >? AgentState.y target) eqn:E4.
    { replace (AgentState.y enemy >? 0) with true by lia. reflexivity. }
    reflexivity.
Qed.

Lemma enemy_response_on_board_witness :
  Forall (fun enemy => in_bounds short_range_ai (AgentState.x enemy) (AgentState.y enemy)
                       = true)
         (SmitsimaxSearch.simulate_enemy_response short_range_ai [enemy_at_2] [lone_agent]).
Proof.
  apply (enemy_response_on_board short_range_ai [enemy_at_2] [lone_agent]).
  apply Forall_cons. split; [reflexivity|apply Forall_nil_2].
Defined.

Lemma alive_fold_none (f : AgentState.t -> Z) (agents : list AgentState.t) (a : Z) :
  (forall agent, agent ∈ agents -> AgentState.is_alive agent = false) ->
  fold_left (fun n agent => if AgentState.is_alive agent then n + f agent else n) agents a = a.
Proof.
  revert a. induction agents as [|agent agents IH]; intros a Hdead; cbn; [reflexivity|].
  rewrite (Hdead agent) by apply list_elem_of_here.
  apply IH. intros other Hin. apply Hdead. now apply list_elem_of_further.
Qed.

Lemma alive_count_pos (agents : list AgentState.t) :
  (exists agent, agent ∈ agents /\ AgentState.is_alive agent = true) ->
  0 < SmitsimaxNode.alive_count agents.
Proof.
  unfold SmitsimaxNode.alive_count.
  assert (Hge : forall l a, a <= fold_left (fun n agent => if AgentState.is_alive agent
                                                           then n + 1 else n) l a).
  { induction l as [|agent l IH]; intros a; cbn; [lia|].
    specialize (IH (if AgentState.is_alive agent then a + 1 else a)).
    destruct (AgentState.is_alive agent); lia. }
  intros (agent & Hin & Halive). generalize 0.
  induction agents as [|first agents IH]; intros a; [inversion Hin|]. cbn.
  apply elem_of_cons in Hin as [<-|Hin].
  - rewrite Halive. specialize (Hge agents (a + 1)). lia.
  - specialize (IH Hin (if AgentState.is_alive first then a + 1 else a)).
    destruct (AgentState.is_alive first); lia.
Qed.

Lemma existsb_alive (agents : list AgentState.t) :
  existsb AgentState.is_alive agents = false
  <-> forall agent, agent ∈ agents -> AgentState.is_alive agent = false.
Proof.
  split.
  - intros H agent Hin. destruct (AgentState.is_alive agent) eqn:E; [|reflexivity].
    assert (existsb AgentState.is_alive agents = true); [|congruence].
    apply existsb_exists. exists agent. split; [now apply list_elem_of_In|exact E].
  - intros H. apply not_true_is_false. intros Hex.
    apply existsb_exists in Hex as (agent & Hin & E).
    apply list_elem_of_In in Hin. specialize (H _ Hin). congruence.
Qed.

(** X17: [check_terminal] stores what it returns: a node is terminal exactly
    when no controlled agent is alive, no enemy is alive, or its depth is 2 or
    more.  After it, [evaluate_state] gives 10000 when only the controlled side
    has a living agent, -10000 when only the enemy side has one, and 0 when
    nobody is alive. *)
Theorem terminal_evaluation (node : SmitsimaxNode.t) :
  let my_dead :=
    forall agent, agent ∈ SmitsimaxNode.my_agents node -> AgentState.is_alive agent = false in
  let enemy_dead :=
    forall agent, agent ∈ SmitsimaxNode.enemy_agents node ->
                  AgentState.is_alive agent = false in
  let checked := (SmitsimaxNode.check_terminal node).1 in
  SmitsimaxNode.is_terminal checked = (SmitsimaxNode.check_terminal node).2 /\
  (SmitsimaxNode.is_terminal checked = true
   <-> my_dead \/ enemy_dead \/ 2 <= SmitsimaxNode.depth node) /\
  (~ my_dead -> enemy_dead -> SmitsimaxNode.evaluate_state checked = 10000%Q) /\
  (my_dead -> ~ enemy_dead -> SmitsimaxNode.evaluate_state checked = (-10000)%Q) /\
  (my_dead -> enemy_dead -> (SmitsimaxNode.evaluate_state checked == 0)%Q).
Proof.
  cbv zeta. unfold SmitsimaxNode.check_terminal. cbn [fst snd SmitsimaxNode.is_terminal].
  split; [reflexivity|].
  pose proof (existsb_alive (SmitsimaxNode.my_agents node)) as Hmy.
  pose proof (existsb_alive (SmitsimaxNode.enemy_agents node)) as Hen.
  assert (Hmy' : existsb AgentState.is_alive (SmitsimaxNode.my_agents node) = true ->
                 0 < SmitsimaxNode.alive_count (SmitsimaxNode.my_agents node)).
  { intros H. apply alive_count_pos. apply existsb_exists in H as (a & Hin & Ha).
    exists a. split; [now apply list_elem_of_In|exact Ha]. }
  assert (Hen' : existsb AgentState.is_alive (SmitsimaxNode.enemy_agents node) = true ->
                 0 < SmitsimaxNode.alive_count (SmitsimaxNode.enemy_agents node)).
  { intros H. apply alive_count_pos. apply existsb_exists in H as (a & Hin & Ha).
    exists a. split; [now apply list_elem_of_In|exact Ha]. }
  assert (Hzero : forall agents,
            (forall agent, agent ∈ agents -> AgentState.is_alive agent = false) ->
            SmitsimaxNode.alive_count agents = 0 /\ SmitsimaxNode.alive_health agents = 0).
  { intros agents Hdead. split.
    - apply (alive_fold_none (fun _ => 1)). exact Hdead.
    - apply (alive_fold_none AgentState.get_health). exact Hdead. }
  split; [|split; [|split]].
  - destruct (existsb AgentState.is_alive (SmitsimaxNode.my_agents node)) eqn:E1.
    + destruct (existsb AgentState.is_alive (SmitsimaxNode.enemy_agents node)) eqn:E2.
      * cbn. split; [intros H; right; right; lia|].
        intros [H|[H|H]]; [apply Hmy in H; discriminate|apply Hen in H; discriminate|lia].
      * cbn. split; [intros _; right; left; now apply Hen|reflexivity].
    + cbn. split; [intros _; left; now apply Hmy|reflexivity].
  - intros Hlive Hdead. apply Hen in Hdead as Hex.
    destruct (existsb AgentState.is_alive (SmitsimaxNode.my_agents node)) eqn:E1.
    2:{ exfalso. apply Hlive. now apply Hmy. }
    unfold SmitsimaxNode.evaluate_state.
    cbn [SmitsimaxNode.is_terminal SmitsimaxNode.my_agents SmitsimaxNode.enemy_agents].
    rewrite Hex. cbn [negb orb]. cbv zeta.
    destruct (Hzero _ Hdead) as [-> _]. specialize (Hmy' eq_refl).
    replace (_ >? 0) with true by lia. reflexivity.
  - intros Hdead Hlive. apply Hmy in Hdead as Hex.
    destruct (existsb AgentState.is_alive (SmitsimaxNode.enemy_agents node)) eqn:E2.
    2:{ exfalso. apply Hlive. now apply Hen. }
    unfold SmitsimaxNode.evaluate_state.
    cbn [SmitsimaxNode.is_terminal SmitsimaxNode.my_agents SmitsimaxNode.enemy_agents].
    rewrite Hex. cbn [negb orb]. cbv zeta.
    destruct (Hzero _ Hdead) as [-> _]. specialize (Hen' eq_refl).
    replace (SmitsimaxNode.alive_count (SmitsimaxNode.enemy_agents node) =? 0)
      with false by lia.
    replace (SmitsimaxNode.alive_count (SmitsimaxNode.enemy_agents node) >? 0)
      with true by lia.
    reflexivity.
  - intros Hd1 Hd2. apply Hmy in Hd1 as Hex1.
    unfold SmitsimaxNode.evaluate_state.
    cbn [SmitsimaxNode.is_terminal SmitsimaxNode.my_agents SmitsimaxNode.enemy_agents].
    rewrite Hex1. cbn [negb orb]. cbv zeta.
    destruct (Hzero _ Hd1) as [-> ->]. destruct (Hzero _ Hd2) as [-> ->].
    cbn. reflexivity.
Qed.

(** ** The turn loop of the primary engine *)

(** X18: the priority target of a turn is the first enemy of the turn with
    the greatest target score, provided that score is above -1000; there is no
    priority target exactly when every score is -1000 or less (an empty enemy
    list included).  Dead enemies take part like living ones. *)
Theorem priority_target_maximal (current_my_agents current_enemy_agents : list AgentState.t) :
  match select_priority_target current_my_agents current_enemy_agents with
  | Some target =>
      exists before after,
        current_enemy_agents = before ++ target :: after /\
        (-1000 < target_score current_my_agents target)%Q /\
        (forall enemy, enemy ∈ before ->
           (target_score current_my_agents enemy < target_score current_my_agents target)%Q) /\
        (forall enemy, enemy ∈ after ->
           (target_score current_my_agents enemy <= target_score current_my_agents target)%Q)
  | None =>
      forall enemy, enemy ∈ current_enemy_agents ->
                    (target_score current_my_agents enemy <= -1000)%Q
  end.
Proof.
  unfold select_priority_target.
  set (step := fun '(priority_target, best_target_score) enemy => _).
  assert (Hinv :
    (fun seen (st : option AgentState.t * Q) =>
       match st.1 with
       | Some target =>
           st.2 = target_score current_my_agents target /\
           exists before after,
             seen = before ++ target :: after /\
             (-1000 < target_score current_my_agents target)%Q /\
             (forall enemy, enemy ∈ before ->
                (target_score current_my_agents enemy
                 < target_score current_my_agents target)%Q) /\
             (forall enemy, enemy ∈ after ->
                (target_score current_my_agents enemy
                 <= target_score current_my_agents target)%Q)
       | None =>
           st.2 = (-1000)%Q /\
           forall enemy, enemy ∈ seen ->
                         (target_score current_my_agents enemy <= -1000)%Q
       end)
      current_enemy_agents
      (fold_left step current_enemy_agents (None, (-1000)%Q))).
  { apply fold_left_prefix_invariant.
    - cbn. split; [reflexivity|]. intros enemy Hin. inversion Hin.
    - intros seen enemy [priority best] H. cbn [fst snd] in H. unfold step.
      cbv zeta. destruct (Qgtb _ best) eqn:Egt; cbn [fst snd].
      + apply Qgtb_true in Egt. split; [reflexivity|].
        exists seen, []. split; [reflexivity|].
        destruct priority as [target|].
        * destruct H as (-> & before & after & -> & Hlow & Hb & Ha).
          split; [lra|]. split; [|intros e He; inversion He].
          intros e He. apply elem_of_app in He as [He|He].
          -- specialize (Hb _ He). lra.
          -- apply elem_of_cons in He as [->|He]; [lra|]. specialize (Ha _ He). lra.
        * destruct H as (-> & Hall). split; [lra|]. split; [|intros e He; inversion He].
          intros e He. specialize (Hall _ He). lra.
      + apply Qgtb_false in Egt. destruct priority as [target|].
        * destruct H as (-> & before & after & -> & Hlow & Hb & Ha).
          split; [reflexivity|]. exists before, (after ++ [enemy]).
          split; [now rewrite <- app_assoc|]. split; [exact Hlow|]. split; [exact Hb|].
          intros e He. apply elem_of_app in He as [He|He]; [now apply Ha|].
          apply list_elem_of_singleton in He as ->. exact Egt.
        * destruct H as (-> & Hall). split; [reflexivity|].
          intros e He. apply elem_of_app in He as [He|He]; [now apply Hall|].
          apply list_elem_of_singleton in He as ->. exact Egt. }
  cbv beta in Hinv.
  destruct (fold_left step current_enemy_agents (None, (-1000)%Q)).1 as [target|].
  - destruct Hinv as (_ & H). exact H.
  - destruct Hinv as (_ & H). exact H.
Qed.

Lemma assign_fold_miss (l : list (AgentState.t * TacticalDecision.t))
    (m : gmap Z TacticalDecision.t) (k : Z) :
  (forall p, p ∈ l -> AgentState.agent_id p.1 <> k) ->
  fold_left (fun (agent_decisions : gmap Z TacticalDecision.t) '(agent, action) =>
               <[AgentState.agent_id agent := action]> agent_decisions) l m !! k
  = m !! k.
Proof.
  revert m. induction l as [|[a act] l IH]; intros m Hl; cbn; [reflexivity|].
  rewrite IH by (intros p Hp; apply Hl; now apply list_elem_of_further).
  apply lookup_insert_ne. apply (Hl (a, act)). apply list_elem_of_here.
Qed.

Lemma assign_fold_hit (l : list (AgentState.t * TacticalDecision.t))
    (m : gmap Z TacticalDecision.t) (i : nat) (agent : AgentState.t)
    (action : TacticalDecision.t) :
  NoDup (map (fun p => AgentState.agent_id p.1) l) ->
  l !! i = Some (agent, action) ->
  fold_left (fun (agent_decisions : gmap Z TacticalDecision.t) '(agent, action) =>
               <[AgentState.agent_id agent := action]> agent_decisions) l m
  !! AgentState.agent_id agent = Some action.
Proof.
  revert m i. induction l as [|[a act] l IH]; intros m i Hnd Hi; [discriminate|].
  cbn in Hnd. apply NoDup_cons in Hnd as [Hnotin Hnd]. destruct i as [|i]; cbn in *.
  - injection Hi as -> ->. rewrite assign_fold_miss; [apply lookup_insert_eq|].
    intros p Hp Heq. apply Hnotin. apply list_elem_of_fmap. exists p. split; [now symmetry|exact Hp].
  - eapply IH; eassumption.
Qed.

(** X19: when the controlled agents of the turn have distinct ids, the
    decision stored for the agent at position [i] is the action at position
    [i] of the joint action, and nothing is stored for an agent beyond the
    length of the joint action. *)
Theorem assign_joint_actions_lookup (current_my_agents : list AgentState.t)
    (joint_actions : list TacticalDecision.t) (i : nat) (agent : AgentState.t) :
  NoDup (map AgentState.agent_id current_my_agents) ->
  current_my_agents !! i = Some agent ->
  assign_joint_actions current_my_agents joint_actions !! AgentState.agent_id agent
  = joint_actions !! i.
Proof.
  intros Hnd Hi. unfold assign_joint_actions.
  assert (Hids : map (fun p : AgentState.t * TacticalDecision.t => AgentState.agent_id p.1)
                     (zip current_my_agents joint_actions)
                 = take (length joint_actions) (map AgentState.agent_id current_my_agents)).
  { clear. revert joint_actions.
    induction current_my_agents as [|a l IH]; intros [|act acts]; cbn; try reflexivity.
    now rewrite IH. }
  destruct (joint_actions !! i) as [action|] eqn:Ha.
  - apply (assign_fold_hit _ _ i).
    + rewrite Hids. eapply sublist_NoDup; [exact Hnd|apply sublist_take].
    + apply lookup_zip_with_Some. exists agent, action. auto.
  - rewrite assign_fold_miss; [apply lookup_empty|].
    intros [a act] Hp Heq. apply list_elem_of_lookup in Hp as [j Hj].
    apply lookup_zip_with_Some in Hj as (a' & act' & [= <- <-] & Hja & Hjact).
    cbn in Heq.
    assert (H1 : (AgentState.agent_id <$> current_my_agents) !! j
                 = Some (AgentState.agent_id agent)).
    { rewrite list_lookup_fmap, Hja. cbn. now rewrite Heq. }
    assert (H2 : (AgentState.agent_id <$> current_my_agents) !! i
                 = Some (AgentState.agent_id agent)).
    { rewrite list_lookup_fmap, Hi. reflexivity. }
    pose proof (NoDup_lookup _ _ _ _ Hnd H1 H2) as ->. congruence.
Qed.

Lemma assign_joint_actions_lookup_witness :
  assign_joint_actions crossing_agents
    [TacticalDecision.plain "HUNKER_DOWN" 50; TacticalDecision.plain "HUNKER_DOWN" 0] !! 2
  = Some (TacticalDecision.plain "HUNKER_DOWN" 0).
Proof.
  apply (assign_joint_actions_lookup crossing_agents
           [TacticalDecision.plain "HUNKER_DOWN" 50; TacticalDecision.plain "HUNKER_DOWN" 0]
           1%nat (AgentState.mk 2 0 1 0 0 0)).
  - apply (bool_decide_unpack _). vm_compute. exact I.
  - reflexivity.
Defined.

Lemma board_shape_rectangular (ai : SmartGameAI.t) :
  board_shape ai -> rectangular (tile_map ai).
Proof.
  intros [_ Hrows] i row row0 Hrow Hrow0. rewrite Forall_forall in Hrows.
  rewrite (Hrows row), (Hrows row0); [reflexivity| |];
    eapply list_elem_of_lookup_2; eassumption.
Qed.

Lemma profile_of_class (line : ProfileLine) :
  AgentData.agent_class (profile_of line) = determine_agent_class (profile_of line).
Proof. reflexivity. Qed.

Lemma register_profiles_spec (my_id : Z) (profiles : list ProfileLine) :
  let '(all_agents_data, my_agent_ids, enemy_agent_ids) :=
    fold_left (register_profile my_id) profiles (∅, [], []) in
  my_agent_ids
  = map line_agent_id (filter (fun line => line_player line = my_id) profiles) /\
  enemy_agent_ids
  = map line_agent_id (filter (fun line => line_player line <> my_id) profiles) /\
  (forall id, is_Some (all_agents_data !! id)
              <-> exists line, line ∈ profiles /\ line_agent_id line = id) /\
  (forall id data, all_agents_data !! id = Some data ->
                   exists line, line ∈ profiles /\ line_agent_id line = id /\
                                data = profile_of line).
Proof.
  apply (fold_left_prefix_invariant
           (fun seen (st : gmap Z AgentData.t * list Z * list Z) =>
              let '(all_agents_data, my_agent_ids, enemy_agent_ids) := st in
              my_agent_ids
              = map line_agent_id (filter (fun line => line_player line = my_id) seen) /\
              enemy_agent_ids
              = map line_agent_id (filter (fun line => line_player line <> my_id) seen) /\
              (forall id, is_Some (all_agents_data !! id)
                          <-> exists line, line ∈ seen /\ line_agent_id line = id) /\
              (forall id data, all_agents_data !! id = Some data ->
                               exists line, line ∈ seen /\ line_agent_id line = id /\
                                            data = profile_of line))).
  - split; [reflexivity|]. split; [reflexivity|]. split.
    + intros id. rewrite lookup_empty. split; [intros [? H]; discriminate H|].
      intros (line & Hin & _). inversion Hin.
    + intros id data H. rewrite lookup_empty in H. discriminate H.
  - intros seen line [[data my] enemy] (Hmy & Henemy & Hdom & Hval).
    unfold register_profile. cbv zeta.
    change (AgentData.agent_id (profile_of line)) with (line_agent_id line).
    change (AgentData.player (profile_of line)) with (line_player line).
    assert (Hdom' : forall id,
              is_Some (<[line_agent_id line := profile_of line]> data !! id)
              <-> exists line0, line0 ∈ seen ++ [line] /\ line_agent_id line0 = id).
    { intros id. destruct (decide (line_agent_id line = id)) as [<-|Hne].
      - rewrite lookup_insert_eq. split; [intros _|eauto].
        exists line. split; [|reflexivity]. apply elem_of_app. right.
        now apply list_elem_of_singleton.
      - rewrite lookup_insert_ne by exact Hne. rewrite Hdom. split.
        + intros (l0 & Hin & Hid). exists l0. split; [|exact Hid].
          apply elem_of_app. now left.
        + intros (l0 & Hin & Hid). apply elem_of_app in Hin as [Hin|Hin]; [eauto|].
          apply list_elem_of_singleton in Hin as ->. contradiction. }
    assert (Hval' : forall id d,
              <[line_agent_id line := profile_of line]> data !! id = Some d ->
              exists line0, line0 ∈ seen ++ [line] /\ line_agent_id line0 = id /\
                            d = profile_of line0).
    { intros id d. destruct (decide (line_agent_id line = id)) as [<-|Hne].
      - rewrite lookup_insert_eq. intros [= <-]. exists line.
        split; [|split; reflexivity]. apply elem_of_app. right.
        now apply list_elem_of_singleton.
      - rewrite lookup_insert_ne by exact Hne. intros H.
        destruct (Hval _ _ H) as (l0 & Hin & Hid & Hd). exists l0.
        split; [|split; assumption]. apply elem_of_app. now left. }
    rewrite !filter_app, !map_app.
    destruct (line_player line =? my_id) eqn:E.
    + apply Z.eqb_eq in E. split; [|split; [|split; assumption]].
      * rewrite Hmy. f_equal. rewrite filter_cons_True by exact E. reflexivity.
      * rewrite Henemy. rewrite filter_cons_False by (intros H; now apply H).
        cbn. now rewrite app_nil_r.
    + apply Z.eqb_neq in E. split; [|split; [|split; assumption]].
      * rewrite Hmy. rewrite filter_cons_False by exact E. cbn. now rewrite app_nil_r.
      * rewrite Henemy. f_equal. rewrite filter_cons_True by exact E. reflexivity.
Qed.

Lemma write_tile_shape (board_width board_height : Z) (tile_map : list (list Z))
    (tile : Z * Z * Z) :
  length (write_tile board_width board_height tile_map tile) = length tile_map /\
  (Forall (fun row => length row = Z.to_nat board_width) tile_map ->
   Forall (fun row => length row = Z.to_nat board_width)
          (write_tile board_width board_height tile_map tile)).
Proof.
  destruct tile as [[x y] t]. unfold write_tile.
  destruct (_ && _ && _ && _); [|auto]. split; [apply length_alter|].
  intros H. apply Forall_alter; [exact H|]. intros row _ Hrow.
  now rewrite length_insert.
Qed.

Lemma write_tile_read (board_width board_height : Z) (tile_map : list (list Z))
    (tile : Z * Z * Z) (x y : Z) :
  length tile_map = Z.to_nat board_height ->
  Forall (fun row => length row = Z.to_nat board_width) tile_map ->
  0 <= x < board_width -> 0 <= y < board_height ->
  grid_at (write_tile board_width board_height tile_map tile) y x
  = let '(tx, ty, t) := tile in
    if (tx =? x) && (ty =? y) then Some t else grid_at tile_map y x.
Proof.
  intros Hlen Hrows Hx Hy. destruct tile as [[tx ty] t]. unfold write_tile.
  destruct ((tx >=? 0) && (tx <? board_width) && (ty >=? 0) && (ty <? board_height)) eqn:G.
  - unfold grid_at. replace (y <? 0) with false by lia. replace (x <? 0) with false by lia.
    cbn [orb].
    destruct (Z.eq_dec ty y) as [->|Hney].
    + rewrite list_lookup_alter_eq, Z.eqb_refl, andb_true_r.
      assert (Hrow : (Z.to_nat y < length tile_map)%nat) by lia.
      destruct (lookup_lt_is_Some_2 _ _ Hrow) as [row Erow]. rewrite Erow. cbn.
      assert (Hlr : length row = Z.to_nat board_width).
      { rewrite Forall_forall in Hrows. apply Hrows.
        eapply list_elem_of_lookup_2, Erow. }
      destruct (Z.eq_dec tx x) as [->|Hnex].
      * rewrite Z.eqb_refl. apply list_lookup_insert_eq. lia.
      * replace (tx =? x) with false by lia. apply list_lookup_insert_ne. lia.
    + rewrite list_lookup_alter_ne by lia.
      replace (ty =? y) with false by lia. now rewrite andb_false_r.
  - assert (E : (tx =? x) && (ty =? y) = false).
    { destruct (tx =? x) eqn:E1, (ty =? y) eqn:E2; try reflexivity. lia. }
    now rewrite E.
Qed.

Lemma write_tiles_spec (board_width board_height : Z) (tiles : list (Z * Z * Z))
    (tile_map : list (list Z)) :
  length tile_map = Z.to_nat board_height ->
  Forall (fun row => length row = Z.to_nat board_width) tile_map ->
  let final := fold_left (write_tile board_width board_height) tiles tile_map in
  length final = Z.to_nat board_height /\
  Forall (fun row => length row = Z.to_nat board_width) final /\
  forall x y, 0 <= x < board_width -> 0 <= y < board_height ->
    grid_at final y x
    = fold_left (fun tile_type '(tx, ty, t) =>
                   if (tx =? x) && (ty =? y) then Some t else tile_type)
                tiles (grid_at tile_map y x).
Proof.
  revert tile_map. induction tiles as [|tile tiles IH]; intros tile_map Hlen Hrows; cbn.
  - auto.
  - destruct (write_tile_shape board_width board_height tile_map tile) as [Hl Hr].
    specialize (IH (write_tile board_width board_height tile_map tile)
                  ltac:(now rewrite Hl) (Hr Hrows)).
    cbv zeta in IH. destruct IH as (H1 & H2 & H3). split; [exact H1|]. split; [exact H2|].
    intros x y Hx Hy. rewrite (H3 x y Hx Hy).
    rewrite (write_tile_read _ _ _ _ _ _ Hlen Hrows Hx Hy).
    destruct tile as [[tx ty] t]. reflexivity.
Qed.

Lemma last_tile_some (tiles : list (Z * Z * Z)) (x y a : Z) :
  fold_left (fun tile_type '(tx, ty, t) =>
               if (tx =? x) && (ty =? y) then Some t else tile_type) tiles (Some a)
  = Some (fold_left (fun tile_type '(tx, ty, t) =>
                       if (tx =? x) && (ty =? y) then t else tile_type) tiles a).
Proof.
  revert a. induction tiles as [|[[tx ty] t] tiles IH]; intros a; cbn; [reflexivity|].
  destruct ((tx =? x) && (ty =? y)); apply IH.
Qed.

Lemma initialise_spec (input : InitInput) (ai : SmartGameAI.t) :
  initialise input = Some ai ->
  0 <= width input /\ 0 <= height input /\
  board_width ai = width input /\ board_height ai = height input /\
  board_shape ai /\
  (forall x y, 0 <= x < width input -> 0 <= y < height input ->
     grid_at (tile_map ai) y x = Some (last_tile (tiles input) x y)) /\
  my_agent_ids ai
  = map line_agent_id (filter (fun line => line_player line = my_id input) (profiles input)) /\
  enemy_agent_ids ai
  = map line_agent_id (filter (fun line => line_player line <> my_id input) (profiles input)) /\
  (forall id, is_Some (data_at ai id)
              <-> exists line, line ∈ profiles input /\ line_agent_id line = id) /\
  (forall id data, data_at ai id = Some data ->
                   exists line, line ∈ profiles input /\ line_agent_id line = id /\
                                data = profile_of line).
Proof.
  unfold initialise. pose proof (register_profiles_spec (my_id input) (profiles input)) as Hp.
  destruct (fold_left (register_profile (my_id input)) (profiles input) (∅, [], []))
    as [[data my] enemy].
  destruct ((width input <? 0) || (height input <? 0)) eqn:G; [discriminate|].
  apply orb_false_elim in G as [Gw Gh]. intros [= <-]. cbn.
  destruct Hp as (Hmy & Henemy & Hdom & Hval).
  pose proof (write_tiles_spec (width input) (height input) (tiles input)
                (replicate (Z.to_nat (height input)) (replicate (Z.to_nat (width input)) 0)))
    as Ht.
  cbv zeta in Ht. destruct Ht as (H1 & H2 & H3).
  { apply length_replicate. }
  { apply Forall_replicate, length_replicate. }
  split; [lia|]. split; [lia|]. split; [reflexivity|]. split; [reflexivity|].
  split; [split; assumption|]. split.
  { intros x y Hx Hy. rewrite (H3 x y Hx Hy).
    assert (E : grid_at (replicate (Z.to_nat (height input))
                           (replicate (Z.to_nat (width input)) 0)) y x = Some 0).
    { unfold grid_at. replace (y <? 0) with false by lia. replace (x <? 0) with false by lia.
      cbn. rewrite lookup_replicate_2 by lia. cbn. apply lookup_replicate_2. lia. }
    rewrite E. apply last_tile_some. }
  auto.
Qed.

(** X20: the initialisation of [main] fails exactly on a negative width or
    height.  Otherwise the tile map has [height] rows of [width] cells, and the
    tile at [(x, y)] holds the type of the last triple read for it, 0 without
    one; triples outside the board are dropped.  The controlled ids are the ids
    of the profiles of player [my_id], in reading order, the enemy ids those of
    the other profiles; an id has a profile exactly when a line named it, and
    every stored profile is the one of such a line, with the class that
    [determine_agent_class] gives it. *)
Theorem initialise_registers (input : InitInput) :
  (is_Some (initialise input) <-> 0 <= width input /\ 0 <= height input) /\
  forall ai,
    initialise input = Some ai ->
    board_width ai = width input /\ board_height ai = height input /\
    board_shape ai /\
    (forall x y, 0 <= x < width input -> 0 <= y < height input ->
       grid_at (tile_map ai) y x = Some (last_tile (tiles input) x y)) /\
    my_agent_ids ai
    = map line_agent_id
        (filter (fun line => line_player line = my_id input) (profiles input)) /\
    enemy_agent_ids ai
    = map line_agent_id
        (filter (fun line => line_player line <> my_id input) (profiles input)) /\
    (forall id, is_Some (data_at ai id)
                <-> exists line, line ∈ profiles input /\ line_agent_id line = id) /\
    (forall id data, data_at ai id = Some data ->
                     AgentData.agent_class data = determine_agent_class data /\
                     exists line, line ∈ profiles input /\ line_agent_id line = id /\
                                  data = profile_of line).
Proof.
  split.
  - unfold initialise.
    destruct (fold_left (register_profile (my_id input)) (profiles input) (∅, [], []))
      as [[data my] enemy].
    destruct ((width input <? 0) || (height input <? 0)) eqn:G.
    + split; [intros [? H]; discriminate H|]. intros [Hw Hh].
      apply orb_prop in G as [G|G]; lia.
    + apply orb_false_elim in G as [Gw Gh]. split; [lia|eauto].
  - intros ai Hinit. apply initialise_spec in Hinit
      as (H1 & H2 & H3 & H4 & H5 & H6 & H7 & H8 & H9 & H10).
    repeat (split; [assumption|]). intros id data Hdata.
    destruct (H10 id data Hdata) as (line & Hin & Hid & ->).
    split; [apply profile_of_class|]. exists line. auto.
Qed.

Lemma initialise_registers_witness :
  initialise duel_input = Some duel_board_ai /\
  my_agent_ids duel_board_ai = [1] /\
  grid_at (tile_map duel_board_ai) 0 1 = Some 1 /\
  board_shape duel_board_ai /\
  initialise (mkInitInput 0 [] (-1) 2 []) = None.
Proof.
  assert (H : initialise duel_input = Some duel_board_ai) by (vm_compute; reflexivity).
  split; [exact H|].
  destruct (initialise_registers duel_input) as [_ Hai].
  destruct (Hai duel_board_ai H) as (_ & _ & Hshape & Hgrid & Hmy & _).
  split; [rewrite Hmy; reflexivity|]. split; [|split; [exact Hshape|]].
  - rewrite (Hgrid 1 0); [reflexivity|cbn; lia|cbn; lia].
  - destruct (initialise_registers (mkInitInput 0 [] (-1) 2 [])) as [[Hsome _] _].
    destruct (initialise (mkInitInput 0 [] (-1) 2 [])) as [ai|]; [|reflexivity].
    destruct (Hsome (mk_is_Some _ _ eq_refl)) as [Hw _]. cbn in Hw. lia.
Defined.

Lemma smitsimax_search_defined (outcome : SmitsimaxSearch.SearchOutcome)
    (ai : SmartGameAI.t) (my_agents enemies : list AgentState.t) :
  search_returns outcome -> my_agents <> [] ->
  Forall (fun agent => is_Some (data_at ai (AgentState.agent_id agent))) my_agents ->
  is_Some (SmitsimaxSearch.smitsimax_search outcome ai my_agents enemies).
Proof.
  intros Hout Hne Hdata. destruct outcome as [| |n]; cbn in *; [contradiction|eauto|].
  destruct (generate_joint_actions_sixteen ai my_agents enemies my_agents Hne Hdata)
    as (joint_actions & -> & Hlen & _).
  cbn [mbind option_bind]. apply lookup_lt_is_Some_2. rewrite length_take. lia.
Qed.

Lemma compute_decisions_defined (scaled_direction : Z -> Z -> Z * Z)
    (outcome : SmitsimaxSearch.SearchOutcome) (ai : SmartGameAI.t) (turn_number : Z)
    (current_my_agents current_enemy_agents : list AgentState.t) :
  rectangular (tile_map ai) ->
  Forall (fun agent => is_Some (data_at ai (AgentState.agent_id agent))) current_my_agents ->
  search_returns outcome ->
  is_Some (compute_decisions (SmitsimaxSearch.smitsimax_search outcome ai)
             (fun enemies allies agent =>
                make_optimal_decision scaled_direction ai agent enemies allies)
             ai turn_number current_my_agents current_enemy_agents).
Proof.
  intros Hrect Hdata Hout. unfold compute_decisions. cbv zeta.
  set (first := if use_smitsimax _ _ _ then _ else _).
  assert (Hfirst : is_Some first).
  { subst first. destruct (use_smitsimax _ _ _) eqn:Euse; [|eauto].
    destruct (smitsimax_search_defined outcome ai current_my_agents current_enemy_agents)
      as [joint ->]; [exact Hout| |exact Hdata|cbn; eauto].
    intros ->. discriminate Euse. }
  destruct Hfirst as [agent_decisions ->]. cbn [mbind option_bind].
  apply fold_leftM_is_Some_elem. intros [decisions blacklist] agent Hin.
  rewrite Forall_forall in Hdata. destruct (Hdata _ Hin) as [data Hd].
  unfold decide_agent. destruct (AgentState.is_alive agent); [|eauto].
  set (proposal := if use_smitsimax _ _ _ then _ else _).
  assert (Hprop : is_Some proposal).
  { subst proposal.
    pose proof (make_optimal_decision_defined scaled_direction ai agent
                  current_enemy_agents current_my_agents data Hrect Hd) as H.
    destruct (use_smitsimax _ _ _); [|exact H].
    destruct (decisions !! AgentState.agent_id agent); [eauto|exact H]. }
  destruct Hprop as [decision ->]. cbn [mbind option_bind].
  destruct (resolve_collision _ _ _ _ _ _) as [decision' blacklist'].
  assert (Hfocus : is_Some (focus_fire_override ai
                              (select_priority_target current_my_agents current_enemy_agents)
                              agent decision')).
  { unfold focus_fire_override. destruct (select_priority_target _ _) as [target|]; [|eauto].
    destruct (AgentState.cooldown agent =? 0); [|eauto].
    destruct (focus_fire_defined ai agent target data Hd) as [focus ->].
    cbn [mbind option_bind]. destruct (Qgtb _ _); eauto. }
  destruct Hfocus as [final ->]. cbn [mbind option_bind]. eauto.
Qed.

Lemma my_agents_registered (input : InitInput) (ai : SmartGameAI.t)
    (agents : list AgentState.t) :
  initialise input = Some ai ->
  Forall (fun agent => is_Some (data_at ai (AgentState.agent_id agent)))
         (List.filter (is_my_agent ai) agents).
Proof.
  intros Hinit. apply initialise_spec in Hinit
    as (_ & _ & _ & _ & _ & _ & Hmy & _ & Hdom & _).
  apply Forall_forall. intros agent Hin. apply list_elem_of_In, filter_In in Hin as [_ Hmine].
  unfold is_my_agent in Hmine. apply existsb_exists in Hmine as (id & Hid & Heq).
  apply Z.eqb_eq in Heq. subst id. apply Hdom. rewrite Hmy in Hid.
  apply list_elem_of_In, list_elem_of_fmap in Hid as (line & Hline & Hin).
  apply list_elem_of_filter in Hin as [_ Hin]. eauto.
Qed.

(** ** C5: exceptions and the number of printed lines, concluded *)



(** X21: after the initialisation of [main], a turn whose search returns
    computes its decisions without an exception, whatever the agents of the
    turn are: the controlled agents of a turn are those with a registered id,
    which have a profile, and the tile map is rectangular.  The exception
    handler is then not entered; with a controlled agent registered the turn
    prints the number of lines the game expects. *)
Theorem initialised_turn_never_raises (scaled_direction : Z -> Z -> Z * Z)
    (outcome : SmitsimaxSearch.SearchOutcome) (input : InitInput) (ai : SmartGameAI.t)
    (turn_number : Z) (turn_input : TurnInput) :
  initialise input = Some ai -> search_returns outcome ->
  is_Some (compute_decisions (SmitsimaxSearch.smitsimax_search outcome ai)
             (fun enemies allies agent =>
                make_optimal_decision scaled_direction ai agent enemies allies)
             ai turn_number
             (List.filter (is_my_agent ai) (agents turn_input))
             (List.filter (fun agent => negb (is_my_agent ai agent)) (agents turn_input))) /\
  (my_agent_ids ai <> [] ->
   exists lines,
     main_turn scaled_direction outcome ai turn_number turn_input = Some lines /\
     length lines = Z.to_nat (my_agent_count turn_input)).
Proof.
  intros Hinit Hout.
  assert (Hdec : is_Some (compute_decisions (SmitsimaxSearch.smitsimax_search outcome ai)
             (fun enemies allies agent =>
                make_optimal_decision scaled_direction ai agent enemies allies)
             ai turn_number
             (List.filter (is_my_agent ai) (agents turn_input))
             (List.filter (fun agent => negb (is_my_agent ai agent)) (agents turn_input)))).
  { apply compute_decisions_defined; [| |exact Hout].
    - apply board_shape_rectangular.
      now apply initialise_spec in Hinit as (_ & _ & _ & _ & H & _).
    - eapply my_agents_registered, Hinit. }
  split; [exact Hdec|]. intros Hids. unfold main_turn, turn.
  destruct Hdec as [[decisions blacklist] ->].
  now apply output_lines_defined.
Qed.

Lemma initialised_turn_never_raises_witness :
  exists lines,
    main_turn no_direction SmitsimaxSearch.NoChildren duel_board_ai 1 duel_turn
    = Some lines /\
    length lines = 1%nat.
Proof.
  destruct (initialised_turn_never_raises no_direction SmitsimaxSearch.NoChildren
              duel_input duel_board_ai 1 duel_turn) as [_ H];
    [vm_compute; reflexivity|exact I|].
  apply H. vm_compute. discriminate.
Defined.

(** ** The merged variant *)

Lemma determine_bomber_range (data : AgentData.t) :
  Merged.determine_agent_class data = BOMBER -> AgentData.optimal_range data = 2.
Proof.
  unfold Merged.determine_agent_class.
  destruct (_ && _); [discriminate|].
  destruct (AgentData.optimal_range data =? 2) eqn:E; [lia|]. cbn.
  repeat match goal with |- context [if ?c then _ else _] => destruct c end; discriminate.
Qed.

Section Quick_move.

Variable strategic : Z -> Z -> Z -> Z -> list AgentState.t -> list AgentState.t
                     -> GameAgentClass -> Q.
Variables (agent : AgentState.t) (data : AgentData.t) (temp_sim : Merged.SimulationState.t).

Lemma phase_sniper_valid (st : Q * Merged.PrecomputedMove.t) :
  Merged.determine_agent_class data = SNIPER -> AgentState.cooldown agent = 0 ->
  quick_state_valid agent data temp_sim st ->
  quick_state_valid agent data temp_sim (Merged.phase_sniper agent data (Merged.SimulationState.enemy_agents temp_sim) st).
Proof.
  intros Hclass Hcd Hst. unfold Merged.phase_sniper.
  apply fold_left_invariant_elem; [exact Hst|].
  intros [best move] enemy Hin Hb.
  destruct (AgentState.wetness enemy <? 100) eqn:Ew; [|exact Hb]. cbv zeta.
  destruct (_ <=? 6) eqn:Ed; [|exact Hb].
  destruct (_ >? 0) eqn:Edmg; [|exact Hb].
  destruct (Qgtb _ best); [|exact Hb].
  right. left. cbn. split; [reflexivity|]. split; [exact Hcd|].
  exists enemy. split; [exact Hin|]. split; [lia|]. split; [reflexivity|].
  rewrite (determine_sniper_range data Hclass). split; lia.
Qed.

Lemma phase_bomber_valid (st : Q * Merged.PrecomputedMove.t) :
  Merged.determine_agent_class data = BOMBER -> AgentState.cooldown agent = 0 ->
  0 < AgentState.splash_bombs agent ->
  quick_state_valid agent data temp_sim st ->
  quick_state_valid agent data temp_sim (Merged.phase_bomber agent data (Merged.SimulationState.enemy_agents temp_sim) st).
Proof.
  intros Hclass Hcd Hbombs Hst. unfold Merged.phase_bomber.
  set (enemies := Merged.SimulationState.enemy_agents temp_sim).
  assert (Hloc :
    (fun acc : Z * Z * Q =>
       acc.1 = (-1, -1)
       \/ exists enemy,
            enemy ∈ enemies /\ AgentState.wetness enemy < 100 /\
            acc.1 = (AgentState.x enemy, AgentState.y enemy) /\
            manhattan_distance (AgentState.x agent) (AgentState.y agent)
              (AgentState.x enemy) (AgentState.y enemy) <= 4)
      (fold_left
         (fun '(best_bomb_location, best_bomb_score) primary_enemy =>
            if AgentState.wetness primary_enemy <? 100 then
              let distance :=
                manhattan_distance (AgentState.x agent) (AgentState.y agent)
                  (AgentState.x primary_enemy) (AgentState.y primary_enemy) in
              if distance <=? 4 then
                let '(splash_targets, total_splash_damage) :=
                  Merged.splash_count data enemies (AgentState.x primary_enemy)
                    (AgentState.y primary_enemy) in
                let bomb_score := (800 + inject_Z total_splash_damage * 15)%Q in
                let bomb_score :=
                  if splash_targets >? 1
                  then (bomb_score + inject_Z splash_targets * 1000)%Q
                  else bomb_score in
                if Qgtb bomb_score best_bomb_score
                then ((AgentState.x primary_enemy, AgentState.y primary_enemy), bomb_score)
                else (best_bomb_location, best_bomb_score)
              else (best_bomb_location, best_bomb_score)
            else (best_bomb_location, best_bomb_score))
         enemies ((-1, -1), 0%Q))).
  { apply fold_left_invariant_elem; [now left|].
    intros [loc score] enemy Hin Hb.
    destruct (AgentState.wetness enemy <? 100) eqn:Ew; [|exact Hb]. cbv zeta.
    destruct (_ <=? 4) eqn:Ed; [|exact Hb].
    destruct (Merged.splash_count _ _ _ _) as [targets damage].
    destruct (Qgtb _ score); [|exact Hb].
    right. exists enemy. cbn. split; [exact Hin|]. split; [lia|]. split; [reflexivity|]. lia. }
  destruct (fold_left _ enemies _) as [loc score]. cbn [fst] in Hloc.
  destruct st as [best move]. destruct (Qgtb score best); [|exact Hst].
  right. right. left. cbn. split; [reflexivity|]. split; [exact Hcd|]. split; [exact Hbombs|].
  destruct Hloc as [->|(enemy & Hin & Hw & -> & Hd)].
  - left. cbn. auto.
  - right. exists enemy. cbn. split; [exact Hin|]. split; [exact Hw|].
    split; [reflexivity|]. split; [reflexivity|].
    rewrite (determine_bomber_range data Hclass). lia.
Qed.

Lemma phase_shoot_valid (agent_class : GameAgentClass) (st : Q * Merged.PrecomputedMove.t) :
  AgentState.cooldown agent = 0 -> quick_state_valid agent data temp_sim st ->
  quick_state_valid agent data temp_sim (Merged.phase_shoot agent data agent_class
         (Merged.SimulationState.enemy_agents temp_sim) st).
Proof.
  intros Hcd Hst. unfold Merged.phase_shoot.
  apply fold_left_invariant_elem; [exact Hst|].
  intros [best move] enemy Hin Hb.
  destruct (AgentState.wetness enemy <? 100) eqn:Ew; [|exact Hb]. cbv zeta.
  destruct (_ <=? AgentData.optimal_range data) eqn:Ed; [|exact Hb].
  destruct (_ >? 0) eqn:Edmg; [|exact Hb].
  destruct (Qgtb _ best); [|exact Hb].
  right. left. cbn. split; [reflexivity|]. split; [exact Hcd|].
  exists enemy. split; [exact Hin|]. split; [lia|]. split; [reflexivity|]. split; lia.
Qed.

Lemma phase_throw_valid (st : Q * Merged.PrecomputedMove.t) :
  AgentState.cooldown agent = 0 -> 0 < AgentState.splash_bombs agent -> quick_state_valid agent data temp_sim st ->
  quick_state_valid agent data temp_sim (Merged.phase_throw agent data (Merged.SimulationState.enemy_agents temp_sim) st).
Proof.
  intros Hcd Hbombs Hst. unfold Merged.phase_throw.
  apply fold_left_invariant_elem; [exact Hst|].
  intros [best move] enemy Hin Hb.
  destruct (AgentState.wetness enemy <? 100) eqn:Ew; [|exact Hb]. cbv zeta.
  destruct (_ <=? AgentData.optimal_range data * 2) eqn:Ed; [|exact Hb].
  destruct (Merged.splash_count _ _ _ _) as [targets damage].
  destruct (Qgtb _ best); [|exact Hb].
  right. right. left. cbn. split; [reflexivity|]. split; [exact Hcd|]. split; [exact Hbombs|].
  right. exists enemy. split; [exact Hin|]. split; [lia|]. split; [reflexivity|].
  split; [reflexivity|]. lia.
Qed.

Lemma phase_move_valid (agent_class : GameAgentClass) (st : Q * Merged.PrecomputedMove.t) :
  quick_state_valid agent data temp_sim st -> quick_state_valid agent data temp_sim (Merged.phase_move strategic agent data agent_class temp_sim st).
Proof.
  intros Hst. unfold Merged.phase_move. cbv zeta.
  apply fold_left_invariant_elem; [exact Hst|].
  intros [best move] [dx dy] Hoff Hb.
  destruct (_ && _ && _ && _) eqn:Ebounds; [|exact Hb].
  match goal with |- context [negb (?a || ?b)] =>
    destruct a eqn:Emy; [exact Hb|]; destruct b eqn:Een; [exact Hb|] end.
  cbn [orb negb].
  destruct (Qgtb _ best); [|exact Hb].
  right. right. right. cbn. split; [reflexivity|]. split; [lia|]. split; [lia|]. split.
  { unfold cross_offsets in Hoff.
    repeat (apply elem_of_cons in Hoff as [[= -> ->]|Hoff]; [lia|]).
    inversion Hoff. }
  split.
  - intros enemy Hin [= Hx Hy].
    pose proof (existsb_false_elem _ _ enemy Een Hin) as H. cbn in H. lia.
  - intros other Hin Hid [= Hx Hy].
    pose proof (existsb_false_elem _ _ other Emy Hin) as H. cbn in H. lia.
Qed.

Lemma compute_best_move_quick_valid (agent_index : Z) (move : Merged.PrecomputedMove.t) :
  Merged.SimulationState.agent_data temp_sim !! AgentState.agent_id agent = Some data ->
  Merged.compute_best_move_quick strategic agent temp_sim agent_index = Some move ->
  Merged.PrecomputedMove.action_type move = "HUNKER_DOWN"
  \/ quick_move_valid agent data temp_sim move.
Proof.
  intros Hdata. unfold Merged.compute_best_move_quick. rewrite Hdata.
  cbn [mbind option_bind]. cbv zeta.
  set (st0 := ((-1000)%Q, Merged.PrecomputedMove.default)).
  assert (H0 : quick_state_valid agent data temp_sim st0) by (left; reflexivity).
  set (st1 := if GameAgentClass_eqb _ SNIPER && _ then _ else st0).
  assert (H1 : quick_state_valid agent data temp_sim st1).
  { subst st1. destruct (_ && _) eqn:E; [|exact H0].
    apply andb_prop in E as [E1 E2]. apply class_eqb_eq in E1.
    apply phase_sniper_valid; [exact E1|lia|exact H0]. }
  clearbody st1. clear H0 st0.
  set (st2 := if GameAgentClass_eqb _ BOMBER && _ && _ then _ else st1).
  assert (H2 : quick_state_valid agent data temp_sim st2).
  { subst st2. destruct (_ && _ && _) eqn:E; [|exact H1].
    apply andb_prop in E as [E E3]. apply andb_prop in E as [E1 E2].
    apply class_eqb_eq in E1.
    apply phase_bomber_valid; [exact E1|lia|lia|exact H1]. }
  clearbody st2. clear H1 st1.
  set (st3 := if (AgentState.cooldown agent =? 0) && negb _ && negb _ then _ else st2).
  assert (H3 : quick_state_valid agent data temp_sim st3).
  { subst st3. destruct (_ && _ && _) eqn:E; [|exact H2].
    apply andb_prop in E as [E E3]. apply andb_prop in E as [E1 E2].
    apply phase_shoot_valid; [lia|exact H2]. }
  clearbody st3. clear H2 st2.
  set (st4 := if (AgentState.cooldown agent =? 0) && _ && _ then _ else st3).
  assert (H4 : quick_state_valid agent data temp_sim st4).
  { subst st4. destruct (_ && _ && _) eqn:E; [|exact H3].
    apply andb_prop in E as [E E3]. apply andb_prop in E as [E1 E2].
    apply phase_throw_valid; [lia|lia|exact H3]. }
  clearbody st4. clear H3 st3.
  pose proof (phase_move_valid (Merged.determine_agent_class data) st4 H4) as H5.
  destruct (Merged.phase_move _ _ _ _ _ _) as [score final]. cbn [snd] in H5.
  unfold quick_state_valid in H5. cbn [snd] in H5.
  destruct (String.eqb (Merged.PrecomputedMove.action_type final) "") eqn:E.
  - intros [= <-]. now left.
  - intros [= <-]. destruct H5 as [H5|H5]; [|now right].
    rewrite H5 in E. discriminate E.
Qed.

End Quick_move.

Lemma data_index_keeps (agent_data : gmap Z AgentData.t) (id k : Z) :
  is_Some (agent_data !! k) -> is_Some ((Merged.data_index agent_data id).2 !! k).
Proof.
  intros H. unfold Merged.data_index. destruct (agent_data !! id) eqn:E; cbn; [exact H|].
  destruct (decide (id = k)) as [->|Hne]; [rewrite lookup_insert_eq; eauto|].
  now rewrite lookup_insert_ne.
Qed.

Lemma data_index_has (agent_data : gmap Z AgentData.t) (id : Z) :
  is_Some ((Merged.data_index agent_data id).2 !! id).
Proof.
  unfold Merged.data_index. destruct (agent_data !! id) eqn:E; cbn; [eauto|].
  rewrite lookup_insert_eq. eauto.
Qed.

Lemma report_profiles_keeps (all_agents_data : gmap Z AgentData.t)
    (my_current_agents : list AgentState.t) (k : Z) :
  is_Some (all_agents_data !! k) ->
  is_Some (Merged.report_profiles all_agents_data my_current_agents !! k).
Proof.
  unfold Merged.report_profiles. revert all_agents_data.
  induction my_current_agents as [|agent agents IH]; intros data H; cbn; [exact H|].
  apply IH. now apply data_index_keeps.
Qed.

Lemma report_profiles_covers (all_agents_data : gmap Z AgentData.t)
    (my_current_agents : list AgentState.t) (agent : AgentState.t) :
  agent ∈ my_current_agents ->
  is_Some (Merged.report_profiles all_agents_data my_current_agents
           !! AgentState.agent_id agent).
Proof.
  revert all_agents_data.
  induction my_current_agents as [|first agents IH]; intros data Hin; [inversion Hin|].
  apply elem_of_cons in Hin as [->|Hin].
  - apply (report_profiles_keeps _ agents). apply data_index_has.
  - apply (IH _ Hin).
Qed.

Lemma compute_best_move_quick_defined
    (strategic : Z -> Z -> Z -> Z -> list AgentState.t -> list AgentState.t
                 -> GameAgentClass -> Q)
    (agent : AgentState.t) (temp_sim : Merged.SimulationState.t) (agent_index : Z) :
  is_Some (Merged.compute_best_move_quick strategic agent temp_sim agent_index)
  <-> is_Some (Merged.SimulationState.agent_data temp_sim !! AgentState.agent_id agent).
Proof.
  unfold Merged.compute_best_move_quick.
  destruct (Merged.SimulationState.agent_data temp_sim !! AgentState.agent_id agent)
    as [data|]; cbn [mbind option_bind].
  - split; [eauto|]. intros _. cbv zeta.
    destruct (Merged.phase_move _ _ _ _ _ _) as [score move].
    destruct (String.eqb _ ""); eauto.
  - split; intros [? H]; discriminate H.
Qed.

(** X22: [compute_best_move_quick] raises exactly when the agent has no
    profile in the state.  Its move is a Hunker, or: a shot, by an agent off
    cooldown, at a living enemy within the optimal range that the shot damages;
    a throw, by an agent off cooldown with a bomb, onto the tile of a living
    enemy within twice the optimal range, or onto [(-1, -1)] for a BOMBER; a
    step to an adjacent tile of the board on which no enemy and no other
    controlled agent stands. *)
Theorem quick_move_sound
    (strategic : Z -> Z -> Z -> Z -> list AgentState.t -> list AgentState.t
                 -> GameAgentClass -> Q)
    (agent : AgentState.t) (temp_sim : Merged.SimulationState.t) (agent_index : Z) :
  (is_Some (Merged.compute_best_move_quick strategic agent temp_sim agent_index)
   <-> is_Some (Merged.SimulationState.agent_data temp_sim !! AgentState.agent_id agent)) /\
  forall data move,
    Merged.SimulationState.agent_data temp_sim !! AgentState.agent_id agent = Some data ->
    Merged.compute_best_move_quick strategic agent temp_sim agent_index = Some move ->
    Merged.PrecomputedMove.action_type move = "HUNKER_DOWN"
    \/ quick_move_valid agent data temp_sim move.
Proof.
  split; [apply compute_best_move_quick_defined|].
  intros data move Hdata Hmove. eapply compute_best_move_quick_valid; eassumption.
Qed.

(** X23: a BOMBER off cooldown that holds a bomb and has no living enemy
    within distance 4 never hunkers: the bombing phase leaves a throw at
    [(-1, -1)], which only a step replaces. *)
Theorem bomber_without_target
    (strategic : Z -> Z -> Z -> Z -> list AgentState.t -> list AgentState.t
                 -> GameAgentClass -> Q)
    (agent : AgentState.t) (data : AgentData.t) (temp_sim : Merged.SimulationState.t)
    (agent_index : Z) :
  Merged.SimulationState.agent_data temp_sim !! AgentState.agent_id agent = Some data ->
  Merged.determine_agent_class data = BOMBER ->
  AgentState.cooldown agent = 0 -> 0 < AgentState.splash_bombs agent ->
  (forall enemy, enemy ∈ Merged.SimulationState.enemy_agents temp_sim ->
                 AgentState.wetness enemy < 100 ->
                 4 < manhattan_distance (AgentState.x agent) (AgentState.y agent)
                       (AgentState.x enemy) (AgentState.y enemy)) ->
  exists move,
    Merged.compute_best_move_quick strategic agent temp_sim agent_index = Some move /\
    (move = Merged.PrecomputedMove.mk "THROW" (-1) (-1) (-1) 1
     \/ Merged.PrecomputedMove.action_type move = "MOVE").
Proof.
  intros Hdata Hclass Hcd Hbombs Hfar. unfold Merged.compute_best_move_quick.
  rewrite Hdata. cbn [mbind option_bind]. cbv zeta. rewrite Hclass.
  replace (AgentState.cooldown agent =? 0) with true by lia.
  replace (AgentState.splash_bombs agent >? 0) with true by lia.
  cbn [GameAgentClass_eqb andb orb negb].
  assert (Hb : Merged.phase_bomber agent data (Merged.SimulationState.enemy_agents temp_sim)
                 ((-1000)%Q, Merged.PrecomputedMove.default)
               = (0%Q, Merged.PrecomputedMove.mk "THROW" (-1) (-1) (-1) 1)).
  { unfold Merged.phase_bomber.
    match goal with
    | |- (let '(_, _) := fold_left ?f ?l ?a in _) = _ =>
        assert (Hf : fold_left f l a = a)
    end.
    { apply fold_left_invariant_elem; [reflexivity|].
      intros acc enemy Hin ->.
      destruct (AgentState.wetness enemy <? 100) eqn:Ew; [|reflexivity]. cbv zeta.
      specialize (Hfar enemy Hin ltac:(lia)).
      replace (_ <=? 4) with false by lia. reflexivity. }
    rewrite Hf. reflexivity. }
  rewrite Hb.
  set (st := (0%Q, Merged.PrecomputedMove.mk "THROW" (-1) (-1) (-1) 1)).
  assert (Hm :
    (fun st : Q * Merged.PrecomputedMove.t =>
       st.2 = Merged.PrecomputedMove.mk "THROW" (-1) (-1) (-1) 1
       \/ Merged.PrecomputedMove.action_type st.2 = "MOVE")
      (Merged.phase_move strategic agent data BOMBER temp_sim st)).
  { unfold Merged.phase_move. cbv zeta.
    apply fold_left_invariant; [now left|].
    intros [best move] [dx dy] H.
    repeat match goal with |- context [if ?c then _ else _] => destruct c end;
      first [exact H | now right]. }
  cbv beta in Hm. destruct (Merged.phase_move _ _ _ _ _ _) as [score move]. cbn [snd] in Hm.
  destruct Hm as [->|Hm]; cbn.
  - eexists. split; [reflexivity|]. now left.
  - rewrite Hm. cbn. eexists. split; [reflexivity|]. now right.
Qed.

Lemma bomber_without_target_witness :
  Merged.compute_best_move_quick flat_strategic thrower bomber_alone 0
  = Some (Merged.PrecomputedMove.mk "THROW" (-1) (-1) (-1) 1) /\
  Merged.turn flat_strategic [1] (<[1 := bomber_data 1 0]> ∅) 10 10
    (mkTurnInput [thrower] 1)
  = Some ["1;THROW -1 -1; HUNKER_DOWN"].
Proof.
  split; [|vm_compute; reflexivity].
  destruct (bomber_without_target flat_strategic thrower (bomber_data 1 0) bomber_alone 0)
    as (move & Hmove & [->|Htype]).
  - vm_compute. reflexivity.
  - reflexivity.
  - reflexivity.
  - cbn. lia.
  - intros enemy Hin. inversion Hin.
  - exact Hmove.
  - vm_compute in Hmove. injection Hmove as <-. discriminate Htype.
Defined.

Lemma search_defined
    (strategic : Z -> Z -> Z -> Z -> list AgentState.t -> list AgentState.t
                 -> GameAgentClass -> Q)
    (sim : Merged.SimulationState.t) :
  (forall agent, agent ∈ Merged.SimulationState.my_agents sim ->
                 AgentState.wetness agent < 100 ->
                 is_Some (Merged.SimulationState.agent_data sim !! AgentState.agent_id agent)) ->
  exists moves,
    Merged.search strategic sim = Some moves /\
    length moves = length (Merged.SimulationState.my_agents sim) /\
    forall i agent move,
      Merged.SimulationState.my_agents sim !! i = Some agent -> moves !! i = Some move ->
      100 <= AgentState.wetness agent ->
      move = Merged.SmitsimaxNode.mk "HUNKER_DOWN" (-1) (-1) (-1) 0 100 (0 * 100).
Proof.
  intros Hdata. unfold Merged.search.
  assert (Hc : exists cached,
            Merged.get_cached_moves strategic sim (Merged.SimulationState.my_agents sim)
              (Merged.SimulationState.enemy_agents sim) = Some cached /\
            length cached = length (Merged.SimulationState.my_agents sim) /\
            forall i agent, Merged.SimulationState.my_agents sim !! i = Some agent ->
                            100 <= AgentState.wetness agent ->
                            cached !! i
                            = Some (Merged.PrecomputedMove.mk "HUNKER_DOWN" (-1) (-1) (-1) 0)).
  { unfold Merged.get_cached_moves.
    set (f := fun '(i, agent) => if AgentState.wetness agent <? 100 then _ else _).
    assert (Hsome : is_Some (mapM f (imap (fun i agent => (i, agent))
                                          (Merged.SimulationState.my_agents sim)))).
    { apply mapM_is_Some, Forall_forall. intros [i agent] Hin.
      apply list_elem_of_lookup in Hin as [j Hj]. rewrite list_lookup_imap in Hj.
      destruct (Merged.SimulationState.my_agents sim !! j) as [a|] eqn:Ea; [|discriminate].
      injection Hj as <- <-. change (is_Some (f (j, a))). unfold f. cbv beta iota.
      destruct (AgentState.wetness a <? 100) eqn:Ew; [|eauto].
      apply compute_best_move_quick_defined. cbn. apply Hdata; [|lia].
      eapply list_elem_of_lookup_2, Ea. }
    destruct Hsome as [cached Hcached]. exists cached. split; [exact Hcached|].
    apply mapM_Some in Hcached. split.
    - apply Forall2_length in Hcached. rewrite length_imap in Hcached. lia.
    - intros i agent Hi Hw.
      assert (Hl : imap (fun i agent => (i, agent)) (Merged.SimulationState.my_agents sim)
                   !! i = Some (i, agent)) by (rewrite list_lookup_imap, Hi; reflexivity).
      destruct (Forall2_lookup_l _ _ _ _ _ Hcached Hl) as (move & Hm & Hf).
      rewrite Hm. unfold f in Hf. cbv beta iota in Hf.
      replace (AgentState.wetness agent <? 100) with false in Hf by lia.
      now symmetry. }
  destruct Hc as (cached & -> & Hlen & Hdead). cbn [mbind option_bind].
  eexists. split; [reflexivity|]. split; [apply length_imap|].
  intros i agent move Hi Hm Hw. rewrite list_lookup_imap, Hi in Hm. cbn in Hm.
  rewrite (Hdead _ _ Hi Hw) in Hm. injection Hm as <-. reflexivity.
Qed.

Lemma merged_output_lines_defined (my_agent_ids : list Z)
    (my_current_agents : list AgentState.t)
    (best_moves : list (option Merged.SmitsimaxNode.t)) (my_agent_count : Z) :
  my_agent_ids <> [] ->
  exists lines,
    Merged.output_lines my_agent_ids my_current_agents best_moves my_agent_count
    = Some lines /\
    length lines = Z.to_nat my_agent_count.
Proof.
  intros Hids. unfold Merged.output_lines.
  assert (H : is_Some (mapM (Merged.final_action my_agent_ids my_current_agents best_moves)
                            (seq 0 (Z.to_nat my_agent_count)))).
  { apply mapM_is_Some, Forall_forall. intros i _. unfold compose, Merged.final_action.
    destruct (my_current_agents !! i) as [agent|].
    - destruct (best_moves !! i) as [[move|]|]; cbv zeta; eauto.
      destruct (String.eqb _ "SHOOT"); [eauto|].
      destruct (String.eqb _ "MOVE"); [eauto|].
      destruct (String.eqb _ "THROW"); eauto.
    - destruct (my_agent_ids !! i); cbn; [eauto|].
      destruct my_agent_ids; [congruence|]. cbn. eauto. }
  destruct H as [lines H]. exists lines. split; [exact H|].
  apply mapM_Some, Forall2_length in H. rewrite length_seq in H. lia.
Qed.

(** X24: in a turn of the merged [main] the search never raises: the
    battlefield report has given every controlled agent of the turn a profile
    before the search starts, so the emergency defaults of the handler are not
    used.  The search returns one move per controlled agent of the turn, a
    Hunker for a dead one; with a controlled id registered the turn prints the
    number of lines the game expects. *)
Theorem merged_turn_lines
    (strategic : Z -> Z -> Z -> Z -> list AgentState.t -> list AgentState.t
                 -> GameAgentClass -> Q)
    (my_agent_ids : list Z) (all_agents_data : gmap Z AgentData.t) (width height : Z)
    (input : TurnInput) :
  let is_my_agent (agent : AgentState.t) :=
    existsb (Z.eqb (AgentState.agent_id agent)) my_agent_ids in
  let my_current_agents := List.filter is_my_agent (agents input) in
  let enemy_current_agents :=
    List.filter (fun agent => negb (is_my_agent agent)) (agents input) in
  let sim :=
    Merged.initialize my_current_agents enemy_current_agents
      (Merged.report_profiles all_agents_data my_current_agents) width height in
  (exists moves,
     Merged.search strategic sim = Some moves /\
     length moves = length my_current_agents /\
     forall i agent move,
       my_current_agents !! i = Some agent -> moves !! i = Some move ->
       100 <= AgentState.wetness agent ->
       Merged.SmitsimaxNode.action_type move = "HUNKER_DOWN") /\
  (my_agent_ids <> [] ->
   exists lines,
     Merged.turn strategic my_agent_ids all_agents_data width height input = Some lines /\
     length lines = Z.to_nat (my_agent_count input)).
Proof.
  cbv zeta. split.
  - destruct (search_defined strategic
                (Merged.initialize
                   (List.filter (fun agent => existsb (Z.eqb (AgentState.agent_id agent))
                                                      my_agent_ids) (agents input))
                   (List.filter (fun agent => negb (existsb (Z.eqb (AgentState.agent_id agent))
                                                            my_agent_ids)) (agents input))
                   (Merged.report_profiles all_agents_data
                      (List.filter (fun agent => existsb (Z.eqb (AgentState.agent_id agent))
                                                         my_agent_ids) (agents input)))
                   width height))
      as (moves & Hs & Hlen & Hdead).
    { cbn. intros agent Hin _. now apply report_profiles_covers. }
    exists moves. split; [exact Hs|]. split; [exact Hlen|].
    intros i agent move Hi Hm Hw. cbn in Hdead. now rewrite (Hdead i agent move Hi Hm Hw).
  - intros Hids. unfold Merged.turn. cbv zeta. now apply merged_output_lines_defined.
Qed.

Lemma board_tiles_length (width height : Z) :
  length (Merged.board_tiles width height) = (Z.to_nat height * Z.to_nat width)%nat.
Proof.
  unfold Merged.board_tiles.
  assert (H : forall (ys : list Z) (xs : list Z),
            length (y ← ys; x ← xs; [(x, y)]) = (length ys * length xs)%nat).
  { intros ys xs. induction ys as [|y ys IH]; [reflexivity|].
    rewrite bind_cons, length_app, IH. cbn [length Nat.mul]. f_equal.
    clear. induction xs as [|x xs IHx]; [reflexivity|].
    rewrite bind_cons. cbn [app length]. now rewrite IHx. }
  rewrite H, !length_map, !length_seq. reflexivity.
Qed.

Lemma min_effective_distance_no_agent (x y : Z) (agents : list AgentState.t) :
  (forall agent, agent ∈ agents -> 100 <= AgentState.wetness agent) ->
  Merged.min_effective_distance x y agents = 999%Q.
Proof.
  intros Hdead. unfold Merged.min_effective_distance.
  apply fold_left_invariant_elem; [reflexivity|].
  intros b agent Hin ->. specialize (Hdead _ Hin).
  replace (AgentState.wetness agent <? 100) with false by lia. reflexivity.
Qed.

(** X25: the two counts of [calculate_controlled_area] are not negative and
    their sum is at most the number of tiles of the board; exchanging the two
    sides exchanges the counts; without a living agent on either side both
    counts are 0. *)
Theorem controlled_area_counts (my_agents enemy_agents : list AgentState.t)
    (width height : Z) :
  let area := Merged.calculate_controlled_area my_agents enemy_agents width height in
  0 <= area.1 /\ 0 <= area.2 /\
  area.1 + area.2 <= Z.max 0 width * Z.max 0 height /\
  Merged.calculate_controlled_area enemy_agents my_agents width height = (area.2, area.1) /\
  ((forall agent, agent ∈ my_agents ++ enemy_agents -> 100 <= AgentState.wetness agent) ->
   area = (0, 0)).
Proof.
  cbv zeta. unfold Merged.calculate_controlled_area.
  pose proof (board_tiles_length width height) as Hlen.
  set (step := fun (my enemy : list AgentState.t) '(my_tiles, enemy_tiles) '(x, y) =>
                 if Qltb (Merged.min_effective_distance x y my)
                         (Merged.min_effective_distance x y enemy)
                 then (my_tiles + 1, enemy_tiles)
                 else if Qltb (Merged.min_effective_distance x y enemy)
                              (Merged.min_effective_distance x y my)
                      then (my_tiles, enemy_tiles + 1)
                      else (my_tiles : Z, enemy_tiles : Z)).
  change (0 <= (fold_left (step my_agents enemy_agents)
                  (Merged.board_tiles width height) (0, 0)).1 /\
          0 <= (fold_left (step my_agents enemy_agents)
                  (Merged.board_tiles width height) (0, 0)).2 /\
          (fold_left (step my_agents enemy_agents)
             (Merged.board_tiles width height) (0, 0)).1
          + (fold_left (step my_agents enemy_agents)
               (Merged.board_tiles width height) (0, 0)).2
          <= Z.max 0 width * Z.max 0 height /\
          fold_left (step enemy_agents my_agents) (Merged.board_tiles width height) (0, 0)
          = ((fold_left (step my_agents enemy_agents)
                (Merged.board_tiles width height) (0, 0)).2,
             (fold_left (step my_agents enemy_agents)
                (Merged.board_tiles width height) (0, 0)).1) /\
          ((forall agent, agent ∈ my_agents ++ enemy_agents ->
                          100 <= AgentState.wetness agent) ->
           fold_left (step my_agents enemy_agents) (Merged.board_tiles width height) (0, 0)
           = (0, 0))).
  assert (Hcount : forall cells a b,
            let r := fold_left (step my_agents enemy_agents) cells (a, b) in
            a <= r.1 /\ b <= r.2 /\ r.1 + r.2 <= a + b + Z.of_nat (length cells)).
  { assert (Hstep : forall a b p,
              a <= (step my_agents enemy_agents (a, b) p).1 /\
              b <= (step my_agents enemy_agents (a, b) p).2 /\
              (step my_agents enemy_agents (a, b) p).1
              + (step my_agents enemy_agents (a, b) p).2 <= a + b + 1).
    { intros a b [x y]. unfold step.
      destruct (Qltb _ _); [cbn; lia|]. destruct (Qltb _ _); cbn; lia. }
    induction cells as [|p cells IH]; intros a b; cbn [fold_left length]; [cbn; lia|].
    cbv zeta. specialize (Hstep a b p).
    destruct (step my_agents enemy_agents (a, b) p) as [a' b']. cbn [fst snd] in Hstep.
    specialize (IH a' b'). cbv zeta in IH. lia. }
  assert (Hswap : forall cells a b,
            fold_left (step enemy_agents my_agents) cells (b, a)
            = ((fold_left (step my_agents enemy_agents) cells (a, b)).2,
               (fold_left (step my_agents enemy_agents) cells (a, b)).1)).
  { induction cells as [|[x y] cells IH]; intros a b; cbn [fold_left]; [reflexivity|].
    unfold step at 2 4 6.
    destruct (Qltb (Merged.min_effective_distance x y my_agents)
                   (Merged.min_effective_distance x y enemy_agents)) eqn:E1,
             (Qltb (Merged.min_effective_distance x y enemy_agents)
                   (Merged.min_effective_distance x y my_agents)) eqn:E2;
      try apply IH.
    apply (Qgtb_true (Merged.min_effective_distance x y enemy_agents)) in E1.
    apply (Qgtb_true (Merged.min_effective_distance x y my_agents)) in E2. lra. }
  specialize (Hcount (Merged.board_tiles width height) 0 0). cbv zeta in Hcount.
  rewrite Hlen in Hcount.
  split; [lia|]. split; [lia|]. split; [nia|]. split; [apply Hswap|].
  intros Hdead. apply fold_left_invariant; [reflexivity|].
  intros acc [x y] ->. unfold step.
  rewrite !min_effective_distance_no_agent
    by (intros agent Hin; apply Hdead, elem_of_app; auto).
  reflexivity.
Qed.

Lemma create_tactical_moves_nodes (priority : string -> Z -> Z -> Z -> Q)
    (agent : AgentState.t) (sim : Merged.SimulationState.t) (is_my_agent : bool)
    (data : AgentData.t) (moves : list Merged.SmitsimaxNode.t)
    (node : Merged.SmitsimaxNode.t) :
  Merged.SimulationState.agent_data sim !! AgentState.agent_id agent = Some data ->
  Merged.create_tactical_moves priority agent sim is_my_agent = Some moves ->
  node ∈ moves ->
  let type := Merged.SmitsimaxNode.action_type node in
  let tx := Merged.SmitsimaxNode.target_x node in
  let ty := Merged.SmitsimaxNode.target_y node in
  type = "HUNKER_DOWN"
  \/ (type = "SHOOT" /\ AgentState.cooldown agent = 0 /\
      exists target,
        target ∈ target_side is_my_agent sim /\ AgentState.wetness target < 100 /\
        AgentState.agent_id target = Merged.SmitsimaxNode.target_agent_id node /\
        manhattan_distance (AgentState.x agent) (AgentState.y agent)
          (AgentState.x target) (AgentState.y target) <= AgentData.optimal_range data)
  \/ (type = "MOVE" /\
      0 <= tx < Merged.SimulationState.width sim /\
      0 <= ty < Merged.SimulationState.height sim /\
      Z.max (Z.abs (tx - AgentState.x agent)) (Z.abs (ty - AgentState.y agent)) = 1 /\
      forall other,
        other ∈ Merged.SimulationState.my_agents sim ++ Merged.SimulationState.enemy_agents sim ->
        (AgentState.x other, AgentState.y other) <> (tx, ty))
  \/ (type = "THROW" /\ AgentState.cooldown agent = 0 /\ 0 < AgentState.splash_bombs agent /\
      exists target,
        target ∈ target_side is_my_agent sim /\ AgentState.wetness target < 100 /\
        AgentState.x target = tx /\ AgentState.y target = ty /\
        manhattan_distance (AgentState.x agent) (AgentState.y agent) tx ty
        <= 2 * AgentData.optimal_range data).
Proof.
  intros Hdata. unfold Merged.create_tactical_moves. rewrite Hdata.
  unfold mbind, option_bind. cbv beta iota zeta. fold (target_side is_my_agent sim).
  intros Hm Hin. apply (inj Some) in Hm. rewrite <- Hm in Hin. clear Hm.
  match type of Hin with
  | _ ∈ _ :: ?s ++ ?m ++ ?t =>
      set (shots := s) in Hin; set (steps := m) in Hin; set (throws := t) in Hin
  end.
  rewrite elem_of_cons, !elem_of_app in Hin.
  destruct Hin as [->|[Hin|[Hin|Hin]]]; [now left| | |].
  { subst shots. right. left. destruct (AgentState.cooldown agent =? 0) eqn:Ecd; [|inversion Hin].
    apply list_elem_of_omap in Hin as (target & Ht & Hn).
    destruct (AgentState.wetness target <? 100) eqn:Ew; [|discriminate].
    cbv zeta in Hn. destruct (_ <=? AgentData.optimal_range data) eqn:Ed; [|discriminate].
    injection Hn as <-. cbn. split; [reflexivity|]. split; [lia|].
    exists target. split; [exact Ht|]. split; [lia|]. split; [reflexivity|]. lia. }
  { subst steps. right. right. left. apply list_elem_of_omap in Hin as ([dx dy] & Hoff & Hn).
    cbv zeta in Hn. destruct (_ && _ && _ && _) eqn:Eb; [|discriminate].
    match type of Hn with context [negb (?a || ?b)] =>
      destruct a eqn:Emy; [discriminate|]; destruct b eqn:Een; [discriminate|] end.
    cbn [orb negb] in Hn. injection Hn as <-. cbn.
    split; [reflexivity|]. split; [lia|]. split; [lia|]. split.
    { unfold cross_offsets in Hoff.
      repeat (apply elem_of_cons in Hoff as [[= -> ->]|Hoff]; [lia|]).
      inversion Hoff. }
    intros other Hother [= Hx Hy]. apply elem_of_app in Hother as [Ho|Ho].
    - pose proof (existsb_false_elem _ _ other Emy Ho) as H. cbn in H. lia.
    - pose proof (existsb_false_elem _ _ other Een Ho) as H. cbn in H. lia. }
  subst throws. right. right. right.
  destruct ((AgentState.cooldown agent =? 0) && (AgentState.splash_bombs agent >? 0)) eqn:Ecd;
    [|inversion Hin].
  apply andb_prop in Ecd as [Ecd Ebombs].
  apply list_elem_of_omap in Hin as (target & Ht & Hn).
  destruct (AgentState.wetness target <? 100) eqn:Ew; [|discriminate].
  cbv zeta in Hn. destruct (_ <=? AgentData.optimal_range data * 2) eqn:Ed; [|discriminate].
  injection Hn as <-. cbn. split; [reflexivity|]. split; [lia|]. split; [lia|].
  exists target. split; [exact Ht|]. split; [lia|]. split; [reflexivity|].
  split; [reflexivity|]. lia.
Qed.

(** X26: every node that [create_tactical_moves] creates for an agent is an
    action that [apply_action] carries out on the same state: a step passes the
    board test, goes to a tile on which no agent stands and moves the agent
    there; a shot finds an agent of the other side with the target id, adds the
    damage to its wetness and sets the cooldown of the shooter to its profile
    period; a throw takes one bomb and sets the cooldown; a Hunker changes
    nothing.  No other action type is created. *)
Theorem tactical_moves_applicable (priority : string -> Z -> Z -> Z -> Q)
    (sim : Merged.SimulationState.t) (agent_index : Z) (is_my_agent : bool)
    (agent : AgentState.t) (moves : list Merged.SmitsimaxNode.t)
    (node : Merged.SmitsimaxNode.t) :
  0 <= agent_index ->
  acting_side is_my_agent sim !! Z.to_nat agent_index = Some agent ->
  Merged.create_tactical_moves priority agent sim is_my_agent = Some moves ->
  node ∈ moves ->
  Merged.SimulationState.current_nodes sim !! node_index is_my_agent sim agent_index
  = Some node ->
  let type := Merged.SmitsimaxNode.action_type node in
  exists sim' data,
    Merged.apply_action sim agent_index is_my_agent = Some sim' /\
    Merged.SimulationState.agent_data sim !! AgentState.agent_id agent = Some data /\
    (type = "HUNKER_DOWN" \/ type = "SHOOT" \/ type = "MOVE" \/ type = "THROW") /\
    (type = "HUNKER_DOWN" -> sim' = sim) /\
    (type = "MOVE" ->
     acting_side is_my_agent sim' !! Z.to_nat agent_index
     = Some (AgentState.set_pos (Merged.SmitsimaxNode.target_x node)
               (Merged.SmitsimaxNode.target_y node) agent) /\
     forall other,
       other ∈ Merged.SimulationState.my_agents sim ++ Merged.SimulationState.enemy_agents sim ->
       (AgentState.x other, AgentState.y other)
       <> (Merged.SmitsimaxNode.target_x node, Merged.SmitsimaxNode.target_y node)) /\
    (type = "SHOOT" ->
     acting_side is_my_agent sim' !! Z.to_nat agent_index
     = Some (AgentState.set_cooldown (AgentData.shoot_cooldown data) agent) /\
     exists j target,
       target_side is_my_agent sim !! j = Some target /\
       AgentState.agent_id target = Merged.SmitsimaxNode.target_agent_id node /\
       target_side is_my_agent sim' !! j
       = Some (AgentState.set_wetness
                 (AgentState.wetness target
                  + Merged.calculate_shooting_damage data target
                      (manhattan_distance (AgentState.x agent) (AgentState.y agent)
                         (AgentState.x target) (AgentState.y target))) target)) /\
    (type = "THROW" ->
     acting_side is_my_agent sim' !! Z.to_nat agent_index
     = Some (AgentState.set_cooldown (AgentData.shoot_cooldown data)
               (AgentState.set_splash_bombs (AgentState.splash_bombs agent - 1) agent))).
Proof.
  intros Hidx Hagent Hmoves Hin Hnode. cbv zeta.
  destruct (Merged.SimulationState.agent_data sim !! AgentState.agent_id agent)
    as [data|] eqn:Hdata.
  2:{ unfold Merged.create_tactical_moves in Hmoves. rewrite Hdata in Hmoves.
      discriminate Hmoves. }
  pose proof (create_tactical_moves_nodes priority agent sim is_my_agent data moves node
                Hdata Hmoves Hin) as Hkind. cbv zeta in Hkind.
  destruct (apply_action_effects sim agent_index is_my_agent agent node Hidx Hagent Hnode)
    as (sim' & Happly & Heff).
  unfold merged_action_effects in Heff. cbv zeta in Heff.
  assert (Hd : (Merged.data_index (Merged.SimulationState.agent_data sim)
                  (AgentState.agent_id agent)).1 = data).
  { unfold Merged.data_index. now rewrite Hdata. }
  rewrite Hd in Heff. destruct Heff as (Hmove & Hshoot & Hthrow & Hhunker & _ & _).
  assert (Hlt : (Z.to_nat agent_index < length (acting_side is_my_agent sim))%nat)
    by (eapply lookup_lt_Some; eauto).
  exists sim', data. split; [exact Happly|]. split; [reflexivity|]. split.
  { destruct Hkind as [H|[[H _]|[[H _]|[H _]]]]; auto. }
  split; [exact Hhunker|]. split; [|split].
  - intros Ht. destruct Hkind as [H|[[H _]|[H|[H _]]]]; try congruence.
    destruct H as (_ & Hx & Hy & _ & Hfree).
    destruct (Hmove Ht Hx Hy) as [Hact _]. rewrite Hact.
    split; [now apply list_lookup_insert_eq|exact Hfree].
  - intros Ht. destruct Hkind as [H|[H|[[H _]|[H _]]]]; try congruence.
    destruct H as (_ & Hcd & target & Htin & Hw & Hid & Hdist).
    destruct (list_find_elem_of
                (fun t => AgentState.agent_id t = Merged.SmitsimaxNode.target_agent_id node)
                (target_side is_my_agent sim) target Htin Hid) as [[j found] Hfind].
    destruct (Hshoot Ht Hcd j found Hfind) as [Hact Htar].
    apply list_find_Some in Hfind as (Hj & Hfid & _).
    rewrite Hact, Htar. split; [now apply list_lookup_insert_eq|].
    exists j, found. split; [exact Hj|]. split; [exact Hfid|].
    apply list_lookup_insert_eq. eapply lookup_lt_Some, Hj.
  - intros Ht. destruct Hkind as [H|[[H _]|[[H _]|H]]]; try congruence.
    destruct H as (_ & Hcd & Hbombs & _).
    destruct (Hthrow Ht Hcd ltac:(lia)) as [Hact _]. rewrite Hact.
    now apply list_lookup_insert_eq.
Qed.

Lemma tactical_moves_applicable_witness :
  shot_node ∈ expanded_moves /\
  exists sim' data,
    Merged.apply_action sim_expanded 0 true = Some sim' /\
    Merged.SimulationState.agent_data sim_expanded !! 1 = Some data.
Proof.
  assert (Hin : shot_node ∈ expanded_moves).
  { apply (list_elem_of_lookup_2 _ 1%nat). reflexivity. }
  split; [exact Hin|].
  destruct (tactical_moves_applicable flat_priority sim_expanded 0 true
              (AgentState.mk 1 0 0 0 0 0) expanded_moves shot_node)
    as (sim' & data & Happly & Hdata & _).
  - lia.
  - reflexivity.
  - vm_compute. reflexivity.
  - exact Hin.
  - reflexivity.
  - exists sim', data. split; [exact Happly|exact Hdata].
Defined.

Lemma pair_le_transitive : Transitive Merged.pair_le.
Proof. intros [a1 a2] [b1 b2] [c1 c2]. unfold Merged.pair_le. cbn. lia. Qed.

Lemma pair_le_antisymm : AntiSymm eq Merged.pair_le.
Proof.
  intros [a1 a2] [b1 b2]. unfold Merged.pair_le. cbn. intros H1 H2.
  f_equal; lia.
Qed.

Lemma pair_le_total : Total Merged.pair_le.
Proof. intros [a1 a2] [b1 b2]. unfold Merged.pair_le. cbn. lia. Qed.

Lemma sorted_entries_unique (l1 l2 : list (Z * Z)) :
  l1 ≡ₚ l2 -> merge_sort Merged.pair_le l1 = merge_sort Merged.pair_le l2.
Proof.
  intros Hp.
  apply (Sorted_unique Merged.pair_le (Transitive0 := pair_le_transitive)
           (AntiSymm0 := pair_le_antisymm)).
  - apply Sorted_merge_sort, pair_le_total.
  - apply Sorted_merge_sort, pair_le_total.
  - now rewrite !merge_sort_Permutation.
Qed.

(** X27: the cache key of a state is determined by the entries of its
    agents, whatever their order in the lists: the id and the number
    [x * 1000 + y * 100 + wetness + cooldown].  Two states whose agents have
    the same entries, up to order, have the same key; the two parts of the key
    are sorted and hold the entries of the two sides. *)
Theorem state_key_canonical (my_agents my_agents' enemy_agents enemy_agents'
    : list AgentState.t) :
  map Merged.key_entry my_agents ≡ₚ map Merged.key_entry my_agents' ->
  map Merged.key_entry enemy_agents ≡ₚ map Merged.key_entry enemy_agents' ->
  let key := Merged.create_state_key my_agents enemy_agents in
  Merged.create_state_key my_agents' enemy_agents' = key /\
  Sorted Merged.pair_le (Merged.GameStateKey.my_positions key) /\
  Sorted Merged.pair_le (Merged.GameStateKey.enemy_positions key) /\
  Merged.GameStateKey.my_positions key ≡ₚ map Merged.key_entry my_agents /\
  Merged.GameStateKey.enemy_positions key ≡ₚ map Merged.key_entry enemy_agents.
Proof.
  intros Hmy Henemy. cbv zeta. unfold Merged.create_state_key. cbn.
  split; [|split; [|split; [|split]]].
  - f_equal; apply sorted_entries_unique; now symmetry.
  - apply Sorted_merge_sort, pair_le_total.
  - apply Sorted_merge_sort, pair_le_total.
  - apply merge_sort_Permutation.
  - apply merge_sort_Permutation.
Qed.

Lemma state_key_canonical_witness :
  keyed_agents' <> keyed_agents /\
  Merged.create_state_key keyed_agents' [] = Merged.create_state_key keyed_agents [].
Proof.
  split; [discriminate|].
  apply (state_key_canonical keyed_agents keyed_agents' [] []).
  - vm_compute. apply perm_swap.
  - reflexivity.
Defined.

Lemma similarity_term_bounds (pos1 pos2 : Z) :
  let x1 := Z.quot pos1 1000 in
  let y1 := Z.quot (Z.rem pos1 1000) 100 in
  let h1 := Z.quot (Z.rem pos1 100) 10 in
  let x2 := Z.quot pos2 1000 in
  let y2 := Z.quot (Z.rem pos2 1000) 100 in
  let h2 := Z.quot (Z.rem pos2 100) 10 in
  let pos_sim := (1 - inject_Z (manhattan_distance x1 y1 x2 y2) / 20)%Q in
  let health_sim := (1 - inject_Z (Z.abs (h1 - h2)) / 10)%Q in
  let term := ((pos_sim + health_sim) / 2)%Q in
  (0 <= (if Qltb 0 term then term else 0) <= 1)%Q /\
  (pos1 = pos2 -> ((if Qltb 0 term then term else 0) == 1)%Q).
Proof.
  cbv zeta.
  set (d := manhattan_distance _ _ _ _). set (h := Z.abs _).
  assert (Hd : 0 <= d) by (unfold d, manhattan_distance; lia).
  assert (Hh : 0 <= h) by (unfold h; lia).
  assert (Hdq : (0 <= inject_Z d)%Q) by (unfold Qle; cbn; lia).
  assert (Hhq : (0 <= inject_Z h)%Q) by (unfold Qle; cbn; lia).
  split.
  - destruct (Qltb 0 _) eqn:E; [|lra].
    apply (Qgtb_true _ 0) in E. split; [lra|].
    assert ((1 - inject_Z d / 20 + (1 - inject_Z h / 10)) / 2
            == 1 - inject_Z d / 40 - inject_Z h / 20)%Q as -> by field.
    assert (0 <= inject_Z d / 40)%Q by (apply Qle_shift_div_l; lra).
    assert (0 <= inject_Z h / 20)%Q by (apply Qle_shift_div_l; lra).
    lra.
  - intros ->. assert (d = 0) as -> by (unfold d, manhattan_distance; lia).
    assert (h = 0) as -> by (unfold h; lia).
    reflexivity.
Qed.

(** X28: the similarity of two cache keys lies between 0 and 1; it is 0 when
    the keys differ in the number of controlled agents or of enemies; a key
    with a controlled agent has similarity 1 with itself; of the enemy parts
    only the lengths are read. *)
Theorem scenario_similarity_range (key1 key2 : Merged.GameStateKey.t) :
  (0 <= Merged.calculate_scenario_similarity key1 key2 <= 1)%Q /\
  (length (Merged.GameStateKey.my_positions key1)
   <> length (Merged.GameStateKey.my_positions key2)
   \/ length (Merged.GameStateKey.enemy_positions key1)
      <> length (Merged.GameStateKey.enemy_positions key2) ->
   Merged.calculate_scenario_similarity key1 key2 = 0%Q) /\
  (Merged.GameStateKey.my_positions key1 <> [] ->
   (Merged.calculate_scenario_similarity key1 key1 == 1)%Q) /\
  (forall enemy_positions1 enemy_positions2,
     length enemy_positions1 = length (Merged.GameStateKey.enemy_positions key1) ->
     length enemy_positions2 = length (Merged.GameStateKey.enemy_positions key2) ->
     Merged.calculate_scenario_similarity
       (Merged.GameStateKey.mk (Merged.GameStateKey.my_positions key1) enemy_positions1)
       (Merged.GameStateKey.mk (Merged.GameStateKey.my_positions key2) enemy_positions2)
     = Merged.calculate_scenario_similarity key1 key2).
Proof.
  set (step := fun '(similarity, comparisons) '(entry1, entry2) =>
                 let pos1 := (entry1 : Z * Z).2 in
                 let pos2 := (entry2 : Z * Z).2 in
                 let x1 := Z.quot pos1 1000 in
                 let y1 := Z.quot (Z.rem pos1 1000) 100 in
                 let h1 := Z.quot (Z.rem pos1 100) 10 in
                 let x2 := Z.quot pos2 1000 in
                 let y2 := Z.quot (Z.rem pos2 1000) 100 in
                 let h2 := Z.quot (Z.rem pos2 100) 10 in
                 let pos_sim := (1 - inject_Z (manhattan_distance x1 y1 x2 y2) / 20)%Q in
                 let health_sim := (1 - inject_Z (Z.abs (h1 - h2)) / 10)%Q in
                 let term := ((pos_sim + health_sim) / 2)%Q in
                 ((similarity + (if Qltb 0 term then term else 0))%Q, comparisons + 1)).
  assert (Hfold : forall (pairs : list ((Z * Z) * (Z * Z))) (s : Q) (c : Z),
            let r := fold_left step pairs (s, c) in
            r.2 = c + Z.of_nat (length pairs) /\
            (s <= r.1 <= s + inject_Z (Z.of_nat (length pairs)))%Q /\
            (Forall (fun p => p.1 = p.2) pairs ->
             (r.1 == s + inject_Z (Z.of_nat (length pairs)))%Q)).
  { assert (Hstep : forall s c p,
              exists t, step (s, c) p = ((s + t)%Q, c + 1) /\ (0 <= t <= 1)%Q /\
                        (p.1 = p.2 -> (t == 1)%Q)).
    { intros s c [e1 e2]. unfold step. cbv zeta.
      pose proof (similarity_term_bounds e1.2 e2.2) as [Hb Heq]. cbv zeta in Hb, Heq.
      eexists. split; [reflexivity|]. split; [exact Hb|].
      cbn [fst snd]. intros ->. now apply Heq. }
    induction pairs as [|p pairs IH]; intros s c; cbn [fold_left length].
    - cbn [fst snd]. change (inject_Z (Z.of_nat 0)) with 0%Q.
      split; [lia|]. split; [lra|]. intros _. lra.
    - cbv zeta. destruct (Hstep s c p) as (t & -> & Hb & Heq).
      specialize (IH (s + t)%Q (c + 1)).
      cbv zeta in IH. destruct IH as (Hc & Hs & Hall).
      rewrite Nat2Z.inj_succ. unfold Z.succ. rewrite inject_Z_plus.
      change (inject_Z 1) with 1%Q.
      split; [lia|]. split; [lra|].
      intros Hf. inversion Hf as [|? ? Hhead Htail]; subst.
      rewrite (Hall Htail). rewrite (Heq Hhead). ring. }
  unfold Merged.calculate_scenario_similarity. fold step.
  split; [|split; [|split]].
  - destruct (_ || _); [lra|].
    specialize (Hfold (zip (Merged.GameStateKey.my_positions key1)
                           (Merged.GameStateKey.my_positions key2)) 0%Q 0).
    cbv zeta in Hfold. destruct (fold_left step _ _) as [similarity comparisons].
    cbn [fst snd] in Hfold. destruct Hfold as (Hc & Hs & _).
    destruct (comparisons >? 0) eqn:E; [|lra].
    rewrite Z.add_0_l in Hc. rewrite <- Hc in Hs.
    assert (Hpos : (0 < inject_Z comparisons)%Q) by (unfold Qlt; cbn; lia).
    split.
    + apply Qle_shift_div_l; [exact Hpos|]. lra.
    + apply Qle_shift_div_r; [exact Hpos|]. lra.
  - intros Hne.
    destruct (length (Merged.GameStateKey.my_positions key1)
              =? length (Merged.GameStateKey.my_positions key2))%nat eqn:E1,
             (length (Merged.GameStateKey.enemy_positions key1)
              =? length (Merged.GameStateKey.enemy_positions key2))%nat eqn:E2;
      try reflexivity.
    apply Nat.eqb_eq in E1, E2. destruct Hne; congruence.
  - intros Hne. rewrite !Nat.eqb_refl. cbn [negb orb].
    specialize (Hfold (zip (Merged.GameStateKey.my_positions key1)
                           (Merged.GameStateKey.my_positions key1)) 0%Q 0).
    cbv zeta in Hfold. destruct (fold_left step _ _) as [similarity comparisons].
    cbn [fst snd] in Hfold. destruct Hfold as (Hc & _ & Hall).
    assert (Hlen : (0 < length (zip (Merged.GameStateKey.my_positions key1)
                                    (Merged.GameStateKey.my_positions key1)))%nat).
    { destruct (Merged.GameStateKey.my_positions key1); [congruence|]. cbn. lia. }
    replace (comparisons >? 0) with true by lia.
    rewrite Hall.
    + rewrite Z.add_0_l in Hc. rewrite <- Hc, Qplus_0_l.
      apply Qmult_inv_r. unfold Qeq. cbn. lia.
    + apply Forall_forall. intros [p q] Hin. cbn.
      apply list_elem_of_lookup in Hin as [i Hi].
      apply lookup_zip_with_Some in Hi as (a & b & [= <- <-] & Ha & Hb). congruence.
  - intros e1 e2 H1 H2. cbn. rewrite H1, H2. reflexivity.
Qed.
